(* ===== verification/_CoqProject ===== *)
-Q . S2P
Prelude.v
GoStrings.v
GoFloat.v
GoFormat.v
GoErr.v
GoMonad.v
Invariant.v
Plan.v
Gate.v
Workflow.v
Cache.v
BatchBuffer.v
Async.v
Retry.v
Apierr.v
Transport.v
RetryV1.v
Gcp.v
Calls.v
SetDiff.v
Gcpenv.v
DataDiff.v
PrivacyFilter.v
Search.v
Coordination.v
FileLock.v
RunState.v
BuildStamp.v
AuditLog.v
SlogGcp.v
SlogSetup.v
SlogTest.v
SheetsCells.v
SheetsBatch.v
SheetsFormat.v
SheetsService.v
DriveAdmin.v
DriveMembers.v
CloudProjects.v
Auth.v
GoogleClient.v
Connect.v
ContractsWork.v
ContractsPlatform.v
ContractsKnowledge.v
Contracts.v
Web.v
Procrun.v
PulumiRunner.v
Pulumi.v
GcpInfra.v
GcpRun.v
Iac.v
IacPrograms.v
IacObservability.v
IacContract.v
