(* ===== verification/Prelude.v ===== *)
(** * Alexandria: a verification library of its Go core

    Alexandria is a set of Go modules under [src/go]: governance (invariants,
    plans, gates), platform (workflow, cache, async, retry, coordination, run
    state, build stamps), data quality, discovery, and adapters to Google Cloud.
    This library models the modules that carry logic of their own and proves
    what their documentation promises, or what the code does where the two part.

    ** Parts, and where they are modelled

    Each package is a [Module] of its name inside the file named here; its
    types are records and inductive types, its functions definitions of the same
    name. A method is a function from the receiver to what it leaves.

    - [Prelude.v]: 64-bit integers, durations, saturating [time.Sub], the error
      checks of Go as notations, tactics, and lemmas on folds, reachability and
      counting in maps. [GoStrings.v]: the functions of [strings] and [strconv]
      the code calls. [GoFormat.v]: the texts of durations and of floats with a
      fixed number of places. [GoErr.v]: error values, their texts, [errors.Is] and
      [errors.As]. [GoMonad.v]: code that calls functions it was given runs in a
      world, and returns or panics.
    - [Invariant.v]: [governance/invariant] (builder, check, suite, verdict).
      [Plan.v]: [governance/scope], [classification], [hierarchy], [plan],
      [exports] (tiers, validation). [Gate.v]: [governance/gate] (rules,
      evaluation, policies, enforcement, the JSON record); its rules can be
      checks of [Invariant.v].
    - [Workflow.v]: [platform/workflow] (run, dry run, hooks, recovery).
    - [Cache.v]: [platform/cache]. [Async.v]: the task runner of
      [platform/async], with its janitor and [Close]; [BatchBuffer.v]: its batch
      buffer.
    - [Retry.v]: the backoff and loop of [platform/retry], and the older backoff
      of [retry]. [Transport.v]: the retrying HTTP transport of
      [platform/retry], which uses both. [Apierr.v]: [platform/apierr], the
      tables of retryable codes. [Gcp.v]: [retry/gcp], which classifies with
      the tables of [Apierr.v] and waits by the backoff of [Retry.v].
      [RetryV1.v]: the older module [retry], loop and transport, against both.
    - [SetDiff.v] and [DataDiff.v]: [dataquality/datadiff], sets and migrations,
      and tables, and what is printed of a comparison. [PrivacyFilter.v]:
      [discovery/privacyfilter]. [Search.v]: [discovery/search], the port of an
      index as a record with its laws, and the contract test of [searchtest].
    - [Coordination.v]: [platform/coordination]: subjects, holders, and the
      contract of a window as the class [Window] with its laws [WindowLaws], and
      what they give a client. [FileLock.v] ([coordination/filelock]) and the
      [Locker] of [RunState.v] ([platform/runstate]) are its two instances.
    - [Gcpenv.v]: [platform/gcpenv]. [BuildStamp.v]: [platform/buildstamp].
    - [AuditLog.v]: [observability/audit]: entries, the streaming reader and the
      scorecards (module [audit]), and the rotating file writer (module [file]).
    - [SlogGcp.v] and [SlogSetup.v]: [slog-gcp]: trace headers and the handler;
      request logs, the set-up on Cloud Run, error reports, [otelgcp].
      [SlogTest.v]: [sloggcptest], which reads entries back.
    - [GoFloat.v]: IEEE floats. [SheetsCells.v], [SheetsBatch.v],
      [SheetsFormat.v], [SheetsService.v]: [google/workspace/sheets]: cells and
      tables, the updates of values, formatting, the service over a record of API
      operations, with the retry of [Gcp.v].
    - [Calls.v]: calls of a Google API under the retry of [Gcp.v].
      [DriveAdmin.v] and [DriveMembers.v]: [google/workspace/drive].
      [CloudProjects.v]: [google/resourcemanager] and [serviceusage].
      [Auth.v], [GoogleClient.v]: [google/auth], [google/client], with the retry
      of [Transport.v].
    - [Web.v]: [platform/web], and the handler and the server of
      [blueprints/google-addon] on it. [Procrun.v]: [platform/procrun] and [passstore].
    - [PulumiRunner.v]: [iac/pulumi/runner], whose commands [Procrun.v] runs.
    - [Pulumi.v]: what a program sees of the Pulumi engine: the resources, exports
      and stack references declared so far, outputs, secrets, and the errors of a
      registration; with [iac/pulumi/stackref]. [GcpInfra.v] (data and access) and
      [GcpRun.v] (compute and delivery): the packages of [iac/pulumi/gcpinfra], one
      module each. [Iac.v]: configuration and the placement of a stack.
      [IacPrograms.v]: the programs governance, delivery, finops, identity and
      workloads of [iac], whole; [IacObservability.v]: observability.
      [IacContract.v]: two programs together, and two runs of one.
    - [Connect.v]: what a generated service is, and what [connect] promises.
      [ContractsWork.v], [ContractsPlatform.v], [ContractsKnowledge.v]: the clients
      and handlers of [contracts], one module per package; [Contracts.v]: all of
      them on one server.

    ** How state and effects are modelled

    A function without effects is a Coq function. A function that calls hooks,
    clocks, timers or servers is a [go W A]: it acts on a world [W], which stands
    for everything those can read or change, and the theorems hold for every
    world. A pointer that may be nil is an [option]; calling through one panics.
    Concurrent components are step relations: a step is one critical section,
    one channel operation or one file operation, steps of different callers
    interleave in any order, and the theorems are about every reachable state.
    The file lock has a program counter per caller, a step for each file
    operation that the code performs on a shared name, a failing step wherever
    the code has an error path, and the death of a caller at any point; inode
    numbers are reused. Integers are unbounded with [wrap64] where Go wraps;
    floats are IEEE numbers of 53 bits ([SpecFloat]).

    ** What the theorems show

    - Exclusion: at most one caller is inside a lock's window, fences increase
      ([window_exclusive], [locker_exclusive]); a release takes only its own
      record ([release_own_record]); both locks refine the abstract window and
      so lose no update of their clients ([filelock_refines_window],
      [locker_refines_window]). With reclaim on, two callers can share a fence
      ([reclaim_can_share_fence]).
    - Concurrency: the limit of the task runner, the life of a task, its
      progress ([concurrency_limit], [task_lifecycle], [runner_progress]); the
      batch buffer neither loses nor duplicates nor reorders ([buffer_conserves],
      [add_flush_outcome]); the cache is a map of unexpired items, also between
      callers ([cache_is_unexpired_map], [get_returns_set_value]).
    - Outcomes: what a workflow, a retry loop, the transport and the Google
      Cloud retry return, in every case, and that they return ([run_outcome],
      [run_executes], [run_recovers], [doval_outcome], [doval_terminates],
      [roundtrip_accounting], [roundtrip_terminates], [with_retry_outcome],
      [classify_exact]); gates and suites ([evaluate_report], [enforce_error],
      [gate_agrees_with_suite], [builder_outcome], [verdict_spec]).
    - Bounds: backoffs as exact integers ([backoff_exact], [calculate_delay_bounds],
      [jittered_poll_bounds]).
    - Equivalence with reference definitions: sets, maps, migrations, schemas,
      statistics, redaction ([set_diff_reference], [three_way_reference],
      [map_diff_reference], [diff_columns_reference], [stats_tolerance_filter],
      [redact_exact], [apply_exact]); the layers of a comparison
      ([compare_layers]); plans ([validate_exact]).
    - Round trips and atomicity: build stamps, targets and tiers
      ([stamp_round_trip], [target_round_trip], [tier_round_trip],
      [matches_exact]); a lease is saved whole or not at all
      ([lease_store_atomic]; its texts are valid UTF-8, which JSON requires, and
      what a failed save cannot remove is a temporary file) and is valid in its window ([lease_valid_window]);
      subjects make file names ([validate_safe]); the audit log keeps the latest
      entries in its file and the ones before them in its backup, and the readers
      give back what was logged when no call fails ([log_keeps_latest],
      [log_read_back], [read_entries_exact], [read_scorecard_exact],
      [aggregate_exact], [proto_round_trip]).

    - Google Cloud adapters: what a replaced tab holds afterwards, and that nothing
      in it can run as a formula ([replace_tab_content], [prepare_exact],
      [no_injection], [rich_links_exact], [a1_round_trip], [prune_spares_synced],
      [replace_tab_returns]); the cells of a table made from structs hold the
      values of their fields ([from_structs_table]); queries, members and scans of drives
      ([queries_mean_what_they_say], [ensure_membership], [scan_exact]); projects
      and APIs with polling ([create_project_waits], [batch_enable_waits],
      [api_status_exact], [billing_round_trip]).
    - Identity: who a client acts for, how often it tries, what the consent flow
      accepts ([resolve_identity], [resolve_retries], [validated_as_expected],
      [consent_code_authentic], [commands_safe]).
    - Logs: a trace reaches the root of an entry whatever groups are open
      ([trace_reaches_log], [reserved_at_root], [trace_headers_read]); the status
      that was sent is logged ([logged_as_sent]); severities, reports, resolvers
      ([severity_is_highest_reached], [error_reports], [cached_resolver_exact]).
    - Edges: errors as responses ([write_error_safe], [recovery_exact],
      [key_not_shown]); the environment, program and output of a command
      ([environ_exact], [look_path_fixed], [tail_exact]); no value of a
      configuration in an error or a file name ([config_value_hidden],
      [log_name_safe]); where a project lands, what the log sink matches, one
      reference per stack ([placement_order], [sink_filter_exact],
      [one_reference_per_stack]).

    - Infrastructure: what governance exports places the stacks that name it
      ([governance_places_downstream]); no program declares a resource twice
      ([programs_distinct_urns], [checks_prevent_collisions]); what keeps data is
      protected, by Pulumi and by every flag of the provider, unless the stack is
      ephemeral ([protection_follows_lifecycle], [programs_protect_data]); the
      value of a secret shows only inside what is marked as secret, when what the
      engine refuses at once does not depend on it ([secret_values_hidden]).
    - Services: every generated client reaches the method it names, on a server of
      all services, and what is no procedure is redirected or not found
      ([clients_reach_implementations]).
    - Copies and helpers: the older retry module does what the newer one does, with
      sentinels of its own ([older_module_agrees]); an index behind the privacy filter stays clean, and
      an index with its laws passes the contract test ([filtered_index_is_clean],
      [contract_test_passes]); what was logged is read back ([log_entries_exact]);
      printed verdicts and summaries ([printed_verdict], [summary_explains],
      [format_fixed_near]); [Close] stops the janitor ([close_stops_janitor]); what
      the add-on answers ([service_answers]).

    Some theorems state what the code does where its documentation says more:
    [get_can_evict_fresh], [backoff_v1_overflow], [classify_drops_permanent_mark],
    [retry_after_seconds], [unknown_tier_unchecked], [wire_duration_units],
    [failed_rotation_loses_log], and the examples [stacked_transports_leak],
    [nil_rule_options], [dependency_shadows_field], [dotted_name_is_nested],
    [torn_write_swallows_next], [all_layers_pass_but_stats], [nested_body_shown],
    [forgetful_delete_passes], [nil_predicate_panics].

    ** Fuel

    Loops over a list recurse on it, loops over a range on the number of turns
    left, which is the attempt limit, so they never run short. The unbounded
    loop of [retry/gcp] has fuel and returns [None] when it is spent;
    [with_retry_outcome] shows that as much fuel as the attempt limit is enough.
    [ReadAll] of the audit reader takes its fuel from the lines that are left;
    [read_entries_exact] shows that it returns. The pages of a listing have fuel:
    one more than their number is enough ([scan_exact], [ensure_membership]);
    polling recurses on the attempts that are left.

    ** Parameters

    What is not in the repository is an argument: [http.ParseTime], the encoding
    of JSON ([Marshal] and [Unmarshal] for a lease, [AuditLog.audit.Codec] for the
    audit log), the format of a time, the
    error types of the Google, gRPC and OAuth libraries ([Gcp.Views]), the
    comparator of [DataDiff] (a database), random numbers ([rand n] lies in
    [0, n)), clocks, timers and what a server answers. Where a theorem needs the
    other side to behave, a class states how: an inner log handler
    ([HandlerLaws]), pages ([Paged]), folders and permissions ([ParentServer],
    [MemberServer]), projects and operations ([ProjectServer], [OperationServer],
    [Clock]); an index ([IndexLaws]); a spreadsheet by what its operations do to
    its tabs. Each has an instance. A request of a service depends on the name of
    its message, and what a caller sees of a call that arrives is a fixed function
    of the implementation ([Connect], [ConnectLaws]).

    The Pulumi SDK is modelled by what its documentation says of a program: a
    constructor registers a resource under its type, name, properties and options,
    or fails by [refuse], any function of it and of what is declared so far; an
    output is an expression over the properties of resources, which the engine evaluates after
    the run ([resolve]); a stack reference answers from a table of outputs. Two
    resources of one type and name are what the engine refuses, so that theorems
    say when there are none.

    ** Choices

    Case folding and space trimming are those of ASCII; [%q] takes every byte
    beyond ASCII as printable. The path separator is
    [/], and the directory of a store is a clean path. A comparable Go type has
    decidable equality, so NaN is not among its values. A map without an order
    is a [gmap]; where [range] walks one, the theorems hold for any order. A
    critical section of a mutex is atomic. A rule of a gate may panic, which ends
    the evaluation without a report. A writer of a response sends no body with a
    status that permits none, and a server redirects as [http.ServeMux] does, for
    requests whose path has no percent-encoded byte.

    ** Not modelled

    Log lines and the loggers that are set for them; the code generated from
    protocol buffers for the messages of [contracts], data on the runtime of
    protobuf; the entry points that hand a program to [pulumi.Run]; templates,
    scripts and workflows. Of the task runner: a task that calls
    [runtime.Goexit], and an [Error] method that panics. *)

From stdpp Require Export base list gmap sets option strings pretty relations sorting.
From Stdlib Require Export ZArith Lia.

#[export] Set Default Proof Using "Type".
#[global] Open Scope Z_scope.

(** ** Go integers

    [int], [int64] and [time.Duration] are 64-bit two's complement; a Go
    arithmetic result is the mathematical one wrapped by [wrap64]. *)

Definition min_int64 : Z := - 2 ^ 63.
Definition max_int64 : Z := 2 ^ 63 - 1.
Definition wrap64 (z : Z) : Z := (z + 2 ^ 63) mod 2 ^ 64 - 2 ^ 63.
Definition is_int64 (z : Z) : Prop := min_int64 ≤ z ≤ max_int64.
Definition wrap_u64 (z : Z) : Z := z mod 2 ^ 64.

(** Durations are counted in nanoseconds. *)
Definition Nanosecond : Z := 1.
Definition Microsecond : Z := 1000.
Definition Millisecond : Z := 1000000.
Definition Second : Z := 1000000000.
Definition Minute : Z := 60 * Second.
Definition Hour : Z := 60 * Minute.

(** [time.Time.Sub] saturates at the bounds of a Duration. An instant is its
    distance in nanoseconds from an arbitrary epoch. *)
Definition time_sub (t u : Z) : Z := Z.max min_int64 (Z.min max_int64 (t - u)).

(** Go's [if err := e1; err != nil { return err }] followed by [e2], for checks
    that return an optional error. *)
Declare Scope go_scope.
Delimit Scope go_scope with go.
Notation "e1 ';;?' e2" := (match e1 with Some e => Some e | None => e2 end)
  (at level 100, e2 at level 200, right associativity) : go_scope.
Notation "'fails' e 'when' c" := (if c then Some e else None)
  (at level 90, e at level 89, c at level 89) : go_scope.
#[global] Open Scope go_scope.

(** ** Automation *)

Ltac inv_clear H := inversion H; subst; clear H.

(** Case analysis on the innermost [match] or [if] scrutinee of the goal. *)
Ltac case_goal :=
  match goal with
  | |- context [match ?x with _ => _ end] =>
      lazymatch x with
      | context [match _ with _ => _ end] => fail
      | _ => destruct x eqn:?
      end
  end.

Ltac case_hyp H :=
  match type of H with
  | context [match ?x with _ => _ end] =>
      lazymatch x with
      | context [match _ with _ => _ end] => fail
      | _ => destruct x eqn:?
      end
  end.

Ltac bool_to_prop :=
  repeat match goal with
  | H : (_ && _)%bool = true |- _ => apply andb_true_iff in H as [? ?]
  | H : (_ && _)%bool = false |- _ => apply andb_false_iff in H
  | H : (_ || _)%bool = true |- _ => apply orb_true_iff in H
  | H : (_ || _)%bool = false |- _ => apply orb_false_iff in H as [? ?]
  | H : negb _ = true |- _ => apply negb_true_iff in H
  | H : negb _ = false |- _ => apply negb_false_iff in H
  | H : bool_decide _ = true |- _ => apply bool_decide_eq_true in H
  | H : bool_decide _ = false |- _ => apply bool_decide_eq_false in H
  | H : (_ <? _) = true |- _ => apply Z.ltb_lt in H
  | H : (_ <? _) = false |- _ => apply Z.ltb_ge in H
  | H : (_ <=? _) = true |- _ => apply Z.leb_le in H
  | H : (_ <=? _) = false |- _ => apply Z.leb_gt in H
  | H : (_ =? _) = true |- _ => apply Z.eqb_eq in H
  | H : (_ =? _) = false |- _ => apply Z.eqb_neq in H
  end.

Create HintDb go.

(** ** Integer lemmas *)

Lemma wrap64_id (z : Z) : is_int64 z → wrap64 z = z.
Proof.
  unfold is_int64, min_int64, max_int64, wrap64. intros H.
  rewrite Z.mod_small; lia.
Qed.

Lemma wrap64_range (z : Z) : is_int64 (wrap64 z).
Proof.
  unfold is_int64, min_int64, max_int64, wrap64.
  pose proof (Z.mod_pos_bound (z + 2 ^ 63) (2 ^ 64) ltac:(lia)). lia.
Qed.

Lemma wrap64_idem (z : Z) : wrap64 (wrap64 z) = wrap64 z.
Proof. apply wrap64_id, wrap64_range. Qed.

Lemma wrap64_add_l (a b : Z) : wrap64 (wrap64 a + b) = wrap64 (a + b).
Proof.
  unfold wrap64. f_equal.
  replace ((a + 2 ^ 63) `mod` 2 ^ 64 - 2 ^ 63 + b + 2 ^ 63)
    with ((a + 2 ^ 63) `mod` 2 ^ 64 + b) by lia.
  rewrite Zplus_mod_idemp_l. f_equal. lia.
Qed.

Lemma time_sub_range (t u : Z) : is_int64 (time_sub t u).
Proof. unfold is_int64, time_sub, min_int64, max_int64. lia. Qed.

Lemma time_sub_exact (t u : Z) : is_int64 (t - u) → time_sub t u = t - u.
Proof. unfold is_int64, time_sub. lia. Qed.

#[export] Hint Resolve wrap64_range time_sub_range : go.
Create Rewrite HintDb go_rw.
#[export] Hint Rewrite wrap64_idem : go_rw.

(** ** List lemmas *)

Lemma fold_left_snoc {A B} (f : A → B → A) (l : list B) (x : B) (a : A) :
  fold_left f (l ++ [x]) a = f (fold_left f l a) x.
Proof. by rewrite fold_left_app. Qed.

(** An invariant of a left fold: true initially and kept by every step. *)
Lemma fold_left_ind {A B} (P : list B → A → Prop) (f : A → B → A) (a : A) (l : list B) :
  P [] a →
  (∀ done x acc, P done acc → P (done ++ [x]) (f acc x)) →
  P l (fold_left f l a).
Proof.
  intros H0 Hs. induction l as [|x l IH] using rev_ind; [done|].
  rewrite fold_left_snoc. by apply Hs.
Qed.

Lemma filter_all {A} (P : A → Prop) `{!∀ x, Decision (P x)} (l : list A) :
  Forall P l → filter P l = l.
Proof.
  induction 1 as [|x l Hx _ IH]; [done|]. by rewrite filter_cons_True, IH.
Qed.

Lemma filter_none {A} (P : A → Prop) `{!∀ x, Decision (P x)} (l : list A) :
  Forall (λ x, ¬ P x) l → filter P l = [].
Proof.
  induction 1 as [|x l Hx _ IH]; [done|]. by rewrite filter_cons_False.
Qed.

Lemma length_zero_nil {A} (l : list A) : length l = 0%nat ↔ l = [].
Proof. destruct l; naive_solver. Qed.

Lemma elem_of_concat_imap {A B} (f : nat → A → list B) (l : list A) y :
  y ∈ concat (imap f l) ↔ ∃ i x, l !! i = Some x ∧ y ∈ f i x.
Proof.
  rewrite list_elem_of_In, in_concat. split.
  - intros (ys & Hys & Hy). apply list_elem_of_In, elem_of_lookup_imap_1 in Hys as (i & x & -> & Hx).
    exists i, x. split; [done|]. by apply list_elem_of_In.
  - intros (i & x & Hx & Hy). exists (f i x). split; [|by apply list_elem_of_In].
    by eapply list_elem_of_In, elem_of_lookup_imap_2.
Qed.

Lemma elem_of_flat_map {A B} (f : A → list B) (l : list A) y :
  y ∈ flat_map f l ↔ ∃ x, x ∈ l ∧ y ∈ f x.
Proof. rewrite list_elem_of_In, in_flat_map. by setoid_rewrite list_elem_of_In. Qed.

(** At most one element of [l] covers a point. *)
Definition exclusive {A S} (covers : A → S → Prop) (l : list A) : Prop :=
  ∀ k1 k2 x y p, l !! k1 = Some x → l !! k2 = Some y → covers x p → covers y p → k1 = k2.

Lemma exclusive_nil {A S} (P : A → S → Prop) : exclusive P [].
Proof. by intros k1 k2 x y p. Qed.

Lemma exclusive_single {A S} (P : A → S → Prop) x : exclusive P [x].
Proof.
  intros k1 k2 y z p H1 H2 _ _.
  apply list_lookup_singleton_Some in H1 as [H1 _], H2 as [H2 _]. congruence.
Qed.

Lemma exclusive_app {A S} (P : A → S → Prop) l1 l2 :
  exclusive P l1 → exclusive P l2 → (∀ x y p, x ∈ l1 → y ∈ l2 → P x p → P y p → False) →
  exclusive P (l1 ++ l2).
Proof.
  intros H1 H2 Hx k1 k2 x y p Hk1 Hk2 Px Py.
  apply lookup_app_Some in Hk1 as [Hk1|[? Hk1]], Hk2 as [Hk2|[? Hk2]].
  - by eapply H1.
  - exfalso. eapply Hx; [by eapply list_elem_of_lookup_2..|done|done].
  - exfalso. eapply Hx; [by eapply list_elem_of_lookup_2..|done|done].
  - pose proof (H2 _ _ _ _ _ Hk1 Hk2 Px Py). lia.
Qed.

Lemma exclusive_cons_inv {A S} (P : A → S → Prop) x l :
  exclusive P (x :: l) → exclusive P l ∧ ∀ y p, y ∈ l → P x p → P y p → False.
Proof.
  intros H. split.
  - intros k1 k2 y z p H1 H2 Py Pz. by pose proof (H (Datatypes.S k1) (Datatypes.S k2) y z p H1 H2 Py Pz) as [= ->].
  - intros y p Hy Px Py. apply list_elem_of_lookup in Hy as [k Hk].
    pose proof (H 0%nat (Datatypes.S k) x y p eq_refl Hk Px Py). lia.
Qed.

Lemma exclusive_map {A B S} (f : A → B) (P : B → S → Prop) l :
  exclusive (λ x p, P (f x) p) l → exclusive P (map f l).
Proof.
  intros H k1 k2 y z p H1 H2. apply list_lookup_fmap_Some in H1 as (x1 & -> & H1), H2 as (x2 & -> & H2).
  by apply (H k1 k2 x1 x2).
Qed.

Lemma exclusive_flat_map {A B S R} (f : A → list B) (Q : A → R → Prop) (P : B → S → Prop) (g : S → R) l :
  exclusive Q l → (∀ x, x ∈ l → exclusive P (f x)) →
  (∀ x y p, x ∈ l → y ∈ f x → P y p → Q x (g p)) → exclusive P (flat_map f l).
Proof.
  induction l as [|x l IH]; intros HQ HP Hg; [apply exclusive_nil|]. simpl.
  apply exclusive_cons_inv in HQ as [HQ Hx]. apply exclusive_app.
  - apply HP. by left.
  - apply IH; [done|..].
    + intros x' Hx'. apply HP. by right.
    + intros x' y p Hx'. apply Hg. by right.
  - intros y z p Hy Hz Py Pz. rewrite list_elem_of_In, in_flat_map in Hz.
    destruct Hz as (x' & Hx' & Hz). apply list_elem_of_In in Hx', Hz.
    apply (Hx x' (g p)); [done|eapply Hg; [left|done|done]|eapply Hg; [by right|done|done]].
Qed.

(** *** Runs of a range of indices

    [runs cut n] splits [0 .. n-1] into intervals: a new one begins at [c] when
    [cut c start], [start] being the beginning of the current one. *)
Definition run_step (cut : nat → nat → bool) (s : list (nat * nat) * nat) (c : nat)
  : list (nat * nat) * nat :=
  if cut c s.2 then (s.1 ++ [(s.2, (c - 1)%nat)], c) else s.
Definition runs (cut : nat → nat → bool) (n : nat) : list (nat * nat) :=
  let s := fold_left (run_step cut) (seq 1 (n - 1)) ([], 0%nat) in s.1 ++ [(s.2, (n - 1)%nat)].

Definition within (ab : nat * nat) (c : nat) : Prop := (ab.1 ≤ c ≤ ab.2)%nat.

Lemma run_steps cut n :
  let s := fold_left (run_step cut) (seq 1 n) ([], 0%nat) in
  (s.2 ≤ n)%nat ∧ (∀ c, (s.2 < c ≤ n)%nat → cut c s.2 = false) ∧
  (∀ ab, ab ∈ s.1 → (ab.1 ≤ ab.2 < s.2)%nat ∧ ∀ c, (ab.1 < c ≤ ab.2)%nat → cut c ab.1 = false) ∧
  (∀ c, (c < s.2)%nat → ∃ ab, ab ∈ s.1 ∧ within ab c) ∧ exclusive within s.1.
Proof.
  induction n as [|n IH]; cbn zeta.
  { simpl. split; [lia|]. split; [intros; lia|]. split; [by intros ab Hab%elem_of_nil|].
    split; [intros; lia|apply exclusive_nil]. }
  rewrite seq_S, fold_left_snoc. cbn zeta in IH.
  destruct (fold_left (run_step cut) (seq 1 n) ([], 0%nat)) as [acc start]. simpl in IH.
  destruct IH as (Hs & Ht & Hacc & Hcov & Hex). unfold run_step. simpl.
  destruct (cut (S n) start) eqn:Ec; simpl.
  - split; [lia|]. split; [intros; lia|]. rewrite ?Nat.sub_0_r. split; [|split].
    + intros ab [Hab|Hab]%elem_of_app; [|apply list_elem_of_singleton in Hab as ->].
      * destruct (Hacc ab Hab) as [? H]. split; [lia|exact H].
      * simpl. split; [lia|]. intros c Hc. apply Ht. lia.
    + intros c Hc. destruct (decide (c < start)%nat) as [Hl|Hl].
      * destruct (Hcov c Hl) as (ab & Hab & Hw). exists ab. split; [|done]. apply elem_of_app. by left.
      * exists (start, n). split; [apply elem_of_app; right; by apply list_elem_of_singleton|].
        unfold within. simpl. lia.
    + apply exclusive_app; [done|apply exclusive_single|].
      intros ab y c Hab Hy [_ H1] [H2 _]. apply list_elem_of_singleton in Hy as ->. simpl in *.
      destruct (Hacc ab Hab). lia.
  - split; [lia|]. split.
    { intros c Hc. destruct (decide (c = S n)) as [->|]; [done|]. apply Ht. lia. }
    done.
Qed.

(** The runs are not empty, lie in the range, cover it, and do not overlap. *)
Lemma runs_tile cut n :
  (0 < n)%nat →
  (∀ ab, ab ∈ runs cut n → (ab.1 ≤ ab.2 < n)%nat ∧ ∀ c, (ab.1 < c ≤ ab.2)%nat → cut c ab.1 = false) ∧
  (∀ c, (c < n)%nat → ∃ ab, ab ∈ runs cut n ∧ within ab c) ∧ exclusive within (runs cut n).
Proof.
  intros Hn. unfold runs. destruct (run_steps cut (n - 1)) as (Hs & Ht & Hacc & Hcov & Hex).
  destruct (fold_left (run_step cut) (seq 1 (n - 1)) ([], 0%nat)) as [acc start]. simpl in *.
  split; [|split].
  - intros ab [Hab|Hab]%elem_of_app; [|apply list_elem_of_singleton in Hab as ->].
    + destruct (Hacc ab Hab) as [? H]. split; [lia|exact H].
    + simpl. split; [lia|]. intros c Hc. apply Ht. lia.
  - intros c Hc. destruct (decide (c < start)%nat) as [Hl|Hl].
    + destruct (Hcov c Hl) as (ab & Hab & Hw). exists ab. split; [|done]. apply elem_of_app. by left.
    + exists (start, (n - 1)%nat). split; [apply elem_of_app; right; by apply list_elem_of_singleton|].
      unfold within. simpl. lia.
  - apply exclusive_app; [done|apply exclusive_single|].
    intros ab y c Hab Hy [_ H1] [H2 _]. apply list_elem_of_singleton in Hy as ->. simpl in *.
    destruct (Hacc ab Hab). lia.
Qed.

(** A loop that emits a value for each run as it ends. *)
Definition run_emit {B} (cut : nat → nat → bool) (emit : nat → nat → B)
    (s : list B * nat) (c : nat) : list B * nat :=
  if cut c s.2 then (s.1 ++ [emit s.2 (c - 1)%nat], c) else s.

Lemma runs_map {B} cut (emit : nat → nat → B) n :
  let s := fold_left (run_emit cut emit) (seq 1 (n - 1)) ([], 0%nat) in
  s.1 ++ [emit s.2 (n - 1)%nat] = map (λ ab, emit ab.1 ab.2) (runs cut n).
Proof.
  unfold runs. cbn zeta. rewrite map_app. simpl.
  assert (∀ l acc start, fold_left (run_emit cut emit) l (map (λ ab, emit ab.1 ab.2) acc, start) =
    let s := fold_left (run_step cut) l (acc, start) in (map (λ ab, emit ab.1 ab.2) s.1, s.2)) as H.
  { induction l as [|c l IH]; intros acc start; [done|]. cbn [fold_left].
    change (run_step cut (acc, start) c) with
      (if cut c start then (acc ++ [(start, (c - 1)%nat)], c) else (acc, start)).
    unfold run_emit at 2. simpl. destruct (cut c start); [|apply IH]. rewrite <- IH. by rewrite map_app. }
  pose proof (H (seq 1 (n - 1)) [] 0%nat) as E. simpl in E. by rewrite E.
Qed.

(** Reachability: an invariant that holds initially and is kept by each step
    holds in every reachable state. *)
Lemma rtc_invariant {S} (R : relation S) (P : S → Prop) (x y : S) :
  (∀ s s', P s → R s s' → P s') → P x → rtc R x y → P y.
Proof. intros Hs Hx Hr. induction Hr; eauto. Qed.

(** ** Counting the entries of a map *)

Definition count_if {V} (P : V → bool) {K} `{Countable K} (m : gmap K V) : nat :=
  size (filter (λ kv, P kv.2 = true) m).

Section count_if.
Context {K V : Type} `{Countable K} (P : V → bool).
Implicit Types m : gmap K V.

Lemma count_if_empty : count_if P (∅ : gmap K V) = 0%nat.
Proof. unfold count_if. by rewrite map_filter_empty, map_size_empty. Qed.

Lemma count_if_insert_new m k v :
  m !! k = None → count_if P (<[k:=v]> m) = ((if P v then 1 else 0) + count_if P m)%nat.
Proof.
  intros Hk. unfold count_if. destruct (P v) eqn:E.
  - rewrite map_filter_insert_True by done.
    rewrite map_size_insert_None; [done|]. apply map_lookup_filter_None_2. by left.
  - rewrite map_filter_insert_False by (simpl; congruence).
    by rewrite delete_id.
Qed.

Lemma count_if_delete m k v :
  m !! k = Some v → count_if P m = ((if P v then 1 else 0) + count_if P (delete k m))%nat.
Proof.
  intros Hk. rewrite <- (insert_delete_id m k v Hk) at 1.
  apply count_if_insert_new, lookup_delete_eq.
Qed.

Lemma count_if_insert m k v v' :
  m !! k = Some v →
  (count_if P (<[k:=v']> m) + (if P v then 1 else 0) =
   count_if P m + (if P v' then 1 else 0))%nat.
Proof.
  intros Hk. rewrite (count_if_delete m k v Hk), <- insert_delete_eq.
  rewrite (count_if_insert_new (delete k m)) by apply lookup_delete_eq. lia.
Qed.

Lemma count_if_pos m k v : m !! k = Some v → P v = true → (0 < count_if P m)%nat.
Proof. intros Hk Hv. rewrite (count_if_delete m k v Hk), Hv. lia. Qed.

Lemma count_if_exists m : (0 < count_if P m)%nat → ∃ k v, m !! k = Some v ∧ P v = true.
Proof.
  unfold count_if. intros Hs.
  destruct (map_choose (filter (λ kv, P kv.2 = true) m)) as (k & v & Hkv).
  { intros E. rewrite E, map_size_empty in Hs. lia. }
  apply map_lookup_filter_Some in Hkv as [??]. by exists k, v.
Qed.

Lemma count_if_le (Q : V → bool) m :
  (∀ v, P v = true → Q v = true) → (count_if P m ≤ count_if Q m)%nat.
Proof.
  intros HPQ. unfold count_if. apply map_subseteq_size.
  apply map_filter_strong_subseteq_ext. naive_solver.
Qed.
End count_if.
