(* ===== verification/GoStrings.v ===== *)
(** * The part of Go's [strings] and [strconv] packages the source uses

    A Go string is a sequence of bytes: a [string]. The case mapping is the
    ASCII one, on bytes: [strings.ToLower] maps other letters too, none of
    which occurs in the patterns the source compares with. *)

From S2P Require Import Prelude.
From Stdlib Require Import Ascii.

(** [strings.HasPrefix]. *)
Fixpoint has_prefix (p s : string) : bool :=
  match p, s with
  | EmptyString, _ => true
  | String a p', String b s' => bool_decide (a = b) && has_prefix p' s'
  | _, _ => false
  end.

(** [strings.Contains]. *)
Fixpoint contains (sub s : string) : bool :=
  has_prefix sub s ||
  match s with
  | EmptyString => false
  | String _ s' => contains sub s'
  end.

(** [strings.ContainsRune], for an ASCII rune. *)
Fixpoint contains_byte (c : ascii) (s : string) : bool :=
  match s with
  | EmptyString => false
  | String a s' => bool_decide (a = c) || contains_byte c s'
  end.

Fixpoint str_len (s : string) : nat :=
  match s with EmptyString => 0%nat | String _ s' => S (str_len s') end.

Fixpoint str_drop (n : nat) (s : string) : string :=
  match n, s with
  | O, _ => s
  | S n', String _ s' => str_drop n' s'
  | _, EmptyString => EmptyString
  end.

Fixpoint str_take (n : nat) (s : string) : string :=
  match n, s with
  | S n', String a s' => String a (str_take n' s')
  | _, _ => EmptyString
  end.

(** [strings.HasSuffix]. *)
Definition has_suffix (suf s : string) : bool :=
  (str_len suf <=? str_len s)%nat &&
  bool_decide (str_drop (str_len s - str_len suf) s = suf).

(** [strings.Split] on a one-byte separator: always at least one piece. *)
Fixpoint split (c : ascii) (s : string) : list string :=
  match s with
  | EmptyString => [EmptyString]
  | String a s' =>
      if bool_decide (a = c) then EmptyString :: split c s'
      else match split c s' with
           | [] => [String a EmptyString]
           | p :: ps => String a p :: ps
           end
  end.

(** [strings.Join]. *)
Fixpoint join (sep : string) (l : list string) : string :=
  match l with
  | [] => EmptyString
  | [x] => x
  | x :: l' => x +:+ sep +:+ join sep l'
  end.

(** [strings.Cut] on a one-byte separator: the text before and after the first
    occurrence. *)
Fixpoint cut (c : ascii) (s : string) : string * string * bool :=
  match s with
  | EmptyString => (EmptyString, EmptyString, false)
  | String a s' =>
      if bool_decide (a = c) then (EmptyString, s', true)
      else let '(b, r, ok) := cut c s' in (String a b, r, ok)
  end.

(** [strings.ToLower] on ASCII. *)
Definition lower_ascii (c : ascii) : ascii :=
  let n := nat_of_ascii c in
  if ((65 <=? n) && (n <=? 90))%nat then ascii_of_nat (n + 32) else c.

Fixpoint to_lower (s : string) : string :=
  match s with
  | EmptyString => EmptyString
  | String c s' => String (lower_ascii c) (to_lower s')
  end.

Definition is_space (c : ascii) : bool :=
  let n := nat_of_ascii c in
  ((9 <=? n) && (n <=? 13) || (n =? 32))%nat.

Fixpoint trim_left (s : string) : string :=
  match s with
  | String c s' => if is_space c then trim_left s' else s
  | EmptyString => EmptyString
  end.

Fixpoint trim_right (s : string) : string :=
  match s with
  | EmptyString => EmptyString
  | String c s' =>
      match trim_right s' with
      | EmptyString => if is_space c then EmptyString else String c EmptyString
      | t => String c t
      end
  end.

(** [strings.TrimSpace] on ASCII. *)
Definition trim_space (s : string) : string := trim_right (trim_left s).

(** [utf8.ValidString]. *)
Definition byte_in (lo hi : Z) (c : ascii) : bool :=
  let n := Z.of_nat (nat_of_ascii c) in (lo <=? n) && (n <=? hi).
Definition continuation : ascii → bool := byte_in 128 191.
Fixpoint valid_utf8 (s : string) : bool :=
  match s with
  | EmptyString => true
  | String a s1 =>
      if byte_in 0 127 a then valid_utf8 s1
      else match s1 with
           | EmptyString => false
           | String b s2 =>
               if byte_in 194 223 a then continuation b && valid_utf8 s2
               else match s2 with
                    | EmptyString => false
                    | String c s3 =>
                        if byte_in 224 239 a then
                          byte_in (if byte_in 224 224 a then 160 else 128) (if byte_in 237 237 a then 159 else 191) b &&
                          continuation c && valid_utf8 s3
                        else match s3 with
                             | EmptyString => false
                             | String d s4 =>
                                 byte_in 240 244 a &&
                                 byte_in (if byte_in 240 240 a then 144 else 128) (if byte_in 244 244 a then 143 else 191) b &&
                                 continuation c && continuation d && valid_utf8 s4
                             end
                    end
           end
  end.

(** [strings.TrimRight] for a cutset of one byte. *)
Fixpoint TrimRight (c : ascii) (s : string) : string :=
  match s with
  | EmptyString => EmptyString
  | String a s' =>
      match TrimRight c s' with
      | EmptyString => if bool_decide (a = c) then EmptyString else String a EmptyString
      | t => String a t
      end
  end.

(** [strings.Fields] on ASCII: the maximal runs of non-space bytes. [w] is the
    run being read, reversed order being avoided by appending. *)
Fixpoint fields_go (w : string) (s : string) : list string :=
  match s with
  | EmptyString => if decide (w = EmptyString) then [] else [w]
  | String c s' =>
      if is_space c
      then (if decide (w = EmptyString) then [] else [w]) ++ fields_go EmptyString s'
      else fields_go (w +:+ String c EmptyString) s'
  end.
Definition fields (s : string) : list string := fields_go EmptyString s.

Definition digit (c : ascii) : option Z :=
  let n := Z.of_nat (nat_of_ascii c) in
  if (48 <=? n) && (n <=? 57) then Some (n - 48) else None.

Fixpoint digits_go (acc : Z) (s : string) : option Z :=
  match s with
  | EmptyString => Some acc
  | String c s' =>
      match digit c with
      | Some d => digits_go (10 * acc + d) s'
      | None => None
      end
  end.

Definition digits (s : string) : option Z :=
  match s with EmptyString => None | _ => digits_go 0 s end.

(** [strconv.Atoi] on a 64-bit [int]: an optional sign, then decimal digits;
    a value out of range is an error. *)
Definition atoi (s : string) : option Z :=
  let r := match s with
           | String c s' =>
               if bool_decide (c = "-"%char) then Z.opp <$> digits s'
               else if bool_decide (c = "+"%char) then digits s'
               else digits s
           | EmptyString => None
           end in
  match r with
  | Some z => if (min_int64 <=? z) && (z <=? max_int64) then Some z else None
  | None => None
  end.

(** [strconv.ParseUint] in base 10 at 64 bits. *)
Definition parse_uint (s : string) : option Z :=
  match digits s with
  | Some z => if z <? 2 ^ 64 then Some z else None
  | None => None
  end.

(** [%d] *)
Definition itoa (z : Z) : string := pretty z.

Definition bool_text (b : bool) : string := if b then "true" else "false".

(** A lower-case hexadecimal digit. *)
Definition hex_char (d : Z) : ascii :=
  ascii_of_nat (Z.to_nat (if d <? 10 then 48 + d else 87 + d)).
Definition hex_value (c : ascii) : option Z :=
  let n := Z.of_nat (nat_of_ascii c) in
  if (48 <=? n) && (n <=? 57) then Some (n - 48)
  else if (97 <=? n) && (n <=? 102) then Some (n - 87)
  else None.
Definition hex_pair (b : Z) (rest : string) : string :=
  String (hex_char (b / 16)) (String (hex_char (b mod 16)) rest).

(** [hex.EncodeToString]: two digits per byte. *)
Fixpoint EncodeToString (bytes : list Z) : string :=
  match bytes with [] => "" | b :: bytes => hex_pair b (EncodeToString bytes) end.

(** [%q]: a quote, a backslash and control characters are escaped; what is beyond
    ASCII is taken for printable. *)
Definition dquote : ascii := ascii_of_nat 34.
Definition backslash : ascii := ascii_of_nat 92.
Definition escapes : list (nat * ascii) :=
  [(7%nat, "a"%char); (8%nat, "b"%char); (9%nat, "t"%char); (10%nat, "n"%char); (11%nat, "v"%char);
   (12%nat, "f"%char); (13%nat, "r"%char); (34%nat, dquote); (92%nat, backslash)].
Definition quote_byte (c : ascii) (rest : string) : string :=
  let n := nat_of_ascii c in
  match list_find (λ e, e.1 = n) escapes with
  | Some (_, (_, e)) => String backslash (String e rest)
  | None => if (n <? 32)%nat || (n =? 127)%nat
            then String backslash (String "x" (hex_pair (Z.of_nat n) rest)) else String c rest
  end.
Fixpoint quote_bytes (s : string) : string :=
  match s with EmptyString => String dquote "" | String c s => quote_byte c (quote_bytes s) end.
Definition quote (s : string) : string := String dquote (quote_bytes s).

Example quote_escapes : quote (String dquote (String (ascii_of_nat 10) (String (ascii_of_nat 1) "x"))) =
  String dquote (String backslash (String dquote (String backslash (String "n"
    (String backslash ("x01x" +:+ String dquote ""))))))%string.
Proof. reflexivity. Qed.

(** [strings.SplitN] on a one-byte separator: at most [n] pieces, the last one
    the rest of the text. *)
Fixpoint split_n (c : ascii) (n : nat) (s : string) : list string :=
  match n with
  | O => []
  | S n' =>
      match n' with
      | O => [s]
      | S _ => let '(b, r, ok) := cut c s in if ok then b :: split_n c n' r else [s]
      end
  end.

(** ** Lemmas *)

Lemma hex_char_value d : 0 ≤ d < 16 → hex_value (hex_char d) = Some d.
Proof.
  intros Hd. unfold hex_value, hex_char. destruct (Z.ltb_spec d 10).
  - rewrite nat_ascii_embedding, Z2Nat.id by lia.
    rewrite (proj2 (Z.leb_le 48 (48 + d))), (proj2 (Z.leb_le (48 + d) 57)) by lia. simpl. f_equal. lia.
  - rewrite nat_ascii_embedding, Z2Nat.id by lia.
    rewrite (proj2 (Z.leb_gt (87 + d) 57)), andb_false_r by lia.
    rewrite (proj2 (Z.leb_le 97 (87 + d))), (proj2 (Z.leb_le (87 + d) 102)) by lia. simpl. f_equal. lia.
Qed.

Definition is_byte (b : Z) : Prop := 0 ≤ b < 256.

Lemma EncodeToString_inj l l' :
  Forall is_byte l → Forall is_byte l' → EncodeToString l = EncodeToString l' → l = l'.
Proof.
  intros Hl. revert l'. induction Hl as [|b l Hb Hl IH]; intros [|b' l'] Hl'; [done..|]. simpl. intros E.
  apply Forall_cons in Hl' as [Hb' Hl']. unfold hex_pair in E. simplify_eq. f_equal; [|by apply IH].
  unfold is_byte in *.
  assert (b / 16 = b' / 16 ∧ b mod 16 = b' mod 16) as [E1 E2].
  { split; match goal with H : hex_char ?x = hex_char ?y |- ?x = ?y =>
      apply (f_equal hex_value) in H; rewrite !hex_char_value in H; [by simplify_eq|..] end;
      (split; [apply Z.div_pos; lia|apply Z.div_lt_upper_bound; lia]) || (apply Z.mod_pos_bound; lia). }
  rewrite (Z.div_mod b 16), (Z.div_mod b' 16) by lia. congruence.
Qed.


Lemma str_cons_app a s t : String a s +:+ t = String a (s +:+ t).
Proof. reflexivity. Qed.

Lemma str_nil_app t : "" +:+ t = t.
Proof. reflexivity. Qed.

Lemma str_app_nil_r (s : string) : s +:+ "" = s.
Proof. induction s as [|a s IH]; [done|]. by rewrite str_cons_app, IH. Qed.

Lemma str_app_assoc (s t u : string) : (s +:+ t) +:+ u = s +:+ (t +:+ u).
Proof. induction s as [|a s IH]; [done|]. by rewrite !str_cons_app, IH. Qed.

Lemma contains_byte_app c s t : contains_byte c (s +:+ t) = contains_byte c s || contains_byte c t.
Proof. induction s as [|a s IH]; [done|]. rewrite str_cons_app. cbn. by rewrite IH, orb_assoc. Qed.

(** [cut] at the first separator, and back. *)
Lemma cut_app c s t : contains_byte c s = false → cut c (s +:+ String c t) = (s, t, true).
Proof.
  induction s as [|a s IH]; intros H.
  - rewrite str_nil_app. cbn. by rewrite bool_decide_eq_true_2.
  - cbn in H. apply orb_false_iff in H as [H1 H2]. rewrite str_cons_app. cbn. rewrite H1.
    by rewrite (IH H2).
Qed.

Lemma cut_true c s b r : cut c s = (b, r, true) → s = b +:+ String c r ∧ contains_byte c b = false.
Proof.
  revert b r. induction s as [|a s IH]; cbn; intros b r H; [done|].
  destruct (bool_decide (a = c)) eqn:E.
  - apply bool_decide_eq_true in E. by simplify_eq.
  - destruct (cut c s) as [[b' r'] ok] eqn:Ec. simplify_eq. destruct (IH b' r eq_refl) as [-> Hb].
    split; [done|]. cbn. by rewrite E.
Qed.

Lemma cut_false c s b r : cut c s = (b, r, false) → contains_byte c s = false ∧ b = s.
Proof.
  revert b r. induction s as [|a s IH]; cbn; intros b r H; [by simplify_eq|].
  destruct (bool_decide (a = c)) eqn:E; [done|].
  destruct (cut c s) as [[b' r'] ok] eqn:Ec. simplify_eq. by destruct (IH b' r eq_refl) as [-> ->].
Qed.

Lemma TrimRight_prefix c s : ∃ b, s = TrimRight c s +:+ b.
Proof.
  induction s as [|a s (b & E)]; [by exists ""|]. cbn.
  destruct (TrimRight c s) as [|a' t] eqn:Et.
  - destruct (bool_decide (a = c)); [by exists (String a s)|]. by exists s.
  - exists b. by rewrite E, !str_cons_app.
Qed.

Lemma has_prefix_spec p s : has_prefix p s = true ↔ ∃ b, s = p +:+ b.
Proof.
  revert s. induction p as [|a p IH]; intros s; [by split; [exists s|]|].
  destruct s as [|c s]; cbn.
  - split; [done|]. intros (b & E). by rewrite str_cons_app in E.
  - rewrite andb_true_iff, bool_decide_eq_true, IH. split.
    + intros [-> (b & ->)]. by exists b.
    + intros (b & E). rewrite str_cons_app in E. simplify_eq. eauto.
Qed.

(** A text contains another exactly when it is somewhere within it. *)
Lemma contains_spec p s : contains p s = true ↔ ∃ a b, s = a +:+ p +:+ b.
Proof.
  induction s as [|c s IH]; cbn; rewrite orb_true_iff, has_prefix_spec.
  - split; [intros [(b & E)|?]; [by exists "", b|done]|]. intros (a & b & E). left. exists b.
    destruct a; [done|by rewrite str_cons_app in E].
  - rewrite IH. split.
    + intros [(b & E)|(a & b & ->)]; [by exists "", b|by exists (String c a), b].
    + intros ([|c' a] & b & E); [left; by exists b|right]. rewrite str_cons_app in E.
      simplify_eq. by exists a, b.
Qed.

Lemma contains_mid p a s b : contains p s = true → contains p (a +:+ s +:+ b) = true.
Proof.
  intros (x & y & ->)%contains_spec. apply contains_spec. exists (a +:+ x), (y +:+ b).
  by rewrite !str_app_assoc.
Qed.

Lemma to_lower_app s t : to_lower (s +:+ t) = to_lower s +:+ to_lower t.
Proof.
  induction s as [|a s IH]; [done|].
  rewrite str_cons_app. cbn [to_lower]. by rewrite IH, str_cons_app.
Qed.

Lemma split_not_nil c s : split c s ≠ [].
Proof. destruct s as [|a s]; [done|]. cbn. destruct (bool_decide _); [done|]. by destruct (split c s). Qed.

Lemma split_cons c a s :
  split c (String a s) =
    if bool_decide (a = c) then "" :: split c s
    else match split c s with p :: ps => String a p :: ps | [] => [String a ""] end.
Proof. cbn. destruct (bool_decide _); [done|]. by destruct (split c s). Qed.

(** Splitting and joining are inverse on pieces without the separator. *)
Lemma join_cons_char sep a p l : join sep (String a p :: l) = String a (join sep (p :: l)).
Proof. destruct l; [done|]. cbn. by rewrite str_cons_app. Qed.

Lemma join_split c s : join (String c "") (split c s) = s.
Proof.
  induction s as [|a s IH]; [done|]. rewrite split_cons.
  pose proof (split_not_nil c s) as Hn. destruct (split c s) as [|p ps]; [done|].
  destruct (bool_decide (a = c)) eqn:E.
  - apply bool_decide_eq_true in E as ->. by rewrite <- IH.
  - by rewrite join_cons_char, IH.
Qed.

Lemma split_clean c s p : p ∈ split c s → contains_byte c p = false.
Proof.
  revert p. induction s as [|a s IH]; intros p Hp.
  - cbn in Hp. by apply list_elem_of_singleton in Hp as ->.
  - rewrite split_cons in Hp. pose proof (split_not_nil c s) as Hn.
    destruct (split c s) as [|q qs]; [done|]. destruct (bool_decide (a = c)) eqn:E.
    + apply elem_of_cons in Hp as [->|Hp]; [done|]. by apply IH.
    + apply elem_of_cons in Hp as [->|Hp]; [|by apply IH; right].
      cbn. rewrite E. apply IH. by left.
Qed.

Lemma split_app_sep c p s : contains_byte c p = false → split c (p +:+ String c s) = p :: split c s.
Proof.
  induction p as [|a p IH]; intros H.
  - rewrite str_nil_app, split_cons. by rewrite bool_decide_eq_true_2.
  - cbn in H. apply orb_false_iff in H as [H1 H2]. rewrite str_cons_app, split_cons, H1.
    by rewrite (IH H2).
Qed.

Lemma split_single c p : contains_byte c p = false → split c p = [p].
Proof.
  induction p as [|a p IH]; intros H; [done|]. cbn in H. apply orb_false_iff in H as [H1 H2].
  rewrite split_cons, H1. by rewrite (IH H2).
Qed.

Lemma split_join c l :
  l ≠ [] → Forall (λ p, contains_byte c p = false) l → split c (join (String c "") l) = l.
Proof.
  induction l as [|p l IH]; intros Hn Hl; [done|]. apply Forall_cons in Hl as [Hp Hl].
  destruct l as [|q l]; [by apply split_single|].
  change (join (String c "") (p :: q :: l)) with (p +:+ String c (join (String c "") (q :: l))).
  rewrite split_app_sep by done. by rewrite IH.
Qed.

(** A piece is somewhere within the text. *)
Lemma split_mid c s p : p ∈ split c s → ∃ a b, s = a +:+ p +:+ b.
Proof.
  revert p. induction s as [|x s IH]; intros p Hp.
  - cbn in Hp. apply list_elem_of_singleton in Hp as ->. by exists "", "".
  - rewrite split_cons in Hp. pose proof (split_not_nil c s) as Hn. pose proof (join_split c s) as Hj.
    destruct (split c s) as [|q qs]; [done|].
    assert (∀ p, p ∈ q :: qs → ∃ a b, String x s = a +:+ p +:+ b) as Hin.
    { intros p' Hp'. destruct (IH p' Hp') as (a & b & ->). by exists (String x a), b. }
    destruct (bool_decide (x = c)).
    + apply elem_of_cons in Hp as [->|Hp]; [by exists "", (String x s)|by apply Hin].
    + apply elem_of_cons in Hp as [->|Hp]; [|by apply Hin; right].
      destruct qs as [|q' qs].
      * cbn in Hj. subst. exists "", "". by rewrite str_app_nil_r.
      * exists "", (String c (join (String c "") (q' :: qs))). rewrite <- Hj. done.
Qed.

(** ** The words of a text *)

Fixpoint no_space (s : string) : bool :=
  match s with EmptyString => true | String c s' => negb (is_space c) && no_space s' end.

(** A word: not empty and without spaces. *)
Definition word (s : string) : Prop := s ≠ "" ∧ no_space s = true.

(** Words, each after a space. *)
Definition spaced (ws : list string) : string := foldr (λ w t, " " +:+ w +:+ t) "" ws.

Lemma fields_go_word acc w s :
  no_space w = true → fields_go acc (w +:+ s) = fields_go (acc +:+ w) s.
Proof.
  revert acc. induction w as [|c w IH]; intros acc H.
  - by rewrite str_nil_app, str_app_nil_r.
  - cbn in H. apply andb_true_iff in H as [Hc Hw]. apply negb_true_iff in Hc.
    rewrite str_cons_app. cbn. rewrite Hc, IH by done. by rewrite str_app_assoc.
Qed.

Lemma fields_go_space acc s :
  fields_go acc (" " +:+ s) = (if decide (acc = "") then [] else [acc]) ++ fields s.
Proof. done. Qed.

Lemma fields_go_spaced acc ws :
  Forall word ws → fields_go acc (spaced ws) = (if decide (acc = "") then [] else [acc]) ++ ws.
Proof.
  intros H. revert acc. induction H as [|w ws [Hn Hw] _ IH]; intros acc; cbn [spaced foldr].
  - cbn. by destruct (decide (acc = "")).
  - rewrite fields_go_space. f_equal. unfold fields. rewrite fields_go_word by done.
    rewrite str_nil_app. fold (spaced ws). rewrite IH. by rewrite decide_False.
Qed.

Lemma fields_spaced h ws :
  no_space h = true → Forall word ws →
  fields (h +:+ spaced ws) = (if decide (h = "") then [] else [h]) ++ ws.
Proof.
  intros Hh Hws. unfold fields. rewrite fields_go_word by done. rewrite str_nil_app.
  by apply fields_go_spaced.
Qed.

Lemma trim_right_fields acc s : fields_go acc (trim_right s) = fields_go acc s.
Proof.
  revert acc. induction s as [|c s IH]; intros acc; [done|]. cbn [trim_right].
  destruct (trim_right s) as [|c' t] eqn:E.
  - cbn [fields_go]. rewrite <- (IH ""), <- (IH (acc +:+ String c "")).
    destruct (is_space c) eqn:Ec; cbn; rewrite ?Ec; cbn; [|done].
    destruct (decide (acc = "")) as [->|]; [done|]. by rewrite app_nil_r.
  - cbn [fields_go]. by rewrite <- !IH.
Qed.

Lemma trim_left_fields s : fields (trim_left s) = fields s.
Proof.
  induction s as [|c s IH]; [done|]. cbn [trim_left]. destruct (is_space c) eqn:Ec; [|done].
  rewrite IH. unfold fields. cbn. by rewrite Ec.
Qed.

Lemma fields_trim s : fields (trim_space s) = fields s.
Proof. unfold trim_space. etrans; [apply trim_right_fields|apply trim_left_fields]. Qed.

Lemma spaced_app a b : spaced (a ++ b) = spaced a +:+ spaced b.
Proof.
  induction a as [|w a IH]; [done|]. cbn [app spaced foldr]. fold (spaced (a ++ b)) (spaced a).
  by rewrite IH, !str_app_assoc.
Qed.

Lemma spaced_join ws : ws ≠ [] → " " +:+ join " " ws = spaced ws.
Proof.
  induction ws as [|w ws IH]; [done|]. intros _. destruct ws as [|w' ws].
  - cbn. by rewrite str_app_nil_r.
  - change (join " " (w :: w' :: ws)) with (w +:+ " " +:+ join " " (w' :: ws)).
    rewrite IH by done. done.
Qed.

Lemma cut_none c s : contains_byte c s = false → cut c s = (s, "", false).
Proof.
  induction s as [|a s IH]; intros H; [done|]. cbn in H. apply orb_false_iff in H as [H1 H2].
  cbn. rewrite H1. by rewrite (IH H2).
Qed.

Lemma no_space_app s t : no_space (s +:+ t) = no_space s && no_space t.
Proof. induction s as [|a s IH]; [done|]. rewrite str_cons_app. cbn. by rewrite IH, andb_assoc. Qed.

Lemma str_app_eq_nil s t : s +:+ t = "" ↔ s = "" ∧ t = "".
Proof. destruct s; [rewrite str_nil_app; naive_solver|rewrite str_cons_app; naive_solver]. Qed.

(** ** Decimal numerals *)

Lemma digits_go_pretty x s acc :
  ∃ k, 0 <= k ∧ digits_go acc (pretty_N_go x s) = digits_go (acc * 10 ^ k + Z.of_N x) s.
Proof.
  revert s acc. induction (N.lt_wf_0 x) as [x _ IH]; intros s acc.
  destruct (decide (x = 0)%N) as [->|Hx].
  { exists 0. split; [done|]. rewrite pretty_N_go_0. f_equal. lia. }
  rewrite pretty_N_go_step by lia.
  destruct (IH (x `div` 10)%N (N.div_lt x 10 ltac:(lia) eq_refl)
    (String (pretty_N_char (x `mod` 10)) s) acc) as (k & Hk & ->).
  exists (k + 1). split; [lia|]. simpl.
  assert (digit (pretty_N_char (x `mod` 10)) = Some (Z.of_N (x `mod` 10))) as ->.
  { assert (x `mod` 10 < 10)%N as Hm by (by apply N.mod_lt). revert Hm.
    generalize (x `mod` 10)%N. intros n Hn.
    assert (n = 0 ∨ n = 1 ∨ n = 2 ∨ n = 3 ∨ n = 4 ∨ n = 5 ∨ n = 6 ∨ n = 7 ∨ n = 8 ∨ n = 9)%N
      as Hc by lia.
    by destruct_or! Hc; subst. }
  f_equal. rewrite Z.pow_add_r, N2Z.inj_div, N2Z.inj_mod by lia.
  pose proof (Z.div_mod (Z.of_N x) 10 ltac:(lia)). lia.
Qed.

Lemma pretty_N_go_not_nil x s : s ≠ "" → pretty_N_go x s ≠ "".
Proof.
  revert s. induction (N.lt_wf_0 x) as [x _ IH]; intros s Hs.
  destruct (decide (x = 0)%N) as [->|Hx]; [by rewrite pretty_N_go_0|].
  rewrite pretty_N_go_step by lia. apply IH; [by apply N.div_lt; lia|done].
Qed.

Lemma digits_itoa n : 0 <= n → digits (itoa n) = Some n.
Proof.
  intros Hn. destruct n as [|p|p]; [done| |lia].
  change (itoa (Z.pos p)) with (pretty_N_go (N.pos p) "").
  destruct (digits_go_pretty (N.pos p) "" 0) as (k & _ & E).
  unfold digits. destruct (pretty_N_go (N.pos p) "") eqn:Ep; [|by rewrite E].
  exfalso. revert Ep. rewrite pretty_N_go_step by lia. by apply pretty_N_go_not_nil.
Qed.

Lemma digits_head c s n : digits (String c s) = Some n → digit c ≠ None.
Proof. simpl. by destruct (digit c). Qed.

Lemma atoi_itoa n : is_int64 n → atoi (itoa n) = Some n.
Proof.
  intros Hn. unfold atoi.
  assert (is_int64 n → (if (min_int64 <=? n) && (n <=? max_int64) then Some n else None) = Some n)
    as Hr.
  { intros [H1 H2]. by rewrite (proj2 (Z.leb_le _ _) H1), (proj2 (Z.leb_le _ _) H2). }
  destruct n as [|p|p].
  - done.
  - pose proof (digits_itoa (Z.pos p) ltac:(lia)) as E.
    destruct (itoa (Z.pos p)) as [|c s]; [done|]. pose proof (digits_head _ _ _ E).
    repeat case_bool_decide; subst; try done. by rewrite E, Hr.
  - pose proof (digits_itoa (Z.pos p) ltac:(lia)) as E.
    change (itoa (Z.neg p)) with (String "-" (itoa (Z.pos p))).
    transitivity (match Z.opp <$> digits (itoa (Z.pos p)) with
      Some z => if (min_int64 <=? z) && (z <=? max_int64) then Some z else None
      | None => None end); [done|].
    rewrite E. by apply Hr.
Qed.

Lemma digits_go_bytes acc s n :
  digits_go acc s = Some n →
  no_space s = true ∧ ∀ c, digit c = None → contains_byte c s = false.
Proof.
  revert acc. induction s as [|a s IH]; intros acc; [done|]. simpl.
  destruct (digit a) as [d|] eqn:Ed; [|done]. intros H. destruct (IH _ H) as [H1 H2]. split.
  - rewrite H1, andb_true_r. unfold digit in Ed. unfold is_space. case_match; [|done].
    bool_to_prop. apply negb_true_iff, orb_false_iff. split.
    + apply andb_false_iff. right. apply Nat.leb_gt. lia.
    + apply Nat.eqb_neq. lia.
  - intros c Hc. rewrite H2 by done. rewrite orb_false_r. apply bool_decide_eq_false. congruence.
Qed.

Lemma itoa_bytes n :
  no_space (itoa n) = true ∧ ∀ c, digit c = None → c ≠ "-"%char → contains_byte c (itoa n) = false.
Proof.
  assert (∀ p, no_space (itoa (Z.pos p)) = true ∧
    ∀ c, digit c = None → contains_byte c (itoa (Z.pos p)) = false) as Hp.
  { intros p. pose proof (digits_itoa (Z.pos p) ltac:(lia)) as E. unfold digits in E.
    destruct (itoa (Z.pos p)) eqn:Ei; [done|]. rewrite <- Ei in *.
    by apply (digits_go_bytes _ _ _ E). }
  destruct n as [|p|p].
  - split; [done|]. intros c Hc _. cbn. rewrite orb_false_r. apply bool_decide_eq_false.
    by intros <-.
  - destruct (Hp p). auto.
  - change (itoa (Z.neg p)) with (String "-" (itoa (Z.pos p))). destruct (Hp p) as [H1 H2].
    split; [done|]. intros c Hc Hm. simpl. rewrite H2 by done.
    rewrite orb_false_r. apply bool_decide_eq_false. congruence.
Qed.

Lemma trim_space_id s : no_space s = true → trim_space s = s.
Proof.
  intros H. unfold trim_space. assert (trim_left s = s) as ->.
  { destruct s as [|c s]; [done|]. simpl in *. by destruct (is_space c). }
  induction s as [|c s IH]; [done|]. simpl in *. apply andb_true_iff in H as [Hc H].
  apply negb_true_iff in Hc. rewrite (IH H), Hc. by destruct s.
Qed.

Lemma has_prefix_app p s : has_prefix p (p +:+ s) = true.
Proof. apply has_prefix_spec. by exists s. Qed.

Lemma str_drop_app p s : str_drop (str_len p) (p +:+ s) = s.
Proof. induction p as [|c p IH]; [done|]. exact IH. Qed.

#[export] Hint Rewrite str_cons_app str_nil_app str_app_nil_r contains_byte_app : go_rw.

Lemma str_len_app s t : str_len (s +:+ t) = (str_len s + str_len t)%nat.
Proof. induction s as [|c s IH]; [done|]. rewrite str_cons_app. simpl. by rewrite IH. Qed.

Lemma str_app_inj_l (s t u : string) : s +:+ t = s +:+ u → t = u.
Proof. induction s as [|c s IH]; [done|]. rewrite !str_cons_app. intros E. injection E. done. Qed.

Lemma str_app_inj_r (s t u : string) : s +:+ u = t +:+ u → s = t.
Proof.
  intros E. apply (f_equal String.list_ascii_of_string) in E. revert E.
  assert (∀ a b, String.list_ascii_of_string (a +:+ b) = String.list_ascii_of_string a ++ String.list_ascii_of_string b) as Hl.
  { intros a b. induction a as [|c a IH]; [done|]. rewrite str_cons_app. simpl. by rewrite IH. }
  rewrite !Hl. intros E%(inj (.++ _)). apply (f_equal String.string_of_list_ascii) in E.
  by rewrite !String.string_of_list_ascii_of_string in E.
Qed.

(** The last separator splits a text in one way. *)
Lemma last_sep_inj c (a a' b b' : string) :
  contains_byte c b = false → contains_byte c b' = false →
  a +:+ String c b = a' +:+ String c b' → a = a' ∧ b = b'.
Proof.
  intros Hb Hb'. assert (∀ x y, contains_byte c (x +:+ String c y) = true) as Hc.
  { intros x y. rewrite contains_byte_app. simpl. by rewrite bool_decide_eq_true_2, orb_true_r. }
  revert a'. induction a as [|d a IH]; intros [|d' a'] E.
  - by injection E as ->.
  - rewrite str_cons_app in E. injection E as -> ->. by rewrite Hc in Hb.
  - rewrite str_cons_app in E. injection E as -> <-. by rewrite Hc in Hb'.
  - rewrite !str_cons_app in E. injection E as -> E. by destruct (IH _ E) as [-> ->].
Qed.

Lemma itoa_no_byte c n : 0 ≤ n → digit c = None → contains_byte c (itoa n) = false.
Proof.
  intros Hn Hc. pose proof (digits_itoa n Hn) as E. unfold digits in E.
  destruct (itoa n) eqn:Ei; [done|]. by apply (digits_go_bytes _ _ _ E).
Qed.
