(* ===== verification/GoFloat.v ===== *)
(** * Go floats

    A [float64] is a [spec_float] of 53 bits, computed with the rounding of
    IEEE 754. *)

From Stdlib Require Export SpecFloat.
From S2P Require Import Prelude.

Definition float64 : Type := spec_float.
Definition prec : Z := 53.
Definition emax : Z := 1024.
Definition of_int (z : Z) : float64 := binary_normalize prec emax z 0 false.
Definition fsub (x y : float64) : float64 := SFsub prec emax x y.
Definition fdiv (x y : float64) : float64 := SFdiv prec emax x y.
Definition zero64 : float64 := S754_zero false.
Definition is_nan (x : float64) : bool := match x with S754_nan => true | _ => false end.
Definition is_inf (x : float64) : bool := match x with S754_infinity _ => true | _ => false end.
