(* ===== verification/GoFormat.v ===== *)
(** * Texts of durations and floats

    [time.Duration.String], and [%.nf] of a float: the decimal of [n] places that
    is nearest to the binary number, ties to the even digit, as [strconv] rounds
    a number it holds exactly. *)

From S2P Require Import Prelude GoStrings GoFloat.
From Stdlib Require Import Ascii.

(** ** Durations *)

Definition digit_char (d : Z) : ascii := ascii_of_nat (Z.to_nat (48 + d)).

(** [fmtFrac]: the last [prec] digits of [v] without trailing zeros, after a point,
    and what is left of [v]. *)
Fixpoint fmt_frac (prec : nat) (v : Z) (print : bool) (buf : string) : string * Z :=
  match prec with
  | O => (if print then "." +:+ buf else buf, v)
  | S prec =>
      let digit := v mod 10 in
      let print := print || negb (digit =? 0) in
      fmt_frac prec (v / 10) print (if print then String (digit_char digit) buf else buf)
  end.

Definition Duration_String (d : Z) : string :=
  let u := Z.abs d in
  let sign := if d <? 0 then "-" else "" in
  let unit prec suffix := let '(frac, v) := fmt_frac prec u false suffix in sign +:+ itoa v +:+ frac in
  if u =? 0 then "0s"
  else if u <? Microsecond then unit 0%nat "ns"
  else if u <? Millisecond then unit 3%nat "µs"
  else if u <? Second then unit 6%nat "ms"
  else
    let '(frac, secs) := fmt_frac 9 u false "s" in
    let s := itoa (secs mod 60) +:+ frac in
    let mins := secs / 60 in
    sign +:+
    (if 0 <? mins then
       let m := itoa (mins mod 60) +:+ "m" +:+ s in
       let hours := mins / 60 in
       if 0 <? hours then itoa hours +:+ "h" +:+ m else m
     else s).

(** ** Floats *)

(** The integer nearest to [n / d], the even one of two. *)
Definition round_half_even (n d : Z) : Z :=
  let q := n / d in let r := n mod d in
  if 2 * r <? d then q else if d <? 2 * r then q + 1 else if Z.even q then q else q + 1.

(** [m * 2^e] in units of [10^-places]. *)
Definition scaled (places : nat) (m e : Z) : Z :=
  if 0 <=? e then m * 10 ^ Z.of_nat places * 2 ^ e
  else round_half_even (m * 10 ^ Z.of_nat places) (2 ^ (- e)).

(** The last [n] digits of [v]. *)
Fixpoint last_digits (n : nat) (v : Z) (buf : string) : string :=
  match n with O => buf | S n => last_digits n (v / 10) (String (digit_char (v mod 10)) buf) end.

Definition decimal (places : nat) (neg : bool) (v : Z) : string :=
  let scale := 10 ^ Z.of_nat places in
  (if neg then "-" else "") +:+ itoa (v / scale) +:+
  (if (places =? 0)%nat then "" else "." +:+ last_digits places v "").

(** [%.nf] *)
Definition FormatFixed (places : nat) (x : float64) : string :=
  match x with
  | S754_zero s => decimal places s 0
  | S754_infinity s => if s then "-Inf" else "+Inf"
  | S754_nan => "NaN"
  | S754_finite s m e => decimal places s (scaled places (Zpos m) e)
  end.

(** ** Lemmas *)

Lemma round_half_even_near n d : 0 < d → 2 * Z.abs (d * round_half_even n d - n) ≤ d.
Proof.
  intros Hd. unfold round_half_even. pose proof (Z.div_mod n d). pose proof (Z.mod_pos_bound n d Hd).
  repeat case_match; try lia;
    repeat match goal with H : (_ <? _) = _ |- _ => first [apply Z.ltb_lt in H|apply Z.ltb_ge in H] end; lia.
Qed.

(** The value of digits is that of the number. *)
Lemma last_digits_read n v buf acc :
  0 ≤ v → digits_go acc (last_digits n v buf) = digits_go (acc * 10 ^ Z.of_nat n + v mod 10 ^ Z.of_nat n) buf.
Proof.
  intros Hv. revert v buf acc Hv. induction n as [|n IH]; intros v buf acc Hv; simpl last_digits.
  { change (10 ^ Z.of_nat 0) with 1. by rewrite Z.mod_1_r, Z.mul_1_r, Z.add_0_r. }
  rewrite IH by (apply Z.div_pos; lia). cbn [digits_go].
  assert (digit (digit_char (v mod 10)) = Some (v mod 10)) as ->.
  { pose proof (Z.mod_pos_bound v 10 ltac:(lia)) as Hb. unfold digit, digit_char.
    assert (v mod 10 ∈ map Z.of_nat (seq 0 10)) as Hin.
    { apply list_elem_of_In, in_map_iff. exists (Z.to_nat (v mod 10)). split; [lia|]. apply in_seq. lia. }
    simpl in Hin. rewrite !elem_of_cons in Hin.
    destruct_or! Hin; try (rewrite Hin; by vm_compute). by apply elem_of_nil in Hin. }
  f_equal. rewrite Nat2Z.inj_succ, Z.pow_succ_r by lia.
  rewrite (Z.rem_mul_r v 10 (10 ^ Z.of_nat n)) by lia. lia.
Qed.

Example durations :
  Duration_String 0 = "0s" ∧ Duration_String 1500 = "1.5µs" ∧ Duration_String (-2 * Millisecond) = "-2ms" ∧
  Duration_String (90 * Minute + 500 * Millisecond) = "1h30m0.5s" ∧ Duration_String (61 * Second) = "1m1s".
Proof. vm_compute. repeat split. Qed.

Example floats :
  FormatFixed 4 (fdiv (of_int 1) (of_int 3)) = "0.3333" ∧ FormatFixed 2 (fdiv (of_int (-5)) (of_int 2)) = "-2.50" ∧
  FormatFixed 0 (fdiv (of_int 5) (of_int 2)) = "2" ∧ FormatFixed 2 (of_int 1234567) = "1234567.00".
Proof. vm_compute. repeat split. Qed.

(** The text of a finite float has the asked number of places, and its value is the
    nearest one with so many: at most half a unit of the last place away. *)
Theorem format_fixed_near places s m e :
  (0 < places)%nat →
  let x := S754_finite s m e in let scale := 10 ^ Z.of_nat places in
  ∃ v, FormatFixed places x = (if s then "-" else "") +:+ itoa (v / scale) +:+ "." +:+ last_digits places v "" ∧
    0 ≤ v ∧ digits (itoa (v / scale)) = Some (v / scale) ∧
    digits_go 0 (last_digits places v "") = Some (v mod scale) ∧
    (0 ≤ e → v = Zpos m * scale * 2 ^ e) ∧
    (e < 0 → 2 * Z.abs (2 ^ (- e) * v - Zpos m * scale) ≤ 2 ^ (- e)).
Proof.
  intros Hp x scale. exists (scaled places (Zpos m) e).
  assert (0 < scale) as Hs by (unfold scale; apply Z.pow_pos_nonneg; lia).
  assert (0 ≤ scaled places (Zpos m) e) as H0.
  { unfold scaled. fold scale. destruct (Z.leb_spec 0 e).
    - pose proof (Z.pow_pos_nonneg 2 e). nia.
    - assert (0 < 2 ^ (- e)) by (apply Z.pow_pos_nonneg; lia). unfold round_half_even.
      assert (0 ≤ Zpos m * scale / 2 ^ (- e)) by (apply Z.div_pos; lia). repeat case_match; lia. }
  split. { unfold FormatFixed, x, decimal. by rewrite (proj2 (Nat.eqb_neq places 0)) by lia. }
  split; [done|]. split; [apply digits_itoa, Z.div_pos; lia|]. split.
  { rewrite last_digits_read by done. by rewrite Z.mul_0_l, Z.add_0_l. }
  unfold scaled. fold scale. split; intros He.
  - by rewrite (proj2 (Z.leb_le 0 e)) by done.
  - rewrite (proj2 (Z.leb_gt 0 e)) by done. apply round_half_even_near, Z.pow_pos_nonneg; lia.
Qed.
