(* ===== verification/GoErr.v ===== *)
(** * Go errors

    An [error] is a value with a text and, when it wraps others, the errors its
    [Unwrap] method yields. A nil error is [None] of [option error]. *)

From S2P Require Import Prelude GoStrings.

(** - [ENew id msg]: a sentinel made by [errors.New]; two of them are the same
      error when they are the same variable, which [id] names;
    - [EFmt parts]: the result of [fmt.Errorf], with a part per piece of text,
      per [%w] operand (wrapped) and per [%v] or [%s] error operand (shown);
    - [EPermanent e]: [retry.permanentError];
    - [EStatus code body e]: [apierr.StatusError];
    - [ECustom id msg perm inner]: an error type of a caller; [perm] is the
      answer of its [Permanent() bool] method, when it has one; [inner] holds
      what it unwraps to. *)
Inductive error : Type :=
| ENew (id msg : string)
| EFmt (ps : parts)
| EPermanent (e : error)
| EStatus (code : Z) (body : string) (e : error)
| ECustom (id msg : string) (perm : option bool) (inner : parts)
with parts : Type :=
| PNil
| PText (s : string) (ps : parts)
| PWrap (e : error) (ps : parts)
| PShow (e : error) (ps : parts).

Scheme error_mut := Induction for error Sort Prop
with parts_mut := Induction for parts Sort Prop.
Combined Scheme error_parts_ind from error_mut, parts_mut.

(** The text of an error ([Error()]). *)
Fixpoint error_text (e : error) : string :=
  match e with
  | ENew _ msg => msg
  | EFmt ps => parts_text ps
  | EPermanent e => error_text e
  | EStatus code body e =>
      if decide (body = "")
      then error_text e +:+ ": " +:+ itoa code
      else error_text e +:+ ": " +:+ itoa code +:+ " " +:+ body
  | ECustom _ msg _ _ => msg
  end
with parts_text (ps : parts) : string :=
  match ps with
  | PNil => ""
  | PText s ps => s +:+ parts_text ps
  | PWrap e ps | PShow e ps => error_text e +:+ parts_text ps
  end.

(** [errors.Is(e, sentinel)], the sentinel named by its variable. *)
Fixpoint is_err (target : string) (e : error) : bool :=
  match e with
  | ENew id _ => bool_decide (id = target)
  | EFmt ps => is_parts target ps
  | EPermanent e => is_err target e
  | EStatus _ _ e => is_err target e
  | ECustom id _ _ ps => bool_decide (id = target) || is_parts target ps
  end
with is_parts (target : string) (ps : parts) : bool :=
  match ps with
  | PNil => false
  | PText _ ps | PShow _ ps => is_parts target ps
  | PWrap e ps => is_err target e || is_parts target ps
  end.

(** [errors.As(e, &pe)] for the interface [PermanentError]: the answer of the
    first error of the chain, depth first, that has a [Permanent] method. *)
Fixpoint as_permanent (e : error) : option bool :=
  match e with
  | ENew _ _ => None
  | EFmt ps => as_permanent_parts ps
  | EPermanent _ => Some true
  | EStatus _ _ e => as_permanent e
  | ECustom _ _ (Some b) _ => Some b
  | ECustom _ _ None ps => as_permanent_parts ps
  end
with as_permanent_parts (ps : parts) : option bool :=
  match ps with
  | PNil => None
  | PText _ ps | PShow _ ps => as_permanent_parts ps
  | PWrap e ps =>
      match as_permanent e with
      | Some b => Some b
      | None => as_permanent_parts ps
      end
  end.

(** [errors.Is] on a possibly nil error. *)
Definition errors_is (target : string) (oe : option error) : bool :=
  match oe with Some e => is_err target e | None => false end.

(** [fmt.Errorf("<pre>%w", e)] *)
Definition wrap_pre (pre : string) (e : error) : error :=
  EFmt (PText pre (PWrap e PNil)).
(** [fmt.Errorf("%w<post>", e)] *)
Definition wrap_post (e : error) (post : string) : error :=
  EFmt (PWrap e (PText post PNil)).

(** The sentinels of Go's [context] package. *)
Definition context_Canceled : error := ENew "context.Canceled" "context canceled".
Definition context_DeadlineExceeded : error :=
  ENew "context.DeadlineExceeded" "context deadline exceeded".

(** ** Wrapping keeps what it wraps *)

Lemma is_err_wrap_pre t pre e : is_err t (wrap_pre pre e) = is_err t e.
Proof. simpl. apply orb_false_r. Qed.

Lemma is_err_wrap_post t post e : is_err t (wrap_post e post) = is_err t e.
Proof. simpl. apply orb_false_r. Qed.

Lemma as_permanent_wrap_pre pre e : as_permanent (wrap_pre pre e) = as_permanent e.
Proof. simpl. by destruct (as_permanent e). Qed.

#[export] Hint Rewrite is_err_wrap_pre is_err_wrap_post as_permanent_wrap_pre : go_rw.
