(* ===== verification/GoMonad.v ===== *)
(** * Effects of Go code

    Code that calls functions it was given (a step body, a hook, a callback)
    runs in a world [W], which stands for all the state those functions can
    read or change. It returns, or panics with a value, and leaves a world in
    either case. *)

From S2P Require Import Prelude.

Inductive outcome (A : Type) := Returned (a : A) | Panicked (p : string).
Arguments Returned {A}.
Arguments Panicked {A}.

Definition go (W A : Type) : Type := W → outcome A * W.

#[export] Instance go_ret W : MRet (go W) := λ A a w, (Returned a, w).
#[export] Instance go_bind W : MBind (go W) := λ A B f m w,
  match m w with
  | (Returned a, w') => f a w'
  | (Panicked p, w') => (Panicked p, w')
  end.

(** [defer func() { if r := recover(); r != nil { ... } }()] *)
Definition recover {W A} (handle : string → A) (m : go W A) : go W A := λ w,
  match m w with
  | (Panicked p, w') => (Returned (handle p), w')
  | r => r
  end.

(** Reading the world. *)
Definition reads {W A} (f : W → A) : go W A := λ w, (Returned (f w), w).
(** An operation on the world that does not panic. *)
Definition does {W A} (f : W → A * W) : go W A := λ w, let '(a, w') := f w in (Returned a, w').

(** Calling a function value that may be nil, when the caller tests it. *)
Definition call_if {W A} (d : A) (m : option (go W A)) : go W A :=
  match m with Some m => m | None => mret d end.

(** [m] never panics. *)
Definition no_panic {W A} (m : go W A) : Prop := ∀ w, ∃ a w', m w = (Returned a, w').

(** [m] keeps [P] of the world, panicking or not. *)
Definition keeps {W A} (P : W → Prop) (m : go W A) : Prop := ∀ w, P w → P (m w).2.

Lemma bind_returned {W A B} (m : go W A) (f : A → go W B) w r w' :
  (m ≫= f) w = (Returned r, w') →
  ∃ a w1, m w = (Returned a, w1) ∧ f a w1 = (Returned r, w').
Proof. cbv [mbind go_bind]. destruct (m w) as [[a|p] w1]; [eauto|done]. Qed.

Lemma bind_eq {W A B} (m : go W A) (f : A → go W B) w a w1 :
  m w = (Returned a, w1) → (m ≫= f) w = f a w1.
Proof. cbv [mbind go_bind]. by intros ->. Qed.

Lemma recover_no_panic {W A} (h : string → A) (m : go W A) : no_panic (recover h m).
Proof. intros w. unfold recover. destruct (m w) as [[a|p] w']; eauto. Qed.

Lemma no_panic_bind {W A B} (m : go W A) (f : A → go W B) :
  no_panic m → (∀ a, no_panic (f a)) → no_panic (m ≫= f).
Proof.
  intros Hm Hf w. destruct (Hm w) as (a & w1 & E). rewrite (bind_eq _ _ _ _ _ E). apply Hf.
Qed.

Lemma no_panic_ret {W A} (a : A) : no_panic (W:=W) (mret a).
Proof. intros w. by exists a, w. Qed.

Lemma no_panic_reads {W A} (f : W → A) : no_panic (reads f).
Proof. intros w. by exists (f w), w. Qed.

Lemma no_panic_does {W A} (f : W → A * W) : no_panic (does f).
Proof. intros w. unfold does. destruct (f w) as [a w']. by exists a, w'. Qed.

Lemma keeps_bind {W A B} P (m : go W A) (f : A → go W B) :
  keeps P m → (∀ a, keeps P (f a)) → keeps P (m ≫= f).
Proof.
  intros Hm Hf w Hw. cbv [mbind go_bind]. specialize (Hm w Hw).
  destruct (m w) as [[a|p] w1]; [by apply Hf|done].
Qed.

Lemma keeps_ret {W A} P (a : A) : keeps (W:=W) P (mret a).
Proof. by intros w Hw. Qed.

Lemma keeps_call_if {W A} P (d : A) (m : option (go W A)) :
  (∀ m', m = Some m' → keeps P m') → keeps P (call_if d m).
Proof. intros H. destruct m; [by apply H|by apply keeps_ret]. Qed.

#[export] Hint Resolve keeps_bind keeps_ret keeps_call_if recover_no_panic : go.
#[export] Hint Resolve no_panic_ret no_panic_reads no_panic_does : go.

(** A sequence of operations does not panic when none of them does. *)
Ltac no_panic :=
  repeat first [solve [eauto with go]|apply no_panic_bind; [|intros ?]|case_match].

(** Inversion of a sequence of operations that returned. *)
Ltac go_inv :=
  repeat match goal with
  | H : (_ ≫= _) _ = (Returned _, _) |- _ =>
      let a := fresh "a" in let w := fresh "w" in let E := fresh "E" in
      apply bind_returned in H as (a & w & E & H)
  | H : mret _ _ = (Returned _, _) |- _ => cbv [mret go_ret] in H; simplify_eq
  | H : reads _ _ = (Returned _, _) |- _ => cbv [reads] in H; simplify_eq
  end.

(** ** Partial correctness

    [triple P m Q]: from a world with [P], when [m] returns [a], [Q a] holds of
    the world it leaves. *)
Definition triple {W A} (P : W → Prop) (m : go W A) (Q : A → W → Prop) : Prop :=
  ∀ w a w', P w → m w = (Returned a, w') → Q a w'.

Lemma triple_ret {W A} (P : W → Prop) (a : A) (Q : A → W → Prop) :
  (∀ w, P w → Q a w) → triple P (mret a) Q.
Proof. intros H w a' w' Hp. cbv [mret go_ret]. intros [= <- <-]. auto. Qed.

Lemma triple_bind {W A B} P (m : go W A) (f : A → go W B) R Q :
  triple P m R → (∀ a, triple (R a) (f a) Q) → triple P (m ≫= f) Q.
Proof. intros Hm Hf w b w' Hp (a & w1 & E1 & E2)%bind_returned. eapply Hf; eauto. Qed.

Lemma triple_conseq {W A} (P P' : W → Prop) (m : go W A) (Q Q' : A → W → Prop) :
  triple P m Q → (∀ w, P' w → P w) → (∀ a w, Q a w → Q' a w) → triple P' m Q'.
Proof. intros H HP HQ w a w' Hp E. eauto. Qed.

Lemma triple_does {W A} P (f : W → A * W) (Q : A → W → Prop) :
  (∀ w, P w → Q (f w).1 (f w).2) → triple P (does f) Q.
Proof.
  intros H w a w' Hp. unfold does. specialize (H w Hp). destruct (f w). intros [= <- <-]. exact H.
Qed.

Lemma triple_reads {W A} P (f : W → A) (Q : A → W → Prop) :
  (∀ w, P w → Q (f w) w) → triple P (reads f) Q.
Proof. intros H w a w' Hp. unfold reads. intros [= <- <-]. auto. Qed.
