(* ===== verification/Invariant.v ===== *)
(** * governance/invariant: the outcome of one check and of a suite

    [src/go/governance/invariant/invariant.go]. A [Builder] is a value the
    source mutates through a pointer; each method is a function from the
    builder to the builder it leaves. The text [fmt.Sprintf(format, a...)]
    makes is the argument [msg]. *)

From S2P Require Import Prelude GoStrings.

Module invariant.

(** A Go [string] type: other values than the three constants can be made. *)
Definition Status : Type := string.
Definition Pass : Status := "PASS".
Definition Fail : Status := "FAIL".
Definition Anomaly : Status := "ANOMALY".

Record Check := mkCheck {
  Name : string;
  Invariant : Z;
  check_Status : Status;
  Evidence : list string
}.

Record Labels := mkLabels { label_Fail : string; label_Anomaly : string }.

Definition DefaultFailLabel : string := "FAIL: ".
Definition DefaultAnomalyLabel : string := "ANOMALY: ".
Definition DefaultLabels : Labels := mkLabels DefaultFailLabel DefaultAnomalyLabel.

Record Builder := mkBuilder { check : Check; labels : Labels }.

(** An [Option] of the constructor is a function on the builder. *)
Definition WithLabels (l : Labels) (b : Builder) : Builder := mkBuilder (check b) l.

Definition New (name : string) (inv : Z) (opts : list (Builder → Builder)) : Builder :=
  fold_left (λ b opt, opt b) opts (mkBuilder (mkCheck name inv Pass []) DefaultLabels).

Definition Failf (msg : string) (b : Builder) : Builder :=
  let c := check b in
  mkBuilder (mkCheck (Name c) (Invariant c) Fail
               (Evidence c ++ [label_Fail (labels b) +:+ msg])) (labels b).

Definition Anomalyf (msg : string) (b : Builder) : Builder :=
  let c := check b in
  let st := if decide (check_Status c ≠ Fail) then Anomaly else check_Status c in
  mkBuilder (mkCheck (Name c) (Invariant c) st
               (Evidence c ++ [label_Anomaly (labels b) +:+ msg])) (labels b).

Definition Notef (msg : string) (b : Builder) : Builder :=
  let c := check b in
  mkBuilder (mkCheck (Name c) (Invariant c) (check_Status c) (Evidence c ++ [msg]))
    (labels b).

Definition StatusOf (b : Builder) : Status := check_Status (check b).
Definition Done (b : Builder) : Check := check b.

(** A rule of a suite over subjects [T]. *)
Record Rule (T : Type) := mkRule {
  rule_Name : string;
  rule_Invariant : Z;
  Eval : T → Check
}.
Arguments mkRule {T}.
Arguments Eval {T}.

Definition Evaluate {T : Type} (subject : T) (rules : list (Rule T)) : list Check :=
  fold_left (λ checks r, checks ++ [Eval r subject]) rules [].

(** [rankFail], [rankAnomaly], [rankPass]; any other status ranks as a pass. *)
Definition severity (s : Status) : Z :=
  if decide (s = Fail) then 2
  else if decide (s = Anomaly) then 1
  else if decide (s = Pass) then 0
  else 0.

Definition Verdict (checks : list Check) : Status :=
  fold_left (λ worst c,
    if severity worst <? severity (check_Status c) then check_Status c else worst)
    checks Pass.

(** [sort.Strings]: byte order. *)
Definition sort_Strings (l : list string) : list string := merge_sort String.le l.

Definition namesWithStatus (checks : list Check) (want : Status) : list string :=
  sort_Strings
    (fold_left (λ out c,
       if decide (check_Status c = want) then out ++ [Name c] else out) checks []).

Definition Failed (checks : list Check) : list string := namesWithStatus checks Fail.
Definition Anomalous (checks : list Check) : list string := namesWithStatus checks Anomaly.

(** ** What a rule records, and the specification of its outcome *)

Inductive Obs := OFail (msg : string) | OAnomaly (msg : string) | ONote (msg : string).

Definition observe (b : Builder) (o : Obs) : Builder :=
  match o with
  | OFail m => Failf m b
  | OAnomaly m => Anomalyf m b
  | ONote m => Notef m b
  end.

Definition record (b : Builder) (os : list Obs) : Builder := fold_left observe os b.

Definition is_fail (o : Obs) : bool := match o with OFail _ => true | _ => false end.
Definition is_anomaly (o : Obs) : bool := match o with OAnomaly _ => true | _ => false end.

(** The status the observations stand for, whatever their order. *)
Definition status_spec (os : list Obs) : Status :=
  if existsb is_fail os then Fail
  else if existsb is_anomaly os then Anomaly else Pass.

Definition line_of (l : Labels) (o : Obs) : string :=
  match o with
  | OFail m => label_Fail l +:+ m
  | OAnomaly m => label_Anomaly l +:+ m
  | ONote m => m
  end.

(** ** Lemmas *)

Lemma record_snoc b os o : record b (os ++ [o]) = observe (record b os) o.
Proof. apply fold_left_snoc. Qed.

Lemma record_labels b os : labels (record b os) = labels b.
Proof.
  induction os as [|o os IH] using rev_ind; [done|].
  rewrite record_snoc. by destruct o.
Qed.

Lemma record_evidence b os :
  Evidence (check (record b os)) = Evidence (check b) ++ (line_of (labels b) <$> os).
Proof.
  induction os as [|o os IH] using rev_ind; [by rewrite app_nil_r|].
  rewrite record_snoc, fmap_app, (assoc_L (++)), <- IH, <- (record_labels b os).
  by destruct o.
Qed.

Lemma status_spec_snoc os o :
  status_spec (os ++ [o]) =
  match o with
  | OFail _ => Fail
  | OAnomaly _ => if decide (status_spec os ≠ Fail) then Anomaly else status_spec os
  | ONote _ => status_spec os
  end.
Proof.
  unfold status_spec. rewrite !existsb_app.
  destruct o, (existsb is_fail os), (existsb is_anomaly os); done.
Qed.

Lemma record_status b os :
  check_Status (check b) = Pass →
  check_Status (check (record b os)) = status_spec os.
Proof.
  intros Hb. induction os as [|o os IH] using rev_ind; [done|].
  rewrite record_snoc, status_spec_snoc. destruct o; simpl; by rewrite ?IH.
Qed.

Lemma status_spec_perm os os' : os ≡ₚ os' → status_spec os = status_spec os'.
Proof.
  intros Hp. unfold status_spec.
  assert (∀ (f : Obs → bool) l l', l ≡ₚ l' → existsb f l = true → existsb f l' = true) as Hi.
  { intros f l l' Hl (x & Hx & Hf)%existsb_exists. apply existsb_exists.
    exists x. split; [|done]. apply list_elem_of_In. rewrite <- Hl. by apply list_elem_of_In. }
  assert (∀ f : Obs → bool, existsb f os = existsb f os') as He.
  { intros f. apply eq_true_iff_eq. split; apply Hi; by rewrite Hp. }
  by rewrite !He.
Qed.

Lemma severity_cases s :
  (s = Fail ∧ severity s = 2) ∨ (s = Anomaly ∧ severity s = 1) ∨
  (s ≠ Fail ∧ s ≠ Anomaly ∧ severity s = 0).
Proof. unfold severity. repeat case_decide; naive_solver. Qed.

Lemma severity_inj s t : severity s = severity t → 0 < severity s → s = t.
Proof.
  destruct (severity_cases s) as [[-> E]|[[-> E]|(? & ? & E)]]; rewrite E;
    destruct (severity_cases t) as [[-> E']|[[-> E']|(? & ? & E')]]; rewrite E'; try done; lia.
Qed.

(** The verdict is a status of the checks, or [Pass], and none outranks it. *)
Lemma verdict_worst checks :
  (Verdict checks = Pass ∨ Verdict checks ∈ check_Status <$> checks) ∧
  (∀ c, c ∈ checks → severity (check_Status c) ≤ severity (Verdict checks)).
Proof.
  unfold Verdict.
  apply (fold_left_ind (λ l w, (w = Pass ∨ w ∈ check_Status <$> l) ∧
           (∀ c, c ∈ l → severity (check_Status c) ≤ severity w))).
  { split; [by left|]. intros c Hc. by apply elem_of_nil in Hc. }
  intros done c w [Hin Hle]. rewrite fmap_app.
  destruct (Z.ltb_spec (severity w) (severity (check_Status c))) as [Hlt|Hge].
  - split; [right; set_solver|]. intros c' [?%Hle| ->%list_elem_of_singleton]%elem_of_app; lia.
  - split; [set_solver|]. intros c' [?%Hle| ->%list_elem_of_singleton]%elem_of_app; lia.
Qed.

Lemma names_filter checks want :
  fold_left (λ out c, if decide (check_Status c = want) then out ++ [Name c] else out)
    checks [] = Name <$> filter (λ c, check_Status c = want) checks.
Proof.
  induction checks as [|c l IH] using rev_ind; [done|].
  rewrite fold_left_snoc, IH, filter_app, fmap_app. simpl.
  case_decide.
  - by rewrite filter_cons_True.
  - by rewrite filter_cons_False, app_nil_r.
Qed.

Lemma failed_perm checks :
  Failed checks ≡ₚ (Name <$> filter (λ c, check_Status c = Fail) checks).
Proof.
  unfold Failed, namesWithStatus, sort_Strings. rewrite names_filter.
  apply merge_sort_Permutation.
Qed.

Lemma verdict_cases checks :
  Verdict checks = Fail ∨ Verdict checks = Anomaly ∨ Verdict checks = Pass.
Proof.
  unfold Verdict.
  apply (fold_left_ind (λ _ w, w = Fail ∨ w = Anomaly ∨ w = Pass)); [auto|].
  intros done c w IH.
  destruct (Z.ltb_spec (severity w) (severity (check_Status c))); [|done].
  pose proof (severity_cases w). destruct (severity_cases (check_Status c)) as [[? _]|[[? _]|(_ & _ & Ev)]]; [auto..|].
  naive_solver lia.
Qed.

Lemma verdict_attained checks s :
  s ≠ Pass → Verdict checks = s → ∃ c, c ∈ checks ∧ check_Status c = s.
Proof.
  intros Hs E. destruct (verdict_worst checks) as [Hin _]. rewrite E in Hin.
  destruct Hin as [|(c & ? & ?)%list_elem_of_fmap]; [done|]. by exists c.
Qed.

Lemma verdict_fail_iff checks :
  Verdict checks = Fail ↔ ∃ c, c ∈ checks ∧ check_Status c = Fail.
Proof.
  split; [by apply verdict_attained|].
  intros (c & Hc & E). destruct (verdict_worst checks) as [_ Hle].
  apply Hle in Hc. rewrite E in Hc.
  destruct (verdict_cases checks) as [?|[Ev|Ev]]; [done|..];
    rewrite Ev in Hc; by vm_compute in Hc.
Qed.

Lemma verdict_anomaly_iff checks :
  Verdict checks = Anomaly ↔
    (∀ c, c ∈ checks → check_Status c ≠ Fail) ∧
    ∃ c, c ∈ checks ∧ check_Status c = Anomaly.
Proof.
  split.
  - intros E. split; [|by apply verdict_attained].
    intros c Hc Ef. rewrite (proj2 (verdict_fail_iff checks)) in E by eauto. done.
  - intros [Hno (c & Hc & E)]. destruct (verdict_worst checks) as [_ Hle].
    apply Hle in Hc. rewrite E in Hc.
    destruct (verdict_cases checks) as [Ef|[?|Ev]]; [|done|].
    + apply verdict_fail_iff in Ef as (c' & ? & ?). naive_solver.
    + rewrite Ev in Hc. by vm_compute in Hc.
Qed.

Lemma failed_nonempty_iff checks :
  Failed checks ≠ [] ↔ ∃ c, c ∈ checks ∧ check_Status c = Fail.
Proof.
  pose proof (failed_perm checks) as Hp. split.
  - intros Hnn. destruct (filter (λ c, check_Status c = Fail) checks) as [|c l] eqn:Ef.
    + symmetry in Hp. by apply Permutation_nil_l in Hp.
    + exists c. assert (c ∈ c :: l) as Hc by set_solver. rewrite <- Ef in Hc.
      apply list_elem_of_filter in Hc. naive_solver.
  - intros (c & Hc & E) Hnil. rewrite Hnil in Hp.
    apply Permutation_nil_l in Hp. symmetry in Hp. apply fmap_nil_inv in Hp.
    assert (c ∈ filter (λ c, check_Status c = Fail) checks) as Hf
      by (by apply list_elem_of_filter).
    rewrite Hp in Hf. by apply elem_of_nil in Hf.
Qed.

(** ** Properties *)

(** A rule may record its observations in any order: after any sequence of
    Failf, Anomalyf and Notef calls on a new builder, Done has status FAIL when
    one of them was a failure, else ANOMALY when one was an anomaly, else PASS,
    its evidence holds every line, prefixed and in the order recorded, and a
    reordering of the calls leaves the status the same. *)
Theorem builder_outcome name inv l os os' :
  let b := New name inv [WithLabels l] in
  let c := Done (record b os) in
  Name c = name ∧ Invariant c = inv ∧
  check_Status c = status_spec os ∧
  Evidence c = (line_of l <$> os) ∧
  (os ≡ₚ os' → check_Status (Done (record b os')) = check_Status c).
Proof.
  intros b c.
  assert (Name c = name ∧ Invariant c = inv) as [Hn Hi].
  { subst c. clear os'. induction os as [|o os IH] using rev_ind; [done|].
    rewrite record_snoc. by destruct o. }
  do 2 (split; [done|]).
  assert (check_Status (check b) = Pass) as Hb by done.
  subst c. unfold Done. rewrite !record_status by done.
  split; [done|]. split; [by rewrite record_evidence|].
  symmetry. by apply status_spec_perm.
Qed.

(** The verdict of a suite is the worst status: FAIL exactly when some
    check failed, ANOMALY exactly when none failed and some reported an anomaly,
    PASS in every other case, the empty suite included; it agrees with the
    summary list, which holds the names of the failed checks, sorted. *)
Theorem verdict_spec checks :
  (Verdict checks = Fail ↔ ∃ c, c ∈ checks ∧ check_Status c = Fail) ∧
  (Verdict checks = Anomaly ↔
     (∀ c, c ∈ checks → check_Status c ≠ Fail) ∧
     ∃ c, c ∈ checks ∧ check_Status c = Anomaly) ∧
  (Verdict checks = Fail ∨ Verdict checks = Anomaly ∨ Verdict checks = Pass) ∧
  (Verdict checks = Fail ↔ Failed checks ≠ []) ∧
  Sorted String.le (Failed checks) ∧
  Failed checks ≡ₚ (Name <$> filter (λ c, check_Status c = Fail) checks).
Proof.
  split; [apply verdict_fail_iff|]. split; [apply verdict_anomaly_iff|].
  split; [apply verdict_cases|].
  split; [by rewrite verdict_fail_iff, failed_nonempty_iff|].
  split; [apply Sorted_merge_sort, _|apply failed_perm].
Qed.

End invariant.
