(* ===== verification/Plan.v ===== *)
(** * governance: scope, classification, hierarchy, plan, exports

    [src/go/governance/{scope,classification,hierarchy,plan,exports}]. The Go
    types [Tier] and [Scope] are integers, so values besides the named constants
    exist and reach the default branches. The maps [seen] of the validators are
    finite sets. *)

From S2P Require Import Prelude GoStrings GoErr.

Module scope.

Definition Scope : Type := Z.
Definition Organization : Scope := 0.
Definition Container : Scope := 1.

Definition SupportsClassification (s : Scope) : bool := s =? Organization.
Definition SupportsOrgExport (s : Scope) : bool := s =? Organization.

Definition String (s : Scope) : string :=
  if s =? Organization then "organization"
  else if s =? Container then "container" else "unknown".

End scope.

Module exports.

Definition OrgID : string := "orgId".
Definition BillingAccount : string := "billingAccount".
Definition RootFolderID : string := "rootFolderId".
Definition FolderIDs : string := "folderIds".
Definition TagKeyID (dimension : string) : string := dimension +:+ "TagKeyId".

End exports.

Module classification.

Definition ErrShortNameRequired : error :=
  ENew "classification.ErrShortNameRequired" "classification: ShortName is required".
Definition ErrDescriptionRequired : error :=
  ENew "classification.ErrDescriptionRequired" "classification: Description is required".
Definition ErrNoDimensions : error :=
  ENew "classification.ErrNoDimensions" "classification: at least one dimension is required".
Definition ErrDuplicateShortName : error :=
  ENew "classification.ErrDuplicateShortName" "classification: duplicate ShortName".

Record Dimension := mkDimension { ShortName : string; Description : string }.

Definition Validate (d : Dimension) : option error :=
  fails ErrShortNameRequired when decide (ShortName d = "") ;;?
  fails ErrDescriptionRequired when decide (Description d = "") ;;?
  None.

Fixpoint ValidateAll_loop (seen : gset string) (dims : list Dimension) : option error :=
  match dims with
  | [] => None
  | d :: dims' =>
      Validate d ;;?
      if decide (ShortName d ∈ seen)
      then Some (wrap_post ErrDuplicateShortName (" " +:+ quote (ShortName d)))
      else ValidateAll_loop ({[ShortName d]} ∪ seen) dims'
  end.

Definition ValidateAll (dims : list Dimension) : option error :=
  if decide (length dims = 0%nat) then Some ErrNoDimensions
  else ValidateAll_loop ∅ dims.

End classification.

Module hierarchy.

Definition ErrParentRequired : error :=
  ENew "hierarchy.ErrParentRequired" "hierarchy: Parent is required".
Definition ErrRootNameRequired : error :=
  ENew "hierarchy.ErrRootNameRequired" "hierarchy: RootName is required".
Definition ErrEmptyChild : error :=
  ENew "hierarchy.ErrEmptyChild" "hierarchy: child name must not be empty".
Definition ErrDuplicateChild : error :=
  ENew "hierarchy.ErrDuplicateChild" "hierarchy: duplicate child".
Definition ErrNoChildren : error :=
  ENew "hierarchy.ErrNoChildren" "hierarchy: at least one child is required".

Record Config := mkConfig { Parent : string; RootName : string; Children : list string }.

Definition ValidateBase (c : Config) : option error :=
  fails ErrParentRequired when decide (Parent c = "") ;;?
  fails ErrRootNameRequired when decide (RootName c = "") ;;?
  None.

Fixpoint ValidateChildren_loop (seen : gset string) (l : list string) : option error :=
  match l with
  | [] => None
  | child :: l' =>
      if decide (child = "") then Some ErrEmptyChild
      else if decide (child ∈ seen)
      then Some (wrap_post ErrDuplicateChild (" " +:+ quote child))
      else ValidateChildren_loop ({[child]} ∪ seen) l'
  end.

Definition ValidateChildren (c : Config) : option error :=
  ValidateChildren_loop ∅ (Children c).

Definition Validate (c : Config) : option error :=
  ValidateBase c ;;?
  fails ErrNoChildren when decide (length (Children c) = 0%nat) ;;?
  ValidateChildren c.

End hierarchy.

Module plan.

Definition ErrTierViolation : error := ENew "plan.ErrTierViolation" "plan: tier violation".
Definition ErrScopeViolation : error := ENew "plan.ErrScopeViolation" "plan: scope violation".
Definition ErrUnknownTier : error := ENew "plan.ErrUnknownTier" "plan: unknown tier".

Definition Tier : Type := Z.
Definition Starter : Tier := 0.
Definition Standard : Tier := 1.
Definition Enterprise : Tier := 2.

Definition tierNameStarter : string := "starter".
Definition tierNameStandard : string := "standard".
Definition tierNameEnterprise : string := "enterprise".

Definition String (t : Tier) : string :=
  if t =? Starter then tierNameStarter
  else if t =? Standard then tierNameStandard
  else if t =? Enterprise then tierNameEnterprise
  else "unknown".

Definition ParseTier (s : string) : Tier * option error :=
  if decide (s = tierNameStarter) then (Starter, None)
  else if decide (s = tierNameStandard) then (Standard, None)
  else if decide (s = tierNameEnterprise) then (Enterprise, None)
  else (0, Some (wrap_post ErrUnknownTier (" " +:+ quote s))).

Record Plan := mkPlan {
  plan_Tier : Tier;
  plan_Scope : scope.Scope;
  Hierarchy : hierarchy.Config;
  Dimensions : list classification.Dimension;
  BillingAccount : string;
  OrgID : string
}.

Definition validateStarter (p : Plan) : option error :=
  fails wrap_post ErrTierViolation ": Starter tier does not support environment folders"
    when decide (0 < length (hierarchy.Children (Hierarchy p)))%nat ;;?
  fails wrap_post ErrTierViolation ": Starter tier does not support classification"
    when decide (0 < length (Dimensions p))%nat ;;?
  fails wrap_post ErrTierViolation ": Starter tier does not support billing export"
    when decide (BillingAccount p ≠ "") ;;?
  None.

Definition validateStandard (p : Plan) : option error :=
  fails wrap_post ErrTierViolation ": Standard tier requires at least one environment"
    when decide (length (hierarchy.Children (Hierarchy p)) = 0%nat) ;;?
  (wrap_pre "plan: " <$> hierarchy.ValidateChildren (Hierarchy p)) ;;?
  fails wrap_post ErrTierViolation ": Standard tier does not support classification"
    when decide (0 < length (Dimensions p))%nat ;;?
  fails wrap_post ErrTierViolation ": Standard tier does not support billing export"
    when decide (BillingAccount p ≠ "") ;;?
  None.

Definition validateEnterprise (p : Plan) : option error :=
  fails wrap_post ErrTierViolation ": Enterprise tier requires Organization scope"
    when decide (plan_Scope p ≠ scope.Organization) ;;?
  fails wrap_post ErrTierViolation ": Enterprise tier requires at least one environment"
    when decide (length (hierarchy.Children (Hierarchy p)) = 0%nat) ;;?
  (wrap_pre "plan: " <$> hierarchy.ValidateChildren (Hierarchy p)) ;;?
  (if decide (0 < length (Dimensions p))%nat
   then wrap_pre "plan: " <$> classification.ValidateAll (Dimensions p) else None) ;;?
  None.

Definition validateTier (p : Plan) : option error :=
  if plan_Tier p =? Starter then validateStarter p
  else if plan_Tier p =? Standard then validateStandard p
  else if plan_Tier p =? Enterprise then validateEnterprise p
  else None.

Definition validateScope (p : Plan) : option error :=
  fails wrap_post ErrScopeViolation ": OrgID is required for Organization scope"
    when scope.SupportsOrgExport (plan_Scope p) && bool_decide (OrgID p = "") ;;?
  fails wrap_post ErrScopeViolation ": OrgID must be empty for Container scope"
    when negb (scope.SupportsOrgExport (plan_Scope p)) && bool_decide (OrgID p ≠ "") ;;?
  None.

Definition Validate (p : Plan) : option error :=
  (wrap_pre "plan: " <$> hierarchy.ValidateBase (Hierarchy p)) ;;?
  validateTier p ;;?
  validateScope p.

(** The constructors return a nil plan with the error. *)
Definition validated (p : Plan) : option Plan * option error :=
  match Validate p with
  | Some e => (None, Some e)
  | None => (Some p, None)
  end.

Definition NewStarter (s : scope.Scope) (parent rootName orgID : string)
  : option Plan * option error :=
  validated (mkPlan Starter s (hierarchy.mkConfig parent rootName []) [] "" orgID).

Definition NewStandard (s : scope.Scope) (parent rootName : string)
    (environments : list string) (orgID : string) : option Plan * option error :=
  validated
    (mkPlan Standard s (hierarchy.mkConfig parent rootName environments) [] "" orgID).

Definition NewEnterprise (parent rootName : string) (environments : list string)
    (dims : list classification.Dimension) (billing orgID : string)
  : option Plan * option error :=
  validated
    (mkPlan Enterprise scope.Organization
       (hierarchy.mkConfig parent rootName environments) dims billing orgID).

(** ** The rules a plan has to meet, as a specification *)

Definition children_ok (l : list string) : Prop := NoDup l ∧ "" ∉ l.

Definition dims_ok (l : list classification.Dimension) : Prop :=
  NoDup (classification.ShortName <$> l) ∧
  Forall (λ d, classification.ShortName d ≠ "" ∧ classification.Description d ≠ "") l.

Definition tier_rules (p : Plan) : Prop :=
  let kids := hierarchy.Children (Hierarchy p) in
  (plan_Tier p = Starter → kids = [] ∧ Dimensions p = [] ∧ BillingAccount p = "") ∧
  (plan_Tier p = Standard →
     kids ≠ [] ∧ children_ok kids ∧ Dimensions p = [] ∧ BillingAccount p = "") ∧
  (plan_Tier p = Enterprise →
     plan_Scope p = scope.Organization ∧ kids ≠ [] ∧ children_ok kids ∧
     dims_ok (Dimensions p)).

Definition plan_rules (p : Plan) : Prop :=
  hierarchy.Parent (Hierarchy p) ≠ "" ∧ hierarchy.RootName (Hierarchy p) ≠ "" ∧
  tier_rules p ∧
  (plan_Scope p = scope.Organization ↔ OrgID p ≠ "").

(** ** Lemmas *)

Lemma seq_none (e1 e2 : option error) : (e1 ;;? e2) = None ↔ e1 = None ∧ e2 = None.
Proof. destruct e1; naive_solver. Qed.

Lemma fails_none (e : error) (P : Prop) (D : Decision P) :
  (if decide P then Some e else None) = None ↔ ¬ P.
Proof. destruct (decide P); naive_solver. Qed.

Lemma fails_bool_none (e : error) (b : bool) :
  (if b then Some e else None) = None ↔ b = false.
Proof. destruct b; naive_solver. Qed.

Lemma children_loop_none seen l :
  hierarchy.ValidateChildren_loop seen l = None ↔
  NoDup l ∧ ("" ∉ l) ∧ (∀ x, x ∈ l → x ∉ seen).
Proof.
  revert seen. induction l as [|c l IH]; intros seen; simpl.
  { split; [|done]. intros _. split; [constructor|]. split; [set_solver|].
    intros x Hx. by apply elem_of_nil in Hx. }
  rewrite NoDup_cons. case_decide as Hc; [set_solver|].
  case_decide as Hs; [set_solver|]. rewrite IH. set_solver.
Qed.

Lemma children_none c :
  hierarchy.ValidateChildren c = None ↔ children_ok (hierarchy.Children c).
Proof.
  unfold hierarchy.ValidateChildren, children_ok. rewrite children_loop_none.
  split; [tauto|]. intros [??]. split; [done|]. split; [done|]. set_solver.
Qed.

Lemma dimension_none d :
  classification.Validate d = None ↔
  classification.ShortName d ≠ "" ∧ classification.Description d ≠ "".
Proof. unfold classification.Validate. rewrite !seq_none, !fails_none. tauto. Qed.

Lemma dims_loop_none seen l :
  classification.ValidateAll_loop seen l = None ↔
  dims_ok l ∧ (∀ x, x ∈ classification.ShortName <$> l → x ∉ seen).
Proof.
  unfold dims_ok. revert seen. induction l as [|d l IH]; intros seen; simpl.
  { split; [|done]. intros _. split; [split; constructor|].
    intros x Hx. by apply elem_of_nil in Hx. }
  rewrite seq_none, dimension_none, NoDup_cons, Forall_cons.
  case_decide as Hs; [set_solver|]. rewrite IH. set_solver.
Qed.

Lemma dims_none l : l ≠ [] → classification.ValidateAll l = None ↔ dims_ok l.
Proof.
  intros Hl. unfold classification.ValidateAll.
  rewrite decide_False by (by rewrite length_zero_nil).
  rewrite dims_loop_none. split; [tauto|]. intros ?. split; [done|]. set_solver.
Qed.

Lemma fmap_none {A B} (f : A → B) (o : option A) : f <$> o = None ↔ o = None.
Proof. destruct o; naive_solver. Qed.

Lemma not_pos_length {A} (l : list A) : ¬ (0 < length l)%nat ↔ l = [].
Proof. destruct l; simpl; split; intros; try done; lia. Qed.

Lemma not_not_eq (s t : string) : ¬ s ≠ t ↔ s = t.
Proof. destruct (decide (s = t)); tauto. Qed.

Lemma starter_none p :
  validateStarter p = None ↔
  hierarchy.Children (Hierarchy p) = [] ∧ Dimensions p = [] ∧ BillingAccount p = "".
Proof.
  unfold validateStarter. rewrite !seq_none, !fails_none, !not_pos_length, not_not_eq. tauto.
Qed.

Lemma standard_none p :
  validateStandard p = None ↔
  hierarchy.Children (Hierarchy p) ≠ [] ∧ children_ok (hierarchy.Children (Hierarchy p)) ∧
  Dimensions p = [] ∧ BillingAccount p = "".
Proof.
  unfold validateStandard.
  rewrite !seq_none, !fails_none, fmap_none, children_none, not_pos_length, not_not_eq,
    length_zero_nil. tauto.
Qed.

Lemma enterprise_none p :
  validateEnterprise p = None ↔
  plan_Scope p = scope.Organization ∧ hierarchy.Children (Hierarchy p) ≠ [] ∧
  children_ok (hierarchy.Children (Hierarchy p)) ∧ dims_ok (Dimensions p).
Proof.
  unfold validateEnterprise.
  rewrite !seq_none, !fails_none, fmap_none, children_none, length_zero_nil.
  assert ((if decide (0 < length (Dimensions p))%nat
           then wrap_pre "plan: " <$> classification.ValidateAll (Dimensions p)
           else None) = None ↔ dims_ok (Dimensions p)) as ->.
  { case_decide as Hd.
    - rewrite fmap_none. apply dims_none. intros E. rewrite E in Hd. simpl in Hd. lia.
    - apply not_pos_length in Hd as ->. split; [|done]. intros _. split; constructor. }
  destruct (decide (plan_Scope p = scope.Organization)); tauto.
Qed.

Lemma scope_none p :
  validateScope p = None ↔ (plan_Scope p = scope.Organization ↔ OrgID p ≠ "").
Proof.
  unfold validateScope, scope.SupportsOrgExport.
  rewrite !seq_none, !fails_bool_none.
  destruct (Z.eqb_spec (plan_Scope p) scope.Organization) as [E|E]; simpl;
    repeat case_bool_decide; naive_solver.
Qed.

Lemma tier_none p : validateTier p = None ↔ tier_rules p.
Proof.
  unfold validateTier, tier_rules.
  destruct (Z.eqb_spec (plan_Tier p) Starter) as [->|H0];
    [rewrite starter_none|destruct (Z.eqb_spec (plan_Tier p) Standard) as [->|H1];
      [rewrite standard_none|destruct (Z.eqb_spec (plan_Tier p) Enterprise) as [->|H2];
        [rewrite enterprise_none|]]]; naive_solver.
Qed.

Lemma validate_none p : Validate p = None ↔ plan_rules p.
Proof.
  unfold Validate, plan_rules.
  rewrite !seq_none, fmap_none, tier_none, scope_none.
  unfold hierarchy.ValidateBase. rewrite !seq_none, !fails_none. tauto.
Qed.

(** ** Properties *)

(** Plan.Validate accepts exactly the plans that meet the rules of their
    tier and scope: a parent and a root name; for Starter no children,
    dimensions or billing account; for Standard distinct non-empty environments
    and no dimensions or billing account; for Enterprise the organization scope,
    distinct non-empty environments and complete dimensions with distinct short
    names; an OrgID exactly at the organization scope. Each constructor returns
    the plan it was asked for when that plan is accepted, and otherwise no plan
    and the error of Validate. *)
Theorem validate_exact (p : Plan) :
  (Validate p = None ↔ plan_rules p) ∧
  (∀ q oe, validated p = (q, oe) →
     (plan_rules p ∧ q = Some p ∧ oe = None) ∨
     (¬ plan_rules p ∧ q = None ∧ oe = Validate p ∧ oe ≠ None)).
Proof.
  split; [apply validate_none|]. intros q oe. unfold validated.
  pose proof (validate_none p) as H. destruct (Validate p) eqn:E; intros [= <- <-]; naive_solver.
Qed.

(** A plan whose tier is none of the three constants is held to no tier
    rule at all: Validate accepts it as soon as parent and root name are set and
    the OrgID fits the scope, whatever its children, dimensions and billing
    account are. *)
Theorem unknown_tier_unchecked (p : Plan) :
  plan_Tier p ∉ [Starter; Standard; Enterprise] →
  Validate p = None ↔
    hierarchy.Parent (Hierarchy p) ≠ "" ∧ hierarchy.RootName (Hierarchy p) ≠ "" ∧
    (plan_Scope p = scope.Organization ↔ OrgID p ≠ "").
Proof. intros Ht. rewrite validate_none. unfold plan_rules, tier_rules. set_solver. Qed.

(** Duplicate and empty children, an empty dimension and a billing account. *)
Lemma unknown_tier_unchecked_witness :
  Validate (mkPlan 3 scope.Container (hierarchy.mkConfig "folders/1" "root" [""; ""])
    [classification.mkDimension "" ""] "BILLING" "") = None.
Proof.
  apply unknown_tier_unchecked.
  - intros H. rewrite !elem_of_cons, elem_of_nil in H. destruct H as [H|[H|[H|[]]]]; discriminate H.
  - split; [discriminate|]. split; [discriminate|]. split; intros H; [discriminate H|].
    exfalso. by apply H.
Defined.

(** Tier names round trip: parsing the name of each of the three tiers
    yields that tier, and every text that parses without error is the name of
    the tier it parses to; every other text, unknown included, is refused with
    ErrUnknownTier. *)
Theorem tier_round_trip (s : string) :
  (∀ t, t ∈ [Starter; Standard; Enterprise] → ParseTier (String t) = (t, None)) ∧
  match ParseTier s with
  | (t, None) => String t = s ∧ t ∈ [Starter; Standard; Enterprise]
  | (t, Some e) => is_err "plan.ErrUnknownTier" e = true ∧
      s ∉ String <$> [Starter; Standard; Enterprise]
  end.
Proof.
  split; [set_solver|]. unfold ParseTier.
  repeat case_decide; subst; simpl; split; by (done || set_solver).
Qed.

End plan.
