(* ===== verification/Gate.v ===== *)
(** * governance/gate: policy rules, their report and its verdict

    [src/go/governance/gate/gate.go]. The world [W] is everything a rule can
    read or change; [ctx_err] is [ctx.Err()] in it and [Now] reads the clock,
    which may move the world on. A rule is an interface value and can be nil:
    calling a method of a nil rule panics, as a rule itself may: the result [None]. *)

From S2P Require Import Prelude GoStrings GoFormat GoErr Invariant.
From Stdlib Require Import Ascii.

Module gate.

Definition ErrGateBlocked : error :=
  ENew "gate.ErrGateBlocked" "governance: gate verification failed".
Definition ErrUnknownPolicy : error :=
  ENew "gate.ErrUnknownPolicy" "governance: unknown gate policy".

Definition Status : Type := string.
Definition StatusPass : Status := "PASS".
Definition StatusFail : Status := "FAIL".
Definition StatusAnomaly : Status := "ANOMALY".
Definition StatusSkipped : Status := "SKIPPED".

Definition VerdictT : Type := string.
Definition VerdictPass : VerdictT := "PASS".
Definition VerdictBlocked : VerdictT := "BLOCKED".

Definition PolicyT : Type := string.
Definition PolicyStrict : PolicyT := "STRICT".
Definition PolicyStandard : PolicyT := "STANDARD".
Definition PolicyPermissive : PolicyT := "PERMISSIVE".

(** [Policy.Validate]. *)
Definition policy_Validate (p : PolicyT) : option error :=
  if decide (p = PolicyStrict) then None
  else if decide (p = PolicyStandard) then None
  else if decide (p = PolicyPermissive) then None
  else Some (wrap_post ErrUnknownPolicy
    (": " +:+ quote p +:+ " (expected one of " +:+ PolicyStrict +:+ ", "
       +:+ PolicyStandard +:+ ", " +:+ PolicyPermissive +:+ ")")).

Record Result := mkResult {
  RuleName : string;
  res_Status : Status;
  Reason : string;
  Evidence : list string;
  res_Duration : Z
}.

Record Report := mkReport {
  GateName : string;
  EvaluatedAt : Z;
  report_Policy : PolicyT;
  Verdict : VerdictT;
  TotalRules : Z;
  PassedRules : Z;
  FailedRules : Z;
  AnomalyRules : Z;
  SkippedRules : Z;
  Results : list Result;
  Duration : Z
}.

(** [report.Results = append(report.Results, res)] with the counter [k] of the
    report advanced. *)
Inductive counter := CPassed | CFailed | CAnomaly | CSkipped.

Definition push (k : counter) (res : Result) (r : Report) : Report :=
  let bump c n := match k, c with
    | CPassed, CPassed | CFailed, CFailed | CAnomaly, CAnomaly | CSkipped, CSkipped => n + 1
    | _, _ => n
    end in
  mkReport (GateName r) (EvaluatedAt r) (report_Policy r) (Verdict r) (TotalRules r)
    (bump CPassed (PassedRules r)) (bump CFailed (FailedRules r))
    (bump CAnomaly (AnomalyRules r)) (bump CSkipped (SkippedRules r))
    (Results r ++ [res]) (Duration r).

Definition set_verdict (v : VerdictT) (r : Report) : Report :=
  mkReport (GateName r) (EvaluatedAt r) (report_Policy r) v (TotalRules r) (PassedRules r)
    (FailedRules r) (AnomalyRules r) (SkippedRules r) (Results r) (Duration r).
Definition set_duration (d : Z) (r : Report) : Report :=
  mkReport (GateName r) (EvaluatedAt r) (report_Policy r) (Verdict r) (TotalRules r)
    (PassedRules r) (FailedRules r) (AnomalyRules r) (SkippedRules r) (Results r) d.
Definition bump_total (r : Report) : Report :=
  mkReport (GateName r) (EvaluatedAt r) (report_Policy r) (Verdict r) (TotalRules r + 1)
    (PassedRules r) (FailedRules r) (AnomalyRules r) (SkippedRules r) (Results r) (Duration r).

(** What [MarshalJSON] hands to the JSON encoder. A [Result] is encoded as it
    is, so its [Duration] goes out as its count of nanoseconds. *)
Record wireResult := mkWireResult {
  w_rule_name : string; w_status : string; w_reason : string;
  w_evidence : list string; w_duration_ms : Z }.

Definition wire_result (r : Result) : wireResult :=
  mkWireResult (RuleName r) (res_Status r) (Reason r) (Evidence r) (res_Duration r).

Record reportJSON := mkReportJSON {
  j_GateName : string; j_EvaluatedAt : Z; j_Policy : string; j_Verdict : string;
  j_TotalRules : Z; j_PassedRules : Z; j_FailedRules : Z; j_AnomalyRules : Z;
  j_SkippedRules : Z; j_Results : list wireResult; j_DurationMs : Z }.

Definition MarshalJSON (r : Report) : reportJSON :=
  mkReportJSON (GateName r) (EvaluatedAt r) (report_Policy r) (Verdict r)
    (TotalRules r) (PassedRules r) (FailedRules r) (AnomalyRules r) (SkippedRules r)
    (wire_result <$> Results r) (Z.quot (Duration r) Millisecond).

(** [Report.Summary]: a line for the report, one per result, one per piece of evidence. *)
Definition lf : string := String (ascii_of_nat 10) "".
Definition concat_text (l : list string) : string := foldr (λ a s, a +:+ s) "" l.

Definition summary_head (r : Report) : string :=
  "Gate " +:+ quote (GateName r) +:+ ": " +:+ Verdict r +:+ " (" +:+ itoa (TotalRules r) +:+ " total, " +:+
  itoa (PassedRules r) +:+ " passed, " +:+ itoa (FailedRules r) +:+ " failed, " +:+ itoa (AnomalyRules r) +:+
  " anomalies, " +:+ itoa (SkippedRules r) +:+ " skipped in " +:+ Duration_String (Duration r) +:+ ")" +:+ lf.
Definition result_line (res : Result) : string :=
  "  [" +:+ res_Status res +:+ "] " +:+ RuleName res +:+
  (if bool_decide (Reason res = "") then "" else " - " +:+ Reason res) +:+ lf.
Definition evidence_line (ev : string) : string := "      " +:+ ev +:+ lf.
Definition Summary (r : Report) : string :=
  summary_head r +:+
  concat_text ((λ res, result_line res +:+ concat_text (evidence_line <$> Evidence res)) <$> Results r).

Section with_world.
Context {W : Type} (ctx_err : W → option error) (Now : W → Z * W).

Record Rule := mkRule { Name : string; EvaluateRule : W → option (Result * W) }.

(** [NewRule], [RuleFunc.Name] and [RuleFunc.Evaluate]: a nil function passes. *)
Definition RuleFunc_Evaluate (name : string) (fn : option (W → option (Result * W))) (w : W)
  : option (Result * W) :=
  match fn with
  | None => Some (mkResult name StatusPass "" [] 0, w)
  | Some f => f w
  end.

Definition NewRule (name : string) (fn : option (W → option (Result * W))) : Rule :=
  mkRule name (RuleFunc_Evaluate name fn).

Definition FromCheck (c : invariant.Check) : Rule :=
  NewRule (invariant.Name c) (Some (λ w,
    let st := invariant.check_Status c in
    let status :=
      if decide (st = invariant.Pass) then StatusPass
      else if decide (st = invariant.Fail) then StatusFail
      else if decide (st = invariant.Anomaly) then StatusAnomaly
      else StatusFail in
    Some (mkResult (invariant.Name c) status "" (invariant.Evidence c) 0, w))).

Definition FromBuilder (b : option invariant.Builder) : Rule :=
  match b with
  | None => NewRule "nil_invariant" (Some (λ w,
      Some (mkResult "nil_invariant" StatusPass "" [] 0, w)))
  | Some b => FromCheck (invariant.Done b)
  end.

Record Gate := mkGate { name : string; policy : PolicyT; rules : list (option Rule) }.

Definition WithPolicy (p : PolicyT) (g : Gate) : Gate := mkGate (name g) p (rules g).
Definition WithRules (rs : list (option Rule)) (g : Gate) : Gate :=
  mkGate (name g) (policy g) (rules g ++ rs).

Definition New (nm : string) (opts : list (Gate → Gate)) : Gate :=
  fold_left (λ g opt, opt g) opts (mkGate nm PolicyStandard []).

Definition Validate (g : Gate) : option error := policy_Validate (policy g).

Definition AddRule (r : option Rule) (g : Gate) : Gate :=
  match r with
  | Some _ => mkGate (name g) (policy g) (rules g ++ [r])
  | None => g
  end.

Definition AddRules (rs : list (option Rule)) (g : Gate) : Gate :=
  fold_left (λ g r, match r with
    | Some _ => mkGate (name g) (policy g) (rules g ++ [r])
    | None => g
    end) rs g.

(** The body of the loop of [Evaluate] for one rule. *)
Definition evaluate_rule (rule : Rule) (report : Report) (w : W) : option (Report * W) :=
  match ctx_err w with
  | Some err =>
      Some (push CFailed (mkResult (Name rule) StatusFail
         ("evaluation aborted: " +:+ error_text err) [] 0) report, w)
  | None =>
      let '(rStart, w) := Now w in
      match EvaluateRule rule w with
      | None => None
      | Some (res, w) =>
          let '(rEnd, w) := Now w in
          let res := mkResult
            (if decide (RuleName res = "") then Name rule else RuleName res)
            (res_Status res) (Reason res) (Evidence res) (time_sub rEnd rStart) in
          let st := res_Status res in
          if decide (st = StatusPass) then Some (push CPassed res report, w)
          else if decide (st = StatusFail) then Some (push CFailed res report, w)
          else if decide (st = StatusAnomaly) then Some (push CAnomaly res report, w)
          else if decide (st = StatusSkipped) then Some (push CSkipped res report, w)
          else Some (push CFailed (mkResult (RuleName res) StatusFail (Reason res) (Evidence res)
                                     (res_Duration res)) report, w)
      end
  end.

Fixpoint evaluate_loop (rs : list (option Rule)) (report : Report) (w : W)
  : option (Report * W) :=
  match rs with
  | [] => Some (report, w)
  | None :: _ => None
  | Some rule :: rs' =>
      match evaluate_rule rule report w with
      | None => None
      | Some (report, w) => evaluate_loop rs' report w
      end
  end.

Definition applyVerdict (pol : PolicyT) (report : Report) : Report :=
  if decide (pol = PolicyStrict) then
    if (0 <? FailedRules report) || (0 <? AnomalyRules report)
    then set_verdict VerdictBlocked report else report
  else if decide (pol = PolicyStandard) then
    if 0 <? FailedRules report then set_verdict VerdictBlocked report else report
  else if decide (pol = PolicyPermissive) then set_verdict VerdictPass report
  else
    let reason := match policy_Validate pol with Some e => error_text e | None => "" end in
    set_verdict VerdictBlocked
      (bump_total (push CFailed (mkResult "gate-policy" StatusFail reason [] 0) report)).

Definition Evaluate (g : Gate) (w : W) : option (Report * W) :=
  let '(start, w) := Now w in
  let report := mkReport (name g) start (policy g) VerdictPass
                  (Z.of_nat (length (rules g))) 0 0 0 0 [] 0 in
  match evaluate_loop (rules g) report w with
  | None => None
  | Some (report, w) =>
      let '(stop, w) := Now w in
      Some (applyVerdict (policy g) (set_duration (time_sub stop start) report), w)
  end.

Definition Enforce (g : Gate) (w : W) : option (Report * option error * W) :=
  match Evaluate g w with
  | None => None
  | Some (report, w) =>
      if decide (Verdict report = VerdictBlocked) then
        Some (report, Some (wrap_post ErrGateBlocked
          (": gate " +:+ quote (name g) +:+ " failed policy " +:+ policy g +:+ " ("
             +:+ itoa (FailedRules report) +:+ " failed, "
             +:+ itoa (AnomalyRules report) +:+ " anomalies)")), w)
      else Some (report, None, w)
  end.

End with_world.
Arguments Rule : clear implicits.
Arguments Gate : clear implicits.

(** ** Specification *)

Definition count_status (st : Status) (l : list Result) : Z :=
  Z.of_nat (length (filter (λ r, res_Status r = st) l)).

Definition legal_status (st : Status) : Prop :=
  st = StatusPass ∨ st = StatusFail ∨ st = StatusAnomaly ∨ st = StatusSkipped.

(** The counters of a report count its results, and nothing else. *)
Definition counters_ok (r : Report) : Prop :=
  PassedRules r = count_status StatusPass (Results r) ∧
  FailedRules r = count_status StatusFail (Results r) ∧
  AnomalyRules r = count_status StatusAnomaly (Results r) ∧
  SkippedRules r = count_status StatusSkipped (Results r) ∧
  Forall (λ x, legal_status (res_Status x)) (Results r).

Definition known_policy (p : PolicyT) : Prop :=
  p = PolicyStrict ∨ p = PolicyStandard ∨ p = PolicyPermissive.

(** When a policy blocks, by the statuses in the report. *)
Definition blocks (p : PolicyT) (l : list Result) : Prop :=
  (p = PolicyStrict ∧ ∃ x, x ∈ l ∧ (res_Status x = StatusFail ∨ res_Status x = StatusAnomaly)) ∨
  (p = PolicyStandard ∧ ∃ x, x ∈ l ∧ res_Status x = StatusFail) ∨
  ¬ known_policy p.

(** What a rule that was asked answered, as its result must say it: a status that is
    none of the four counts as a failure. *)
Definition says {W} (rule : Rule W) (answer : Result) (took : Z) (x : Result) : Prop :=
  RuleName x = (if decide (RuleName answer = "") then Name rule else RuleName answer) ∧
  (legal_status (res_Status answer) → res_Status x = res_Status answer) ∧
  (¬ legal_status (res_Status answer) → res_Status x = StatusFail) ∧
  Reason x = Reason answer ∧ Evidence x = Evidence answer ∧ res_Duration x = took.

(** The rules are asked in order, and each gives one result: a failure with the reason
    of the abort when the context is done at its turn, else what it answered. *)
Inductive answers {W} (ctx_err : W → option error) (Now : W → Z * W) :
    list (option (Rule W)) → W → list Result → W → Prop :=
| answers_nil w : answers ctx_err Now [] w [] w
| answers_aborted rule rs w err l w' :
    ctx_err w = Some err → answers ctx_err Now rs w l w' →
    answers ctx_err Now (Some rule :: rs) w
      (mkResult (Name rule) StatusFail ("evaluation aborted: " +:+ error_text err) [] 0 :: l) w'
| answers_ran rule rs w t0 w0 answer w1 t1 w2 x l w' :
    ctx_err w = None → Now w = (t0, w0) → EvaluateRule rule w0 = Some (answer, w1) → Now w1 = (t1, w2) →
    says rule answer (time_sub t1 t0) x → answers ctx_err Now rs w2 l w' →
    answers ctx_err Now (Some rule :: rs) w (x :: l) w'.

(** ** Lemmas *)

Lemma count_status_snoc st l x :
  count_status st (l ++ [x]) =
  count_status st l + (if decide (res_Status x = st) then 1 else 0).
Proof.
  unfold count_status. rewrite filter_app, length_app.
  case_decide; [rewrite filter_cons_True by done|rewrite filter_cons_False by done];
    simpl; lia.
Qed.

Lemma count_status_pos st l :
  0 < count_status st l ↔ ∃ x, x ∈ l ∧ res_Status x = st.
Proof.
  unfold count_status. split.
  - intros H. destruct (filter (λ r, res_Status r = st) l) as [|x l'] eqn:E; [simpl in H; lia|].
    exists x. assert (x ∈ x :: l') as Hx by set_solver. rewrite <- E in Hx.
    apply list_elem_of_filter in Hx. naive_solver.
  - intros (x & Hx & Hs).
    assert (x ∈ filter (λ r, res_Status r = st) l) as Hf by (by apply list_elem_of_filter).
    destruct (filter _ l); [by apply elem_of_nil in Hf|simpl; lia].
Qed.

(** Pushing a result under the counter of its status keeps the counts right. *)
Definition counter_of (k : counter) : Status :=
  match k with
  | CPassed => StatusPass | CFailed => StatusFail
  | CAnomaly => StatusAnomaly | CSkipped => StatusSkipped
  end.

Lemma push_counters k res r :
  counters_ok r → res_Status res = counter_of k → counters_ok (push k res r).
Proof.
  intros (Hp & Hf & Ha & Hs & Hall) Hk. unfold counters_ok.
  assert (Forall (λ x, legal_status (res_Status x)) (Results (push k res r))) as Hall'.
  { apply Forall_app. split; [done|]. apply Forall_singleton. rewrite Hk.
    unfold legal_status. destruct k; simpl; tauto. }
  destruct k; simpl in *; rewrite !count_status_snoc, Hk, ?Hp, ?Hf, ?Ha, ?Hs;
    split_and!; try exact Hall'; case_decide; (done || lia).
Qed.

Section lemmas.
Context {W : Type} (ctx_err : W → option error) (Now : W → Z * W).

(** What one turn of the loop appends: one result, under its own counter. *)
Lemma evaluate_rule_push rule rs report w report' w' :
  evaluate_rule ctx_err Now rule report w = Some (report', w') →
  ∃ k res, report' = push k res report ∧ res_Status res = counter_of k ∧
    ∀ l w2, answers ctx_err Now rs w' l w2 → answers ctx_err Now (Some rule :: rs) w (res :: l) w2.
Proof.
  unfold evaluate_rule. destruct (ctx_err w) as [err|] eqn:Hc.
  { intros [= <- <-]. eexists CFailed, _. split; [done|]. split; [done|]. intros l w2. by apply answers_aborted. }
  destruct (Now w) as [t0 w0] eqn:H0. destruct (EvaluateRule rule w0) as [[a w1]|] eqn:Ha; [|done].
  destruct (Now w1) as [t1 w2] eqn:H1. simpl.
  set (nm := if decide (RuleName a = "") then Name rule else RuleName a). intros E.
  assert (∀ k st, st = counter_of k → (legal_status (res_Status a) → st = res_Status a) →
    (¬ legal_status (res_Status a) → st = StatusFail) →
    Some (push k (mkResult nm st (Reason a) (Evidence a) (time_sub t1 t0)) report, w2) = Some (report', w') →
    ∃ k res, report' = push k res report ∧ res_Status res = counter_of k ∧
      ∀ l w3, answers ctx_err Now rs w' l w3 → answers ctx_err Now (Some rule :: rs) w (res :: l) w3) as Hpush.
  { intros k st Hs Hl Hn [= <- <-]. eexists k, _. split; [done|]. split; [done|]. intros l w3.
    by eapply answers_ran. }
  unfold legal_status in Hpush.
  repeat case_decide; (eapply Hpush; [..|exact E]; first [done|naive_solver]).
Qed.

Lemma push_frame k res r :
  Results (push k res r) = Results r ++ [res] ∧ Verdict (push k res r) = Verdict r ∧
  TotalRules (push k res r) = TotalRules r.
Proof. done. Qed.

Lemma evaluate_loop_ok rs report w report' w' :
  evaluate_loop ctx_err Now rs report w = Some (report', w') →
  counters_ok report →
  counters_ok report' ∧ Verdict report' = Verdict report ∧
  TotalRules report' = TotalRules report ∧ GateName report' = GateName report ∧
  EvaluatedAt report' = EvaluatedAt report ∧ report_Policy report' = report_Policy report ∧
  ∃ l, answers ctx_err Now rs w l w' ∧ Results report' = Results report ++ l.
Proof.
  revert report w. induction rs as [|[rule|] rs IH]; intros report w E Hc; simpl in E.
  - simplify_eq. split_and!; try done. exists []. split; [constructor|by rewrite app_nil_r].
  - destruct (evaluate_rule ctx_err Now rule report w) as [[r1 w1]|] eqn:Er; [|done].
    apply (evaluate_rule_push rule rs) in Er as (k & res & -> & Hk & Ha).
    destruct (IH _ _ E (push_counters _ _ _ Hc Hk)) as (? & -> & -> & -> & -> & -> & l & Hl & Hr).
    split_and!; try done. exists (res :: l). split; [by apply Ha|]. rewrite Hr. simpl.
    by rewrite <- (assoc_L (++)).
  - done.
Qed.

Lemma answers_length rs w l w' : answers ctx_err Now rs w l w' → length l = length rs.
Proof. induction 1; simpl; lia. Qed.

(** The loop panics on a nil rule, and nowhere else when no rule panics. *)
Lemma evaluate_loop_some rs report w :
  (∀ rule w, Some rule ∈ rs → is_Some (EvaluateRule rule w)) →
  is_Some (evaluate_loop ctx_err Now rs report w) ↔ None ∉ rs.
Proof.
  revert report w. induction rs as [|[rule|] rs IH]; intros report w Hr; simpl.
  - split; [set_solver|by eexists].
  - assert (is_Some (evaluate_rule ctx_err Now rule report w)) as [[r1 w1] ->].
    { unfold evaluate_rule. destruct (ctx_err w); [by eexists|]. destruct (Now w) as [t0 w0].
      destruct (Hr rule w0) as [[a w1] ->]; [by left|]. destruct (Now w1). repeat case_decide; by eexists. }
    rewrite IH by (intros; apply Hr; by right). set_solver.
  - split; [by intros [? ?]|set_solver].
Qed.

Lemma init_counters nm t p n : counters_ok (mkReport nm t p VerdictPass n 0 0 0 0 [] 0).
Proof. repeat split. constructor. Qed.

Lemma blocked_iff_count p (r : Report) :
  counters_ok r → known_policy p → Verdict r = VerdictPass →
  Verdict (applyVerdict p r) = VerdictBlocked ↔ blocks p (Results r).
Proof.
  intros (_ & Hf & Ha & _ & _) Hk Hv.
  unfold applyVerdict, blocks, known_policy in *.
  pose proof (count_status_pos StatusFail (Results r)) as Cf.
  pose proof (count_status_pos StatusAnomaly (Results r)) as Ca.
  rewrite <- Hf in Cf. rewrite <- Ha in Ca.
  repeat case_decide; subst.
  - destruct (Z.ltb_spec 0 (FailedRules r)), (Z.ltb_spec 0 (AnomalyRules r)); simpl;
      rewrite ?Hv; set_solver by lia.
  - destruct (Z.ltb_spec 0 (FailedRules r)); simpl; rewrite ?Hv; set_solver by lia.
  - simpl. set_solver.
  - set_solver.
Qed.

Lemma apply_verdict_head p (r : Report) :
  GateName (applyVerdict p r) = GateName r ∧ EvaluatedAt (applyVerdict p r) = EvaluatedAt r ∧
  report_Policy (applyVerdict p r) = report_Policy r ∧ Duration (applyVerdict p r) = Duration r ∧
  (Verdict r = VerdictPass → Verdict (applyVerdict p r) = VerdictPass ∨ Verdict (applyVerdict p r) = VerdictBlocked).
Proof. unfold applyVerdict. repeat case_decide; repeat case_match; split_and!; simpl; tauto. Qed.

Lemma apply_verdict_frame p (r : Report) :
  (known_policy p → Results (applyVerdict p r) = Results r ∧
     TotalRules (applyVerdict p r) = TotalRules r) ∧
  (counters_ok r → counters_ok (applyVerdict p r)) ∧
  (¬ known_policy p → Verdict (applyVerdict p r) = VerdictBlocked ∧
     TotalRules (applyVerdict p r) = TotalRules r + 1 ∧
     ∃ e, policy_Validate p = Some e ∧
       Results (applyVerdict p r) = Results r ++ [mkResult "gate-policy" StatusFail (error_text e) [] 0]).
Proof.
  unfold known_policy, applyVerdict.
  case_decide as H1; [destruct (_ || _); split_and!; (done || tauto)|].
  case_decide as H2; [destruct (_ <? _); split_and!; (done || tauto)|].
  case_decide as H3; [split_and!; (done || tauto)|].
  split; [tauto|]. split.
  2: { intros _. split; [done|]. split; [done|]. unfold policy_Validate.
       rewrite !decide_False by done. eexists. by split. }
  intros Hc. by apply (push_counters CFailed (mkResult "gate-policy" StatusFail _ [] 0) r).
Qed.

Lemma counters_sum (r : Report) :
  counters_ok r →
  PassedRules r + FailedRules r + AnomalyRules r + SkippedRules r =
  Z.of_nat (length (Results r)).
Proof.
  intros (-> & -> & -> & -> & Hall). revert Hall. generalize (Results r). intros l.
  induction l as [|x l IH] using rev_ind; [done|].
  intros [Hl [Hx _]%Forall_cons]%Forall_app. rewrite length_app.
  rewrite !count_status_snoc. simpl. specialize (IH Hl).
  unfold legal_status in Hx.
  destruct Hx as [E|[E|[E|E]]]; rewrite E; repeat case_decide; (done || lia).
Qed.

(** With a done context the loop evaluates nothing. *)
Definition abort_result (err : error) (rule : Rule W) : Result :=
  mkResult (Name rule) StatusFail ("evaluation aborted: " +:+ error_text err) [] 0.

Lemma evaluate_loop_aborted rs report w err :
  ctx_err w = Some err →
  ∃ r, evaluate_loop ctx_err Now (Some <$> rs) report w = Some (r, w) ∧
    Results r = Results report ++ (abort_result err <$> rs).
Proof.
  intros He. revert report. induction rs as [|rule rs IH]; intros report; simpl.
  { exists report. by rewrite app_nil_r. }
  unfold evaluate_rule. rewrite He.
  destruct (IH (push CFailed (abort_result err rule) report)) as (r & E & Hr).
  exists r. split; [exact E|]. rewrite Hr. simpl. by rewrite <- (assoc_L (++)).
Qed.

Lemma evaluate_aborted (g : Gate W) (w : W) err rs :
  (∀ w e, ctx_err w = Some e → ctx_err (Now w).2 = Some e) →
  ctx_err w = Some err → rules g = Some <$> rs →
  ∃ r, Evaluate ctx_err Now g w = Some (applyVerdict (policy g) r, (Now (Now w).2).2) ∧
    Results r = abort_result err <$> rs.
Proof.
  intros Hstay Hw Hrs. unfold Evaluate.
  pose proof (Hstay _ _ Hw) as Hw0. destruct (Now w) as [t0 w0]. simpl in *.
  rewrite Hrs. match goal with |- context [evaluate_loop _ _ _ ?rep _] =>
    destruct (evaluate_loop_aborted rs rep w0 err Hw0) as (r1 & -> & Hr1) end.
  destruct (Now w0) as [t1 w1]. by eexists.
Qed.

(** What [FromCheck] reports for a check, in a live context. *)
Definition check_status (c : invariant.Check) : Status :=
  let st := invariant.check_Status c in
  if decide (st = invariant.Pass) then StatusPass
  else if decide (st = invariant.Fail) then StatusFail
  else if decide (st = invariant.Anomaly) then StatusAnomaly
  else StatusFail.

Lemma evaluate_rule_check c report w :
  (∀ w, ctx_err w = None → ctx_err (Now w).2 = None) → ctx_err w = None →
  ∃ k res w', evaluate_rule ctx_err Now (FromCheck c) report w = Some (push k res report, w') ∧
    res_Status res = check_status c ∧ ctx_err w' = None.
Proof.
  intros Hlive Hw. unfold evaluate_rule. rewrite Hw.
  pose proof (Hlive w Hw) as H1. destruct (Now w) as [t0 w0]. simpl in *.
  pose proof (Hlive w0 H1) as H2. destruct (Now w0) as [t1 w1]. simpl in *.
  fold (check_status c). unfold check_status.
  repeat case_decide; try done; by repeat eexists.
Qed.

Lemma evaluate_loop_checks cs report w :
  (∀ w, ctx_err w = None → ctx_err (Now w).2 = None) → ctx_err w = None →
  ∃ r w', evaluate_loop ctx_err Now ((λ c, Some (FromCheck c)) <$> cs) report w = Some (r, w') ∧
    res_Status <$> Results r = (res_Status <$> Results report) ++ (check_status <$> cs).
Proof.
  intros Hlive. revert report w. induction cs as [|c cs IH]; intros report w Hw.
  { exists report, w. by rewrite app_nil_r. }
  destruct (evaluate_rule_check c report w Hlive Hw) as (k & res & w1 & E & Hs & Hw1).
  cbn [fmap list_fmap evaluate_loop]. rewrite E.
  destruct (IH (push k res report) w1 Hw1) as (r & w2 & -> & Hr).
  exists r, w2. split; [done|]. rewrite Hr. simpl.
  by rewrite fmap_app, <- (assoc_L (++)), <- Hs.
Qed.

(** The statuses of the report of a gate over checks. *)
Lemma evaluate_checks nm p cs w :
  (∀ w, ctx_err w = None → ctx_err (Now w).2 = None) → ctx_err w = None →
  ∃ r w', Evaluate ctx_err Now
      (New nm [WithPolicy p; WithRules ((λ c, Some (FromCheck c)) <$> cs)]) w = Some (r, w') ∧
    (known_policy p → res_Status <$> Results r = check_status <$> cs).
Proof.
  intros Hlive Hw. unfold Evaluate. pose proof (Hlive w Hw) as Hw0.
  destruct (Now w) as [t0 w0]. cbn [rules policy New WithPolicy WithRules fold_left app name].
  match goal with |- context [evaluate_loop _ _ _ ?rep _] =>
    destruct (evaluate_loop_checks cs rep w0 Hlive Hw0) as (r1 & w1 & -> & Hr1) end.
  destruct (Now w1) as [t1 w2]. do 2 eexists. split; [done|]. intros Hk.
  destruct (apply_verdict_frame p (set_duration (time_sub t1 t0) r1)) as (Hfr & _).
  by destruct (Hfr Hk) as [-> _].
Qed.

Lemma evaluate_permissive g w r w' :
  Evaluate ctx_err Now g w = Some (r, w') → policy g = PolicyPermissive →
  Verdict r = VerdictPass.
Proof.
  unfold Evaluate. intros E Hp. destruct (Now w) as [t0 w0].
  destruct (evaluate_loop _ _ _ _ _) as [[r1 w1]|]; [|done].
  destruct (Now w1) as [t1 w2]. rewrite Hp in E. by simplify_eq.
Qed.

(** The results of the rules are in the report, with one more when the policy is
    unknown; and the verdict is what the policy makes of them. *)
Lemma evaluate_result g w r w' :
  Evaluate ctx_err Now g w = Some (r, w') →
  ∃ start w0 l w1 stop,
    Now w = (start, w0) ∧ answers ctx_err Now (rules g) w0 l w1 ∧ Now w1 = (stop, w') ∧
    GateName r = name g ∧ EvaluatedAt r = start ∧ report_Policy r = policy g ∧
    Duration r = time_sub stop start ∧
    counters_ok r ∧ TotalRules r = Z.of_nat (length (Results r)) ∧
    (known_policy (policy g) → Results r = l) ∧
    (¬ known_policy (policy g) → ∃ e, policy_Validate (policy g) = Some e ∧
       Results r = l ++ [mkResult "gate-policy" StatusFail (error_text e) [] 0]) ∧
    (Verdict r = VerdictPass ∨ Verdict r = VerdictBlocked) ∧
    (Verdict r = VerdictBlocked ↔ blocks (policy g) l).
Proof.
  unfold Evaluate. destruct (Now w) as [t0 w0].
  destruct (evaluate_loop _ _ _ _ _) as [[r1 w1]|] eqn:E; [|done].
  destruct (Now w1) as [t1 w2] eqn:Hn. intros [= <- <-].
  apply evaluate_loop_ok in E as (Hc & Hv & Ht & Hg & He & Hp & l & Hl & Hr); [|apply init_counters].
  simpl in Hr, Ht, Hg, He, Hp, Hv. exists t0, w0, l, w1, t1.
  set (r2 := set_duration (time_sub t1 t0) r1).
  destruct (apply_verdict_frame (policy g) r2) as (Hk & Hc' & Hu).
  destruct (apply_verdict_head (policy g) r2) as (-> & -> & -> & -> & Hcase).
  pose proof (answers_length _ _ _ _ Hl) as Hlen.
  split_and!; try done; [by apply Hc'|..].
  - destruct (decide (known_policy (policy g))) as [H|H].
    + destruct (Hk H) as [-> ->]. simpl. by rewrite Ht, Hr, Hlen.
    + destruct (Hu H) as (_ & -> & e & _ & ->). rewrite length_app. simpl. rewrite Ht, Hr, Hlen. lia.
  - intros H. destruct (Hk H) as [-> _]. simpl. by rewrite Hr.
  - intros H. destruct (Hu H) as (_ & _ & e & -> & ->). exists e. simpl. by rewrite Hr.
  - by apply Hcase.
  - destruct (decide (known_policy (policy g))) as [H|H].
    + rewrite (blocked_iff_count (policy g) r2) by done. simpl. by rewrite Hr.
    + destruct (Hu H) as (-> & _). unfold blocks. naive_solver.
Qed.

(** What the policy makes of all results of a report, its own among them. *)
Lemma blocks_results g w r w' :
  Evaluate ctx_err Now g w = Some (r, w') → Verdict r = VerdictBlocked ↔ blocks (policy g) (Results r).
Proof.
  intros (? & ? & l & ? & ? & _ & _ & _ & _ & _ & _ & _ & _ & _ & Hk & _ & _ & ->)%evaluate_result.
  destruct (decide (known_policy (policy g))) as [H|H]; [by rewrite (Hk H)|]. unfold blocks. naive_solver.
Qed.

Section suite.
Context (cs : list invariant.Check) (l : list Result).
Hypothesis legal : Forall (λ c, invariant.check_Status c = invariant.Pass ∨
  invariant.check_Status c = invariant.Fail ∨
  invariant.check_Status c = invariant.Anomaly) cs.

Lemma suite_status (st : Status) (st' : invariant.Status) :
  (∀ c, c ∈ cs → check_status c = st ↔ invariant.check_Status c = st') →
  res_Status <$> l = check_status <$> cs →
  (∃ x, x ∈ l ∧ res_Status x = st) ↔ ∃ c, c ∈ cs ∧ invariant.check_Status c = st'.
Proof.
  intros Hst Hl.
  assert ((∃ x, x ∈ l ∧ res_Status x = st) ↔ ∃ c, c ∈ cs ∧ check_status c = st) as ->.
  { assert (st ∈ res_Status <$> l ↔ st ∈ check_status <$> cs) as H by by rewrite Hl.
    rewrite !list_elem_of_fmap in H. naive_solver. }
  naive_solver.
Qed.

Lemma suite_fail :
  res_Status <$> l = check_status <$> cs →
  (∃ x, x ∈ l ∧ res_Status x = StatusFail) ↔
  ∃ c, c ∈ cs ∧ invariant.check_Status c = invariant.Fail.
Proof using legal.
  apply suite_status. intros c Hc. rewrite Forall_forall in legal.
  unfold check_status. destruct (legal c Hc) as [->|[->| ->]]; by vm_compute.
Qed.

Lemma suite_anomaly :
  res_Status <$> l = check_status <$> cs →
  (∃ x, x ∈ l ∧ res_Status x = StatusAnomaly) ↔
  ∃ c, c ∈ cs ∧ invariant.check_Status c = invariant.Anomaly.
Proof using legal.
  apply suite_status. intros c Hc. rewrite Forall_forall in legal.
  unfold check_status. destruct (legal c Hc) as [->|[->| ->]]; by vm_compute.
Qed.
End suite.

Lemma verdict_bad cs :
  invariant.Verdict cs = invariant.Fail ∨ invariant.Verdict cs = invariant.Anomaly ↔
  (∃ c, c ∈ cs ∧ invariant.check_Status c = invariant.Fail) ∨
  (∃ c, c ∈ cs ∧ invariant.check_Status c = invariant.Anomaly).
Proof.
  rewrite invariant.verdict_anomaly_iff, <- invariant.verdict_fail_iff.
  destruct (decide (invariant.Verdict cs = invariant.Fail)) as [E|E]; [tauto|].
  split; [tauto|]. intros [?|(c & ? & ?)]; [done|]. right. split; [|by exists c].
  intros c' Hc' Hf. apply E, invariant.verdict_fail_iff. by exists c'.
Qed.

(** ** Properties *)

(** C34: The report says what the rules answered. When no rule panics, Evaluate
    returns a report exactly for a gate without nil rules (and panics on a nil one).
    Its results are, in order, one per rule: what the rule answered, under its name
    when it gave none, a status that is none of the four counted as a failure, and a
    failure with the reason of the abort for every rule whose turn comes when the
    context is done; an unknown policy adds one failed result that says why. Counters
    and total count these results exactly, and the verdict is BLOCKED, and otherwise
    PASS, exactly when the policy says so of what the rules gave: a failure or an
    anomaly under STRICT, a failure under STANDARD, never under PERMISSIVE, always
    under an unknown policy. *)
Theorem evaluate_report (g : Gate W) (w : W) :
  ((∀ rule w, Some rule ∈ rules g → is_Some (EvaluateRule rule w)) →
     is_Some (Evaluate ctx_err Now g w) ↔ None ∉ rules g) ∧
  (∀ r w', Evaluate ctx_err Now g w = Some (r, w') →
     counters_ok r ∧
     PassedRules r + FailedRules r + AnomalyRules r + SkippedRules r =
       Z.of_nat (length (Results r)) ∧
     TotalRules r = Z.of_nat (length (Results r)) ∧
     ∃ start w0 l w1 stop,
       Now w = (start, w0) ∧ answers ctx_err Now (rules g) w0 l w1 ∧ Now w1 = (stop, w') ∧
       GateName r = name g ∧ EvaluatedAt r = start ∧ report_Policy r = policy g ∧
       Duration r = time_sub stop start ∧ length l = length (rules g) ∧
       (known_policy (policy g) → Results r = l) ∧
       (¬ known_policy (policy g) → ∃ e, policy_Validate (policy g) = Some e ∧
          Results r = l ++ [mkResult "gate-policy" StatusFail (error_text e) [] 0]) ∧
       (Verdict r = VerdictPass ∨ Verdict r = VerdictBlocked) ∧
       (Verdict r = VerdictBlocked ↔ blocks (policy g) l)).
Proof.
  split.
  - intros Hr. unfold Evaluate. destruct (Now w) as [t0 w0].
    rewrite <- (evaluate_loop_some (rules g)
      (mkReport (name g) t0 (policy g) VerdictPass (Z.of_nat (length (rules g))) 0 0 0 0 [] 0) w0) by done.
    destruct (evaluate_loop _ _ _ _ _) as [[r1 w1]|]; [|by split; intros [? ?]].
    destruct (Now w1). split; by eexists.
  - intros r w' (start & w0 & l & w1 & stop & H0 & Hl & H1 & Hg & He & Hp & Hd & Hc & Ht & H)%evaluate_result.
    pose proof (answers_length _ _ _ _ Hl). split; [done|]. split; [by apply counters_sum|]. split; [done|].
    by exists start, w0, l, w1, stop.
Qed.

(** Enforce returns the report of Evaluate, and with it an error wrapping
    ErrGateBlocked exactly when the policy blocks on that report, so a caller
    that checks the error never proceeds past a blocked gate. *)
Theorem enforce_error (g : Gate W) (w : W) r oe w' :
  Enforce ctx_err Now g w = Some (r, oe, w') →
  Evaluate ctx_err Now g w = Some (r, w') ∧
  (oe = None ↔ ¬ blocks (policy g) (Results r)) ∧
  (∀ e, oe = Some e → is_err "gate.ErrGateBlocked" e = true ∧ Verdict r = VerdictBlocked).
Proof.
  unfold Enforce. destruct (Evaluate ctx_err Now g w) as [[r1 w1]|] eqn:E; [|done].
  apply blocks_results in E as Hb.
  case_decide as Hv; intros [= <- <- <-]; (split; [done|]); rewrite <- Hb; split; naive_solver.
Qed.

(** When the context is done before the evaluation starts, no rule runs:
    each is reported failed under its own name with the reason of the abort, in
    order, and the gate is BLOCKED under STRICT and STANDARD as soon as it has
    a rule. *)
Theorem evaluate_cancelled (g : Gate W) (w : W) err rs :
  (∀ w e, ctx_err w = Some e → ctx_err (Now w).2 = Some e) →
  ctx_err w = Some err → rules g = Some <$> rs →
  known_policy (policy g) →
  ∃ r, Evaluate ctx_err Now g w = Some (r, (Now (Now w).2).2) ∧
    Results r = abort_result err <$> rs ∧
    (rs ≠ [] → policy g ≠ PolicyPermissive → Verdict r = VerdictBlocked).
Proof.
  intros Hstay Hw Hrs Hk.
  destruct (evaluate_aborted g w err rs Hstay Hw Hrs) as (r1 & E & Hr1).
  eexists. split; [exact E|].
  apply blocks_results in E as Hb.
  destruct (apply_verdict_frame (policy g) r1) as (Hfr & _).
  destruct (Hfr Hk) as [Hres _]. rewrite Hres, Hr1 in *.
  split; [done|]. intros Hne Hnp. apply Hb. unfold blocks.
  destruct rs as [|rule rs]; [done|].
  assert (∃ x, x ∈ abort_result err <$> rule :: rs ∧ res_Status x = StatusFail)
    as (x & Hx & Hs) by (exists (abort_result err rule); split; [set_solver|done]).
  destruct Hk as [?|[?|?]]; [eauto 10..|done].
Qed.

(** A gate over the checks of an invariant suite agrees with the suite's own
    verdict: with a live context and checks whose statuses are the three
    constants, a STANDARD gate blocks exactly when invariant.Verdict is FAIL and
    a STRICT gate exactly when it is not PASS. *)
Theorem gate_agrees_with_suite (nm : string) (p : PolicyT) (cs : list invariant.Check) (w : W) :
  (∀ w, ctx_err w = None → ctx_err (Now w).2 = None) → ctx_err w = None →
  Forall (λ c, invariant.check_Status c = invariant.Pass ∨
    invariant.check_Status c = invariant.Fail ∨
    invariant.check_Status c = invariant.Anomaly) cs →
  ∃ r w', Evaluate ctx_err Now
      (New nm [WithPolicy p; WithRules ((λ c, Some (FromCheck c)) <$> cs)]) w = Some (r, w') ∧
    (p = PolicyStandard →
       (Verdict r = VerdictBlocked ↔ invariant.Verdict cs = invariant.Fail)) ∧
    (p = PolicyStrict →
       (Verdict r = VerdictBlocked ↔ invariant.Verdict cs ≠ invariant.Pass)) ∧
    (p = PolicyPermissive → Verdict r = VerdictPass).
Proof.
  intros Hlive Hw Hcs.
  destruct (evaluate_checks nm p cs w Hlive Hw) as (r & w' & E & Hst).
  exists r, w'. split; [exact E|]. pose proof (evaluate_permissive _ _ _ _ E) as Hperm.
  apply blocks_results in E as Hb. rewrite Hb. unfold blocks, known_policy.
  simpl policy in *. split; [|split; [|exact Hperm]]; intros ->.
  - rewrite (invariant.verdict_fail_iff cs).
    rewrite <- (suite_fail cs (Results r) Hcs (Hst (or_intror (or_introl eq_refl)))).
    naive_solver.
  - pose proof (invariant.verdict_cases cs) as Hc.
    assert (invariant.Verdict cs ≠ invariant.Pass ↔
      invariant.Verdict cs = invariant.Fail ∨ invariant.Verdict cs = invariant.Anomaly) as ->
      by (destruct Hc as [->|[->| ->]]; naive_solver).
    rewrite (verdict_bad cs), <- (suite_fail cs (Results r) Hcs (Hst (or_introl eq_refl))),
      <- (suite_anomaly cs (Results r) Hcs (Hst (or_introl eq_refl))).
    naive_solver.
Qed.

End lemmas.

(** The duration fields of an encoded report do not share a unit although
    both are named duration_ms: the report's is in milliseconds, each result's
    is the same duration in nanoseconds. *)
Theorem wire_duration_units (r : Report) (x : Result) :
  x ∈ Results r →
  j_DurationMs (MarshalJSON r) = Z.quot (Duration r) Millisecond ∧
  wire_result x ∈ j_Results (MarshalJSON r) ∧
  w_duration_ms (wire_result x) = res_Duration x ∧
  (res_Duration x = Duration r → 0 < Duration r →
     w_duration_ms (wire_result x) ≠ j_DurationMs (MarshalJSON r)).
Proof.
  intros Hx. split; [done|]. split; [simpl; set_solver|]. split; [done|].
  simpl. intros -> Hpos. rewrite Z.quot_div_nonneg by (unfold Millisecond; lia).
  pose proof (Z.div_lt (Duration r) Millisecond). unfold Millisecond in *. lia.
Qed.

Lemma contains_concat x l : x ∈ l → contains x (concat_text l) = true.
Proof.
  intros (l1 & l2 & ->)%list_elem_of_split. apply contains_spec. exists (concat_text l1), (concat_text l2).
  induction l1 as [|y l1 IH]; [done|]. simpl. rewrite IH, str_app_assoc. done.
Qed.

(** A summary explains a verdict: every result is in it, with its status, its rule and
    its reason on one line, and all its evidence. *)
Theorem summary_explains (r : Report) (x : Result) :
  x ∈ Results r →
  contains (result_line x) (Summary r) = true ∧
  ∀ ev, ev ∈ Evidence x → contains (evidence_line ev) (Summary r) = true.
Proof.
  intros Hx.
  assert (∀ t, contains t (result_line x +:+ concat_text (evidence_line <$> Evidence x)) = true →
    contains t (Summary r) = true) as Hin.
  { intros t Ht. unfold Summary.
    assert (contains (result_line x +:+ concat_text (evidence_line <$> Evidence x))
      (concat_text ((λ res, result_line res +:+ concat_text (evidence_line <$> Evidence res)) <$> Results r)) = true)
      as (a & b & ->)%contains_spec by (apply contains_concat, list_elem_of_fmap; by exists x).
    rewrite <- str_app_assoc. by apply contains_mid. }
  split.
  - apply Hin, contains_spec. by exists "", (concat_text (evidence_line <$> Evidence x)).
  - intros ev Hev. apply Hin.
    assert (contains (evidence_line ev) (concat_text (evidence_line <$> Evidence x)) = true)
      as (a & b & ->)%contains_spec by (apply contains_concat, list_elem_of_fmap; by exists ev).
    apply contains_spec. exists (result_line x +:+ a), b. by rewrite str_app_assoc.
Qed.

(** ** Witnesses *)

(** A context that is never done, over a clock that counts its readings. *)
Definition live (w : Z) : option error := None.
Definition tick (w : Z) : Z * Z := (w, w + 1).
Definition done_ctx (w : Z) : option error := Some context_Canceled.

Lemma wire_duration_units_witness :
  let x := mkResult "slow" StatusPass "" [] (5 * Millisecond) in
  let r := mkReport "g" 0 PolicyStandard VerdictPass 1 1 0 0 0 [x] (5 * Millisecond) in
  j_DurationMs (MarshalJSON r) = 5 ∧ w_duration_ms (wire_result x) = 5000000.
Proof.
  intros x r. destruct (wire_duration_units r x) as (H1 & _ & H2 & _); [by left|].
  by rewrite H1, H2.
Defined.

(** A policy that is none of the three blocks, and the summary says why. *)
Example unknown_policy_explained :
  match Evaluate live tick (New "g" [WithPolicy "lax"]) 0 with
  | Some (r, _) => contains ("  [" +:+ StatusFail +:+ "] gate-policy - ") (Summary r) && contains (quote "lax") (Summary r)
  | None => false
  end = true.
Proof. vm_compute. reflexivity. Qed.

(** A rule that fails, and one with a status of its own. *)
Definition mixed : Gate Z :=
  New "release" [WithPolicy PolicyStrict; WithRules [
    Some (NewRule "lint" (Some (λ w, Some (mkResult "" StatusFail "unused" [] 0, w + 5))));
    Some (NewRule "odd" (Some (λ w, Some (mkResult "odd" "MAYBE" "" [] 0, w))))]].

Lemma evaluate_report_witness :
  ∃ r w', Evaluate live tick mixed 0 = Some (r, w') ∧
    Results r = [mkResult "lint" StatusFail "unused" [] 6; mkResult "odd" StatusFail "" [] 1] ∧
    FailedRules r = 2 ∧ Verdict r = VerdictBlocked.
Proof.
  destruct (evaluate_report live tick mixed 0) as [H1 H2].
  destruct H1 as [_ H1].
  { intros rule w Hin. apply list_elem_of_In in Hin. simpl in Hin.
    destruct Hin as [[= <-]|[[= <-]|[]]]; by eexists. }
  destruct H1 as [[r w'] E]; [simpl; rewrite !not_elem_of_cons; split_and!; [done|done|apply not_elem_of_nil]|].
  exists r, w'. split; [exact E|]. destruct (H2 r w' E) as ((_ & Hf & _) & _ & _ & start & w0 & l & w1 & stop & _ & _ & _ & _ & _ & _ & _ & _ & Hk & _ & _ & Hb).
  assert (r = (default (r, 0) (Evaluate live tick mixed 0)).1) as Er by (by rewrite E).
  vm_compute in Er. split_and!; [by rewrite Er|by rewrite Er|].
  apply Hb. left. split; [reflexivity|]. rewrite <- Hk by (by left).
  exists (mkResult "lint" StatusFail "unused" [] 6). rewrite Er. split; [by left|by left].
Defined.

Lemma enforce_error_witness :
  ∃ r e w', Enforce live tick
      (New "release" [WithRules [Some (NewRule "lint" (Some (λ w,
        Some (mkResult "lint" StatusFail "" [] 0, w))))]]) 0 = Some (r, Some e, w') ∧
    is_err "gate.ErrGateBlocked" e = true.
Proof.
  eexists _, _, _. split; [vm_compute; reflexivity|].
  eapply (enforce_error live tick
    (New "release" [WithRules [Some (NewRule "lint" (Some (λ w,
        Some (mkResult "lint" StatusFail "" [] 0, w))))]]) 0); [vm_compute; reflexivity|reflexivity].
Defined.

Lemma evaluate_cancelled_witness :
  ∃ r, Evaluate done_ctx tick (New "g" [WithRules [Some (NewRule "a" None)]]) 0 = Some (r, 2) ∧
    Verdict r = VerdictBlocked.
Proof.
  destruct (evaluate_cancelled done_ctx tick
    (New "g" [WithRules [Some (NewRule "a" None)]]) 0 context_Canceled
    [NewRule "a" None]) as (r & E & _ & Hb).
  - intros w e [= <-]. reflexivity.
  - reflexivity.
  - reflexivity.
  - right; left; reflexivity.
  - exists r. split; [exact E|]. apply Hb; discriminate.
Defined.

Lemma gate_agrees_with_suite_witness :
  ∃ r w', Evaluate live tick
      (New "suite" [WithPolicy PolicyStrict; WithRules ((λ c, Some (FromCheck c)) <$>
        [invariant.mkCheck "a" 1 invariant.Pass []; invariant.mkCheck "b" 2 invariant.Anomaly []])])
      0 = Some (r, w') ∧ Verdict r = VerdictBlocked.
Proof.
  destruct (gate_agrees_with_suite live tick "suite" PolicyStrict
    [invariant.mkCheck "a" 1 invariant.Pass []; invariant.mkCheck "b" 2 invariant.Anomaly []] 0)
    as (r & w' & E & _ & Hs & _).
  - reflexivity.
  - reflexivity.
  - constructor; [left; reflexivity|]. constructor; [right; right; reflexivity|constructor].
  - exists r, w'. split; [exact E|]. apply Hs; [reflexivity|]. vm_compute. discriminate.
Defined.

(** A nil rule is dropped by AddRules, and kept by the option WithRules, where
    the evaluation panics on it. *)
Example nil_rule_options :
  Evaluate live tick (AddRules [None] (New "g" [])) 0 ≠ None ∧
  Evaluate live tick (New "g" [WithRules [None]]) 0 = None.
Proof. split; [discriminate|reflexivity]. Qed.

End gate.
