(* ===== verification/Workflow.v ===== *)
(** * platform/workflow: the sequential step engine

    [src/go/platform/workflow/workflow.go]. Step bodies, skip predicates and
    hooks are effects on the world; [ctx_err] is [ctx.Err()] and [Now] the
    clock. A panic of a step body is recovered, a panic of a skip predicate or
    of a hook is not and leaves the run. *)

From S2P Require Import Prelude GoStrings GoErr GoMonad.

Module workflow.

Definition ErrNilRun : error := ENew "workflow.ErrNilRun" "nil step run function".
Definition ErrPanicRecovered : error := ENew "workflow.ErrPanicRecovered" "panic recovered".

Inductive StepStatus := StatusSuccess | StatusSkipped | StatusFailed | StatusNotRun.

#[export] Instance StepStatus_eq_dec : EqDecision StepStatus.
Proof. solve_decision. Defined.

Section with_world.
Context {W : Type}.

Record Step := mkStep {
  Name : string;
  Description : string;
  Run : option (go W (option error));
  Skip : option (go W bool)
}.

Record Hooks := mkHooks {
  OnWorkflowStart : option (string → Z → go W unit);
  OnStepStart : option (Z → Z → Step → go W unit);
  OnStepDone : option (Z → Z → Step → Z → go W unit);
  OnStepFail : option (Z → Z → Step → error → Z → go W unit);
  OnStepSkip : option (Z → Z → Step → go W unit);
  OnWorkflowDone : option (string → Z → option error → go W unit)
}.

Definition no_hooks : Hooks := mkHooks None None None None None None.

Record StepResult := mkStepResult {
  sr_Step : Step; sr_Status : StepStatus; sr_Duration : Z; sr_Err : option error }.

Record Result := mkResult {
  res_Name : string; res_Duration : Z; StepResults : list StepResult; res_Err : option error }.

Record Workflow := mkWorkflow { wf_Name : string; Steps : list Step; hooks : Hooks }.

Definition WithHooks (h : Hooks) (wf : Workflow) : Workflow := mkWorkflow (wf_Name wf) (Steps wf) h.

Definition New (name : string) (opts : list (Workflow → Workflow)) : Workflow :=
  fold_left (λ wf opt, opt wf) opts (mkWorkflow name [] no_hooks).

Definition AddStep (step : Step) (wf : Workflow) : Workflow :=
  mkWorkflow (wf_Name wf) (Steps wf ++ [step]) (hooks wf).

Definition Add (name : string) (run : option (go W (option error))) (wf : Workflow) : Workflow :=
  AddStep (mkStep name "" run None) wf.

Context (ctx_err : W → option error) (Now : W → Z * W).

Definition runStepWithRecovery (run : option (go W (option error))) : go W (option error) :=
  match run with
  | None => mret (Some ErrNilRun)
  | Some run =>
      recover (λ p, Some (EFmt (PWrap ErrPanicRecovered (PText ": " (PText p PNil))))) run
  end.

Definition not_run (s : Step) : StepResult := mkStepResult s StatusNotRun 0 None.

Definition halted (e : error) : error := wrap_pre "workflow halted: context canceled: " e.
Definition step_failed (s : Step) (e : error) : error :=
  wrap_pre ("step '" +:+ Name s +:+ "' failed: ") e.

(** The loop over the steps from index [i] (0-based) on: the results it appends
    and the error it leaves in [res.Err]. *)
Fixpoint run_steps (h : Hooks) (i total : Z) (steps : list Step)
  : go W (list StepResult * option error) :=
  match steps with
  | [] => mret ([], None)
  | step :: rest =>
      cerr ← reads ctx_err;
      match cerr with
      | Some ctxErr => mret (not_run <$> (step :: rest), Some (halted ctxErr))
      | None =>
          skip ← call_if false (Skip step);
          if (skip : bool) then
            _ ← call_if tt ((λ f, f (i + 1) total step) <$> OnStepSkip h);
            r ← run_steps h (i + 1) total rest;
            mret (mkStepResult step StatusSkipped 0 None :: r.1, r.2)
          else
            _ ← call_if tt ((λ f, f (i + 1) total step) <$> OnStepStart h);
            stepStart ← does Now;
            stepErr ← runStepWithRecovery (Run step);
            stepEnd ← does Now;
            let stepDuration := time_sub stepEnd stepStart in
            match stepErr with
            | Some e =>
                let wrappedErr := step_failed step e in
                _ ← call_if tt ((λ f, f (i + 1) total step e stepDuration) <$> OnStepFail h);
                mret (mkStepResult step StatusFailed stepDuration (Some wrappedErr)
                        :: (not_run <$> rest), Some wrappedErr)
            | None =>
                _ ← call_if tt ((λ f, f (i + 1) total step stepDuration) <$> OnStepDone h);
                r ← run_steps h (i + 1) total rest;
                mret (mkStepResult step StatusSuccess stepDuration None :: r.1, r.2)
            end
      end
  end.

Definition RunWithResult (wf : Workflow) : go W Result :=
  let h := hooks wf in
  let total := Z.of_nat (length (Steps wf)) in
  startTime ← does Now;
  _ ← call_if tt ((λ f, f (wf_Name wf) total) <$> OnWorkflowStart h);
  r ← run_steps h 0 total (Steps wf);
  stopTime ← does Now;
  let duration := time_sub stopTime startTime in
  _ ← call_if tt ((λ f, f (wf_Name wf) duration r.2) <$> OnWorkflowDone h);
  mret (mkResult (wf_Name wf) duration r.1 r.2).

(** [Workflow.Run]. *)
Definition RunWorkflow (wf : Workflow) : go W (option error) :=
  res ← RunWithResult wf; mret (res_Err res).

Fixpoint dry_steps (steps : list Step) : go W (list StepResult) :=
  match steps with
  | [] => mret []
  | step :: rest =>
      skip ← call_if false (Skip step);
      r ← dry_steps rest;
      mret (mkStepResult step (if (skip : bool) then StatusSkipped else StatusSuccess) 0 None :: r)
  end.

Definition DryRun (wf : Workflow) : go W Result :=
  r ← dry_steps (Steps wf);
  mret (mkResult (wf_Name wf) 0 r None).

(** ** Specification of a run *)

Definition passed (r : StepResult) : Prop :=
  (sr_Status r = StatusSuccess ∨ sr_Status r = StatusSkipped) ∧ sr_Err r = None.
Definition untouched (r : StepResult) : Prop :=
  sr_Status r = StatusNotRun ∧ sr_Err r = None.

(** How a run can end: all steps passed; or the first step that did not pass
    failed with the run's error; or the context was done before a step. The
    steps after the point where the run stopped are not run. *)
Inductive ends : list StepResult → option error → Prop :=
| ends_done : ends [] None
| ends_halted rs e : rs ≠ [] → Forall untouched rs → ends rs (Some (halted e))
| ends_failed r rs e :
    sr_Status r = StatusFailed → sr_Err r = Some (step_failed (sr_Step r) e) →
    Forall untouched rs → ends (r :: rs) (Some (step_failed (sr_Step r) e))
| ends_passed r rs oe : passed r → ends rs oe → ends (r :: rs) oe.

(** What the body of a step did. *)
Inductive body (s : Step) : W → option error → W → Prop :=
| body_nil w : Run s = None → body s w (Some ErrNilRun) w
| body_returned f w oe w' : Run s = Some f → f w = (Returned oe, w') → body s w oe w'
| body_panicked f w p w' e :
    Run s = Some f → f w = (Panicked p, w') → is_err "workflow.ErrPanicRecovered" e = true →
    contains p (error_text e) = true → body s w (Some e) w'.

(** Asking a step whether to skip it, and calling a hook; a nil one does nothing. *)
Definition asks_skip (s : Step) (w : W) (b : bool) (w' : W) : Prop :=
  match Skip s with Some f => f w = (Returned b, w') | None => b = false ∧ w' = w end.
Definition calls {A} (hook : option A) (run : A → go W unit) (w w' : W) : Prop :=
  match hook with Some f => run f w = (Returned tt, w') | None => w' = w end.

(** An error that wraps another: it says what that says and is what that is. *)
Definition wraps (e inner : error) : Prop :=
  (∃ pre, error_text e = pre +:+ error_text inner) ∧ ∀ id, is_err id e = is_err id inner.

(** What happened from a world on, step by step, and what the results say of it: the
    steps before the end were asked and skipped, or ran without an error; then there
    was no step left, or the context was done, or a body failed; and from there on
    nothing was asked or run. *)
Inductive history (h : Hooks) (total : Z) : Z → list Step → W → list StepResult → option error → W → Prop :=
| history_done i w : history h total i [] w [] None w
| history_halted i s rest w ce e :
    ctx_err w = Some ce → wraps e ce →
    history h total i (s :: rest) w ((λ s, mkStepResult s StatusNotRun 0 None) <$> s :: rest) (Some e) w
| history_skipped i s rest w w1 w2 rs oe w' :
    ctx_err w = None → asks_skip s w true w1 → calls (OnStepSkip h) (λ f, f i total s) w1 w2 →
    history h total (i + 1) rest w2 rs oe w' →
    history h total i (s :: rest) w (mkStepResult s StatusSkipped 0 None :: rs) oe w'
| history_failed i s rest w w1 w2 t0 w3 e w4 t1 w5 w' e' :
    ctx_err w = None → asks_skip s w false w1 → calls (OnStepStart h) (λ f, f i total s) w1 w2 →
    Now w2 = (t0, w3) → body s w3 (Some e) w4 → Now w4 = (t1, w5) →
    calls (OnStepFail h) (λ f, f i total s e (time_sub t1 t0)) w5 w' → wraps e' e →
    history h total i (s :: rest) w
      (mkStepResult s StatusFailed (time_sub t1 t0) (Some e') ::
       ((λ s, mkStepResult s StatusNotRun 0 None) <$> rest)) (Some e') w'
| history_succeeded i s rest w w1 w2 t0 w3 w4 t1 w5 w6 rs oe w' :
    ctx_err w = None → asks_skip s w false w1 → calls (OnStepStart h) (λ f, f i total s) w1 w2 →
    Now w2 = (t0, w3) → body s w3 None w4 → Now w4 = (t1, w5) →
    calls (OnStepDone h) (λ f, f i total s (time_sub t1 t0)) w5 w6 →
    history h total (i + 1) rest w6 rs oe w' →
    history h total i (s :: rest) w (mkStepResult s StatusSuccess (time_sub t1 t0) None :: rs) oe w'.

Definition ran (r : StepResult) : Prop :=
  sr_Status r = StatusSuccess ∨ sr_Status r = StatusFailed.
#[export] Instance ran_dec r : Decision (ran r).
Proof. unfold ran. apply _. Defined.

(** ** Lemmas *)

Lemma ends_ok rs oe :
  ends rs oe → (oe = None ↔ Forall passed rs).
Proof.
  induction 1 as [|rs e Hne Hu|r rs e Hs He Hu|r rs oe Hp _ IH].
  - by split; [constructor|].
  - split; [done|]. intros Hf. destruct rs as [|r rs]; [done|].
    inv_clear Hf. inv_clear Hu. unfold passed, untouched in *. intuition congruence.
  - split; [done|]. intros Hf. inv_clear Hf. unfold passed in *. intuition congruence.
  - rewrite IH, Forall_cons. tauto.
Qed.

Lemma untouched_not_run l : Forall untouched (not_run <$> l).
Proof. by induction l; constructor. Qed.

Lemma run_steps_shape h i total steps w rs oe w' :
  run_steps h i total steps w = (Returned (rs, oe), w') →
  sr_Step <$> rs = steps ∧ ends rs oe.
Proof.
  revert i w rs oe w'. induction steps as [|step rest IH]; intros i w rs oe w' H; simpl in H.
  { go_inv. split; [done|constructor]. }
  apply bind_returned in H as (cerr & w1 & E1 & H). cbv [reads] in E1. simplify_eq.
  destruct (ctx_err w1) as [ce|].
  { go_inv. split.
    - f_equal/=. rewrite <- list_fmap_compose. apply list_fmap_id.
    - apply ends_halted; [done|]. apply (untouched_not_run (step :: rest)). }
  apply bind_returned in H as ([] & w2 & _ & H).
  - go_inv. destruct a0 as [rs' oe']. apply IH in E0 as [<- ?].
    split; [done|]. apply ends_passed; [|done]. by split; [right|].
  - apply bind_returned in H as (? & w3 & _ & H).
    apply bind_returned in H as (t0 & w4 & _ & H).
    apply bind_returned in H as (se & w5 & _ & H).
    apply bind_returned in H as (t1 & w6 & _ & H). simpl in H.
    destruct se as [e|]; go_inv.
    + split.
      * f_equal/=. rewrite <- list_fmap_compose. apply list_fmap_id.
      * apply (ends_failed (mkStepResult step StatusFailed _ _)); [done|done|].
        apply untouched_not_run.
    + destruct a0 as [rs' oe']. apply IH in E0 as [<- ?].
      split; [done|]. apply ends_passed; [|done]. by split; [left|].
Qed.

(** A run has a history. *)
Lemma calls_call_if {A} (hook : option A) (run : A → go W unit) w w' :
  call_if tt (run <$> hook) w = (Returned tt, w') → calls hook run w w'.
Proof. destruct hook; [done|]. cbv. by intros [= <-]. Qed.

Lemma asks_call_if s w b w' : call_if false (Skip s) w = (Returned b, w') → asks_skip s w b w'.
Proof. unfold asks_skip. destruct (Skip s); [done|]. cbv. by intros [= <- <-]. Qed.

Lemma does_now w t w' : does Now w = (Returned t, w') → Now w = (t, w').
Proof. unfold does. destruct (Now w). by intros [= <- <-]. Qed.

Lemma wraps_pre pre e : wraps (wrap_pre pre e) e.
Proof. split; [exists pre; simpl; by rewrite str_app_nil_r|]. intros id. apply is_err_wrap_pre. Qed.

Lemma step_body s w oe w' : runStepWithRecovery (Run s) w = (Returned oe, w') → body s w oe w'.
Proof.
  destruct (Run s) as [f|] eqn:E; simpl.
  - unfold recover. destruct (f w) as [[a|p] w1] eqn:Ef; intros [= <- <-].
    + by eapply body_returned.
    + eapply body_panicked; [done|done|reflexivity|]. apply contains_spec.
      exists "panic recovered: ", "". simpl. done.
  - intros [= <- <-]. by apply body_nil.
Qed.

Lemma run_steps_history h i total steps w rs oe w' :
  run_steps h i total steps w = (Returned (rs, oe), w') → history h total (i + 1) steps w rs oe w'.
Proof.
  revert i w rs oe w'. induction steps as [|s rest IH]; intros i w rs oe w' H; simpl in H.
  { go_inv. constructor. }
  apply bind_returned in H as (cerr & w1 & E1 & H). cbv [reads] in E1. simplify_eq.
  destruct (ctx_err w1) as [ce|] eqn:Hc.
  { go_inv. apply (history_halted h total (i + 1) s rest w' ce); [done|apply wraps_pre]. }
  apply bind_returned in H as (b & w2 & Hb%asks_call_if & H). destruct b.
  - apply bind_returned in H as ([] & w3 & Hk%calls_call_if & H). go_inv. destruct a as [rs' oe'].
    eapply history_skipped; [done|done|done|by apply IH].
  - apply bind_returned in H as ([] & w3 & Hk%calls_call_if & H).
    apply bind_returned in H as (t0 & w4 & H0%does_now & H).
    apply bind_returned in H as (se & w5 & Hs%step_body & H).
    apply bind_returned in H as (t1 & w6 & H1%does_now & H). simpl in H.
    destruct se as [e|]; apply bind_returned in H as ([] & w7 & Hd%calls_call_if & H); go_inv.
    + eapply history_failed; [done|done|done|done|done|done|done|apply wraps_pre].
    + destruct a as [rs' oe']. eapply history_succeeded; [done|done|done|done|done|done|done|by apply IH].
Qed.

(** What every hook and skip predicate of a workflow satisfies. *)
Definition hooks_all (P : ∀ A, go W A → Prop) (h : Hooks) : Prop :=
  (∀ f a b, OnWorkflowStart h = Some f → P _ (f a b)) ∧
  (∀ f a b c, OnStepStart h = Some f → P _ (f a b c)) ∧
  (∀ f a b c d, OnStepDone h = Some f → P _ (f a b c d)) ∧
  (∀ f a b c d e, OnStepFail h = Some f → P _ (f a b c d e)) ∧
  (∀ f a b c, OnStepSkip h = Some f → P _ (f a b c)) ∧
  (∀ f a b c, OnWorkflowDone h = Some f → P _ (f a b c)).

Definition skips_all (P : ∀ A, go W A → Prop) (steps : list Step) : Prop :=
  ∀ s f, s ∈ steps → Skip s = Some f → P _ f.

Lemma skips_all_cons P s steps :
  skips_all P (s :: steps) → (∀ f, Skip s = Some f → P _ f) ∧ skips_all P steps.
Proof. unfold skips_all. set_solver. Qed.

(** *** Panics *)

Lemma no_panic_call_if {A B} (d : A) (m : option B) (g : B → go W A) :
  (∀ m', m = Some m' → no_panic (g m')) → no_panic (call_if d (g <$> m)).
Proof. intros H. destruct m; [by apply H|apply no_panic_ret]. Qed.

Lemma no_panic_step run : no_panic (runStepWithRecovery run).
Proof. destruct run; [apply recover_no_panic|apply no_panic_ret]. Qed.

Lemma no_panic_run_steps h i total steps :
  hooks_all (@no_panic W) h → skips_all (@no_panic W) steps →
  no_panic (run_steps h i total steps).
Proof.
  intros Hh. destruct Hh as (_ & Hstart & Hdone & Hfail & Hskip & _).
  revert i. induction steps as [|s rest IH]; intros i Hs; simpl.
  { apply no_panic_ret. }
  apply skips_all_cons in Hs as [Hs Hrest].
  apply no_panic_bind; [intros w; by exists (ctx_err w), w|]. intros [ce|].
  { apply no_panic_ret. }
  apply no_panic_bind; [destruct (Skip s) eqn:E; [by apply Hs|apply no_panic_ret]|]. intros [].
  - apply no_panic_bind; [by apply no_panic_call_if; intros; apply Hskip|]. intros _.
    apply no_panic_bind; [by apply IH|]. intros. apply no_panic_ret.
  - apply no_panic_bind; [by apply no_panic_call_if; intros; apply Hstart|]. intros _.
    apply no_panic_bind; [apply no_panic_does|]. intros t0.
    apply no_panic_bind; [apply no_panic_step|]. intros se.
    apply no_panic_bind; [apply no_panic_does|]. intros t1. destruct se as [e|].
    + apply no_panic_bind; [by apply no_panic_call_if; intros; apply Hfail|].
      intros _. apply no_panic_ret.
    + apply no_panic_bind; [by apply no_panic_call_if; intros; apply Hdone|]. intros _.
      apply no_panic_bind; [by apply IH|]. intros. apply no_panic_ret.
Qed.

(** *** What runs *)

Section logged.
(** [log] is a part of the world only step bodies write: each adds its name. *)
Context (log : W → list string).

Definition quiet (A : Type) (m : go W A) : Prop := ∀ w, log (m w).2 = log w.

Hypothesis Now_quiet : ∀ w, log (Now w).2 = log w.

Definition bodies_log (steps : list Step) : Prop :=
  ∀ s f, s ∈ steps → Run s = Some f → ∀ w, log (f w).2 = log w ++ [Name s].

(** The steps whose body was entered, by the results. *)
Definition entered (rs : list StepResult) : list string :=
  (λ r, Name (sr_Step r)) <$>
    filter (λ r, ran r ∧ is_Some (Run (sr_Step r))) rs.

Lemma quiet_returned {A} (m : go W A) w a w' :
  quiet A m → m w = (Returned a, w') → log w' = log w.
Proof. intros Hq E. specialize (Hq w). by rewrite E in Hq. Qed.

Lemma quiet_does w t w' : does Now w = (Returned t, w') → log w' = log w.
Proof using Now_quiet.
  unfold does. pose proof (Now_quiet w). destruct (Now w). intros [= <- <-]. done.
Qed.

Lemma quiet_call_if {A B} (d : A) (m : option B) (g : B → go W A) w a w' :
  (∀ m', m = Some m' → quiet A (g m')) →
  call_if d (g <$> m) w = (Returned a, w') → log w' = log w.
Proof.
  intros Hq E. destruct m as [m|]; [by eapply quiet_returned, E; apply Hq|].
  simpl in E. cbv [mret go_ret] in E. by simplify_eq.
Qed.

Lemma step_logs s w oe w' :
  (∀ f, Run s = Some f → ∀ w, log (f w).2 = log w ++ [Name s]) →
  runStepWithRecovery (Run s) w = (Returned oe, w') →
  log w' = log w ++ (if Run s is Some _ then [Name s] else []).
Proof.
  intros Hb. unfold runStepWithRecovery. destruct (Run s) as [f|].
  - unfold recover. specialize (Hb f eq_refl w).
    destruct (f w) as [[a|p] w1]; intros; by simplify_eq/=.
  - cbv [mret go_ret]. intros. simplify_eq. by rewrite app_nil_r.
Qed.

Lemma entered_cons r rs :
  entered (r :: rs) =
  (if decide (ran r) then (if Run (sr_Step r) is Some _ then [Name (sr_Step r)] else []) else [])
    ++ entered rs.
Proof.
  unfold entered. destruct (decide (ran r)) as [Hr|Hr].
  - destruct (Run (sr_Step r)) eqn:E.
    + rewrite filter_cons_True by (rewrite E; eauto). done.
    + rewrite filter_cons_False; [done|]. rewrite E. by intros [_ [? ?]].
  - rewrite filter_cons_False; [done|]. tauto.
Qed.

Lemma entered_untouched (l : list Step) : entered (not_run <$> l) = [].
Proof.
  induction l as [|s l IH]; [done|]. cbn [fmap list_fmap]. rewrite entered_cons, IH.
  rewrite decide_False; [done|]. unfold ran. simpl. intuition discriminate.
Qed.

Lemma run_steps_log h i total steps w rs oe w' :
  hooks_all quiet h → skips_all quiet steps → bodies_log steps →
  run_steps h i total steps w = (Returned (rs, oe), w') →
  log w' = log w ++ entered rs.
Proof using Now_quiet.
  intros Hh. destruct Hh as (_ & Hstart & Hdone & Hfail & Hskip & _).
  revert i w rs oe w'. induction steps as [|s rest IH]; intros i w rs oe w' Hs Hb H; simpl in H.
  { go_inv. by rewrite app_nil_r. }
  apply skips_all_cons in Hs as [Hs Hrest].
  assert (bodies_log rest) as Hb' by (intros ????; eapply Hb; set_solver).
  apply bind_returned in H as (cerr & w1 & E1 & H). cbv [reads] in E1. simplify_eq.
  destruct (ctx_err w1) as [ce|].
  { go_inv. pose proof (entered_untouched (s :: rest)) as He. simpl in He.
    by rewrite He, app_nil_r. }
  apply bind_returned in H as (sk & w2 & Esk & H).
  assert (log w2 = log w1) as Hl2.
  { destruct (Skip s) as [f|] eqn:E; [eapply quiet_returned, Esk; by apply Hs|].
    cbv [call_if mret go_ret] in Esk. by simplify_eq. }
  destruct sk; go_inv.
  - destruct a0 as [rs' oe']. apply IH in E0; [|done..].
    apply quiet_call_if in E; [|intros; by apply Hskip].
    rewrite E0, E, Hl2, entered_cons, decide_False; [done|]. unfold ran; simpl; intuition discriminate.
  - rename a1 into se. apply quiet_call_if in E; [|intros; by apply Hstart].
    apply quiet_does in E0. apply quiet_does in E2.
    apply step_logs in E1; [|intros; by eapply Hb; [left|]].
    destruct se as [e|]; go_inv.
    + apply quiet_call_if in E3; [|intros; by apply Hfail].
      rewrite entered_cons, entered_untouched, decide_True by (by right).
      simpl. by rewrite app_nil_r, E3, E2, E1, E0, E, Hl2.
    + match goal with r : list StepResult * option error |- _ => destruct r as [rs' oe'] end.
      apply IH in E4; [|done..].
      apply quiet_call_if in E3; [|intros; by apply Hdone].
      rewrite entered_cons, decide_True by (by left).
      simpl. by rewrite E4, E3, E2, E1, E0, E, Hl2, <- (assoc_L (++)).
Qed.

End logged.

(** *** Dry runs *)

(** A skip predicate that answers the same whatever the world is. *)
Definition steady (A : Type) (m : go W A) : Prop := ∃ a, ∀ w, ∃ w', m w = (Returned a, w').

Lemma run_dry_statuses h i total steps w w2 rs oe w' ds w2' :
  skips_all steady steps →
  run_steps h i total steps w = (Returned (rs, oe), w') →
  dry_steps steps w2 = (Returned ds, w2') → oe = None →
  sr_Status <$> rs = sr_Status <$> ds.
Proof.
  revert i w w2 rs oe w' ds w2'.
  induction steps as [|s rest IH]; intros i w w2 rs oe w' ds w2' Hs H Hd Hn;
    simpl in H, Hd; [by go_inv|].
  apply skips_all_cons in Hs as [Hs Hrest].
  apply bind_returned in H as (cerr & w1 & E1 & H). cbv [reads] in E1. simplify_eq.
  destruct (ctx_err w1) as [ce|]; [by go_inv|].
  apply bind_returned in H as (sk & w3 & Esk & H).
  apply bind_returned in Hd as (sk' & w3' & Esk' & Hd).
  assert (sk' = sk) as ->.
  { destruct (Skip s) as [f|]; [|cbv [call_if mret go_ret] in *; congruence].
    destruct (Hs f eq_refl) as [b Hb]. simpl in *.
    destruct (Hb w1) as [? Hb1], (Hb w2) as [? Hb2]. congruence. }
  apply bind_returned in Hd as (ds' & w4' & Ed & Hd). go_inv.
  destruct sk; go_inv.
  - destruct a0 as [rs' oe']. simpl in *. f_equal/=. by eapply IH.
  - rename a1 into se. destruct se as [e|]; go_inv.
    match goal with r : list StepResult * option error |- _ => destruct r as [rs' oe'] end.
    simpl in *. f_equal/=. by eapply IH.
Qed.

Lemma dry_steps_shape steps w ds w' :
  dry_steps steps w = (Returned ds, w') →
  sr_Step <$> ds = steps ∧ Forall passed ds.
Proof.
  revert w ds w'. induction steps as [|s rest IH]; intros w ds w' H; simpl in H; go_inv.
  { split; [done|constructor]. }
  apply IH in E0 as [<- ?]. split; [done|]. constructor; [|done].
  split; [|done]. destruct a; [by right|by left].
Qed.

Lemma dry_steps_quiet log steps :
  skips_all (quiet log) steps → quiet log _ (dry_steps steps).
Proof.
  intros Hs w. enough (keeps (λ w', log w' = log w) (dry_steps steps)) as Hk by by apply Hk.
  revert Hs. induction steps as [|s rest IH]; intros Hs; simpl; [apply keeps_ret|].
  apply skips_all_cons in Hs as [Hs Hrest].
  apply keeps_bind; [|intros b; apply keeps_bind; [by apply IH|intros; apply keeps_ret]].
  apply keeps_call_if. intros m E w1 Hw1. by rewrite (Hs m E).
Qed.

(** ** Properties *)

(** C35: When a run returns, its result is its history. It lists one entry per step,
    in order; up to where it ended, each step was asked whether to skip it, in a
    context that was not done, and is reported skipped when it said so, and otherwise
    ran once, between its hooks, and is reported as succeeded exactly when its body
    returned no error. The run ends without an error after the last step; or with an
    error that wraps the body's own (a panic, recovered, or the lack of a body
    among them) when a body fails; or with one that wraps the context's, when the
    context is done before a step. From there on no step is asked or run, and those
    left are reported so. The run has no error exactly when every step passed. *)
Theorem run_outcome (wf : Workflow) w res w' :
  RunWithResult wf w = (Returned res, w') →
  (∃ start w0 w1 w2 stop w3,
     Now w = (start, w0) ∧
     calls (OnWorkflowStart (hooks wf)) (λ f, f (wf_Name wf) (Z.of_nat (length (Steps wf)))) w0 w1 ∧
     history (hooks wf) (Z.of_nat (length (Steps wf))) 1 (Steps wf) w1 (StepResults res) (res_Err res) w2 ∧
     Now w2 = (stop, w3) ∧ res_Duration res = time_sub stop start ∧
     calls (OnWorkflowDone (hooks wf)) (λ f, f (wf_Name wf) (time_sub stop start) (res_Err res)) w3 w') ∧
  res_Name res = wf_Name wf ∧
  sr_Step <$> StepResults res = Steps wf ∧
  ends (StepResults res) (res_Err res) ∧
  (res_Err res = None ↔ Forall passed (StepResults res)).
Proof.
  unfold RunWithResult. intros H.
  apply bind_returned in H as (start & w0 & H0%does_now & H).
  apply bind_returned in H as ([] & w1 & Hs%calls_call_if & H).
  apply bind_returned in H as ([rs oe] & w2 & Hr & H).
  apply bind_returned in H as (stop & w3 & H1%does_now & H). simpl in H.
  apply bind_returned in H as ([] & w4 & Hd%calls_call_if & H). go_inv. simpl.
  apply run_steps_history in Hr as Hh. apply run_steps_shape in Hr as [Hst He].
  split; [by exists start, w0, w1, w2, stop, w3|].
  split; [done|]. split; [done|]. split; [done|]. by apply ends_ok.
Qed.

(** A panic of a step body never escapes: when no hook and no skip predicate
    panics, RunWithResult and Run return whatever the bodies do. A body that
    panics fails its step with an error wrapping ErrPanicRecovered, and a step
    without a body fails with ErrNilRun. *)
Theorem run_recovers (wf : Workflow) :
  hooks_all (@no_panic W) (hooks wf) → skips_all (@no_panic W) (Steps wf) →
  no_panic (RunWithResult wf) ∧ no_panic (RunWorkflow wf) ∧
  (∀ f w p w', f w = (Panicked p, w') →
     ∃ e, runStepWithRecovery (Some f) w = (Returned (Some e), w') ∧
       is_err "workflow.ErrPanicRecovered" e = true) ∧
  (∀ w, runStepWithRecovery None w = (Returned (Some ErrNilRun), w)).
Proof.
  intros Hh Hs. assert (no_panic (RunWithResult wf)) as Hr.
  { unfold RunWithResult.
    apply no_panic_bind; [apply no_panic_does|]. intros t0.
    apply no_panic_bind; [by apply no_panic_call_if; intros; apply Hh|]. intros _.
    apply no_panic_bind; [by apply no_panic_run_steps|]. intros r.
    apply no_panic_bind; [apply no_panic_does|]. intros t1.
    apply no_panic_bind; [by apply no_panic_call_if; intros; apply Hh|]. intros _.
    apply no_panic_ret. }
  split; [done|]. split; [apply no_panic_bind; [done|]; intros; apply no_panic_ret|].
  split; [|done]. intros f w p w' E. unfold runStepWithRecovery, recover. rewrite E. by eexists.
Qed.

(** Step bodies run exactly once each, in order, for the steps reported as
    succeeded or failed, and for no other step: on a part of the world that only
    bodies write, each appending its step's name, a run appends exactly the
    names of the entered steps of its result, and a dry run appends nothing. *)
Theorem run_executes (log : W → list string) (wf : Workflow) w res w' :
  (∀ w, log (Now w).2 = log w) →
  hooks_all (quiet log) (hooks wf) → skips_all (quiet log) (Steps wf) →
  bodies_log log (Steps wf) →
  RunWithResult wf w = (Returned res, w') →
  log w' = log w ++ entered (StepResults res) ∧
  log (DryRun wf w).2 = log w.
Proof.
  intros Hn Hh Hs Hb. unfold RunWithResult. intros H. go_inv. destruct a1 as [rs oe]. split.
  - apply (quiet_does log Hn) in E, E2.
    apply (quiet_call_if log) in E0; [|intros; by apply Hh].
    apply (quiet_call_if log) in E3; [|intros; by apply Hh].
    apply (run_steps_log log Hn) in E1; [|done..]. simpl. by rewrite E3, E2, E1, E0, E.
  - unfold DryRun. cbv [mbind go_bind mret go_ret]. pose proof (dry_steps_quiet log _ Hs w) as Hq.
    by destruct (dry_steps (Steps wf) w) as [[?|?] ?].
Qed.

(** A dry run foretells a successful run: when the skip predicates answer
    the same in every world, a run that ends without error reports for every
    step the status the dry run announced, and the dry run announces only
    successes and skips. *)
Theorem dry_run_agrees (wf : Workflow) w res w' w2 dry w2' :
  skips_all steady (Steps wf) →
  RunWithResult wf w = (Returned res, w') → res_Err res = None →
  DryRun wf w2 = (Returned dry, w2') →
  sr_Status <$> StepResults res = sr_Status <$> StepResults dry ∧
  sr_Step <$> StepResults dry = Steps wf ∧ Forall passed (StepResults dry).
Proof.
  unfold RunWithResult, DryRun. intros Hs H He Hd. go_inv. destruct a2 as [rs oe]. simpl in *.
  split; [by eapply run_dry_statuses|]. by eapply dry_steps_shape.
Qed.

End with_world.
Arguments Step : clear implicits.
Arguments Hooks : clear implicits.
Arguments Workflow : clear implicits.

(** ** Witnesses *)

(** A world that is the log itself; the context is never done. *)
Definition log_step (name : string) (oe : option error) (skip : option bool) : Step (list string) :=
  mkStep name "" (Some (λ l, (Returned oe, l ++ [name])))
    ((λ b l, (Returned b, l)) <$> skip).
Definition demo : Workflow (list string) :=
  New "deploy" [AddStep (log_step "build" None None);
                AddStep (log_step "notify" None (Some true));
                AddStep (log_step "push" (Some context_Canceled) None);
                AddStep (log_step "tag" None None)].
Definition demo_ok : Workflow (list string) :=
  New "deploy" [AddStep (log_step "build" None None);
                AddStep (log_step "notify" None (Some true))].
Definition no_ctx (l : list string) : option error := None.
Definition clock0 (l : list string) : Z * list string := (0, l).

Lemma run_outcome_witness :
  ∃ res w', RunWithResult no_ctx clock0 demo [] = (Returned res, w') ∧
    ends (StepResults res) (res_Err res) ∧ res_Err res ≠ None.
Proof.
  eexists _, _. split; [vm_compute; reflexivity|].
  split; [|discriminate].
  eapply (run_outcome no_ctx clock0 demo []); vm_compute; reflexivity.
Defined.

Lemma run_recovers_witness :
  no_panic (RunWithResult no_ctx clock0
    (New "w" [AddStep (mkStep "boom" "" (Some (λ l, (Panicked "oops", l))) None)])).
Proof.
  apply (run_recovers no_ctx clock0
    (New "w" [AddStep (mkStep "boom" "" (Some (λ l, (Panicked "oops", l))) None)])).
  - repeat split; intros; discriminate.
  - intros s f Hs Hf. simpl in Hs. apply list_elem_of_singleton in Hs. subst s. discriminate.
Defined.

Lemma run_executes_witness :
  ∃ res w', RunWithResult no_ctx clock0 demo [] = (Returned res, w') ∧
    w' = entered (StepResults res) ∧ w' = ["build"; "push"].
Proof.
  eexists _, _. split; [vm_compute; reflexivity|]. split; [|reflexivity].
  eapply (run_executes no_ctx clock0 id demo [] _ _).
  - reflexivity.
  - repeat split; intros; discriminate.
  - intros s f Hs Hf w. simpl in Hs.
    repeat (apply elem_of_cons in Hs as [->|Hs]; [simpl in Hf; simplify_eq; reflexivity|]).
    by apply elem_of_nil in Hs.
  - intros s f Hs Hf w. simpl in Hs.
    repeat (apply elem_of_cons in Hs as [->|Hs]; [simpl in Hf; simplify_eq; reflexivity|]).
    by apply elem_of_nil in Hs.
  - vm_compute. reflexivity.
Defined.

Lemma dry_run_agrees_witness :
  ∃ res w' dry w2', RunWithResult no_ctx clock0 demo_ok [] = (Returned res, w') ∧
    DryRun demo_ok [] = (Returned dry, w2') ∧
    sr_Status <$> StepResults res = sr_Status <$> StepResults dry.
Proof.
  eexists _, _, _, _. split; [vm_compute; reflexivity|]. split; [vm_compute; reflexivity|].
  eapply (dry_run_agrees no_ctx clock0 demo_ok [] _ _ [] _ _).
  - intros s f Hs Hf. simpl in Hs.
    repeat (apply elem_of_cons in Hs as [->|Hs];
      [simpl in Hf; simplify_eq; eexists; intros w; eexists; reflexivity|]).
    by apply elem_of_nil in Hs.
  - vm_compute. reflexivity.
  - reflexivity.
  - vm_compute. reflexivity.
Defined.

End workflow.
