(* ===== verification/Cache.v ===== *)
(** * platform/cache: the in-memory TTL cache

    [src/go/platform/cache/cache.go]. The critical sections of the mutex are
    atomic; [now] is [time.Now().UnixNano()] where the source reads the clock.
    The first part is one caller at a time; the second lets callers interleave
    at the points where the source holds no lock. *)

From S2P Require Import Prelude.

Module cache.

Section cache.
Context {T : Type}.

Record Item := mkItem { Value : T; Expiration : Z }.

Definition Expired (i : Item) (now : Z) : bool :=
  if Expiration i <=? 0 then false else Expiration i <? now.

(** The map of a [Cache]. *)
Definition New : gmap string Item := ∅.

Definition expiration_of (duration now : Z) : Z :=
  if 0 <? duration then wrap64 (now + duration) else 0.

Definition Set_ (key : string) (val : T) (duration now : Z) (c : gmap string Item)
  : gmap string Item := <[key := mkItem val (expiration_of duration now)]> c.

Definition Delete (key : string) (c : gmap string Item) : gmap string Item := delete key c.

Definition Clear (c : gmap string Item) : gmap string Item := ∅.

(** Get with nobody else at work: read, test, and evict when expired. *)
Definition Get (key : string) (now : Z) (c : gmap string Item)
  : option T * gmap string Item :=
  match c !! key with
  | None => (None, c)
  | Some item => if Expired item now then (None, delete key c) else (Some (Value item), c)
  end.

Definition DeleteExpired (now : Z) (c : gmap string Item) : gmap string Item :=
  filter (λ kv, ((0 <? Expiration kv.2) && (Expiration kv.2 <? now)) = false) c.

(** ** What the cache shows: the unexpired items *)

Definition view (c : gmap string Item) (now : Z) (k : string) : option T :=
  match c !! k with
  | Some i => if Expired i now then None else Some (Value i)
  | None => None
  end.

(** ** The cache under interleaving

    A Get reads the item under the read lock, tests it with no lock held, and
    takes the write lock again to evict. [threads] holds the Gets in progress:
    [TRead k i] has read item [i] (or nothing) under key [k], [TEvict k] has
    found it expired. The worker of [New] runs [DeleteExpired] until [Close]. *)

Inductive thread := TRead (k : string) (i : option Item) | TEvict (k : string).

Record State := mkState {
  items : gmap string Item;
  now : Z;
  threads : gmap nat thread;
  worker : bool
}.

Inductive event :=
| ESet (k : string) (v : T) (d : Z)
| EGot (t : nat) (k : string) (r : option T)
| EDelete (k : string) | EClear | EClose | EInternal.

Inductive step : State → event → State → Prop :=
| step_set c n ts wk k v d :
    step (mkState c n ts wk) (ESet k v d) (mkState (Set_ k v d n c) n ts wk)
| step_delete c n ts wk k :
    step (mkState c n ts wk) (EDelete k) (mkState (Delete k c) n ts wk)
| step_clear c n ts wk :
    step (mkState c n ts wk) EClear (mkState (Clear c) n ts wk)
| step_get_read c n ts wk t k :
    ts !! t = None →
    step (mkState c n ts wk) EInternal (mkState c n (<[t := TRead k (c !! k)]> ts) wk)
| step_get_miss c n ts wk t k :
    ts !! t = Some (TRead k None) →
    step (mkState c n ts wk) (EGot t k None) (mkState c n (delete t ts) wk)
| step_get_hit c n ts wk t k i :
    ts !! t = Some (TRead k (Some i)) → Expired i n = false →
    step (mkState c n ts wk) (EGot t k (Some (Value i))) (mkState c n (delete t ts) wk)
| step_get_expired c n ts wk t k i :
    ts !! t = Some (TRead k (Some i)) → Expired i n = true →
    step (mkState c n ts wk) EInternal (mkState c n (<[t := TEvict k]> ts) wk)
| step_get_evict c n ts wk t k :
    ts !! t = Some (TEvict k) →
    step (mkState c n ts wk) (EGot t k None) (mkState (delete k c) n (delete t ts) wk)
| step_worker c n ts :
    step (mkState c n ts true) EInternal (mkState (DeleteExpired n c) n ts true)
| step_close c n ts wk :
    step (mkState c n ts wk) EClose (mkState c n ts false)
| step_time c n ts wk n' :
    n ≤ n' → step (mkState c n ts wk) EInternal (mkState c n' ts wk).

Inductive run : State → list event → State → Prop :=
| run_nil s : run s [] s
| run_snoc s evs s1 e s2 : run s evs s1 → step s1 e s2 → run s (evs ++ [e]) s2.

Definition init (n : Z) (wk : bool) : State := mkState ∅ n ∅ wk.

(** ** Lemmas *)

Lemma expired_mono i now now' : now ≤ now' → Expired i now = true → Expired i now' = true.
Proof. unfold Expired. destruct (_ <=? _); [done|]. rewrite !Z.ltb_lt. lia. Qed.

Lemma expired_flag i now :
  ((0 <? Expiration i) && (Expiration i <? now)) = Expired i now.
Proof.
  unfold Expired. destruct (Z.ltb_spec 0 (Expiration i)), (Z.leb_spec (Expiration i) 0); done || lia.
Qed.

Lemma delete_expired_lookup n c k :
  DeleteExpired n c !! k = match c !! k with
    | Some i => if Expired i n then None else Some i | None => None end.
Proof.
  unfold DeleteExpired. destruct (c !! k) as [i|] eqn:E.
  - pose proof (expired_flag i n) as Hf. destruct (Expired i n).
    + apply map_lookup_filter_None_2. right. intros x Hx. simplify_eq/=. by rewrite Hf.
    + by apply map_lookup_filter_Some_2.
  - apply map_lookup_filter_None_2. by left.
Qed.

Lemma run_trans s evs s1 evs' s2 : run s evs s1 → run s1 evs' s2 → run s (evs ++ evs') s2.
Proof.
  intros H1 H2. induction H2 as [s1|s1 evs' s2 e s3 _ IH Hs]; [by rewrite app_nil_r|].
  rewrite (assoc_L (++)). eapply run_snoc; eauto.
Qed.

(** Everything in the map or read by a Get was put there by a Set. *)
Definition set_before (evs : list event) (k : string) (i : Item) : Prop :=
  ∃ d, ESet k (Value i) d ∈ evs.

Definition from_sets (evs : list event) (s : State) : Prop :=
  (∀ k i, items s !! k = Some i → set_before evs k i) ∧
  (∀ t k i, threads s !! t = Some (TRead k (Some i)) → set_before evs k i).

Lemma set_before_snoc evs e k i : set_before evs k i → set_before (evs ++ [e]) k i.
Proof. intros (d & ?). exists d. set_solver. Qed.

Lemma from_sets_step evs s e s' :
  from_sets evs s → step s e s' → from_sets (evs ++ [e]) s'.
Proof.
  intros [Hi Ht] Hs. unfold from_sets.
  inv_clear Hs; unfold Set_, Delete, Clear in *; simpl in *; (split;
    [intros k0 i0 Hl|intros t0 k0 i0 Hl]);
    try (apply set_before_snoc; eauto; fail).
  - destruct (decide (k = k0)) as [->|Hne].
    + rewrite lookup_insert_eq in Hl. simplify_eq. exists d. simpl. set_solver.
    + rewrite lookup_insert_ne in Hl by done. apply set_before_snoc; eauto.
  - apply lookup_delete_Some in Hl as [_ Hl]. apply set_before_snoc; eauto.
  - by rewrite lookup_empty in Hl.
  - destruct (decide (t = t0)) as [->|Hne].
    + rewrite lookup_insert_eq in Hl. simplify_eq. apply set_before_snoc; eauto.
    + rewrite lookup_insert_ne in Hl by done. apply set_before_snoc; eauto.
  - apply lookup_delete_Some in Hl as [_ Hl]. apply set_before_snoc; eauto.
  - apply lookup_delete_Some in Hl as [_ Hl]. apply set_before_snoc; eauto.
  - destruct (decide (t = t0)) as [->|Hne]; [by rewrite lookup_insert_eq in Hl|].
    rewrite lookup_insert_ne in Hl by done. apply set_before_snoc; eauto.
  - apply lookup_delete_Some in Hl as [_ Hl]. apply set_before_snoc; eauto.
  - apply lookup_delete_Some in Hl as [_ Hl]. apply set_before_snoc; eauto.
  - rewrite delete_expired_lookup in Hl. destruct (c !! k0) as [i1|] eqn:E; [|done].
    destruct (Expired i1 n); [done|]. simplify_eq. apply set_before_snoc; eauto.
Qed.

Lemma from_sets_run n wk evs s : run (init n wk) evs s → from_sets evs s.
Proof.
  intros H. remember (init n wk) as s0 eqn:E. induction H as [s0|s0 evs s1 e s2 _ IH Hs].
  - subst. unfold init. split; simpl; [intros k i Hl|intros t k i Hl];
      by rewrite lookup_empty in Hl.
  - eapply from_sets_step; [by apply IH|done].
Qed.

(** ** Properties *)

(** With one caller at a time the cache is a map of unexpired items. At any
    later instant, Get returns the item's value while it is unexpired and
    changes nothing another lookup can see; DeleteExpired changes nothing that
    can be seen, and leaves no expired item behind; Delete and Clear hide what
    they name; and an item put by Set is the one seen under its key, for as long
    as its duration (for ever when the duration is not positive), given that the
    deadline fits 64 bits. *)
Theorem cache_is_unexpired_map (c : gmap string Item) (now now' : Z) :
  now ≤ now' →
  (∀ k, (Get k now c).1 = view c now k) ∧
  (∀ k k', view (Get k now c).2 now' k' = view c now' k') ∧
  (∀ k, view (DeleteExpired now c) now' k = view c now' k) ∧
  (∀ k i, DeleteExpired now c !! k = Some i → Expired i now = false) ∧
  (∀ k k', view (Delete k c) now' k' = if decide (k = k') then None else view c now' k') ∧
  (∀ k, view (Clear c) now' k = None) ∧
  (∀ k k' v d, 0 < now → is_int64 (now + d) →
     view (Set_ k v d now c) now' k' =
     if decide (k = k') then if decide (d ≤ 0 ∨ now' ≤ now + d) then Some v else None
     else view c now' k').
Proof.
  intros Hn. unfold view. split_and!.
  - intros k. unfold Get. destruct (c !! k) as [i|]; [|done]. by destruct (Expired i now).
  - intros k k'. unfold Get. destruct (c !! k) as [i|] eqn:E; [|done].
    destruct (Expired i now) eqn:Ee; [simpl|done].
    destruct (decide (k = k')) as [->|]; [|by rewrite lookup_delete_ne].
    by rewrite lookup_delete_eq, E, (expired_mono _ _ _ Hn Ee).
  - intros k. rewrite delete_expired_lookup. destruct (c !! k) as [i|]; [|done].
    destruct (Expired i now) eqn:Ee; [|done]. by rewrite (expired_mono _ _ _ Hn Ee).
  - intros k i. rewrite delete_expired_lookup. destruct (c !! k) as [i'|]; [|done].
    destruct (Expired i' now) eqn:Ee; [done|]. by intros [= ->].
  - intros k k'. unfold Delete. case_decide as Hk; [subst; by rewrite lookup_delete_eq|].
    by rewrite lookup_delete_ne.
  - intros k. unfold Clear. by rewrite lookup_empty.
  - intros k k' v d Hpos Hfit. unfold Set_. case_decide as Hk; [|by rewrite lookup_insert_ne].
    subst. rewrite lookup_insert_eq. unfold Expired, expiration_of; simpl.
    destruct (Z.ltb_spec 0 d); [rewrite wrap64_id by done|].
    + destruct (Z.leb_spec (now + d) 0); [lia|].
      destruct (Z.ltb_spec (now + d) now'); case_decide; (done || lia).
    + simpl. case_decide; [done|lia].
Qed.

(** Under every interleaving of callers, worker and clock, a value Get
    returns was put under that very key by an earlier Set, and its deadline had
    not passed when it was returned. *)
Theorem get_returns_set_value n wk evs s t k v s' :
  run (init n wk) evs s → step s (EGot t k (Some v)) s' →
  (∃ d, ESet k v d ∈ evs) ∧
  ∃ i, threads s !! t = Some (TRead k (Some i)) ∧ Value i = v ∧ Expired i (now s) = false.
Proof.
  intros Hr Hs. destruct (from_sets_run _ _ _ _ Hr) as [_ Ht].
  inversion Hs as [| | | | |c n' ts wk' t' k' i Hl Hx| | | | |]; subst. simpl in *.
  destruct (Ht _ _ _ Hl) as (d & Hd). split; [by exists d|by exists i].
Qed.

End cache.
Arguments Item : clear implicits.
Arguments State : clear implicits.
Arguments event : clear implicits.

(** A Get that finds an expired item can evict a fresh one: there is a run
    in which a Set of a key, without expiry, is followed by no Delete, no Clear
    and no worker step, yet once every call has returned the key is absent. The
    eviction deletes by key, after the lock was released and taken again. *)
Theorem get_can_evict_fresh :
  ∃ (evs1 evs2 : list (event Z)) s1 s2,
    run (init 1 false) (evs1 ++ [ESet "k" 2 0]) s1 ∧
    items s1 !! "k" = Some (mkItem 2 0) ∧
    run s1 evs2 s2 ∧ threads s2 = ∅ ∧
    (∀ e, e ∈ evs2 → e = EGot 7%nat "k" None) ∧
    items s2 !! "k" = None.
Proof.
  set (c1 := Set_ "k" 1 10 1 (∅ : gmap string (Item Z))).
  set (t1 := <[7%nat := TRead "k" (c1 !! "k")]> (∅ : gmap nat thread)).
  set (t2 := <[7%nat := TEvict "k"]> t1).
  exists [ESet "k" 1 10; EInternal; EInternal; EInternal], [EGot 7%nat "k" None],
    (mkState (Set_ "k" 2 0 100 c1) 100 t2 false),
    (mkState (delete "k" (Set_ "k" 2 0 100 c1)) 100 (delete 7%nat t2) false).
  split.
  { apply (run_snoc _ _ (mkState c1 100 t2 false)); [|apply step_set].
    apply (run_snoc _ [_; _; _] (mkState c1 100 t1 false));
      [|by apply (step_get_expired _ _ _ _ _ "k" (mkItem 1 11))].
    apply (run_snoc _ [_; _] (mkState c1 100 ∅ false)); [|by apply step_get_read].
    apply (run_snoc _ [_] (mkState c1 1 ∅ false)); [|by apply step_time].
    apply (run_snoc _ [] (init 1 false)); [apply run_nil|apply step_set]. }
  split; [reflexivity|]. split.
  { apply (run_snoc _ [] _ _ _ (run_nil _)). by apply step_get_evict. }
  split; [reflexivity|]. split; [by intros e ->%list_elem_of_singleton|]. reflexivity.
Qed.

(** ** Witnesses *)

Lemma cache_is_unexpired_map_witness :
  0 ≤ 5 ∧ view (Set_ "k" true 10 5 (New : gmap string (Item bool))) 15 "k" = Some true.
Proof.
  split; [lia|].
  destruct (cache_is_unexpired_map (New : gmap string (Item bool)) 5 15 ltac:(lia))
    as (_ & _ & _ & _ & _ & _ & H).
  apply (H "k" "k" true 10); [lia|]. unfold is_int64, min_int64, max_int64. lia.
Defined.

Lemma get_returns_set_value_witness :
  ∃ d, ESet "k" true d ∈ [ESet "k" true 0; EInternal].
Proof.
  eapply (get_returns_set_value 1 false [ESet "k" true 0; EInternal] _ 3%nat "k" true).
  - apply (run_snoc _ [ESet "k" true 0] (mkState (Set_ "k" true 0 1 ∅) 1 ∅ false));
      [|by apply (step_get_read _ _ _ _ 3%nat "k")].
    apply (run_snoc _ [] (init 1 false)); [apply run_nil|apply step_set].
  - eapply (step_get_hit _ _ _ _ 3%nat "k" (mkItem true 0)); [apply lookup_insert_eq|reflexivity].
Defined.

End cache.
