(* ===== verification/BatchBuffer.v ===== *)
(** * platform/async: the batch buffer

    [src/go/platform/async/batch_buffer.go]. Each method holds the mutex while
    it appends to the buffer or takes its content, and calls [onFlush] on what
    it took after releasing it. The locked parts are the functions [add_locked]
    and [flush_locked]; between them callers interleave freely. *)

From S2P Require Import Prelude GoErr GoMonad.

Module batch.

Section batch.
Context {T : Type}.

(** [FlushError]: the batch that could not be delivered, and why. *)
Record FlushError := mkFlushError { Items : list T; Err : error }.

Definition Unwrap (e : FlushError) : error := Err e.
Definition FlushError_text (e : FlushError) : string :=
  "failed to flush batch of " +:+ pretty (length (Items e)) +:+ " item(s): "
    +:+ error_text (Err e).

Record BatchBuffer := mkBatchBuffer { limit : Z; items : list T }.

Definition NewBatchBuffer (lim : Z) : BatchBuffer :=
  mkBatchBuffer (if lim <=? 0 then 500 else lim) [].

(** [Add] up to the unlock: the buffer, and the batch to flush, if any. *)
Definition add_locked (item : T) (b : BatchBuffer) : BatchBuffer * option (list T) :=
  let items' := items b ++ [item] in
  if limit b <=? Z.of_nat (length items')
  then (mkBatchBuffer (limit b) [], Some items')
  else (mkBatchBuffer (limit b) items', None).

(** [Flush] up to the unlock. *)
Definition flush_locked (b : BatchBuffer) : BatchBuffer * option (list T) :=
  if decide (length (items b) = 0%nat) then (b, None)
  else (mkBatchBuffer (limit b) [], Some (items b)).

(** The rest of both: what the method returns when [onFlush] answered [oe]. *)
Definition flushed (batch : list T) (oe : option error) : option FlushError :=
  match oe with
  | Some e => Some (mkFlushError batch e)
  | None => None
  end.

(** [Add] and [Flush] in a world [W] that the callback works on. *)
Definition Add {W} (onFlush : list T → go W (option error)) (item : T) (b : BatchBuffer)
  : go W (BatchBuffer * option FlushError) :=
  match add_locked item b with
  | (b', Some batch) => oe ← onFlush batch; mret (b', flushed batch oe)
  | (b', None) => mret (b', None)
  end.

Definition Flush {W} (onFlush : list T → go W (option error)) (b : BatchBuffer)
  : go W (BatchBuffer * option FlushError) :=
  match flush_locked b with
  | (b', Some batch) => oe ← onFlush batch; mret (b', flushed batch oe)
  | (b', None) => mret (b', None)
  end.

Definition Len (b : BatchBuffer) : Z := Z.of_nat (length (items b)).

(** ** Interleaved callers *)

(** [flying] holds the batches taken and not yet answered by [onFlush], under
    the caller that took them; [delivered] and [returned] the batches [onFlush]
    took and refused, the latter now with a caller, in a [FlushError]; [added]
    and [taken] record the history of locked parts. *)
Record State := mkState {
  buf : BatchBuffer;
  flying : gmap nat (list T);
  delivered : list (list T);
  returned : list FlushError;
  added : list T;
  taken : list (list T)
}.

Definition fly (t : nat) (o : option (list T)) (m : gmap nat (list T)) : gmap nat (list T) :=
  match o with Some b => <[t := b]> m | None => m end.
Definition take_ (o : option (list T)) (l : list (list T)) : list (list T) :=
  match o with Some b => l ++ [b] | None => l end.

Inductive step : State → State → Prop :=
| step_add t x b fl dl rt ad tk b' o :
    fl !! t = None → add_locked x b = (b', o) →
    step (mkState b fl dl rt ad tk) (mkState b' (fly t o fl) dl rt (ad ++ [x]) (take_ o tk))
| step_flush t b fl dl rt ad tk b' o :
    fl !! t = None → flush_locked b = (b', o) →
    step (mkState b fl dl rt ad tk) (mkState b' (fly t o fl) dl rt ad (take_ o tk))
| step_delivered t b fl dl rt ad tk batch :
    fl !! t = Some batch → flushed batch None = None →
    step (mkState b fl dl rt ad tk) (mkState b (delete t fl) (dl ++ [batch]) rt ad tk)
| step_refused t b fl dl rt ad tk batch e fe :
    fl !! t = Some batch → flushed batch (Some e) = Some fe →
    step (mkState b fl dl rt ad tk) (mkState b (delete t fl) dl (rt ++ [fe]) ad tk).

Definition init (lim : Z) : State := mkState (NewBatchBuffer lim) ∅ [] [] [] [].

(** One caller adding a sequence of items: the batches it takes on the way. *)
Definition adds (xs : list T) (b : BatchBuffer) : BatchBuffer * list (list T) :=
  fold_left (λ '(b, tk) x, let '(b', o) := add_locked x b in (b', take_ o tk)) xs (b, []).

(** ** Invariant *)

Definition in_flight (m : gmap nat (list T)) : list (list T) := (map_to_list m).*2.

Record inv (s : State) : Prop := mkInv {
  inv_limit : 0 < limit (buf s);
  inv_room : Z.of_nat (length (items (buf s))) < limit (buf s);
  inv_order : concat (taken s) ++ items (buf s) = added s;
  inv_taken : taken s ≡ₚ in_flight (flying s) ++ delivered s ++ (Items <$> returned s);
  inv_sizes : Forall (λ b, b ≠ [] ∧ Z.of_nat (length b) ≤ limit (buf s)) (taken s)
}.

(** ** Lemmas *)

Lemma new_limit lim : 0 < limit (NewBatchBuffer lim).
Proof. unfold NewBatchBuffer. simpl. destruct (Z.leb_spec lim 0); lia. Qed.

Lemma in_flight_insert m t b :
  m !! t = None → in_flight (<[t:=b]> m) ≡ₚ b :: in_flight m.
Proof. intros Ht. unfold in_flight. by rewrite map_to_list_insert. Qed.

Lemma in_flight_delete m t b :
  m !! t = Some b → in_flight m ≡ₚ b :: in_flight (delete t m).
Proof.
  intros Ht. rewrite <- (insert_delete_id m t b Ht) at 1.
  apply in_flight_insert, lookup_delete_eq.
Qed.

(** What the locked parts do to the items: nothing is lost or reordered. *)
Lemma add_locked_spec x b b' o :
  0 < limit b → Z.of_nat (length (items b)) < limit b → add_locked x b = (b', o) →
  limit b' = limit b ∧ Z.of_nat (length (items b')) < limit b ∧
  match o with
  | Some batch => items b' = [] ∧ batch = items b ++ [x] ∧
      Z.of_nat (length batch) = limit b
  | None => items b' = items b ++ [x]
  end.
Proof.
  intros Hl Hr. unfold add_locked.
  destruct (Z.leb_spec (limit b) (Z.of_nat (length (items b ++ [x])))) as [H|H];
    intros [= <- <-]; rewrite length_app in *; simpl in *; split_and!; try done; try lia.
  rewrite length_app. simpl. lia.
Qed.

Lemma flush_locked_spec b b' o :
  0 < limit b → Z.of_nat (length (items b)) < limit b → flush_locked b = (b', o) →
  limit b' = limit b ∧ items b' = [] ∧
  match o with
  | Some batch => batch = items b ∧ batch ≠ []
  | None => items b = []
  end.
Proof.
  intros Hl Hr. unfold flush_locked. case_decide as H; rewrite length_zero_nil in H;
    intros [= <- <-]; split_and!; done.
Qed.

(** A locked part that keeps the order keeps the invariant. *)
Lemma inv_locked t b fl dl rt ad tk b' o xs :
  inv (mkState b fl dl rt ad tk) → fl !! t = None →
  limit b' = limit b → Z.of_nat (length (items b')) < limit b →
  concat (take_ o tk) ++ items b' = concat tk ++ items b ++ xs →
  (∀ batch, o = Some batch → batch ≠ [] ∧ Z.of_nat (length batch) ≤ limit b) →
  inv (mkState b' (fly t o fl) dl rt (ad ++ xs) (take_ o tk)).
Proof.
  intros [Hl Hr Ho Ht Hs] Hfl El Hlen Hc Hb. simpl in *. split; simpl.
  - by rewrite El.
  - by rewrite El.
  - by rewrite Hc, <- Ho, (assoc_L (++)).
  - destruct o as [batch|]; simpl; [|done]. rewrite in_flight_insert by done.
    rewrite Ht. simpl. symmetry. apply Permutation_cons_append.
  - rewrite El. destruct o as [batch|]; simpl; [|done].
    apply Forall_app. split; [done|]. apply Forall_singleton. by apply Hb.
Qed.

Lemma inv_answered t b fl dl rt ad tk batch dl' rt' :
  inv (mkState b fl dl rt ad tk) → fl !! t = Some batch →
  dl' ++ (Items <$> rt') ≡ₚ batch :: dl ++ (Items <$> rt) →
  inv (mkState b (delete t fl) dl' rt' ad tk).
Proof.
  intros [Hl Hr Ho Ht Hs] Hfl Hp. split; try done. simpl in *.
  rewrite Ht, Hp, (in_flight_delete fl t batch Hfl). simpl.
  by rewrite Permutation_middle.
Qed.

Lemma batch_inv_step s s' : inv s → step s s' → inv s'.
Proof.
  intros Hi Hs. inv_clear Hs.
  - pose proof (inv_limit _ Hi). pose proof (inv_room _ Hi). simpl in *.
    destruct (add_locked_spec x b b' o) as (El & Hlen & Ho); [done..|].
    eapply inv_locked; [done|done|done|done| |].
    + destruct o as [batch|]; simpl.
      * destruct Ho as (-> & -> & _). rewrite concat_app. simpl. by rewrite !app_nil_r.
      * by rewrite Ho.
    + intros batch ->. destruct Ho as (_ & -> & Hlb). split; [by destruct (items b)|lia].
  - pose proof (inv_limit _ Hi). pose proof (inv_room _ Hi). simpl in *.
    destruct (flush_locked_spec b b' o) as (El & Hnil & Ho); [done..|].
    rewrite <- (app_nil_r ad).
    eapply inv_locked; [done|done|done|by rewrite Hnil| |].
    + rewrite Hnil, !app_nil_r. destruct o as [batch|]; simpl.
      * destruct Ho as [-> _]. rewrite concat_app. simpl. by rewrite app_nil_r.
      * by rewrite Ho, app_nil_r.
    + intros batch ->. destruct Ho as [-> ?]. split; [done|lia].
  - eapply inv_answered; [done|done|]. rewrite <- (assoc_L (++)). simpl.
    by rewrite Permutation_middle.
  - eapply inv_answered; [done|done|]. simpl in *. simplify_eq. rewrite fmap_app. simpl.
    rewrite (assoc_L (++)). symmetry. apply Permutation_cons_append.
Qed.

Lemma batch_inv_init lim : inv (init lim).
Proof.
  pose proof (new_limit lim). split; simpl in *; try done.
Qed.

Lemma adds_snoc xs x b :
  adds (xs ++ [x]) b =
  let '(b1, tk) := adds xs b in let '(b2, o) := add_locked x b1 in (b2, take_ o tk).
Proof. unfold adds. rewrite fold_left_snoc. by destruct (fold_left _ xs _). Qed.

(** ** Properties *)

(** C5: However Add, Flush and the answers of onFlush interleave, no item is
    lost, duplicated or reordered: the batches taken, in the order they were
    taken, followed by what the buffer holds, are the items added, in order;
    and each batch taken is in exactly one place, on its way to onFlush,
    accepted by it, or handed back to a caller in a FlushError. The buffer never
    reaches its limit between calls, and no batch is empty or exceeds it. *)
Theorem buffer_conserves lim s :
  rtc step (init lim) s →
  concat (taken s) ++ items (buf s) = added s ∧
  taken s ≡ₚ in_flight (flying s) ++ delivered s ++ (Items <$> returned s) ∧
  Len (buf s) < limit (buf s) ∧
  Forall (λ b, b ≠ [] ∧ Z.of_nat (length b) ≤ limit (buf s)) (taken s).
Proof.
  intros H. apply (rtc_invariant step inv) in H; [|apply batch_inv_step|apply batch_inv_init].
  destruct H. done.
Qed.

(** A caller alone that adds [n] items to a new buffer and never calls Flush
    triggers a flush exactly at every limit-th item: [n / limit] batches of
    exactly [limit] items each, in order, and [n mod limit] items left. A limit
    that is not positive stands for 500. *)
Theorem buffer_batches lim xs b tk :
  adds xs (NewBatchBuffer lim) = (b, tk) →
  let l := if lim <=? 0 then 500 else lim in
  Z.of_nat (length tk) = Z.of_nat (length xs) / l ∧
  Len b = Z.of_nat (length xs) mod l ∧
  Forall (λ c, Z.of_nat (length c) = l) tk ∧
  concat tk ++ items b = xs.
Proof.
  intros H l. pose proof (new_limit lim) as Hl. change (limit (NewBatchBuffer lim)) with l in Hl.
  enough (limit b = l ∧ Len b < l ∧ Forall (λ c, Z.of_nat (length c) = l) tk ∧
    concat tk ++ items b = xs ∧
    Z.of_nat (length xs) = l * Z.of_nat (length tk) + Len b) as (_ & Hb & Hf & Hc & Hn).
  { split_and!; try done.
    - apply Z.div_unique with (Len b); [unfold Len in *; lia|lia].
    - apply Z.mod_unique with (Z.of_nat (length tk)); [unfold Len in *; lia|lia]. }
  revert b tk H. induction xs as [|x xs IH] using rev_ind; intros b tk H.
  { cbn in H. simplify_eq. unfold Len. simpl. split_and!; [done|lia|constructor|done|lia]. }
  rewrite adds_snoc in H. destruct (adds xs (NewBatchBuffer lim)) as [b1 tk1].
  destruct (IH _ _ eq_refl) as (Hlim & Hlen & Hf & Hc & Hn).
  destruct (add_locked x b1) as [b2 o] eqn:Ea. injection H as <- <-.
  apply add_locked_spec in Ea as (E1 & E2 & Ho); [|lia|unfold Len in *; lia].
  unfold Len in *. destruct o as [batch|]; simpl.
  - destruct Ho as (-> & -> & Hlb). rewrite concat_app, !length_app. simpl in *.
    rewrite !app_nil_r. rewrite length_app in Hlb. simpl in Hlb. split_and!; try lia.
    + apply Forall_app. split; [done|]. apply Forall_singleton. rewrite length_app. simpl. lia.
    + by rewrite (assoc_L (++)), Hc.
  - rewrite Ho, !length_app. simpl. rewrite Ho, length_app in E2. simpl in E2.
    split_and!; try done; try lia. by rewrite (assoc_L (++)), Hc.
Qed.

End batch.
Arguments FlushError : clear implicits.
Arguments BatchBuffer : clear implicits.
Arguments State : clear implicits.

(** A failed flush hands the caller the exact batch that was not delivered
    and the callback's error, and the buffer keeps none of it; a flush that
    succeeds, or an Add that fills no batch, returns no error and calls nothing
    more. *)
Theorem add_flush_outcome {T W} (onFlush : list T → go W (option error)) (x : T)
    (b : BatchBuffer T) (w : W) r w' :
  0 < limit b → Len b < limit b →
  Add onFlush x b w = (Returned r, w') →
  (Len b + 1 < limit b ∧ w' = w ∧ r = (mkBatchBuffer (limit b) (items b ++ [x]), None)) ∨
  (Len b + 1 = limit b ∧ ∃ oe, onFlush (items b ++ [x]) w = (Returned oe, w') ∧
     r = (mkBatchBuffer (limit b) [],
          (λ e, mkFlushError (items b ++ [x]) e) <$> oe)).
Proof.
  intros Hl Hr. unfold Add, add_locked, Len in *. rewrite length_app. simpl.
  destruct (Z.leb_spec (limit b) (Z.of_nat (length (items b) + 1))) as [H|H]; intros E.
  - right. split; [lia|]. apply bind_returned in E as (oe & w1 & E & Hret).
    cbv [mret go_ret] in Hret. simplify_eq. exists oe. split; [done|]. by destruct oe.
  - left. split; [lia|]. cbv [mret go_ret] in E. by simplify_eq.
Qed.

(** ** Witnesses *)

Lemma buffer_conserves_witness :
  ∃ s : State nat, rtc step (init 1) s ∧ taken s = [[5%nat]] ∧
    concat (taken s) ++ items (buf s) = added s.
Proof.
  set (s := mkState (NewBatchBuffer 1) (<[0%nat := [5%nat]]> ∅) [] [] [5%nat] [[5%nat]]).
  assert (rtc step (init 1) s) as H.
  { eapply rtc_once. apply (step_add 0%nat 5%nat _ _ [] [] [] [] _ (Some [5%nat])); reflexivity. }
  exists s. split; [exact H|]. split; [reflexivity|]. apply (buffer_conserves 1 s H).
Defined.

Lemma buffer_batches_witness :
  let '(b, tk) := adds [1; 2; 3; 4; 5] (NewBatchBuffer 2) in
  tk = [[1; 2]; [3; 4]] ∧ Len b = 5 mod 2.
Proof.
  destruct (adds [1; 2; 3; 4; 5] (NewBatchBuffer 2)) as [b tk] eqn:E.
  destruct (buffer_batches 2 [1; 2; 3; 4; 5] b tk E) as (_ & H & _).
  split; [vm_compute in E; congruence|exact H].
Defined.

Lemma add_flush_outcome_witness :
  let onFlush := λ (batch : list Z) (w : unit), (Returned (Some context_Canceled), w) in
  ∃ r, Add onFlush 7 (NewBatchBuffer 1) tt = (Returned r, tt) ∧
    r = (NewBatchBuffer 1, Some (mkFlushError [7] context_Canceled)).
Proof.
  intros onFlush. eexists. split; [reflexivity|].
  destruct (add_flush_outcome onFlush 7 (NewBatchBuffer 1) tt
    (NewBatchBuffer 1, Some (mkFlushError [7] context_Canceled)) tt)
    as [(H & _)|(_ & oe & E & H)]; [reflexivity|reflexivity|reflexivity|discriminate H|].
  reflexivity.
Defined.

End batch.
