(* ===== verification/Async.v ===== *)
(** * platform/async: the task runner

    [src/go/platform/async/async.go]. The runner is a transition system: each
    critical section of the mutex, each channel operation and each call of the
    task function is one step, and steps of different goroutines interleave. A
    [*Task] is shared between the map of the runner, the submitter and the
    goroutine that executes it, so tasks live in a store by ID and the map is
    the set of IDs it holds. *)

From S2P Require Import Prelude GoStrings GoErr.

Module async.

Section async.
(** [D] is the type of the data task functions return. *)
Context {D : Type}.

Inductive Status := StatusPending | StatusRunning | StatusDone | StatusFailed.

#[export] Instance Status_eq_dec : EqDecision Status.
Proof. solve_decision. Defined.

Record Result := mkResult { Data : option D; Error : string }.

Record Task := mkTask {
  ID : string; Kind : string; task_Status : Status;
  Created : Z; Started : Z; Completed : Z; task_Result : Result }.

(** The task [Submit] makes. *)
Definition newTask (id kind : string) (now : Z) : Task :=
  mkTask id kind StatusPending now 0 0 (mkResult None "").

(** [failTask] *)
Definition failTask (now : Z) (err : error) (t : Task) : Task :=
  mkTask (ID t) (Kind t) StatusFailed (Created t) (Started t) now
    (mkResult None (error_text err)).

(** The three locked parts of [execute]. *)
Definition startTask (now : Z) (t : Task) : Task :=
  mkTask (ID t) (Kind t) StatusRunning (Created t) now (Completed t) (task_Result t).

Definition finishTask (now : Z) (data : option D) (err : option error) (t : Task) : Task :=
  match err with
  | Some e => mkTask (ID t) (Kind t) StatusFailed (Created t) (Started t) now
                (mkResult data (error_text e))
  | None => mkTask (ID t) (Kind t) StatusDone (Created t) (Started t) now (mkResult data "")
  end.

Definition panicTask (now : Z) (rec : string) (t : Task) : Task :=
  mkTask (ID t) (Kind t) StatusFailed (Created t) (Started t) now
    (mkResult None ("panic: " +:+ rec)).

(** Whether [Prune] removes a task. *)
Definition prunable (now maxAge : Z) (t : Task) : bool :=
  bool_decide (task_Status t ≠ StatusPending) && bool_decide (task_Status t ≠ StatusRunning)
  && (Completed t <? now - maxAge).

Definition runner_closed (err : error) : error :=
  wrap_pre "runner closed before task started: " err.

(** Options of [NewRunner]: the limit, the base context ([None] is the background, which
    nothing cancels), and the janitor's interval and age. *)
Record runnerOptions := mkOptions {
  limit : Z; baseCtx : option nat; janitorInterval : Z; janitorMaxAge : Z }.
Definition defaultConcurrencyLimit : Z := 100.
Definition WithLimit (l : Z) (o : runnerOptions) : runnerOptions :=
  mkOptions l (baseCtx o) (janitorInterval o) (janitorMaxAge o).
Definition WithBaseContext (ctx : nat) (o : runnerOptions) : runnerOptions :=
  mkOptions (limit o) (Some ctx) (janitorInterval o) (janitorMaxAge o).
Definition WithJanitor (interval maxAge : Z) (o : runnerOptions) : runnerOptions :=
  mkOptions (limit o) (baseCtx o) interval maxAge.
Definition options (opts : list (runnerOptions → runnerOptions)) : runnerOptions :=
  fold_left (λ o opt, opt o) opts (mkOptions defaultConcurrencyLimit None 0 0).

(** [newID]: eight random bytes. [step_submit] takes the ID for a fresh one. *)
Definition idBytes : nat := 8.
Definition newID (b : list Z) : string := EncodeToString b.

(** Where the goroutines working on a task are: [Submit] before its check of the
    base context, [Submit] waiting for a slot, [execute] before it marks the
    task running, inside the task function, after it recorded the outcome, and
    done, with or without having called the function. *)
Inductive phase :=
| PSubmitted | PWaiting | PSpawned | PRunning | PRecorded | PFinished (ran : bool).

Definition holds_slot (p : phase) : bool :=
  match p with PSpawned | PRunning | PRecorded => true | _ => false end.
Definition has_run (p : phase) : bool :=
  match p with PRunning | PRecorded => true | PFinished b => b | _ => false end.

(** [sem] counts the elements of the semaphore channel; [closed] is
    [r.ctx.Err() != nil]; [entered] records the task functions called and [late]
    the tasks submitted to a closed runner. *)
Record State := mkState {
  store : gmap string (Task * phase);
  tasks : gset string;
  sem : nat;
  closed : bool;
  now : Z;
  entered : list string;
  late : gset string
}.

Definition set_task (id : string) (t : Task) (p : phase) (s : State) : State :=
  mkState (<[id := (t, p)]> (store s)) (tasks s) (sem s) (closed s) (now s) (entered s) (late s).
Definition set_sem (n : nat) (s : State) : State :=
  mkState (store s) (tasks s) n (closed s) (now s) (entered s) (late s).
Definition enter (id : string) (s : State) : State :=
  mkState (store s) (tasks s) (sem s) (closed s) (now s) (entered s ++ [id]) (late s).

(** [Get]: a copy of the task, if the map holds it. *)
Definition Get (id : string) (s : State) : option Task :=
  if decide (id ∈ tasks s) then fst <$> store s !! id else None.

(** [List]: a copy of every task of the map, in the order in which it is walked. *)
Definition List (order : list string) (s : State) : list Task := omap (λ id, fst <$> store s !! id) order.

(** [Prune]: the IDs it deletes, and the runner without them. *)
Definition prunes (maxAge : Z) (s : State) (id : string) : bool :=
  match store s !! id with Some (t, _) => prunable (now s) maxAge t | None => false end.
Definition pruned (maxAge : Z) (s : State) : gset string :=
  filter (λ id, prunes maxAge s id = true) (tasks s).
Definition Prune (maxAge : Z) (s : State) : State * nat :=
  (mkState (store s) (tasks s ∖ pruned maxAge s) (sem s) (closed s) (now s) (entered s) (late s),
   size (pruned maxAge s)).

Context (lim : Z).

(** [r.sem] is nil when the limit is not positive. *)
Definition bounded : bool := 0 <? lim.

Inductive step : State → State → Prop :=
| step_submit s id kind :
    store s !! id = None →
    step s (mkState (<[id := (newTask id kind (now s), PSubmitted)]> (store s))
              ({[id]} ∪ tasks s) (sem s) (closed s) (now s) (entered s)
              (if closed s then {[id]} ∪ late s else late s))
| step_reject s id t err :
    store s !! id = Some (t, PSubmitted) → closed s = true →
    step s (set_task id (failTask (now s) (runner_closed err) t) (PFinished false) s)
| step_admit s id t :
    store s !! id = Some (t, PSubmitted) → closed s = false →
    step s (set_task id t (if bounded then PWaiting else PSpawned) s)
| step_acquire s id t :
    store s !! id = Some (t, PWaiting) → Z.of_nat (sem s) < lim →
    step s (set_sem (S (sem s)) (set_task id t PSpawned s))
| step_give_up s id t err :
    store s !! id = Some (t, PWaiting) → closed s = true →
    step s (set_task id (failTask (now s) (runner_closed err) t) (PFinished false) s)
| step_start s id t :
    store s !! id = Some (t, PSpawned) →
    step s (enter id (set_task id (startTask (now s) t) PRunning s))
| step_finish s id t data err :
    store s !! id = Some (t, PRunning) →
    step s (set_task id (finishTask (now s) data err t) PRecorded s)
| step_panic s id t rec :
    store s !! id = Some (t, PRunning) →
    step s (set_task id (panicTask (now s) rec t) PRecorded s)
| step_release s id t :
    store s !! id = Some (t, PRecorded) →
    step s (set_sem (if bounded then pred (sem s) else sem s)
              (set_task id t (PFinished true) s))
| step_prune s maxAge :
    step s (Prune maxAge s).1
| step_close s :
    step s (mkState (store s) (tasks s) (sem s) true (now s) (entered s) (late s))
| step_time s n :
    now s ≤ n →
    step s (mkState (store s) (tasks s) (sem s) (closed s) n (entered s) (late s)).

Definition init (n : Z) : State := mkState ∅ ∅ 0 false n [] ∅.

(** ** Invariant *)

Definition status_fits (p : phase) (st : Status) : Prop :=
  match p with
  | PSubmitted | PWaiting | PSpawned => st = StatusPending
  | PRunning => st = StatusRunning
  | PRecorded | PFinished true => st = StatusDone ∨ st = StatusFailed
  | PFinished false => st = StatusFailed
  end.

Definition is_live (p : phase) : bool :=
  match p with PSubmitted | PWaiting | PSpawned | PRunning => true | _ => false end.

Definition task_inv (s : State) (id : string) (t : Task) (p : phase) : Prop :=
  status_fits p (task_Status t) ∧
  (is_live p = true → id ∈ tasks s) ∧
  (id ∈ entered s ↔ has_run p = true) ∧
  (id ∈ late s → p = PSubmitted ∨ p = PFinished false) ∧
  (bounded = false → p ≠ PWaiting).

Definition slots (s : State) : nat := count_if (λ tp, holds_slot tp.2) (store s).

Record inv (s : State) : Prop := mkInv {
  inv_tasks : ∀ id t p, store s !! id = Some (t, p) → task_inv s id t p;
  inv_known : ∀ id, id ∈ entered s ∨ id ∈ late s ∨ id ∈ tasks s → is_Some (store s !! id);
  inv_once : NoDup (entered s);
  inv_late : ∀ id, id ∈ late s → closed s = true;
  inv_sem : bounded = true → sem s = slots s ∧ Z.of_nat (sem s) ≤ lim
}.

(** ** Lemmas *)

Lemma prune_kept maxAge s id t p :
  store s !! id = Some (t, p) → task_Status t = StatusPending ∨ task_Status t = StatusRunning →
  id ∈ tasks s → id ∈ tasks (Prune maxAge s).1.
Proof.
  intros Ht Hs Hid. simpl. apply elem_of_difference. split; [done|].
  unfold pruned. rewrite elem_of_filter. unfold prunes. rewrite Ht. intros [Hp _].
  unfold prunable in Hp.
  destruct Hs as [E|E]; rewrite E in Hp; done.
Qed.

Lemma live_status p st : is_live p = true → status_fits p st → st = StatusPending ∨ st = StatusRunning.
Proof. destruct p; simpl; (done || auto). Qed.

(** A step that moves one task from phase [p] to phase [p'], possibly entering
    its function, and changes the semaphore as the phases say. *)
Lemma inv_move s id t p t' p' n (ent : bool) :
  inv s → store s !! id = Some (t, p) →
  status_fits p' (task_Status t') →
  (is_live p' = true → is_live p = true) →
  has_run p' = has_run p || ent → (ent = true → has_run p = false) →
  (p' = PSubmitted ∨ p' = PFinished false ∨ p ≠ PSubmitted ∨ closed s = false) →
  (p ≠ PFinished false) →
  (bounded = false → p' ≠ PWaiting) →
  (bounded = true →
     (n + (if holds_slot p then 1 else 0) = sem s + (if holds_slot p' then 1 else 0))%nat ∧
     Z.of_nat n ≤ lim) →
  inv (mkState (<[id := (t', p')]> (store s)) (tasks s) n (closed s) (now s)
         (if ent then entered s ++ [id] else entered s) (late s)).
Proof.
  intros Hi Hl Hst Hlive Hrun Hent Hlate Hpf Hw Hsem.
  destruct (inv_tasks s Hi id t p Hl) as (Hs1 & Hs2 & Hs3 & Hs4 & Hs5).
  assert (Hin : ∀ x, x ∈ (if ent then entered s ++ [id] else entered s) ↔
    x ∈ entered s ∨ (ent = true ∧ x = id)).
  { intros x. destruct ent; set_solver. }
  split; simpl.
  - intros id0 t0 p0 E. destruct (decide (id = id0)) as [->|Hne].
    + rewrite lookup_insert_eq in E. simplify_eq. unfold task_inv; simpl.
      split_and!; [done|auto| | |done].
      * rewrite Hin, Hs3, Hrun, orb_true_iff. tauto.
      * intros Hlt. pose proof (inv_late s Hi _ Hlt) as Hc. destruct (Hs4 Hlt) as [->| ->]; [|done].
        destruct Hlate as [->|[->|[?|?]]]; [auto|auto|done|congruence].
    + rewrite lookup_insert_ne in E by done.
      destruct (inv_tasks s Hi id0 t0 p0 E) as (? & ? & H3 & ? & ?).
      unfold task_inv; simpl. split_and!; [done|done| |done|done].
      rewrite Hin, <- H3. split; [intros [?|[_ ->]]; [done|done]|auto].
  - intros id0 H0. destruct (decide (id = id0)) as [->|Hne]; [by rewrite lookup_insert_eq; eexists|].
    rewrite lookup_insert_ne by done. apply (inv_known s Hi). rewrite Hin in H0. naive_solver.
  - destruct ent; [|apply (inv_once s Hi)]. apply NoDup_app. split; [apply (inv_once s Hi)|].
    split; [|apply NoDup_singleton]. intros x Hx ->%list_elem_of_singleton.
    apply Hs3 in Hx. rewrite Hent in Hx; done.
  - apply (inv_late s Hi).
  - intros Hb. destruct (Hsem Hb) as [Hn Hle]. split; [|done].
    destruct (inv_sem s Hi Hb) as [Hs _]. unfold slots in *. simpl.
    pose proof (count_if_insert (λ tp : Task * phase, holds_slot tp.2) (store s) id (t, p) (t', p') Hl)
      as Hc. simpl in Hc. lia.
Qed.

Lemma inv_submit s id kind :
  inv s → store s !! id = None →
  inv (mkState (<[id := (newTask id kind (now s), PSubmitted)]> (store s))
         ({[id]} ∪ tasks s) (sem s) (closed s) (now s) (entered s)
         (if closed s then {[id]} ∪ late s else late s)).
Proof.
  intros Hi Hn.
  assert (Hnew : ∀ x, x ∈ entered s ∨ x ∈ late s ∨ x ∈ tasks s → x ≠ id).
  { intros x Hx ->. apply (inv_known s Hi) in Hx. rewrite Hn in Hx. by destruct Hx. }
  assert (Hl : ∀ x, x ∈ (if closed s then {[id]} ∪ late s else late s) ↔
    x ∈ late s ∨ (closed s = true ∧ x = id)).
  { intros x. destruct (closed s); set_solver. }
  split; simpl.
  - intros id0 t0 p0 E. destruct (decide (id = id0)) as [->|Hne].
    + rewrite lookup_insert_eq in E. simplify_eq. unfold task_inv; simpl.
      split_and!; [done|set_solver| |auto|done].
      split; [|done]. intros Hx. by destruct (Hnew id0 (or_introl Hx)).
    + rewrite lookup_insert_ne in E by done.
      destruct (inv_tasks s Hi id0 t0 p0 E) as (? & ? & ? & H4 & ?).
      unfold task_inv; simpl. split_and!; [done|set_solver|done| |done].
      rewrite Hl. naive_solver.
  - intros id0 H0. destruct (decide (id = id0)) as [->|Hne]; [by rewrite lookup_insert_eq; eexists|].
    rewrite lookup_insert_ne by done. apply (inv_known s Hi). rewrite Hl in H0. set_solver.
  - apply (inv_once s Hi).
  - intros id0. rewrite Hl. intros [?|[? _]]; [by eapply (inv_late s Hi)|done].
  - intros Hb. destruct (inv_sem s Hi Hb) as [Hs ?]. split; [|done]. rewrite Hs.
    unfold slots. simpl. by rewrite count_if_insert_new.
Qed.

Lemma inv_frame s s' :
  inv s → store s' = store s → tasks s' ⊆ tasks s → sem s' = sem s →
  entered s' = entered s → late s' = late s → (closed s = true → closed s' = true) →
  (∀ id t p, store s !! id = Some (t, p) → is_live p = true → id ∈ tasks s → id ∈ tasks s') →
  inv s'.
Proof.
  intros Hi Es Et En Ee El Hc Hk. split; rewrite ?Es, ?En, ?Ee, ?El.
  - intros id t p E. destruct (inv_tasks s Hi id t p E) as (? & ? & ? & ? & ?).
    unfold task_inv. rewrite Ee, El. split_and!; eauto.
  - intros id H0. apply (inv_known s Hi). set_solver.
  - apply (inv_once s Hi).
  - intros id Hid. apply Hc. by apply (inv_late s Hi id).
  - unfold slots. rewrite Es. apply (inv_sem s Hi).
Qed.

Lemma inv_init n : inv (init n).
Proof.
  split; simpl.
  - intros id t p E. by rewrite lookup_empty in E.
  - set_solver.
  - constructor.
  - set_solver.
  - unfold bounded. intros Hb%Z.ltb_lt. unfold slots. simpl. by rewrite count_if_empty; split; [|lia].
Qed.

Lemma inv_step s s' : inv s → step s s' → inv s'.
Proof.
  intros Hi Hs. pose proof (inv_sem s Hi) as Hsem.
  destruct Hs as [s id kind Hn|s id t err Hl Hc|s id t Hl Hc|s id t Hl Hlt|s id t err Hl Hc
    |s id t Hl|s id t data err Hl|s id t rec Hl|s id t Hl|s maxAge|s|s n Hn].
  - by apply inv_submit.
  - eapply (inv_move s id t _ _ _ _ false Hi Hl); simpl; auto.
    intros Hb. destruct (Hsem Hb). lia.
  - destruct (inv_tasks s Hi _ _ _ Hl) as (Hfit & _).
    destruct bounded eqn:Hb; eapply (inv_move s id t _ t _ _ false Hi Hl); simpl; auto;
      intros Hb'; try congruence; destruct (Hsem eq_refl); lia.
  - destruct (inv_tasks s Hi _ _ _ Hl) as (Hfit & _ & _ & _ & Hnw).
    eapply (inv_move s id t _ t _ _ false Hi Hl); simpl; auto.
    intros Hb. lia.
  - eapply (inv_move s id t _ _ _ _ false Hi Hl); simpl; auto.
    intros Hb. destruct (Hsem Hb). lia.
  - eapply (inv_move s id t _ _ _ _ true Hi Hl); simpl; auto.
    intros Hb. destruct (Hsem Hb). lia.
  - eapply (inv_move s id t _ _ _ _ false Hi Hl); simpl; auto.
    + destruct err; simpl; auto.
    + intros Hb. destruct (Hsem Hb). lia.
  - eapply (inv_move s id t _ _ _ _ false Hi Hl); simpl; auto.
    intros Hb. destruct (Hsem Hb). lia.
  - destruct (inv_tasks s Hi _ _ _ Hl) as (Hfit & _).
    eapply (inv_move s id t _ t _ _ false Hi Hl); simpl; auto.
    intros Hb. rewrite Hb. destruct (Hsem Hb) as [Hss ?].
    pose proof (count_if_pos (λ tp : Task * phase, holds_slot tp.2) _ _ _ Hl eq_refl) as Hp.
    unfold slots in Hss. lia.
  - apply (inv_frame s); try done; [simpl; set_solver|].
    intros id t p Hl Hlive Hid. destruct (inv_tasks s Hi _ _ _ Hl) as (Hfit & _).
    eapply prune_kept; [done| |done]. by eapply live_status.
  - by apply (inv_frame s).
  - by apply (inv_frame s).
Qed.

Lemma inv_reach n s : rtc step (init n) s → inv s.
Proof. intros H. by apply (rtc_invariant step inv) in H; [|apply inv_step|apply inv_init]. Qed.

(** Statuses only move on. *)
Definition rank (st : Status) : Z :=
  match st with
  | StatusPending => 0 | StatusRunning => 1 | StatusDone | StatusFailed => 2 end.

Definition evolves (t t' : Task) : Prop :=
  ID t' = ID t ∧ Kind t' = Kind t ∧ Created t' = Created t ∧
  (t' = t ∨ rank (task_Status t) < rank (task_Status t')).

Lemma evolves_trans t1 t2 t3 : evolves t1 t2 → evolves t2 t3 → evolves t1 t3.
Proof.
  unfold evolves. intros (?&?&?&[->|?]) (?&?&?&[->|?]); split_and!; try congruence; auto.
  right. lia.
Qed.

Lemma step_evolves s s' id t p :
  inv s → step s s' → store s !! id = Some (t, p) →
  ∃ t' p', store s' !! id = Some (t', p') ∧ evolves t t'.
Proof.
  intros Hi Hs Hl0.
  assert (Hsame : evolves t t) by (repeat split; by left).
  assert (Hone : ∀ x tx px tx' px', store s !! x = Some (tx, px) → evolves tx tx' →
    ∃ t' p', <[x := (tx', px')]> (store s) !! id = Some (t', p') ∧ evolves t t').
  { intros x tx px tx' px' Hx He. destruct (decide (x = id)) as [->|Hne].
    - rewrite lookup_insert_eq. simplify_eq. by exists tx', px'.
    - rewrite lookup_insert_ne by done. by exists t, p. }
  assert (Hst : ∀ x tx px, store s !! x = Some (tx, px) → status_fits px (task_Status tx))
    by (intros x tx px Hx; apply (inv_tasks s Hi _ _ _ Hx)).
  destruct Hs as [s x kind Hn|s x tx err Hl Hc|s x tx Hl Hc|s x tx Hl Hlt|s x tx err Hl Hc
    |s x tx Hl|s x tx data err Hl|s x tx rec Hl|s x tx Hl|s maxAge|s|s n Hn];
    simpl; try (by exists t, p);
    try (eapply Hone; [exact Hl|]; pose proof (Hst _ _ _ Hl) as Hf; simpl in Hf;
         repeat split; simpl; rewrite ?Hf; (by left) || (right; simpl; lia)).
  - destruct (decide (x = id)) as [->|Hne]; [congruence|].
    rewrite lookup_insert_ne by done. by exists t, p.
  - eapply Hone; [exact Hl|]. pose proof (Hst _ _ _ Hl) as Hf. simpl in Hf.
    unfold evolves. destruct err; simpl; rewrite Hf; split_and!; try done; right; simpl; lia.
Qed.

Lemma run_evolves s s' id t p :
  inv s → rtc step s s' → store s !! id = Some (t, p) →
  ∃ t' p', store s' !! id = Some (t', p') ∧ evolves t t'.
Proof.
  intros Hi Hr. revert t p Hi. induction Hr as [s|s s1 s2 Hs _ IH]; intros t p Hi Hl.
  { exists t, p. split; [done|]. repeat split. by left. }
  destruct (step_evolves _ _ _ _ _ Hi Hs Hl) as (t1 & p1 & Hl1 & He).
  destruct (IH t1 p1 (inv_step _ _ Hi Hs) Hl1) as (t2 & p2 & ? & ?).
  exists t2, p2. split; [done|]. by eapply evolves_trans.
Qed.

Definition running_now (s : State) : nat :=
  count_if (λ tp, bool_decide (task_Status tp.1 = StatusRunning)) (store s).

Lemma running_le_slots s : inv s → (running_now s ≤ slots s)%nat.
Proof.
  intros Hi. unfold running_now, slots, count_if. apply map_subseteq_size.
  apply map_filter_strong_subseteq_ext. intros id [t p] [Hr Hl]. simpl in *. split; [|done].
  apply bool_decide_eq_true in Hr. destruct (inv_tasks s Hi _ _ _ Hl) as (Hf & _).
  rewrite Hr in Hf. destruct p as [| | | | |[]]; simpl in *; intuition discriminate.
Qed.

(** ** Properties *)

(** C3: In every interleaving the number of tasks in status running never
    exceeds a positive concurrency limit, and the semaphore holds exactly one
    element per task between acquiring its slot and releasing it. *)
Theorem concurrency_limit n s :
  0 < lim → rtc step (init n) s →
  Z.of_nat (running_now s) ≤ lim ∧ sem s = slots s ∧ Z.of_nat (sem s) ≤ lim.
Proof.
  intros Hl Hr%inv_reach. destruct (inv_sem s Hr) as [Hs Hle]; [by apply Z.ltb_lt|].
  pose proof (running_le_slots s Hr). split; [lia|done].
Qed.

(** A task's identity, kind and creation time never change, its status only
    moves forward (pending, running, done or failed), and once done or failed
    the whole record, result included, is final, whatever runs later. *)
Theorem task_lifecycle n s s' id t p :
  rtc step (init n) s → rtc step s s' → store s !! id = Some (t, p) →
  ∃ t' p', store s' !! id = Some (t', p') ∧ evolves t t' ∧
    (task_Status t = StatusDone ∨ task_Status t = StatusFailed → t' = t).
Proof.
  intros Hi%inv_reach Hr Hl. destruct (run_evolves _ _ _ _ _ Hi Hr Hl) as (t' & p' & Hl' & He).
  exists t', p'. split; [done|]. split; [done|].
  destruct He as (_ & _ & _ & [->|Hlt]); [done|]. intros [E|E]; rewrite E in Hlt;
    destruct (task_Status t'); simpl in Hlt; lia.
Qed.

(** A task function is called at most once, never for a task that was
    refused (it is failed and its function was not called), and never for a
    task submitted after Close: such a task is pending until its own check, and
    then failed. *)
Theorem function_called_once n s :
  rtc step (init n) s →
  NoDup (entered s) ∧
  (∀ id t p, store s !! id = Some (t, p) →
     (id ∈ entered s ↔ has_run p = true) ∧
     (p = PFinished false → task_Status t = StatusFailed) ∧
     (id ∈ late s → (id ∉ entered s) ∧
        (task_Status t = StatusPending ∨ task_Status t = StatusFailed))).
Proof.
  intros Hi%inv_reach. split; [apply (inv_once s Hi)|]. intros id t p Hl.
  destruct (inv_tasks s Hi _ _ _ Hl) as (Hf & _ & Hr & Hlt & _).
  split; [done|]. split; [by intros ->|]. intros Hid. rewrite Hr.
  destruct (Hlt Hid) as [->| ->]; simpl in *; auto.
Qed.

(** Prune removes exactly the finished tasks that completed before the
    cutoff and reports how many; so Get finds every task that is pending or
    running, in every reachable state and whatever was pruned. *)
Theorem prune_only_finished n s maxAge :
  rtc step (init n) s →
  (∀ id, Get id (Prune maxAge s).1 =
     match Get id s with
     | Some t => if prunable (now s) maxAge t then None else Some t
     | None => None
     end) ∧
  ((Prune maxAge s).2 + size (tasks (Prune maxAge s).1))%nat = size (tasks s) ∧
  (∀ id t p, store s !! id = Some (t, p) →
     task_Status t = StatusPending ∨ task_Status t = StatusRunning → Get id s = Some t).
Proof.
  intros Hi%inv_reach. split_and!.
  - intros id. unfold Get. simpl. destruct (decide (id ∈ tasks s)) as [Hid|Hid].
    + destruct (inv_known s Hi id (or_intror (or_intror Hid))) as [[t p] Hl]. rewrite Hl. simpl.
      destruct (prunable (now s) maxAge t) eqn:Hp.
      * rewrite decide_False; [done|]. unfold pruned. rewrite elem_of_difference, elem_of_filter.
        unfold prunes. rewrite Hl. tauto.
      * rewrite decide_True; [done|]. unfold pruned. rewrite elem_of_difference, elem_of_filter.
        unfold prunes. rewrite Hl, Hp. split; [done|]. by intros [? _].
    + rewrite decide_False; [done|]. set_solver.
  - simpl. rewrite size_difference by (unfold pruned; set_solver).
    assert (size (pruned maxAge s) ≤ size (tasks s))%nat
      by (apply subseteq_size; unfold pruned; set_solver).
    lia.
  - intros id t p Hl Hs. unfold Get. rewrite decide_True; [by rewrite Hl|].
    destruct (inv_tasks s Hi _ _ _ Hl) as (Hf & Hlive & _). apply Hlive.
    destruct p as [| | | | |[]]; simpl in *; intuition congruence.
Qed.

(** C40: Nobody waits for ever by the runner's fault: in every reachable state, a
    task that has not finished can take its next step, except a submitter
    waiting for a slot of an open runner, and then some other task holds a slot
    and can step; so a blocked Submit is always waiting for running work. *)
Theorem runner_progress n s id t p :
  rtc step (init n) s → store s !! id = Some (t, p) →
  (∀ b, p ≠ PFinished b) →
  (∃ s' t' p', step s s' ∧ store s' !! id = Some (t', p') ∧ p' ≠ p) ∨
  (p = PWaiting ∧ closed s = false ∧ ∃ id' t' p', id' ≠ id ∧
     store s !! id' = Some (t', p') ∧ holds_slot p' = true ∧
     ∃ s' t'' p'', step s s' ∧ store s' !! id' = Some (t'', p'') ∧ p'' ≠ p').
Proof.
  intros Hi%inv_reach Hl Hp.
  assert (Hgo : ∀ id t p, store s !! id = Some (t, p) → holds_slot p = true →
    ∃ s' t' p', step s s' ∧ store s' !! id = Some (t', p') ∧ p' ≠ p).
  { intros x tx px Hx Hh. destruct px; simpl in Hh; try done; eexists _, _, _.
    - split; [by eapply step_start|]. split; [apply lookup_insert_eq|done].
    - split; [by eapply (step_finish _ _ _ None None)|]. split; [apply lookup_insert_eq|done].
    - split; [by eapply step_release|]. split; [apply lookup_insert_eq|done]. }
  destruct (holds_slot p) eqn:Hh; [left; by eapply Hgo|].
  destruct p; simpl in Hh; try done; try (by destruct (Hp ran)).
  - left. destruct (closed s) eqn:Hc; eexists _, _, _.
    + split; [by eapply (step_reject _ _ _ context_Canceled)|]. split; [apply lookup_insert_eq|done].
    + split; [by eapply step_admit|]. split; [apply lookup_insert_eq|by destruct bounded].
  - destruct (closed s) eqn:Hc.
    { left. eexists _, _, _. split; [by eapply (step_give_up _ _ _ context_Canceled)|].
      split; [apply lookup_insert_eq|done]. }
    destruct (decide (Z.of_nat (sem s) < lim)) as [Hlt|Hge].
    { left. eexists _, _, _. split; [by eapply step_acquire|]. split; [apply lookup_insert_eq|done]. }
    right. split; [done|]. split; [done|].
    destruct (inv_tasks s Hi _ _ _ Hl) as (_ & _ & _ & _ & Hnw).
    destruct bounded eqn:Hb; [|by destruct Hnw].
    destruct (inv_sem s Hi Hb) as [Hs _]. apply Z.ltb_lt in Hb.
    destruct (count_if_exists (λ tp : Task * phase, holds_slot tp.2) (store s)) as (id' & [t' p'] & Hl' & Hh').
    { unfold slots in Hs. lia. }
    exists id', t', p'. split; [by intros ->; simplify_eq|]. split; [done|]. split; [done|].
    by eapply Hgo.
Qed.

(** List shows each task once, as Get does, and identifiers of different random
    bytes differ, so a task is never overwritten by another. *)
Theorem list_exact n s order :
  rtc step (init n) s → NoDup order → (∀ id, id ∈ order ↔ id ∈ tasks s) →
  length (List order s) = size (tasks s) ∧
  (∀ t, t ∈ List order s ↔ ∃ id, Get id s = Some t) ∧
  (∀ b b', Forall is_byte b → Forall is_byte b' → newID b = newID b' → b = b').
Proof.
  intros Hi%inv_reach Hnd Ho.
  assert (∀ id, id ∈ order → ∃ tp, store s !! id = Some tp) as Hk.
  { intros id Hid. destruct (inv_known s Hi id) as [tp Htp]; [right; right; by apply Ho|by exists tp]. }
  split; [|split; [|intros b b'; apply EncodeToString_inj]].
  - assert (tasks s = list_to_set order) as -> by (apply set_eq; intros id; by rewrite elem_of_list_to_set, Ho).
    rewrite size_list_to_set by done. clear Ho Hnd. unfold List.
    induction order as [|id order IH]; [done|]. csimpl. destruct (Hk id) as [tp ->]; [by left|]. simpl. f_equal.
    apply IH. intros x Hx. apply Hk. by right.
  - intros t. unfold List, Get. rewrite list_elem_of_omap. split.
    + intros (id & Hid & Ht). exists id. by rewrite decide_True by (by apply Ho).
    + intros (id & Ht). destruct (decide (id ∈ tasks s)) as [Hin|]; [|done]. exists id. by rewrite Ho.
Qed.

(** ** The janitor and Close *)

(** Where the janitor is: at its select, about to prune, or gone. A call of Close has
    cancelled and waits for the janitor, or has returned. *)
Inductive janitor_pc := AtSelect | Pruning | Exited.
Inductive close_pc := Cancelled | CloseReturned.

Record Run := mkRun { runner : State; janitor : option janitor_pc; closers : gmap nat close_pc }.

Inductive run_step (o : runnerOptions) : Run → Run → Prop :=
| run_task s s' j c : step s s' → run_step o (mkRun s j c) (mkRun s' j c)
| run_tick s c : run_step o (mkRun s (Some AtSelect) c) (mkRun s (Some Pruning) c)
| run_prune s c :
    run_step o (mkRun s (Some Pruning) c) (mkRun (Prune (janitorMaxAge o) s).1 (Some AtSelect) c)
| run_exit s c : closed s = true → run_step o (mkRun s (Some AtSelect) c) (mkRun s (Some Exited) c)
| run_close s j c n :
    c !! n = None →
    run_step o (mkRun s j c)
      (mkRun (mkState (store s) (tasks s) (sem s) true (now s) (entered s) (late s)) j (<[n := Cancelled]> c))
| run_return s j c n :
    c !! n = Some Cancelled → j = None ∨ j = Some Exited →
    run_step o (mkRun s j c) (mkRun s j (<[n := CloseReturned]> c))
| run_base_cancelled s j c :
    is_Some (baseCtx o) →
    run_step o (mkRun s j c)
      (mkRun (mkState (store s) (tasks s) (sem s) true (now s) (entered s) (late s)) j c).

(** [NewRunner] starts a janitor when its interval is positive. *)
Definition start_run (o : runnerOptions) (n : Z) : Run :=
  mkRun (init n) (if 0 <? janitorInterval o then Some AtSelect else None) ∅.

Definition run_inv (n : Z) (r : Run) : Prop :=
  rtc step (init n) (runner r) ∧ (janitor r = Some Exited → closed (runner r) = true) ∧
  (∀ c, closers r !! c = Some Cancelled → closed (runner r) = true) ∧
  (∀ c, closers r !! c = Some CloseReturned →
     closed (runner r) = true ∧ (janitor r = None ∨ janitor r = Some Exited)).

Lemma step_stays_closed s s' : step s s' → closed s = true → closed s' = true.
Proof. by destruct 1. Qed.

Lemma run_inv_step o n r r' : run_inv n r → run_step o r r' → run_inv n r'.
Proof.
  intros (Hr & Hx & Hc & Hd) Hs.
  destruct Hs as [s s' j c Hs|s c|s c|s c Hcl|s j c m Hm|s j c m Hm Hj|s j c Hb]; unfold run_inv; simpl in *.
  - pose proof (step_stays_closed _ _ Hs) as Hk.
    split_and!; [by eapply rtc_r|by auto|by eauto|intros x E; destruct (Hd x E); auto].
  - split_and!; [done|done|done|]. intros x E. by destruct (Hd x E) as [_ [?|?]].
  - split_and!; [eapply rtc_r; [exact Hr|apply step_prune]|done|done|].
    intros x E. by destruct (Hd x E) as [_ [?|?]].
  - split_and!; [done|done|done|]. by auto.
  - split_and!; [eapply rtc_r; [exact Hr|apply step_close]|done|done|].
    intros x [[? ?]|[? E]]%lookup_insert_Some; [done|]. split; [done|by apply (Hd x)].
  - split_and!; [done|done| |].
    + intros x [[? ?]|[? E]]%lookup_insert_Some; [done|]. by apply (Hc x).
    + intros x _. split; [by apply (Hc m)|done].
  - split_and!; [eapply rtc_r; [exact Hr|apply step_close]|done|done|].
    intros x E. split; [done|by apply (Hd x)].
Qed.

Lemma run_inv_reach o n r : rtc (run_step o) (start_run o n) r → run_inv n r.
Proof.
  intros H. apply (rtc_invariant (run_step o) (run_inv n)) in H; [done|intros ??; apply run_inv_step|].
  unfold start_run, run_inv. simpl. split; [apply rtc_refl|]. split; [by destruct (_ <? _)|]. by split.
Qed.

(** Close stops the janitor. Once a call of Close has returned, the runner is closed
    and its janitor is gone and never prunes again; a call that waits can return,
    after at most three steps of the janitor; a second call returns as the first; and
    whatever the janitor does, or who cancels the base context, the runner stays in a state it could reach without
    them, so that all its other properties hold beside them. *)
Theorem close_stops_janitor o n r :
  rtc (run_step o) (start_run o n) r →
  rtc step (init n) (runner r) ∧
  (∀ c r', closers r !! c = Some CloseReturned → rtc (run_step o) r r' →
     closed (runner r') = true ∧ janitor r' = janitor r ∧ (janitor r = None ∨ janitor r = Some Exited)) ∧
  (∀ c, closers r !! c = Some Cancelled →
     ∃ r', rtc (run_step o) r r' ∧ closers r' !! c = Some CloseReturned).
Proof.
  intros Hr. pose proof (run_inv_reach _ _ _ Hr) as (Hs & Hx & Hc & Hd). split; [done|]. split.
  - intros c r' Ec Hrun. destruct (Hd c Ec) as [Hcl Hj].
    assert (closed (runner r') = true ∧ janitor r' = janitor r) as [? ?]; [|done].
    refine (rtc_invariant (run_step o) (λ x, closed (runner x) = true ∧ janitor x = janitor r) _ _ _ _ Hrun); [|done].
    intros x y [Hxc Hxj] Hstep. destruct Hstep as [? ? ? ? Hst| | | | | |]; simpl in *; try done;
      try (by rewrite <- Hxj in Hj; destruct Hj). split; [by eapply step_stays_closed|done].
  - intros c Ec. destruct r as [s j cs]. simpl in *. specialize (Hc c Ec).
    assert (∀ s' j', closed s' = true → j' = None ∨ j' = Some Exited →
      rtc (run_step o) (mkRun s' j' cs) (mkRun s' j' (<[c := CloseReturned]> cs))) as Hret
      by (intros s' j' _ Hj'; by eapply rtc_once, run_return).
    assert (∀ s', closed s' = true → ∃ r', rtc (run_step o) (mkRun s' (Some AtSelect) cs) r' ∧
      closers r' !! c = Some CloseReturned) as Hsel.
    { intros s' Hs'. eexists. split; [eapply rtc_l; [by apply run_exit|]; apply Hret; [done|by right]|].
      apply lookup_insert_eq. }
    destruct j as [[| |]|].
    + by apply Hsel.
    + destruct (Hsel (Prune (janitorMaxAge o) s).1 Hc) as (r' & H1 & H2). exists r'. split; [|done].
      eapply rtc_l; [apply run_prune|done].
    + eexists. split; [apply Hret; [done|by right]|apply lookup_insert_eq].
    + eexists. split; [apply Hret; [done|by left]|apply lookup_insert_eq].
Qed.

End async.
Arguments State : clear implicits.
Arguments Task : clear implicits.

(** ** Witnesses *)

(** A runner of limit 1: task a runs, task b waits for its slot. *)
Definition task_a : Task nat := startTask 0 (newTask "a" "build" 0).
Definition task_b : Task nat := newTask "b" "build" 0.
Definition demo : State nat :=
  mkState (<["b" := (task_b, PWaiting)]> (<["b" := (task_b, PSubmitted)]>
     (<["a" := (task_a, PRunning)]> (<["a" := (newTask "a" "build" 0, PSpawned)]>
     (<["a" := (newTask "a" "build" 0, PWaiting)]>
     (<["a" := (newTask "a" "build" 0, PSubmitted)]> ∅))))))
    ({["b"]} ∪ ({["a"]} ∪ ∅)) 1 false 0 ["a"] ∅.

Lemma demo_reached : rtc (step 1) (init 0) demo.
Proof.
  eapply rtc_l; [by apply (step_submit 1 _ "a" "build")|].
  eapply rtc_l; [by eapply (step_admit 1 _ "a")|].
  eapply rtc_l; [by eapply (step_acquire 1 _ "a")|].
  eapply rtc_l; [by eapply (step_start 1 _ "a")|].
  eapply rtc_l; [by apply (step_submit 1 _ "b" "build")|].
  eapply rtc_l; [by eapply (step_admit 1 _ "b")|]. apply rtc_refl.
Qed.

Lemma concurrency_limit_witness : 0 < 1 ∧ Z.of_nat (running_now demo) ≤ 1.
Proof. split; [lia|]. apply (concurrency_limit 1 0 demo); [lia|apply demo_reached]. Defined.

Lemma task_lifecycle_witness :
  ∃ t' p', store demo !! "a" = Some (t', p') ∧ evolves task_a t'.
Proof.
  destruct (task_lifecycle 1 0 demo demo "a" task_a PRunning) as (t' & p' & H & He & _);
    [apply demo_reached|apply rtc_refl|reflexivity|]. by exists t', p'.
Defined.

Lemma function_called_once_witness : NoDup (entered demo) ∧ entered demo = ["a"].
Proof. split; [apply (function_called_once 1 0 demo), demo_reached|reflexivity]. Defined.

Lemma prune_only_finished_witness : Get "b" demo = Some task_b.
Proof.
  destruct (prune_only_finished 1 0 demo 0 demo_reached) as (_ & _ & H).
  apply (H "b" task_b PWaiting); [reflexivity|left; reflexivity].
Defined.

Lemma runner_progress_witness :
  ∃ id' t' p', id' ≠ "b" ∧ store demo !! id' = Some (t', p') ∧ holds_slot p' = true.
Proof.
  destruct (runner_progress 1 0 demo "b" task_b PWaiting demo_reached) as [H|H].
  - reflexivity.
  - discriminate.
  - exists "a", task_a, PRunning. split; [discriminate|]. split; reflexivity.
  - destruct H as (_ & _ & id' & t' & p' & ? & ? & ? & _). by exists id', t', p'.
Defined.

End async.
