(* ===== verification/Retry.v ===== *)
(** * platform/retry and retry: exponential backoff and the retry loop

    [src/go/platform/retry/retry.go], and the backoff of the older copy
    [src/go/retry/retry.go], which differs from it. [rand n] is
    [rand.Int64N(n)], a number in [0, n) for positive [n]. *)

From S2P Require Import Prelude GoStrings GoErr GoMonad.

Module retry.

Definition backoffBase : Z := 100 * Millisecond.
Definition maxBackoff : Z := 5 * Second.
Definition jitterFraction : Z := 5.
Definition maxAttemptShift : Z := 30.

Definition Permanent (e : option error) : option error :=
  match e with None => None | Some e => Some (EPermanent e) end.

Definition IsPermanent (e : option error) : bool :=
  match e with
  | None => false
  | Some e => match as_permanent e with Some b => b | None => false end
  end.

Definition jitter (rand : Z → Z) (ceiling : Z) : Z :=
  if ceiling <=? 0 then 0 else rand ceiling.

(** [time.Duration] division truncates towards zero, as [Z.quot] does. *)
Definition BackoffWithConfig (rand : Z → Z) (attempt base maxCap : Z) : Z :=
  let base := if base <=? 0 then backoffBase else base in
  let maxCap := if maxCap <=? 0 then maxBackoff else maxCap in
  if maxCap <=? base then
    let b := maxCap in
    wrap64 (b + jitter rand (Z.quot b jitterFraction))
  else
    let shift := Z.min (Z.max attempt 0) maxAttemptShift in
    let multiplier := wrap64 (Z.shiftl 1 shift) in
    let b := if wrap64 (Z.quot maxCap base + 1) <=? multiplier then maxCap
             else Z.min (wrap64 (multiplier * base)) maxCap in
    wrap64 (b + jitter rand (Z.quot b jitterFraction)).

Definition Backoff (rand : Z → Z) (attempt : Z) : Z :=
  BackoffWithConfig rand attempt backoffBase maxBackoff.

(** The function of the older module: no guard before the multiplication. *)
Definition BackoffWithConfig_v1 (rand : Z → Z) (attempt base maxCap : Z) : Z :=
  let base := if base <=? 0 then backoffBase else base in
  let maxCap := if maxCap <=? 0 then maxBackoff else maxCap in
  let shift := Z.min (Z.max attempt 0) maxAttemptShift in
  let b := Z.min (wrap64 (wrap64 (Z.shiftl 1 shift) * base)) maxCap in
  wrap64 (b + jitter rand (Z.quot b jitterFraction)).

Section loop.
(** [Rand] draws a random number, [Wait d] is the select between the timer of
    duration [d] and [ctx.Done()]: nothing when the timer fired, [ctx.Err()]
    when the context was done. *)
Context {W T : Type} (zero : T).
Context (Rand : Z → W → Z * W) (Wait : Z → W → option error * W).

(** [Backoff] with a random draw from the world; when nothing is drawn (a zero
    ceiling, impossible here) the draw would be unused. *)
Definition draw_backoff (attempt : Z) : go W Z :=
  let ceiling := Z.quot (BackoffWithConfig (λ _, 0) attempt backoffBase maxBackoff)
                   jitterFraction in
  r ← does (Rand ceiling);
  mret (Backoff (λ _, r) attempt).

Context (fn : go W (T * option error)) (maxAttempts : Z).

(** The loop [for attempt := range maxAttempts], [left] turns to go. *)
Fixpoint DoVal_loop (left : nat) (attempt : Z) (lastErr : option error)
  : go W (T * option error) :=
  match left with
  | O => mret (zero, lastErr)
  | S left' =>
      r ← fn;
      match r.2 with
      | None => mret (r.1, None)
      | Some err =>
          if IsPermanent (Some err) then mret (zero, Some err)
          else if attempt =? maxAttempts - 1 then mret (zero, Some err)
          else
            delay ← draw_backoff attempt;
            cancelled ← does (Wait delay);
            match (cancelled : option error) with
            | Some ce => mret (zero, Some (wrap_pre "retry: " ce))
            | None => DoVal_loop left' (attempt + 1) (Some err)
            end
      end
  end.

End loop.

Definition clamp_attempts (n : Z) : Z := if n <? 1 then 1 else n.

Definition DoVal {W T} (zero : T) (Rand : Z → W → Z * W) (Wait : Z → W → option error * W)
    (maxAttempts : Z) (fn : go W (T * option error)) : go W (T * option error) :=
  let n := clamp_attempts maxAttempts in
  DoVal_loop zero Rand Wait fn n (Z.to_nat n) 0 None.

Definition Do {W} (Rand : Z → W → Z * W) (Wait : Z → W → option error * W)
    (maxAttempts : Z) (fn : go W (option error)) : go W (option error) :=
  r ← DoVal tt Rand Wait maxAttempts (oe ← fn; mret (tt, oe));
  mret r.2.

(** ** Specification *)

(** The delay before jitter, without machine integers. *)
Definition ideal_backoff (attempt base maxCap : Z) : Z :=
  Z.min (2 ^ Z.min (Z.max attempt 0) maxAttemptShift * base) maxCap.

Definition eff_base (base : Z) : Z := if base <=? 0 then backoffBase else base.
Definition eff_cap (maxCap : Z) : Z := if maxCap <=? 0 then maxBackoff else maxCap.

Definition valid_rand (rand : Z → Z) : Prop := ∀ n, 0 < n → 0 ≤ rand n < n.

Section spec.
Context {W T : Type} (Rand : Z → W → Z * W) (Wait : Z → W → option error * W).
Context (fn : go W (T * option error)).

(** A run of attempts that all failed with errors that are not permanent, each
    followed by a wait that was not cut short. *)
Inductive failed_attempts : Z → W → list error → W → Prop :=
| failed_none a w : failed_attempts a w [] w
| failed_more a w v err w1 d w2 w3 errs w' :
    fn w = (Returned (v, Some err), w1) → IsPermanent (Some err) = false →
    draw_backoff Rand a w1 = (Returned d, w2) → Wait d w2 = (None, w3) →
    failed_attempts (a + 1) w3 errs w' →
    failed_attempts a w (err :: errs) w'.

(** How the attempt after [n] failed ones, of [total], ends the loop. *)
Inductive last_attempt (zero : T) (total n : Z) (w : W) : T * option error → W → Prop :=
| last_success v w' : fn w = (Returned (v, None), w') → last_attempt zero total n w (v, None) w'
| last_permanent v err w' :
    fn w = (Returned (v, Some err), w') → IsPermanent (Some err) = true →
    last_attempt zero total n w (zero, Some err) w'
| last_exhausted v err w' :
    fn w = (Returned (v, Some err), w') → IsPermanent (Some err) = false → n = total - 1 →
    last_attempt zero total n w (zero, Some err) w'
| last_cancelled v err w1 d w2 ce w' :
    fn w = (Returned (v, Some err), w1) → IsPermanent (Some err) = false → n < total - 1 →
    draw_backoff Rand n w1 = (Returned d, w2) → Wait d w2 = (Some ce, w') →
    last_attempt zero total n w (zero, Some (wrap_pre "retry: " ce)) w'.
End spec.

(** ** Lemmas *)

Lemma shift_pow attempt :
  let shift := Z.min (Z.max attempt 0) maxAttemptShift in
  wrap64 (Z.shiftl 1 shift) = 2 ^ shift ∧ 1 ≤ 2 ^ shift ≤ 2 ^ 30 ∧ 0 ≤ shift.
Proof.
  intros shift. unfold maxAttemptShift in shift.
  assert (0 ≤ shift ≤ 30) as [H0 H1] by lia. rewrite Z.shiftl_1_l.
  assert (1 ≤ 2 ^ shift ≤ 2 ^ 30) as [Ha Hb].
  { split; [apply (Z.pow_le_mono_r 2 0); lia|apply Z.pow_le_mono_r; lia]. }
  split; [|done]. apply wrap64_id. unfold is_int64, min_int64, max_int64. lia.
Qed.

Lemma eff_pos base maxCap : 0 < eff_base base ∧ 0 < eff_cap maxCap.
Proof.
  unfold eff_base, eff_cap, backoffBase, maxBackoff, Millisecond, Second.
  destruct (Z.leb_spec base 0), (Z.leb_spec maxCap 0); lia.
Qed.

Lemma eff_int64 base maxCap :
  is_int64 base → is_int64 maxCap → is_int64 (eff_base base) ∧ is_int64 (eff_cap maxCap).
Proof.
  unfold eff_base, eff_cap, is_int64, min_int64, max_int64, backoffBase, maxBackoff,
    Millisecond, Second.
  destruct (base <=? 0), (maxCap <=? 0); lia.
Qed.

Lemma jitter_bounds rand c : valid_rand rand → 0 ≤ c → 0 ≤ jitter rand c ∧ jitter rand c ≤ c.
Proof.
  intros Hr Hc. unfold jitter. destruct (Z.leb_spec c 0); [lia|]. pose proof (Hr c). lia.
Qed.

(** The delay before jitter that the guarded computation reaches. *)
Lemma backoff_base_ideal m base maxCap :
  1 ≤ m → 0 < base → base < maxCap → maxCap < max_int64 →
  (if wrap64 (Z.quot maxCap base + 1) <=? m then maxCap
   else Z.min (wrap64 (m * base)) maxCap) = Z.min (m * base) maxCap.
Proof.
  intros Hm Hb Hc Hi. rewrite Z.quot_div_nonneg by lia.
  assert (maxCap = base * (maxCap / base) + maxCap mod base) as Hd by (apply Z.div_mod; lia).
  pose proof (Z.mod_pos_bound maxCap base Hb) as Hmod. set (q := maxCap / base) in *.
  assert (1 ≤ q ≤ maxCap) by nia. rewrite wrap64_id by (unfold is_int64, min_int64; lia).
  destruct (Z.leb_spec (q + 1) m) as [H1|H1].
  - rewrite Z.min_r; [done|]. nia.
  - assert (m * base ≤ q * base) by nia. rewrite wrap64_id; [done|].
    unfold is_int64, min_int64. nia.
Qed.

Lemma ideal_bounds attempt base maxCap :
  0 < base → 0 < maxCap → 0 < ideal_backoff attempt base maxCap ≤ maxCap.
Proof.
  intros Hb Hc. unfold ideal_backoff. destruct (shift_pow attempt) as (_ & [Hp _] & _).
  split; [apply Z.min_glb_lt; nia|lia].
Qed.

(** The delay of [BackoffWithConfig], in terms of the ideal one. *)
Lemma backoff_split rand attempt base maxCap :
  valid_rand rand → let b := eff_base base in let c := eff_cap maxCap in
  c + c / 5 ≤ max_int64 →
  ∃ j, BackoffWithConfig rand attempt base maxCap = ideal_backoff attempt b c + j ∧
    0 ≤ j ≤ ideal_backoff attempt b c / 5.
Proof.
  intros Hr b c Hfit. destruct (eff_pos base maxCap) as [Hb Hc]. fold b c in Hb, Hc.
  pose proof (ideal_bounds attempt b c Hb Hc) as [Hi0 Hi1]. set (i := ideal_backoff attempt b c) in *.
  destruct (jitter_bounds rand (i / 5) Hr) as [Hj0 Hj1]; [apply Z.div_pos; lia|].
  exists (jitter rand (i / 5)). split; [|lia].
  assert (i / 5 ≤ c / 5) by (apply Z.div_le_mono; lia).
  assert (0 < c / 5 ∨ c < 5) as Hc5
    by (destruct (Z.lt_ge_cases c 5); [lia|left; apply Z.div_str_pos; lia]).
  assert (wrap64 (i + jitter rand (i `quot` jitterFraction)) = i + jitter rand (i / 5)) as Hw.
  { unfold jitterFraction. rewrite Z.quot_div_nonneg by lia. apply wrap64_id.
    unfold is_int64, min_int64. lia. }
  rewrite <- Hw. unfold BackoffWithConfig.
  fold (eff_base base) (eff_cap maxCap). fold b c.
  destruct (shift_pow attempt) as (Hs & [Hp _] & _).
  destruct (Z.leb_spec c b) as [Hcb|Hcb].
  - replace c with i; [done|]. unfold i, ideal_backoff. apply Z.min_r. nia.
  - rewrite Hs, backoff_base_ideal; [done|done|done|done|].
    unfold max_int64 in *. lia.
Qed.

Lemma do_loop_spec {W T} (zero : T) Rand Wait (fn : go W (T * option error)) total left a e0 w r w' :
  DoVal_loop zero Rand Wait fn total left a e0 w = (Returned r, w') →
  a + Z.of_nat left = total → (0 < left)%nat →
  ∃ errs w1, failed_attempts Rand Wait fn a w errs w1 ∧
    a + Z.of_nat (length errs) < total ∧
    last_attempt Rand Wait fn zero total (a + Z.of_nat (length errs)) w1 r w'.
Proof.
  revert a e0 w. induction left as [|left IH]; intros a e0 w H Ht Hl; [lia|]. simpl in H.
  apply bind_returned in H as ([v oe] & w1 & Ef & H). simpl in H.
  assert (∃ errs w1, errs = [] ∧ w1 = w ∧ failed_attempts Rand Wait fn a w errs w1) as Hnil
    by (exists [], w; split_and!; [done|done|constructor]).
  destruct oe as [err|]; [destruct (IsPermanent (Some err)) eqn:Ep; simpl in Ep, H; rewrite ?Ep in H|].
  - go_inv. exists [], w. simpl. rewrite Z.add_0_r. split_and!; [constructor|lia|].
    eapply last_permanent; eauto.
  - destruct (Z.eqb_spec a (total - 1)) as [Ha|Ha]; go_inv.
    + exists [], w. simpl. rewrite Z.add_0_r. split_and!; [constructor|lia|].
      eapply last_exhausted; eauto.
    + rename a0 into d, a1 into oc. unfold does in E0. destruct (Wait d w0) as [oc' w3] eqn:Ew.
      simplify_eq. destruct oc as [ce|]; go_inv.
      * exists [], w. simpl. rewrite Z.add_0_r. split_and!; [constructor|lia|].
        eapply last_cancelled; eauto. lia.
      * destruct (IH (a + 1) (Some err) _ H) as (errs & w4 & Hf & Hlt & Hla); [lia|lia|].
        exists (err :: errs), w4. simpl length.
        replace (a + Z.of_nat (S (length errs))) with (a + 1 + Z.of_nat (length errs)) by lia.
        split_and!; [eapply failed_more; eauto|lia|done].
  - go_inv. exists [], w. simpl. rewrite Z.add_0_r. split_and!; [constructor|lia|].
    by eapply last_success.
Qed.

Lemma do_loop_no_panic {W T} (zero : T) Rand Wait (fn : go W (T * option error)) total left a e0 :
  no_panic fn → no_panic (DoVal_loop zero Rand Wait fn total left a e0).
Proof.
  intros Hf. revert a e0. induction left as [|left IH]; intros a e0 w; simpl; [by eexists _, _|].
  destruct (Hf w) as ([v oe] & w1 & E). rewrite (bind_eq _ _ _ _ _ E). simpl.
  destruct oe as [err|]; [|by eexists _, _].
  destruct (match as_permanent err with Some b => b | None => false end); [by eexists _, _|].
  destruct (a =? total - 1); [by eexists _, _|].
  unfold draw_backoff. cbv [mbind go_bind does mret go_ret].
  destruct (Rand _ w1) as [r w2]. destruct (Wait _ w2) as [[ce|] w3]; [by eexists _, _|]. apply IH.
Qed.

Lemma backoff_v1_agrees rand attempt base maxCap :
  0 < base → base < maxCap → maxCap < max_int64 → 2 ^ 30 * base ≤ max_int64 →
  BackoffWithConfig_v1 rand attempt base maxCap = BackoffWithConfig rand attempt base maxCap.
Proof.
  intros Hb Hc Hm Hfit.
  unfold BackoffWithConfig_v1, BackoffWithConfig.
  destruct (Z.leb_spec base 0) as [|_]; [lia|]. destruct (Z.leb_spec maxCap 0) as [|_]; [lia|].
  destruct (Z.leb_spec maxCap base) as [|_]; [lia|].
  destruct (shift_pow attempt) as (Hs & [Hp0 Hp1] & _). rewrite Hs.
  rewrite backoff_base_ideal by done. rewrite (wrap64_id (_ * base)); [done|].
  unfold is_int64, min_int64. nia.
Qed.

Lemma clamp_pos n : 0 < clamp_attempts n.
Proof. unfold clamp_attempts. destruct (Z.ltb_spec n 1); lia. Qed.

(** ** Properties *)

(** C36: BackoffWithConfig never overflows and is exactly the documented delay
    for every attempt number, negative or huge, and every base and cap (a
    non-positive one stands for its default) whose cap leaves room for the
    jitter in 64 bits: 2^attempt times the base, the exponent held to 0..30,
    capped, plus a jitter between 0 and a fifth of that. *)
Theorem backoff_exact rand attempt base maxCap :
  valid_rand rand → eff_cap maxCap + eff_cap maxCap / 5 ≤ max_int64 →
  let i := ideal_backoff attempt (eff_base base) (eff_cap maxCap) in
  let d := BackoffWithConfig rand attempt base maxCap in
  i ≤ d ≤ i + i / 5 ∧ 0 < d ∧ d ≤ eff_cap maxCap + eff_cap maxCap / 5.
Proof.
  intros Hr Hfit i d. destruct (backoff_split rand attempt base maxCap Hr Hfit) as (j & E & Hj).
  destruct (eff_pos base maxCap) as [Hb Hc].
  pose proof (ideal_bounds attempt _ _ Hb Hc) as Hi. fold i in E, Hj, Hi. fold d in E.
  assert (i / 5 ≤ eff_cap maxCap / 5) by (apply Z.div_le_mono; lia). lia.
Qed.

(** The default Backoff is the documented schedule: attempts 0 to 5 wait
    100 ms, 200 ms, 400 ms, 800 ms, 1.6 s and 3.2 s, every later one 5 s, each
    plus at most a fifth; so no wait is ever shorter than 100 ms or longer than
    6 s, and the part before jitter never decreases with the attempt number. *)
Theorem backoff_schedule rand attempt :
  valid_rand rand →
  let i := ideal_backoff attempt backoffBase maxBackoff in
  i ≤ Backoff rand attempt ≤ i + i / 5 ∧
  100 * Millisecond ≤ Backoff rand attempt ≤ 6 * Second ∧
  (λ a, ideal_backoff a backoffBase maxBackoff / Millisecond) <$> [0; 1; 2; 3; 4; 5; 6; 7]
    = [100; 200; 400; 800; 1600; 3200; 5000; 5000] ∧
  (∀ attempt', attempt ≤ attempt' →
     i ≤ ideal_backoff attempt' backoffBase maxBackoff).
Proof.
  intros Hr i.
  destruct (backoff_split rand attempt backoffBase maxBackoff Hr) as (j & E & Hj).
  { by vm_compute. }
  change (eff_base backoffBase) with backoffBase in *. change (eff_cap maxBackoff) with maxBackoff in *.
  fold i in E, Hj. unfold Backoff. rewrite E.
  assert (backoffBase ≤ i ≤ maxBackoff) as Hi.
  { unfold i, ideal_backoff. destruct (shift_pow attempt) as (_ & [Hp _] & _).
    split; [|lia]. apply Z.min_glb; [|by vm_compute]. unfold backoffBase, Millisecond. lia. }
  assert (i / 5 ≤ maxBackoff / 5) by (apply Z.div_le_mono; lia).
  change (maxBackoff / 5) with (1 * Second) in *.
  split_and!; [lia|lia|unfold backoffBase, Millisecond in *; lia|
    unfold maxBackoff, Second in *; lia|by vm_compute|].
  intros a' Ha. unfold i, ideal_backoff.
  assert (2 ^ Z.min (Z.max attempt 0) maxAttemptShift ≤ 2 ^ Z.min (Z.max a' 0) maxAttemptShift)
    by (apply Z.pow_le_mono_r; lia).
  apply Z.min_le_compat_r. unfold backoffBase, Millisecond. nia.
Qed.

(** The older module's BackoffWithConfig agrees with the guarded one
    whenever the base is small enough that 2^30 times it fits 64 bits (about
    8.5 s) and not above the cap; beyond that it can overflow: attempt 30 with a
    base of 10 s and a cap of an hour yields a negative delay, which is no wait
    at all, where the guarded one waits the full hour. *)
Theorem backoff_v1_overflow rand attempt base maxCap :
  0 < base → base < maxCap → maxCap < max_int64 → 2 ^ 30 * base ≤ max_int64 →
  BackoffWithConfig_v1 rand attempt base maxCap = BackoffWithConfig rand attempt base maxCap ∧
  BackoffWithConfig_v1 (λ _, 0) 30 (10 * Second) Hour < 0 ∧
  BackoffWithConfig (λ _, 0) 30 (10 * Second) Hour = Hour.
Proof.
  intros Hb Hc Hm Hfit. split; [by apply backoff_v1_agrees|by vm_compute].
Qed.

(** DoVal calls fn at least once and at most max(maxAttempts, 1) times. It
    returns the value of the first call that succeeds. Otherwise it returns the
    zero value and: the error of the first call whose error is permanent,
    unchanged and without another wait; the last error, unchanged, when every
    attempt failed; or the context's error, wrapped, when the context was done
    during a wait. Between two calls it waits exactly one backoff. And it does
    return, whenever fn does not panic. *)
Theorem doval_outcome {W T} (zero : T) Rand Wait maxAttempts (fn : go W (T * option error)) w :
  (∀ r w', DoVal zero Rand Wait maxAttempts fn w = (Returned r, w') →
     ∃ errs w1, failed_attempts Rand Wait fn 0 w errs w1 ∧
       Z.of_nat (length errs) < Z.max maxAttempts 1 ∧
       last_attempt Rand Wait fn zero (Z.max maxAttempts 1) (Z.of_nat (length errs)) w1 r w') ∧
  (no_panic fn → ∃ r w', DoVal zero Rand Wait maxAttempts fn w = (Returned r, w')).
Proof.
  split; [|intros Hf; by apply do_loop_no_panic].
  unfold DoVal. intros r w' H. pose proof (clamp_pos maxAttempts) as Hp.
  assert (clamp_attempts maxAttempts = Z.max maxAttempts 1) as Hc.
  { unfold clamp_attempts. destruct (Z.ltb_spec maxAttempts 1); lia. }
  rewrite Hc in *. apply do_loop_spec in H as (errs & w1 & Hf & Hlt & Hla); [|lia|lia].
  by exists errs, w1.
Qed.

(** The retry loop terminates: DoVal and Do return whenever fn itself does
    not panic, whatever it returns, the random draws and the context. *)
Theorem doval_terminates {W T} (zero : T) Rand Wait maxAttempts (fn : go W (T * option error))
    (fn0 : go W (option error)) :
  no_panic fn → no_panic fn0 →
  no_panic (DoVal zero Rand Wait maxAttempts fn) ∧ no_panic (Do Rand Wait maxAttempts fn0).
Proof.
  intros Hf Hf0. split; [by apply do_loop_no_panic|]. intros w. unfold Do, DoVal.
  assert (no_panic (oe ← fn0; mret (tt, oe))) as Hn.
  { intros w0. destruct (Hf0 w0) as (oe & w1 & E). rewrite (bind_eq _ _ _ _ _ E). by eexists _, _. }
  destruct (do_loop_no_panic tt Rand Wait _ (clamp_attempts maxAttempts)
    (Z.to_nat (clamp_attempts maxAttempts)) 0 None Hn w) as (r & w1 & E).
  rewrite (bind_eq _ _ _ _ _ E). by eexists _, _.
Qed.

(** ** Witnesses *)

Lemma valid_rand_zero : valid_rand (λ _, 0).
Proof. intros n Hn. lia. Qed.

Lemma backoff_exact_witness :
  3 * Second ≤ BackoffWithConfig (λ _, 0) 4 (200 * Millisecond) (3 * Second) ≤ 3600 * Millisecond.
Proof. apply (backoff_exact (λ _, 0) 4 (200 * Millisecond) (3 * Second) valid_rand_zero). by vm_compute. Defined.

Lemma backoff_schedule_witness : Backoff (λ n, n - 1) 3 ≤ 960 * Millisecond.
Proof.
  destruct (backoff_schedule (λ n, n - 1) 3) as [[_ H] _]; [intros n Hn; lia|].
  etransitivity; [exact H|]. by vm_compute.
Defined.

Lemma backoff_v1_overflow_witness :
  BackoffWithConfig_v1 (λ _, 0) 3 Second Minute = 8 * Second.
Proof.
  destruct (backoff_v1_overflow (λ _, 0) 3 Second Minute) as [E _]; [by vm_compute..|].
  rewrite E. by vm_compute.
Defined.

(** A function that fails with the text of its world until it is empty. *)
Definition flaky : go (list string) (Z * option error) := λ w,
  match w with
  | [] => (Returned (42, None), [])
  | e :: w' => (Returned (0, Some (ENew e e)), w')
  end.
Definition no_rand (n : Z) (w : list string) : Z * list string := (0, w).
Definition no_wait (d : Z) (w : list string) : option error * list string := (None, w).

Lemma doval_terminates_witness : no_panic (DoVal (-1) no_rand no_wait 5 flaky).
Proof.
  apply (doval_terminates (-1) no_rand no_wait 5 flaky (mret None)).
  - intros [|e w]; by eexists _, _.
  - intros w. by eexists _, _.
Defined.

End retry.
