(* ===== verification/Apierr.v ===== *)
(** * Vendor API errors

    Models [src/go/platform/apierr/apierr.go]: the sentinels for HTTP and gRPC
    statuses, the maps from codes to sentinels and the two retry policies. *)

From S2P Require Import Prelude GoStrings GoErr.

Module apierr.

Definition ErrInvalidInput : error := ENew "apierr.ErrInvalidInput" "invalid input".
Definition ErrUnauthorized : error := ENew "apierr.ErrUnauthorized" "unauthorized".
Definition ErrForbidden : error := ENew "apierr.ErrForbidden" "forbidden".
Definition ErrNotFound : error := ENew "apierr.ErrNotFound" "not found".
Definition ErrTimeout : error := ENew "apierr.ErrTimeout" "timeout".
Definition ErrConflict : error := ENew "apierr.ErrConflict" "conflict".
Definition ErrRateLimited : error := ENew "apierr.ErrRateLimited" "rate limited".
Definition ErrServerError : error := ENew "apierr.ErrServerError" "server error".
Definition ErrUnexpectedStatus : error :=
  ENew "apierr.ErrUnexpectedStatus" "unexpected status".
Definition ErrRetriesExceeded : error := ENew "apierr.ErrRetriesExceeded" "retries exceeded".
Definition ErrAuthFailed : error := ENew "apierr.ErrAuthFailed" "authentication failed".
Definition ErrAPIError : error := ENew "apierr.ErrAPIError" "API error".

Definition IsRetryable (err : option error) : bool :=
  errors_is "apierr.ErrRateLimited" err ||
  errors_is "apierr.ErrServerError" err ||
  errors_is "apierr.ErrTimeout" err.

(** The HTTP codes of [FromStatus]. *)
Definition statusOK : Z := 200.
Definition statusMultipleChoices : Z := 300.
Definition statusBadRequest : Z := 400.
Definition statusUnauthorized : Z := 401.
Definition statusForbidden : Z := 403.
Definition statusNotFound : Z := 404.
Definition statusTimeout : Z := 408.
Definition statusConflict : Z := 409.
Definition statusUnprocessableEntity : Z := 422.
Definition statusRateLimited : Z := 429.
Definition statusInternalServerError : Z := 500.

Definition RetryableStatus (code : Z) : bool :=
  (code =? statusTimeout) || (code =? statusRateLimited) ||
  (statusInternalServerError <=? code).

(** The gRPC codes. *)
Definition grpcOK : Z := 0.
Definition grpcInvalidArgument : Z := 3.
Definition grpcDeadlineExceeded : Z := 4.
Definition grpcNotFound : Z := 5.
Definition grpcAlreadyExists : Z := 6.
Definition grpcPermissionDenied : Z := 7.
Definition grpcResourceExhausted : Z := 8.
Definition grpcAborted : Z := 10.
Definition grpcInternal : Z := 13.
Definition grpcUnavailable : Z := 14.
Definition grpcUnauthenticated : Z := 16.

Definition RetryableGRPCCode (code : Z) : bool :=
  (code =? grpcDeadlineExceeded) || (code =? grpcResourceExhausted) ||
  (code =? grpcAborted) || (code =? grpcInternal) || (code =? grpcUnavailable).

(** [NewStatusError]; the text and the [Unwrap] of the value it builds are
    those of [EStatus]. *)
Definition NewStatusError (status : Z) (body : string) (sentinel : error) : error :=
  EStatus status body sentinel.

Definition FromStatus (code : Z) : option error :=
  if (statusOK <=? code) && (code <? statusMultipleChoices) then None
  else if code =? statusBadRequest then Some ErrInvalidInput
  else if code =? statusUnauthorized then Some ErrUnauthorized
  else if code =? statusForbidden then Some ErrForbidden
  else if code =? statusNotFound then Some ErrNotFound
  else if code =? statusTimeout then Some ErrTimeout
  else if code =? statusConflict then Some ErrConflict
  else if code =? statusRateLimited then Some ErrRateLimited
  else if code =? statusUnprocessableEntity then Some ErrAPIError
  else if statusInternalServerError <=? code then Some ErrServerError
  else Some ErrUnexpectedStatus.

Definition FromGRPCCode (code : Z) : option error :=
  if code =? grpcOK then None
  else if code =? grpcInvalidArgument then Some ErrInvalidInput
  else if code =? grpcNotFound then Some ErrNotFound
  else if (code =? grpcAlreadyExists) || (code =? grpcAborted) then Some ErrConflict
  else if code =? grpcPermissionDenied then Some ErrForbidden
  else if code =? grpcResourceExhausted then Some ErrRateLimited
  else if code =? grpcUnauthenticated then Some ErrUnauthorized
  else if code =? grpcUnavailable then Some ErrServerError
  else if code =? grpcDeadlineExceeded then Some ErrTimeout
  else if code =? grpcInternal then Some ErrServerError
  else Some ErrUnexpectedStatus.

(** ** Lemmas *)

(** Case analysis on the tests of a code against constants. *)
Ltac code_cases code :=
  unfold RetryableStatus, FromStatus, RetryableGRPCCode, FromGRPCCode,
    statusOK, statusMultipleChoices, statusBadRequest, statusUnauthorized,
    statusForbidden, statusNotFound, statusTimeout, statusConflict,
    statusUnprocessableEntity, statusRateLimited, statusInternalServerError,
    grpcOK, grpcInvalidArgument, grpcDeadlineExceeded, grpcNotFound,
    grpcAlreadyExists, grpcPermissionDenied, grpcResourceExhausted, grpcAborted,
    grpcInternal, grpcUnavailable, grpcUnauthenticated in *;
  repeat match goal with
  | |- context [code =? ?k] => destruct (Z.eqb_spec code k); [subst; simpl; try done|simpl]
  end.

Lemma status_error_transparent status body e target :
  errors_is target (Some (NewStatusError status body e)) = errors_is target (Some e).
Proof. done. Qed.

Lemma retryable_status_sentinel code :
  RetryableStatus code = IsRetryable (FromStatus code).
Proof.
  code_cases code.
  destruct (Z.leb_spec 500 code); destruct (Z.leb_spec 200 code);
    destruct (Z.ltb_spec code 300); simpl; try done; lia.
Qed.

Lemma retryable_grpc_sentinel code :
  RetryableGRPCCode code = IsRetryable (FromGRPCCode code) || (code =? grpcAborted).
Proof. by code_cases code. Qed.

(** ** Properties *)

(** The retry tables agree with the sentinels they abbreviate: an HTTP code
    is retryable exactly when its sentinel is (as a comment of the code claims),
    also after the sentinel is wrapped in a [StatusError]; a gRPC code is
    retryable exactly when its sentinel is, ABORTED being the one code on which
    the two differ; and a code gives no error exactly when it is a success. *)
Theorem retry_tables_agree (code : Z) (status : Z) (body : string) :
  RetryableStatus code = IsRetryable (FromStatus code) ∧
  IsRetryable (NewStatusError status body <$> FromStatus code) = RetryableStatus code ∧
  (RetryableGRPCCode code ≠ IsRetryable (FromGRPCCode code) ↔ code = grpcAborted) ∧
  (FromStatus code = None ↔ 200 ≤ code < 300) ∧
  (FromGRPCCode code = None ↔ code = 0).
Proof.
  split_and!.
  - apply retryable_status_sentinel.
  - rewrite retryable_status_sentinel. by destruct (FromStatus code).
  - rewrite retryable_grpc_sentinel. destruct (Z.eqb_spec code grpcAborted) as [->|].
    + done.
    + rewrite orb_false_r. done.
  - unfold FromStatus, statusOK, statusMultipleChoices.
    destruct (Z.leb_spec 200 code); destruct (Z.ltb_spec code 300); simpl;
      repeat case_match; split; try done; lia.
  - unfold FromGRPCCode, grpcOK. destruct (Z.eqb_spec code 0); [done|].
    repeat case_match; done.
Qed.

End apierr.
