(* ===== verification/Transport.v ===== *)
(** * platform/retry: the retrying HTTP transport

    Models [src/go/platform/retry/transport.go] (its older copy
    [src/go/retry/transport.go] has one guard less and another text). The
    server, the request's [GetBody], the clock, the timer and the reading of a
    response body act on the world [W]. [ParseTime] stands for
    [http.ParseTime]: the instant of an HTTP date. *)

From S2P Require Import Prelude GoStrings GoErr GoMonad Retry.

Module transport.
Import retry.

Definition ErrNonRewindableBody : error :=
  ENew "retry.ErrNonRewindableBody" "retry: cannot retry request with non-rewindable body".
Definition ErrRetriesExceeded : error :=
  ENew "retry.ErrRetriesExceeded" "retry: retries exceeded".

(** [http.NoBody], or a stream named by a number. *)
Inductive Body := NoBody | Stream (id : nat).

Record Response := mkResponse {
  StatusCode : Z;
  Header_Retry_After : string;
  resp_Body : option nat (* the stream to drain and close; nil is [None] *)
}.

Definition StatusTooManyRequests : Z := 429.
Definition StatusServiceUnavailable : Z := 503.

(** The delay and [ok]: [None] is [(0, false)]. *)
Definition RetryAfterDelay (ParseTime : string → option Z) (header : string) (now : Z)
  : option Z :=
  let header := trim_space header in
  if bool_decide (header = "") then None
  else match atoi header with
       | Some secs => if secs <? 0 then None else Some (wrap64 (secs * Second))
       | None =>
           match ParseTime header with
           | Some date => Some (Z.max (time_sub date now) 0)
           | None => None
           end
       end.

Section transport.
Context {W : Type}.

Record Request := mkRequest {
  req_Body : option Body;
  GetBody : option (go W (option Body * option error))
}.

(** [http.RoundTripper] *)
Definition RoundTripper : Type := Request → go W (option Response * option error).

Context (ParseTime : string → option Z) (Rand : Z → W → Z * W) (Wait : Z → W → option error * W).
Context (Now : W → Z * W) (Drain : nat → W → unit * W).

Record retryTransport := mkTransport {
  base : RoundTripper;
  maxAttempts : Z;
  shouldRetry : Z → bool
}.

Definition Transport (DefaultTransport : RoundTripper) (max : Z) (should : option (Z → bool))
    (b : option RoundTripper) : retryTransport :=
  let b := match b with None => DefaultTransport | Some b => b end in
  let max := if max <? 1 then 1 else max in
  let should := match should with None => λ _, false | Some f => f end in
  mkTransport b max should.

Definition rewindRequestBody (req : Request) : go W (error + Request) :=
  match req_Body req, GetBody req with
  | Some _, Some get =>
      r ← get;
      match r.2 with
      | Some err => mret (inl (wrap_pre "retry: failed to get request body: " err))
      | None => mret (inr (mkRequest r.1 (GetBody req)))
      end
  | _, _ => mret (inr req)
  end.

Definition drainBody (resp : option Response) : go W unit :=
  match resp with
  | Some r => match resp_Body r with Some b => does (Drain b) | None => mret tt end
  | None => mret tt
  end.

Definition retryDelay (attempt : Z) (resp : option Response) : go W Z :=
  match resp with
  | Some r =>
      if (StatusCode r =? StatusTooManyRequests) || (StatusCode r =? StatusServiceUnavailable)
      then
        now ← does Now;
        match RetryAfterDelay ParseTime (Header_Retry_After r) now with
        | Some delay => mret (Z.min delay maxBackoff)
        | None => draw_backoff Rand attempt
        end
      else draw_backoff Rand attempt
  | None => draw_backoff Rand attempt
  end.

Definition wait (attempt : Z) (resp : option Response) : go W (option error) :=
  d ← retryDelay attempt resp;
  cancelled ← does (Wait d);
  mret (wrap_pre "retry: " <$> cancelled).

Definition has_body (req : Request) : bool :=
  match req_Body req with Some (Stream _) => true | _ => false end.
Definition non_rewindable (req : Request) : bool :=
  has_body req && match GetBody req with None => true | Some _ => false end.

(** What precedes every attempt but the first. *)
Definition prepare (attempt : Z) (req : Request) : go W (error + Request) :=
  if 0 <? attempt then
    if non_rewindable req then mret (inl ErrNonRewindableBody)
    else rewindRequestBody req
  else mret (inr req).

Section round_trip.
Context (t : retryTransport).

Definition exceeded_status (resp : Response) : error :=
  EFmt (PWrap ErrRetriesExceeded (PText (" after " +:+ itoa (maxAttempts t) +:+
    " attempts: last status " +:+ itoa (StatusCode resp)) PNil)).
Definition exceeded_error (lastErr : option error) : error :=
  EFmt (PWrap ErrRetriesExceeded (PText (" after " +:+ itoa (maxAttempts t) +:+ " attempts: ")
    match lastErr with Some e => PWrap e PNil | None => PText "%!w(<nil>)" PNil end)).

(** The end of [RoundTrip], after the loop. *)
Definition exhausted (resp : option Response) (lastErr : option error)
  : option Response * option error :=
  match resp with
  | Some r => (Some r, Some (exceeded_status r))
  | None => (None, Some (exceeded_error lastErr))
  end.

Fixpoint RoundTrip_loop (left : nat) (attempt : Z) (activeReq : Request)
    (resp : option Response) (lastErr : option error) : go W (option Response * option error) :=
  match left with
  | O => mret (exhausted resp lastErr)
  | S left' =>
      pre ← prepare attempt activeReq;
      match pre with
      | inl err => mret (None, Some err)
      | inr activeReq =>
          r ← base t activeReq;
          match r.2 with
          | Some err =>
              if IsPermanent (Some err)
              then mret (None, Some (wrap_pre "retry: permanent error: " err))
              else if attempt <? maxAttempts t - 1 then
                waitErr ← wait attempt None;
                match waitErr with
                | Some we => mret (None, Some we)
                | None => RoundTrip_loop left' (attempt + 1) activeReq r.1 (Some err)
                end
              else RoundTrip_loop left' (attempt + 1) activeReq r.1 (Some err)
          | None =>
              match r.1 with
              | None => λ w, (Panicked "nil pointer dereference", w)
              | Some rs =>
                  if negb (shouldRetry t (StatusCode rs)) then mret (Some rs, None)
                  else if attempt =? maxAttempts t - 1 then mret (exhausted (Some rs) None)
                  else
                    _ ← drainBody (Some rs);
                    waitErr ← wait attempt (Some rs);
                    match waitErr with
                    | Some we => mret (None, Some we)
                    | None => RoundTrip_loop left' (attempt + 1) activeReq (Some rs) None
                    end
              end
          end
      end
  end.

(** [cloneRequest] gives the loop a request of its own with the same body. *)
Definition RoundTrip : RoundTripper := λ req,
  RoundTrip_loop (Z.to_nat (maxAttempts t)) 0 req None None.

End round_trip.

(** ** Specification *)

(** What a run of the transport does, in order: requests sent with their body,
    response bodies obtained, and response bodies drained and closed. *)
Inductive event := Sent (b : option Body) | Got (b : nat) | Drained (b : nat).

Definition sent_of (e : event) : option (option Body) := match e with Sent b => Some b | _ => None end.
Definition got_of (e : event) : option nat := match e with Got b => Some b | _ => None end.
Definition drained_of (e : event) : option nat := match e with Drained b => Some b | _ => None end.

Definition bodies (resp : option Response) : list nat :=
  match resp with
  | Some r => match resp_Body r with Some b => [b] | None => [] end
  | None => []
  end.

Section spec.
(** [log] is an observation of the world to which only the server and the
    drain of a body add. *)
Context (log : W → list event).
Definition quiet {A} (m : go W A) : Prop := ∀ w, log (m w).2 = log w.
Context (Hrand : ∀ n, quiet (does (Rand n))) (Hwait : ∀ d, quiet (does (Wait d))).
Context (Hnow : quiet (does Now)).
Context (Hdrain : ∀ b w, log (Drain b w).2 = log w ++ [Drained b]).
Context (t : retryTransport).

(** A server as [http.RoundTripper] documents it: a response or an error, not
    both; each call sends the request's body. *)
Definition conforming : Prop := ∀ req w r w', base t req w = (Returned r, w') →
  log w' = log w ++ Sent (req_Body req) :: (Got <$> bodies r.1) ∧ (r.2 ≠ None → r.1 = None).
Context (Hbase : conforming).

Definition get_body_quiet (req : Request) : Prop := ∀ g, GetBody req = Some g → quiet g.

(** The legal ends of a run of [n] requests. *)
Inductive ended (n : Z) : option Response * option error → Prop :=
| ended_ok rs : shouldRetry t (StatusCode rs) = false → ended n (Some rs, None)
| ended_status rs :
    n = maxAttempts t → shouldRetry t (StatusCode rs) = true →
    ended n (Some rs, Some (exceeded_status t rs))
| ended_error e :
    n = maxAttempts t → IsPermanent (Some e) = false →
    ended n (None, Some (exceeded_error t (Some e)))
| ended_permanent e :
    IsPermanent (Some e) = true →
    ended n (None, Some (wrap_pre "retry: permanent error: " e))
| ended_cancelled e : n < maxAttempts t → ended n (None, Some (wrap_pre "retry: " e))
| ended_body : n < maxAttempts t → ended n (None, Some ErrNonRewindableBody)
| ended_get_body e :
    n < maxAttempts t →
    ended n (None, Some (wrap_pre "retry: failed to get request body: " e)).

Definition sends (evs : list event) : Z := Z.of_nat (length (omap sent_of evs)).

(** ** Lemmas *)

Lemma quiet_result {A} (m : go W A) w a w' : quiet m → m w = (Returned a, w') → log w' = log w.
Proof. intros Hq E. specialize (Hq w). by rewrite E in Hq. Qed.

Lemma quiet_bind {A B} (m : go W A) (f : A → go W B) :
  quiet m → (∀ a, quiet (f a)) → quiet (m ≫= f).
Proof.
  intros Hm Hf w. cbv [mbind go_bind]. specialize (Hm w).
  destruct (m w) as [[a|p] w']; simpl in *; [rewrite Hf|]; done.
Qed.

Lemma quiet_draw a : quiet (draw_backoff Rand a).
Proof using Hrand. apply quiet_bind; [apply Hrand|]. intros x w. done. Qed.

Lemma quiet_wait a resp : quiet (wait a resp).
Proof using Hrand Hwait Hnow.
  apply quiet_bind.
  - unfold retryDelay. destruct resp as [r|]; [|apply quiet_draw].
    destruct (_ || _); [|apply quiet_draw]. apply quiet_bind; [apply Hnow|].
    intros now. destruct (RetryAfterDelay _ _ _); [done|apply quiet_draw].
  - intros d. apply quiet_bind; [apply Hwait|]. done.
Qed.

Lemma quiet_prepare a req w r w' :
  get_body_quiet req → prepare a req w = (Returned r, w') → log w' = log w.
Proof.
  unfold prepare, rewindRequestBody. intros Hq E.
  destruct (0 <? a); [|by go_inv]. destruct (non_rewindable req); [by go_inv|].
  destruct (req_Body req), (GetBody req) as [g|] eqn:Eg; try by go_inv.
  go_inv. apply (quiet_result g) in E0; [|by apply Hq].
  destruct a0.2; by go_inv.
Qed.

(** A prepared request is refused only for its body, and keeps [GetBody]. *)
Lemma prepare_result a req w r w' :
  prepare a req w = (Returned r, w') →
  match r with
  | inl e => 0 < a ∧ (e = ErrNonRewindableBody ∨
               ∃ e', e = wrap_pre "retry: failed to get request body: " e')
  | inr req' => GetBody req' = GetBody req ∧
                (non_rewindable req = true → a ≤ 0 ∧ req' = req) ∧
                (GetBody req = None ∨ a ≤ 0 → req' = req)
  end.
Proof.
  unfold prepare. intros E. destruct (Z.ltb_spec 0 a) as [Ha|Ha]; [|by go_inv].
  destruct (non_rewindable req) eqn:En; [go_inv; by auto|]. unfold rewindRequestBody in E.
  destruct (req_Body req) eqn:Eb, (GetBody req) as [g|] eqn:Eg; try (go_inv; by rewrite Eg).
  go_inv. destruct a0 as [bd [e|]]; simpl in E; go_inv; [by eauto|].
  split_and!; [done|done|]. intros [?|?]; [done|lia].
Qed.

Lemma drain_log resp w u w' :
  drainBody resp w = (Returned u, w') → log w' = log w ++ (Drained <$> bodies resp).
Proof using Hdrain.
  unfold drainBody, bodies. intros E. destruct resp as [r|]; [|go_inv; by rewrite app_nil_r].
  destruct (resp_Body r) as [b|]; [|go_inv; by rewrite app_nil_r].
  unfold does in E. specialize (Hdrain b w). destruct (Drain b w). by simplify_eq.
Qed.

Lemma omap_fmap_none {A B C} (f : B → option C) (g : A → B) (l : list A) :
  (∀ x, f (g x) = None) → omap f (g <$> l) = [].
Proof. intros H. induction l as [|x l IH]; csimpl; [done|]. by rewrite H. Qed.

Lemma omap_fmap_some {A B C} (f : B → option C) (g : A → B) (h : A → C) (l : list A) :
  (∀ x, f (g x) = Some (h x)) → omap f (g <$> l) = h <$> l.
Proof. intros H. induction l as [|x l IH]; csimpl; [done|]. by rewrite H, IH. Qed.

(** The books of a run that made [a] requests before and ended with [r]. *)
Definition books (a left : Z) (req : Request) (evs : list event)
    (r : option Response * option error) : Prop :=
  sends evs ≤ left ∧ (a ≤ 0 → 0 < left → 1 ≤ sends evs) ∧
  omap got_of evs = omap drained_of evs ++ bodies r.1 ∧
  (non_rewindable req = true → sends evs ≤ 1 ∧ (0 < a → sends evs = 0)) ∧
  ended (a + sends evs) r.

Lemma round_events b bs (ds : list nat) (evs : list event) :
  let l := Sent b :: (Got <$> bs) ++ (Drained <$> ds) ++ evs in
  sends l = 1 + sends evs ∧ omap got_of l = bs ++ omap got_of evs ∧
  omap drained_of l = ds ++ omap drained_of evs.
Proof.
  unfold sends. csimpl. rewrite !omap_app.
  rewrite (omap_fmap_none sent_of Got), (omap_fmap_none sent_of Drained) by done.
  rewrite (omap_fmap_some got_of Got id), (omap_fmap_none got_of Drained) by done.
  rewrite (omap_fmap_none drained_of Got), (omap_fmap_some drained_of Drained id) by done.
  rewrite !list_fmap_id. simpl length. split_and!; [lia|done|done].
Qed.

Lemma books_zero a left req r : 0 ≤ left → 0 < a ∨ left ≤ 0 → ended a r → bodies r.1 = [] → books a left req [] r.
Proof.
  intros Hl Ha He Hb. unfold books, sends. csimpl. rewrite Hb, Z.add_0_r.
  split_and!; [lia|lia|done|lia|done].
Qed.

(** A round whose response, if any, is drained, then the rest of the run. *)
Lemma books_round a left req req' b bs evs r :
  0 ≤ a → (non_rewindable req = true → a ≤ 0 ∧ req' = req) →
  books (a + 1) left req' evs r →
  books a (1 + left) req (Sent b :: (Got <$> bs) ++ (Drained <$> bs) ++ evs) r.
Proof.
  intros Ha Hn (Hs & _ & Hg & Hr & He). destruct (round_events b bs bs evs) as (Es & Eg & Ed).
  assert (0 ≤ sends evs) as Hpos by (unfold sends; lia).
  unfold books. rewrite Es, Eg, Ed, Hg, app_assoc.
  split_and!; [lia|lia|done| |by rewrite Z.add_assoc].
  intros H. destruct (Hn H) as [Ha0 ->]. destruct (Hr H) as [_ Hr0]. rewrite Hr0 by lia. lia.
Qed.

(** A round that ends the run and gives its response away. *)
Lemma books_last a left req b r :
  0 ≤ a → 0 ≤ left → (non_rewindable req = true → a ≤ 0) → ended (a + 1) r →
  books a (1 + left) req (Sent b :: (Got <$> bodies r.1)) r.
Proof.
  intros Ha Hl Hn He. pose proof (round_events b (bodies r.1) [] []) as (Es & Eg & Ed).
  change (Drained <$> []) with (@nil event) in *. change (sends []) with 0 in Es.
  change (omap got_of []) with (@nil nat) in Eg. change (omap drained_of []) with (@nil nat) in Ed.
  rewrite !app_nil_r in *. unfold books. rewrite Es, Eg, Ed, Z.add_0_r.
  split_and!; [lia|lia|done| |done]. intros H. specialize (Hn H). lia.
Qed.

Lemma wait_result a resp w r w' :
  wait a resp w = (Returned r, w') → ∀ we, r = Some we → ∃ ce, we = wrap_pre "retry: " ce.
Proof.
  unfold wait. intros E we ->. go_inv.
  match goal with H : _ <$> ?o = Some _ |- _ => destruct o; simplify_eq/= end. eauto.
Qed.

Lemma loop_books left a req resp lastErr w r w' :
  get_body_quiet req → 0 ≤ a → a + Z.of_nat left = maxAttempts t →
  (left = 0%nat → resp = None ∧ ∃ e, lastErr = Some e ∧ IsPermanent (Some e) = false) →
  RoundTrip_loop t left a req resp lastErr w = (Returned r, w') →
  ∃ evs, log w' = log w ++ evs ∧ books a (Z.of_nat left) req evs r.
Proof using Hrand Hwait Hnow Hdrain Hbase.
  revert a req resp lastErr w. induction left as [|left IH];
    intros a req resp lastErr w Hq Ha Hm H0 E; simpl in E.
  { destruct (H0 eq_refl) as (-> & e & -> & Hp). go_inv. exists []. rewrite app_nil_r.
    split; [done|]. apply books_zero; [lia|lia| |done]. constructor; [lia|done]. }
  go_inv. rename E0 into Epre. pose proof (quiet_prepare _ _ _ _ _ Hq Epre) as Lpre.
  apply prepare_result in Epre. rename a0 into pre. destruct pre as [err|req'].
  { go_inv. exists []. rewrite app_nil_r. split; [done|]. apply books_zero; [lia|lia| |done].
    destruct Epre as (Hpos & [->|(e' & ->)]); constructor; lia. }
  destruct Epre as (Hgb & Hnr & _). go_inv. rename E0 into Eb.
  destruct (Hbase _ _ _ _ Eb) as [Lb Hc]. rename a0 into rr. destruct rr as [resp' oe]; simpl in *.
  replace (Z.of_nat (S left)) with (1 + Z.of_nat left) by lia.
  assert (get_body_quiet req') as Hq' by (intros g; rewrite Hgb; apply Hq).
  assert (Hna : non_rewindable req = true → a ≤ 0) by (intros; by apply Hnr).
  destruct oe as [err|].
  - rewrite (Hc ltac:(done)) in *.
    pose (Hlast := λ r He, books_last a (Z.of_nat left) req (req_Body req') r Ha ltac:(lia) Hna He).
    simpl in Lb. destruct (IsPermanent (Some err)) eqn:Ep; simpl in Ep; rewrite ?Ep in E.
    { go_inv. exists [Sent (req_Body req')]. rewrite Lb, Lpre. split; [done|].
      apply (Hlast (None, _)). by apply ended_permanent. }
    destruct (Z.ltb_spec a (maxAttempts t - 1)).
    + go_inv. pose proof (quiet_result _ _ _ _ (quiet_wait a None) E0) as Lw.
      pose proof (wait_result _ _ _ _ _ E0) as Hwr. destruct a0 as [we|].
      * destruct (Hwr we eq_refl) as (ce & ->). go_inv.
        exists [Sent (req_Body req')]. rewrite Lw, Lb, Lpre. split; [done|].
        apply (Hlast (None, _)). apply ended_cancelled. lia.
      * destruct (IH (a + 1) req' None (Some err) w2) as (evs & L & B); [done|lia|lia| |done|].
        { intros ->. lia. }
        exists (Sent (req_Body req') :: evs). rewrite L, Lw, Lb, Lpre, <- app_assoc.
        split; [done|]. by apply (books_round a (Z.of_nat left) req req' _ [] evs r).
    + destruct (IH (a + 1) req' None (Some err) w1) as (evs & L & B); [done|lia|lia|by eauto|done|].
      exists (Sent (req_Body req') :: evs). rewrite L, Lb, Lpre, <- app_assoc.
      split; [done|]. by apply (books_round a (Z.of_nat left) req req' _ [] evs r).
  - destruct resp' as [rs|]; [|done].
    assert (∀ r, r.1 = Some rs → ended (a + 1) r →
      ∃ evs, log w1 = log w ++ evs ∧ books a (1 + Z.of_nat left) req evs r) as Hlast.
    { intros r0 Hr0 He. eexists. rewrite Lb, Lpre. split; [done|]. rewrite <- Hr0.
      apply books_last; auto; lia. }
    destruct (shouldRetry t (StatusCode rs)) eqn:Es; simpl in E.
    2: { go_inv. apply Hlast; [done|]. by constructor. }
    destruct (Z.eqb_spec a (maxAttempts t - 1)).
    { go_inv. apply Hlast; [done|]. constructor; [lia|done]. }
    go_inv. apply (drain_log (Some rs)) in E0. rename E0 into Ld.
    pose proof (quiet_result _ _ _ _ (quiet_wait a (Some rs)) E1) as Lw.
    pose proof (wait_result _ _ _ _ _ E1) as Hwr.
    destruct a1 as [we|].
    + destruct (Hwr we eq_refl) as (ce & ->). go_inv.
      eexists. rewrite Lw, Ld, Lb, Lpre, <- !app_assoc. split; [done|]. simpl.
      rewrite <- (app_nil_r (Drained <$> _)).
      apply (books_round a _ req req _ (bodies (Some rs))); [lia|by auto|].
      apply books_zero; [lia|lia| |done]. apply ended_cancelled. lia.
    + destruct (IH (a + 1) req' (Some rs) None w3) as (evs & L & B); [done|lia|lia| |done|].
      { intros ->. lia. }
      eexists. rewrite L, Lw, Ld, Lb, Lpre, <- !app_assoc. split; [done|]. simpl.
      by apply (books_round a _ req req').
Qed.

(** ** Properties *)

(** C4: a run of RoundTrip, against a server that answers each request with a
    response or an error and not both, sends between one and
    max(maxAttempts, 1) requests. Every response body it obtains is drained and
    closed, once and in order, except that of the response it returns, which is
    left unread. A request with a body that cannot be rewound is sent exactly
    once. The run ends in one of the documented ways: a response that is not to
    be retried, without error; after all attempts, the last response or the last
    error with an error that wraps ErrRetriesExceeded; a permanent error; the
    context's error; or the refusal of the body. *)
Theorem roundtrip_accounting D max should b req w r w' :
  t = Transport D max should b → get_body_quiet req →
  RoundTrip t req w = (Returned r, w') →
  ∃ evs, log w' = log w ++ evs ∧
    1 ≤ sends evs ≤ Z.max max 1 ∧
    omap got_of evs = omap drained_of evs ++ bodies r.1 ∧
    (non_rewindable req = true → sends evs = 1) ∧
    maxAttempts t = Z.max max 1 ∧ ended (sends evs) r.
Proof using Hrand Hwait Hnow Hdrain Hbase.
  intros Ht Hq E.
  assert (maxAttempts t = Z.max max 1) as Hm.
  { rewrite Ht. simpl. destruct (Z.ltb_spec max 1); lia. }
  unfold RoundTrip in E.
  apply loop_books in E as (evs & L & Hs & H1 & Hg & Hr & He); [|done|lia|lia|lia].
  exists evs. split_and!; [done|lia|lia|done| |done|done].
  intros H. destruct (Hr H). lia.
Qed.

End spec.

(** A server call that returns a response or an error. *)
Definition answers (b : RoundTripper) : Prop := ∀ req w, ∃ r w',
  b req w = (Returned r, w') ∧ (r.1 ≠ None ∨ r.2 ≠ None).

Lemma no_panic_draw a : no_panic (draw_backoff Rand a).
Proof. apply no_panic_bind; [apply no_panic_does|]. intros. apply no_panic_ret. Qed.

Lemma no_panic_wait a resp : no_panic (wait a resp).
Proof.
  apply no_panic_bind.
  - unfold retryDelay. destruct resp; [|apply no_panic_draw]. destruct (_ || _); [|apply no_panic_draw].
    apply no_panic_bind; [apply no_panic_does|]. intros now.
    destruct (RetryAfterDelay _ _ _); [apply no_panic_ret|apply no_panic_draw].
  - intros d. apply no_panic_bind; [apply no_panic_does|]. intros. apply no_panic_ret.
Qed.

Lemma no_panic_prepare a req :
  (∀ g, GetBody req = Some g → no_panic g) → no_panic (prepare a req).
Proof.
  intros Hg. unfold prepare, rewindRequestBody. repeat case_match; try apply no_panic_ret.
  apply no_panic_bind; [by apply Hg|]. intros [bd [e|]]; apply no_panic_ret.
Qed.

Lemma loop_no_panic t left a req resp lastErr :
  answers (base t) → (∀ g, GetBody req = Some g → no_panic g) →
  no_panic (RoundTrip_loop t left a req resp lastErr).
Proof.
  intros Hb. revert a req resp lastErr. induction left as [|left IH]; intros a req resp lastErr Hg w;
    [by apply no_panic_ret|]. simpl.
  destruct (no_panic_prepare a req Hg w) as (pre & w1 & E). rewrite (bind_eq _ _ _ _ _ E).
  apply prepare_result in E. destruct pre as [e|req']; [by apply no_panic_ret|].
  assert (∀ g, GetBody req' = Some g → no_panic g) as Hg' by (intros g; destruct E as [-> _]; apply Hg).
  destruct (Hb req' w1) as ([resp' oe] & w2 & E2 & Hne). rewrite (bind_eq _ _ _ _ _ E2). simpl in *.
  destruct oe as [err|]; [|destruct resp' as [rs|]; [|naive_solver]].
  - destruct (match as_permanent err with Some p => p | None => false end); [by apply no_panic_ret|].
    destruct (a <? maxAttempts t - 1); [|by apply IH].
    apply no_panic_bind; [apply no_panic_wait|]. intros [we|]; [apply no_panic_ret|by apply IH].
  - destruct (negb (shouldRetry t (StatusCode rs))); [by apply no_panic_ret|].
    destruct (a =? maxAttempts t - 1); [by apply no_panic_ret|].
    apply no_panic_bind; [case_match; [apply no_panic_does|apply no_panic_ret]|]; intros _.
    apply no_panic_bind; [apply no_panic_wait|]. intros [we|]; [apply no_panic_ret|by apply IH].
Qed.

Lemma loop_answers t left a req resp lastErr w r w' :
  RoundTrip_loop t left a req resp lastErr w = (Returned r, w') → r.1 ≠ None ∨ r.2 ≠ None.
Proof.
  revert req a resp lastErr w. induction left as [|left IH]; intros req a resp lastErr w E; simpl in E.
  - unfold exhausted in E. destruct resp; go_inv; by right.
  - go_inv. destruct a0 as [e|req']; go_inv; [by right|]. clear E0.
    repeat first [done | by left | by right | by eapply IH | progress go_inv | case_hyp E].
Qed.

(** RoundTrip terminates: it returns, without a panic, whatever the server
    answers, the clock says and the timers do, as long as each call of the
    server returns a response or an error and GetBody does not panic. What it
    returns is itself such an answer, so that transports can be stacked. *)
Theorem roundtrip_terminates (t : retryTransport) req :
  answers (base t) → (∀ g, GetBody req = Some g → no_panic g) →
  no_panic (RoundTrip t req) ∧
  ∀ w r w', RoundTrip t req w = (Returned r, w') → r.1 ≠ None ∨ r.2 ≠ None.
Proof.
  intros Hb Hg. split; [by apply loop_no_panic|]. intros w r w'. apply loop_answers.
Qed.

(** The pacing of a 429 or 503 response whose Retry-After header is a number
    of seconds: a negative number is ignored; up to 9223372036 seconds the wait
    is that many seconds capped at five; from there to 18446744073 seconds the
    conversion to a Duration wraps, and the wait is negative: the server that
    asks for the longest pause gets none. *)
Theorem retry_after_seconds (resp : Response) (a : Z) (w : W) (secs : Z) :
  StatusCode resp = 429 ∨ StatusCode resp = 503 →
  atoi (trim_space (Header_Retry_After resp)) = Some secs →
  let w1 := (Now w).2 in
  (secs < 0 → retryDelay a (Some resp) w = draw_backoff Rand a w1) ∧
  (0 ≤ secs ≤ 9223372036 →
     retryDelay a (Some resp) w = (Returned (Z.min (secs * Second) maxBackoff), w1)) ∧
  (9223372036 < secs ≤ 18446744073 →
     ∃ d, retryDelay a (Some resp) w = (Returned d, w1) ∧ d < 0).
Proof.
  intros Hs Ha w1. subst w1. unfold retryDelay.
  replace ((StatusCode resp =? StatusTooManyRequests) || (StatusCode resp =? StatusServiceUnavailable))
    with true by (destruct Hs as [-> | ->]; done).
  cbv [mbind go_bind does]. destruct (Now w) as [now w2]. unfold RetryAfterDelay. rewrite Ha.
  rewrite bool_decide_eq_false_2 by (by intros E; rewrite E in Ha).
  destruct (Z.ltb_spec secs 0); [split_and!; [done|lia|lia]|].
  split_and!; [lia| |]; intros H'.
  - rewrite wrap64_id; [done|]. unfold is_int64, min_int64, max_int64, Second. lia.
  - eexists. split; [done|]. apply Z.min_lt_iff. left. unfold wrap64, Second.
    replace (secs * 1000000000 + 2 ^ 63) with (secs * 1000000000 - 2 ^ 63 + 1 * 2 ^ 64) by lia.
    rewrite Z.mod_add, Z.mod_small; lia.
Qed.

End transport.
Arguments Request : clear implicits.
Arguments RoundTripper : clear implicits.
Arguments retryTransport : clear implicits.

(** ** Witnesses *)

(** A world with the log, the numbers of response bodies to come, and a server
    that answers each request with the next status of a script, 503 at its end. *)
Record World := mkWorld { wlog : list event; next : nat; script : list Z }.

Definition emit (e : event) (w : World) : World := mkWorld (wlog w ++ [e]) (next w) (script w).

Definition server : RoundTripper World := λ req w,
  let status := default 503 (head (script w)) in
  let w := emit (Sent (req_Body req)) w in
  (Returned (Some (mkResponse status "1" (Some (next w))), None),
   emit (Got (next w)) (mkWorld (wlog w) (S (next w)) (tail (script w)))).

Definition rand0 (n : Z) (w : World) : Z * World := (0, w).
Definition wait0 (d : Z) (w : World) : option error * World := (None, w).
Definition now0 (w : World) : Z * World := (0, w).
Definition drain0 (b : nat) (w : World) : unit * World := (tt, emit (Drained b) w).
Definition no_date (s : string) : option Z := None.
Definition is5xx (c : Z) : bool := 500 <=? c.

Definition trip (t : retryTransport World) : RoundTripper World :=
  RoundTrip no_date rand0 wait0 now0 drain0 t.

Definition client : retryTransport World := Transport server 3 (Some is5xx) None.
Definition outer : retryTransport World :=
  Transport server 2 (Some is5xx) (Some (trip (Transport server 2 (Some is5xx) (Some server)))).

Lemma server_conforming : conforming wlog client.
Proof.
  intros req w r w' E. unfold client, Transport, server in E. simpl in E. simplify_eq. simpl.
  split; [by rewrite <- app_assoc|done].
Qed.

(** A POST with a body that cannot be rewound is refused after one request. *)
Lemma roundtrip_accounting_witness :
  (trip client (mkRequest (Some (Stream 0)) None) (mkWorld [] 0 [503; 200])).1 =
    Returned (None, Some ErrNonRewindableBody) ∧
  ∃ evs, evs = [Sent (Some (Stream 0)); Got 0; Drained 0] ∧ sends evs = 1.
Proof.
  split; [by vm_compute|].
  destruct (roundtrip_accounting no_date rand0 wait0 now0 drain0 wlog ltac:(done) ltac:(done)
    ltac:(done) ltac:(done) client server_conforming server 3 (Some is5xx) None
    (mkRequest (Some (Stream 0)) None) (mkWorld [] 0 [503; 200])
    (None, Some ErrNonRewindableBody) (mkWorld [Sent (Some (Stream 0)); Got 0; Drained 0] 1 [200]))
    as (evs & L & H1 & _ & H2 & _); [done|by intros g|by vm_compute|].
  exists evs. simpl in L. split; [done|by apply H2].
Defined.

Lemma roundtrip_terminates_witness :
  no_panic (trip client (mkRequest None None)).
Proof.
  apply (roundtrip_terminates no_date rand0 wait0 now0 drain0 client (mkRequest None None));
    [|by intros g].
  intros req w. eexists _, _. split; [done|by left].
Defined.

Lemma retry_after_seconds_witness :
  retryDelay no_date rand0 now0 0 (Some (mkResponse 429 " 3 " None)) (mkWorld [] 0 []) =
    (Returned (3 * Second), mkWorld [] 0 []) ∧
  ∃ d, retryDelay no_date rand0 now0 0 (Some (mkResponse 503 "9999999999" None)) (mkWorld [] 0 []) =
    (Returned d, mkWorld [] 0 []) ∧ d < 0.
Proof.
  split.
  - apply (retry_after_seconds no_date rand0 now0 (mkResponse 429 " 3 " None) 0 (mkWorld [] 0 []) 3);
      [by left|by vm_compute|lia].
  - apply (retry_after_seconds no_date rand0 now0 (mkResponse 503 "9999999999" None) 0
      (mkWorld [] 0 []) 9999999999); [by right|by vm_compute|lia].
Defined.

(** A transport stacked on a transport, against a server that always fails: the
    inner one returns a response with its error, the outer one retries without
    draining it, and the body of the second response is never closed. *)
Example stacked_transports_leak :
  let '(r, w) := trip outer (mkRequest None None) (mkWorld [] 0 []) in
  omap got_of (wlog w) = [0; 1; 2; 3]%nat ∧ omap drained_of (wlog w) = [0; 2]%nat ∧
  match r with Returned (Some rs, Some e) => resp_Body rs = Some 3%nat ∧
    is_err "retry.ErrRetriesExceeded" e = true | _ => False end.
Proof. by vm_compute. Qed.

End transport.
