(* ===== verification/RetryV1.v ===== *)
(** * retry: the older module

    [src/go/retry/retry.go] and [transport.go], the module that [platform/retry]
    replaces. Most of it is the newer code word for word, and is here by the name of
    the definition in [Retry.v] or [Transport.v]; what calls the backoff, which lacks
    a guard, or the predicate, which may be nil here, is written out. The theorem
    compares the two modules. *)

From S2P Require Import Prelude GoStrings GoErr GoMonad Retry Transport.

Module retry.

Definition backoffBase : Z := 100 * Millisecond.
Definition maxBackoff : Z := 5 * Second.
Definition jitterFraction : Z := 5.
Definition maxAttemptShift : Z := 30.

Definition Permanent : option error → option error := Retry.retry.Permanent.
Definition IsPermanent : option error → bool := Retry.retry.IsPermanent.
Definition jitter : (Z → Z) → Z → Z := Retry.retry.jitter.

Definition Backoff (rand : Z → Z) (attempt : Z) : Z :=
  Retry.retry.BackoffWithConfig_v1 rand attempt backoffBase maxBackoff.

Section loop.
Context {W T : Type} (zero : T).
Context (Rand : Z → W → Z * W) (Wait : Z → W → option error * W).

(** [Backoff] with a random draw from the world. *)
Definition draw_backoff (attempt : Z) : go W Z :=
  let ceiling := Z.quot (Retry.retry.BackoffWithConfig_v1 (λ _, 0) attempt backoffBase maxBackoff)
                   jitterFraction in
  r ← does (Rand ceiling);
  mret (Backoff (λ _, r) attempt).

Context (fn : go W (T * option error)) (maxAttempts : Z).

(** The loop [for attempt := range maxAttempts], [left] turns to go. *)
Fixpoint DoVal_loop (left : nat) (attempt : Z) (lastErr : option error)
  : go W (T * option error) :=
  match left with
  | O => mret (zero, lastErr)
  | S left' =>
      r ← fn;
      match r.2 with
      | None => mret (r.1, None)
      | Some err =>
          if IsPermanent (Some err) then mret (zero, Some err)
          else if attempt =? maxAttempts - 1 then mret (zero, Some err)
          else
            delay ← draw_backoff attempt;
            cancelled ← does (Wait delay);
            match (cancelled : option error) with
            | Some ce => mret (zero, Some (wrap_pre "retry: " ce))
            | None => DoVal_loop left' (attempt + 1) (Some err)
            end
      end
  end.
End loop.

Definition DoVal {W T} (zero : T) (Rand : Z → W → Z * W) (Wait : Z → W → option error * W)
    (maxAttempts : Z) (fn : go W (T * option error)) : go W (T * option error) :=
  let n := if maxAttempts <? 1 then 1 else maxAttempts in
  DoVal_loop zero Rand Wait fn n (Z.to_nat n) 0 None.

Definition Do {W} (Rand : Z → W → Z * W) (Wait : Z → W → option error * W)
    (maxAttempts : Z) (fn : go W (option error)) : go W (option error) :=
  r ← DoVal tt Rand Wait maxAttempts (oe ← fn; mret (tt, oe));
  mret r.2.

(** ** Lemmas *)

Lemma backoff_same rand attempt : Backoff rand attempt = Retry.retry.Backoff rand attempt.
Proof. apply Retry.retry.backoff_v1_agrees; by vm_compute. Qed.

Lemma draw_same {W} (Rand : Z → W → Z * W) attempt w :
  draw_backoff Rand attempt w = Retry.retry.draw_backoff Rand attempt w.
Proof.
  unfold draw_backoff, Retry.retry.draw_backoff. rewrite Retry.retry.backoff_v1_agrees by (by vm_compute).
  cbv [mbind go_bind does mret go_ret].
  change (Z.quot (Retry.retry.BackoffWithConfig (λ _, 0) attempt backoffBase maxBackoff) jitterFraction) with
    (Z.quot (Retry.retry.BackoffWithConfig (λ _, 0) attempt Retry.retry.backoffBase Retry.retry.maxBackoff)
       Retry.retry.jitterFraction).
  destruct (Rand _ w). by rewrite backoff_same.
Qed.

Lemma loop_same {W T} (zero : T) (Rand : Z → W → Z * W) Wait fn n left attempt lastErr w :
  DoVal_loop zero Rand Wait fn n left attempt lastErr w =
  Retry.retry.DoVal_loop zero Rand Wait fn n left attempt lastErr w.
Proof.
  revert attempt lastErr w. induction left as [|left IH]; intros attempt lastErr w; [done|]. simpl.
  cbv [mbind go_bind]. destruct (fn w) as [[[v oe]|p] w1]; [|done]. simpl.
  destruct oe as [err|]; [|done]. change (IsPermanent (Some err)) with (Retry.retry.IsPermanent (Some err)).
  destruct (Retry.retry.IsPermanent (Some err)) eqn:Ep; simpl in Ep; rewrite Ep; [done|]. destruct (_ =? _); [done|].
  rewrite draw_same. destruct (Retry.retry.draw_backoff Rand attempt w1) as [[d|p] w2]; [|done].
  destruct (does (Wait d) w2) as [[[ce|]|p] w3]; [done| |done]. apply IH.
Qed.

End retry.

(** ** The transport *)

Module transport.
Module T := Transport.transport.
Export Transport.transport (Body, NoBody, Stream, Response, mkResponse, Request, mkRequest, RoundTripper).

(** The sentinels of this module: other variables than those of the newer one, with
    the same text. *)
Definition ErrNonRewindableBody : error :=
  ENew "retryv1.ErrNonRewindableBody" "retry: cannot retry request with non-rewindable body".
Definition ErrRetriesExceeded : error :=
  ENew "retryv1.ErrRetriesExceeded" "retry: retries exceeded".
Definition RetryAfterDelay : (string → option Z) → string → Z → option Z := T.RetryAfterDelay.

Section transport.
Context {W : Type}.
Context (ParseTime : string → option Z) (Rand : Z → W → Z * W) (Wait : Z → W → option error * W).
Context (Now : W → Z * W) (Drain : nat → W → unit * W).

(** The predicate is kept as it is given, nil too. *)
Record retryTransport := mkTransport {
  base : RoundTripper W;
  maxAttempts : Z;
  shouldRetry : option (Z → bool)
}.

Definition Transport (DefaultTransport : RoundTripper W) (max : Z) (should : option (Z → bool))
    (b : option (RoundTripper W)) : retryTransport :=
  let b := match b with None => DefaultTransport | Some b => b end in
  let max := if max <? 1 then 1 else max in
  mkTransport b max should.

Definition rewindRequestBody : Request W → go W (error + Request W) := T.rewindRequestBody.
Definition drainBody : option Response → go W unit := T.drainBody Drain.
(** What precedes every attempt but the first. *)
Definition prepare (attempt : Z) (req : Request W) : go W (error + Request W) :=
  if 0 <? attempt then
    if T.non_rewindable req then mret (inl ErrNonRewindableBody)
    else rewindRequestBody req
  else mret (inr req).

Definition retryDelay (attempt : Z) (resp : option Response) : go W Z :=
  match resp with
  | Some r =>
      if (T.StatusCode r =? T.StatusTooManyRequests) || (T.StatusCode r =? T.StatusServiceUnavailable)
      then
        now ← does Now;
        match RetryAfterDelay ParseTime (T.Header_Retry_After r) now with
        | Some delay => mret (Z.min delay retry.maxBackoff)
        | None => retry.draw_backoff Rand attempt
        end
      else retry.draw_backoff Rand attempt
  | None => retry.draw_backoff Rand attempt
  end.

Definition wait (attempt : Z) (resp : option Response) : go W (option error) :=
  d ← retryDelay attempt resp;
  cancelled ← does (Wait d);
  mret (wrap_pre "retry: " <$> cancelled).

Section round_trip.
Context (t : retryTransport).

Definition exceeded_status (resp : Response) : error :=
  EFmt (PWrap ErrRetriesExceeded (PText (" after " +:+ itoa (maxAttempts t) +:+
    " attempts: last status " +:+ itoa (T.StatusCode resp)) PNil)).
Definition exceeded_error (lastErr : option error) : error :=
  EFmt (PWrap ErrRetriesExceeded (PText (" after " +:+ itoa (maxAttempts t) +:+ " attempts: ")
    match lastErr with Some e => PWrap e PNil | None => PText "%!w(<nil>)" PNil end)).

(** The end of [RoundTrip], after the loop. *)
Definition exhausted (resp : option Response) (lastErr : option error)
  : option Response * option error :=
  match resp with
  | Some r => (Some r, Some (exceeded_status r))
  | None => (None, Some (exceeded_error lastErr))
  end.

(** Calling a nil predicate panics. *)
Definition asked (code : Z) : go W bool :=
  match shouldRetry t with
  | Some should => mret (should code)
  | None => λ w, (Panicked "nil pointer dereference", w)
  end.

Fixpoint RoundTrip_loop (left : nat) (attempt : Z) (activeReq : Request W)
    (resp : option Response) (lastErr : option error) : go W (option Response * option error) :=
  match left with
  | O => mret (exhausted resp lastErr)
  | S left' =>
      pre ← prepare attempt activeReq;
      match pre with
      | inl err => mret (None, Some err)
      | inr activeReq =>
          r ← base t activeReq;
          match r.2 with
          | Some err =>
              if retry.IsPermanent (Some err)
              then mret (None, Some (wrap_pre "retry permanent error: " err))
              else if attempt <? maxAttempts t - 1 then
                waitErr ← wait attempt None;
                match waitErr with
                | Some we => mret (None, Some we)
                | None => RoundTrip_loop left' (attempt + 1) activeReq r.1 (Some err)
                end
              else RoundTrip_loop left' (attempt + 1) activeReq r.1 (Some err)
          | None =>
              match r.1 with
              | None => λ w, (Panicked "nil pointer dereference", w)
              | Some rs =>
                  again ← asked (T.StatusCode rs);
                  if negb again then mret (Some rs, None)
                  else if attempt =? maxAttempts t - 1 then mret (exhausted (Some rs) None)
                  else
                    _ ← drainBody (Some rs);
                    waitErr ← wait attempt (Some rs);
                    match waitErr with
                    | Some we => mret (None, Some we)
                    | None => RoundTrip_loop left' (attempt + 1) activeReq (Some rs) None
                    end
              end
          end
      end
  end.

Definition RoundTrip : RoundTripper W := λ req,
  RoundTrip_loop (Z.to_nat (maxAttempts t)) 0 req None None.
End round_trip.

(** ** Comparison with [platform/retry] *)

(** Two results that differ in nothing but the module of a sentinel, or the text
    around a permanent error. *)
Inductive same_result : option Response * option error → option Response * option error → Prop :=
| same_equal r : same_result r r
| same_permanent e : retry.IsPermanent (Some e) = true →
    same_result (None, Some (wrap_pre "retry permanent error: " e))
                (None, Some (wrap_pre "retry: permanent error: " e))
| same_body : same_result (None, Some ErrNonRewindableBody) (None, Some T.ErrNonRewindableBody)
| same_exceeded resp ps :
    same_result (resp, Some (EFmt (PWrap ErrRetriesExceeded ps))) (resp, Some (EFmt (PWrap T.ErrRetriesExceeded ps))).

Definition same_run (x1 x2 : outcome (option Response * option error) * W) : Prop :=
  x1.2 = x2.2 ∧
  match x1.1, x2.1 with
  | Returned r1, Returned r2 => same_result r1 r2
  | Panicked p1, Panicked p2 => p1 = p2
  | _, _ => False
  end.

Lemma same_run_refl x : same_run x x.
Proof. split; [done|]. destruct x.1; [apply same_equal|done]. Qed.

Lemma exhausted_same b max should resp lastErr w :
  same_run (Returned (exhausted (mkTransport b max (Some should)) resp lastErr), w)
    (Returned (T.exhausted (T.mkTransport b max should) resp lastErr), w).
Proof. split; [done|]. destruct resp; apply same_exceeded. Qed.

Lemma prepare_same attempt (req : Request W) w :
  prepare attempt req w = T.prepare attempt req w ∨
  prepare attempt req w = (Returned (inl ErrNonRewindableBody), w) ∧
  T.prepare attempt req w = (Returned (inl T.ErrNonRewindableBody), w).
Proof.
  unfold prepare, T.prepare. destruct (0 <? attempt); [|by left].
  destruct (T.non_rewindable req); [by right|by left].
Qed.

Lemma wait_same attempt resp w :
  wait attempt resp w = T.wait ParseTime Rand Wait Now attempt resp w.
Proof.
  unfold wait, T.wait. cbv [mbind go_bind].
  assert (∀ w, retryDelay attempt resp w = T.retryDelay ParseTime Rand Now attempt resp w) as H; [|by rewrite H].
  clear w. intros w. unfold retryDelay, T.retryDelay. destruct resp as [r|]; [|apply retry.draw_same].
  destruct (_ || _); [|apply retry.draw_same]. cbv [mbind go_bind]. destruct (does Now w) as [[now|p] w1]; [|done].
  change (RetryAfterDelay ParseTime) with (T.RetryAfterDelay ParseTime).
  destruct (T.RetryAfterDelay _ _ _); [done|apply retry.draw_same].
Qed.

Lemma transport_loop_same (should : Z → bool) b max left attempt req resp lastErr w :
  same_run (RoundTrip_loop (mkTransport b max (Some should)) left attempt req resp lastErr w)
    (T.RoundTrip_loop ParseTime Rand Wait Now Drain (T.mkTransport b max should) left attempt req resp lastErr w).
Proof.
  revert attempt req resp lastErr w. induction left as [|left IH]; intros attempt req resp lastErr w;
    [apply exhausted_same|]. simpl. cbv [mbind go_bind].
  destruct (prepare_same attempt req w) as [->|[-> ->]]; [|split; [done|apply same_body]].
  destruct (T.prepare attempt req w) as [[[e|req']|p] w1]; [by apply same_run_refl| |by apply same_run_refl].
  destruct (b req' w1) as [[[rs oe]|p] w2]; [|by apply same_run_refl]. simpl. destruct oe as [err|].
  - destruct (match as_permanent err with Some p => p | None => false end) eqn:Ep.
    { split; [done|]. by apply same_permanent. }
    destruct (_ <? _); [|apply IH]. rewrite wait_same.
    destruct (T.wait ParseTime Rand Wait Now attempt None w2) as [[[we|]|p] w3];
      [by apply same_run_refl|apply IH|by apply same_run_refl].
  - destruct rs as [rs|]; [|by apply same_run_refl]. unfold asked. simpl. cbv [mret go_ret].
    destruct (negb _); [by apply same_run_refl|]. destruct (_ =? _); [split; [done|apply same_exceeded]|].
    change (drainBody (Some rs)) with (T.drainBody Drain (Some rs)). simpl.
    destruct ((match T.resp_Body rs with Some b => does (Drain b) | None => mret tt end : go W unit) w2)
      as [[u|p] w3] eqn:Ed; unfold mret, go_ret in *; rewrite Ed; [|by apply same_run_refl].
    rewrite wait_same.
    destruct (T.wait ParseTime Rand Wait Now attempt (Some rs) w3) as [[[we|]|p] w4];
      [by apply same_run_refl|apply IH|by apply same_run_refl].
Qed.

(** C39: The two modules behave alike. For all arguments [Do] and [DoVal] of the older one
    do, step by step, what the newer ones do, and so does its transport when it is
    given a predicate: the same requests, waits and drained bodies, and the same
    result but for the text around a permanent error and the variables of its
    sentinels. Where the newer transport gives platform/retry's
    ErrNonRewindableBody, or wraps its ErrRetriesExceeded, the older one has its
    own: the text is the same, but errors.Is tells them apart. With a nil
    predicate, which the newer module replaces by one that retries nothing, a
    response makes it panic. *)
Theorem older_module_agrees {A} (zero : A) (fn : go W (A * option error)) (fn0 : go W (option error))
    (max : Z) (D : RoundTripper W) (b : option (RoundTripper W)) (req : Request W) (w : W) :
  retry.DoVal zero Rand Wait max fn w = Retry.retry.DoVal zero Rand Wait max fn w ∧
  retry.Do Rand Wait max fn0 w = Retry.retry.Do Rand Wait max fn0 w ∧
  (∀ should, same_run (RoundTrip (Transport D max (Some should) b) req w)
     (T.RoundTrip ParseTime Rand Wait Now Drain (T.Transport D max (Some should) b) req w)) ∧
  (error_text ErrNonRewindableBody = error_text T.ErrNonRewindableBody ∧
   error_text ErrRetriesExceeded = error_text T.ErrRetriesExceeded ∧
   is_err "retry.ErrNonRewindableBody" ErrNonRewindableBody = false ∧
   is_err "retry.ErrRetriesExceeded" ErrRetriesExceeded = false) ∧
  (∀ rs w', default D b req w = (Returned (Some rs, None), w') →
     RoundTrip (Transport D max None b) req w = (Panicked "nil pointer dereference", w') ∧
     T.RoundTrip ParseTime Rand Wait Now Drain (T.Transport D max None b) req w =
       (Returned (Some rs, None), w')).
Proof.
  assert (∀ B (z : B) f w, retry.DoVal z Rand Wait max f w = Retry.retry.DoVal z Rand Wait max f w) as Hd
    by (intros; apply retry.loop_same).
  split; [apply Hd|]. split.
  { unfold retry.Do, Retry.retry.Do. cbv [mbind go_bind]. by rewrite Hd. }
  split; [intros should; apply transport_loop_same|]. split; [done|].
  intros rs w' E. unfold RoundTrip, T.RoundTrip, Transport, T.Transport. simpl.
  assert (∃ n, Z.to_nat (if max <? 1 then 1 else max) = S n) as [n ->].
  { destruct (Z.ltb_spec max 1); [by exists 0%nat|]. exists (Z.to_nat (max - 1)). lia. }
  simpl. cbv [mbind go_bind prepare T.prepare mret go_ret]. simpl.
  replace (match b with Some b => b | None => D end) with (default D b) by done. by rewrite E.
Qed.
End transport.

Lemma older_module_agrees_witness :
  let run older := older (mkRequest None None : Request T.World) (T.mkWorld [] 0 [200]) in
  run (RoundTrip T.no_date T.rand0 T.wait0 T.now0 T.drain0 (Transport T.server 3 None None)) =
    (Panicked "nil pointer dereference", (T.server (mkRequest None None) (T.mkWorld [] 0 [200])).2) ∧
  is_Some (match (run (T.RoundTrip T.no_date T.rand0 T.wait0 T.now0 T.drain0 (T.Transport T.server 3 None None))).1 with
           | Returned r => r.1 | Panicked _ => None end).
Proof.
  intros run. subst run. cbv beta.
  destruct (older_module_agrees T.no_date T.rand0 T.wait0 T.now0 T.drain0 tt (mret (tt, None)) (mret None) 3 T.server None
              (mkRequest None None) (T.mkWorld [] 0 [200])) as (_ & _ & _ & _ & H).
  destruct (H _ _ eq_refl) as [-> E]. split; [reflexivity|]. rewrite E. by eexists.
Defined.

(** A nil predicate and a server that answers 200: the older transport panics. *)
Example nil_predicate_panics :
  (RoundTrip T.no_date T.rand0 T.wait0 T.now0 T.drain0 (Transport T.server 3 None None)
     (mkRequest None None) (T.mkWorld [] 0 [200])).1 = Panicked "nil pointer dereference".
Proof. vm_compute. reflexivity. Qed.

End transport.
