(* ===== verification/Gcp.v ===== *)
(** * retry/gcp: retries with the classification of Google Cloud errors

    Models [src/go/retry/gcp/gcp.go]. The error types of the Google API, gRPC,
    OAuth2 and [net] packages are not part of this repository: what the code
    asks of an error about them is the record [Views]. The log lines are not
    modelled. *)

From S2P Require Import Prelude GoStrings GoErr GoMonad Apierr Retry Transport.

Module gcp.
Import retry.

Definition defaultMaxAttempts : Z := 10.
Definition defaultBaseDelay : Z := 100 * Millisecond.
Definition defaultMaxCap : Z := 5 * Second.
Definition maxAttemptShift : Z := 30.
Definition jitterDivisor : Z := 5.

(** The fields of [*googleapi.Error] that are read; [Header] is what
    [Header.Get] answers for Retry-After, [None] when there is no header. *)
Record APIError := mkAPIError { Code : Z; Reasons : list string; Header : option string }.

(** [*status.Status]: [Err] is nil when the code is OK. *)
Record Status := mkStatus { grpc_Code : Z; Err : option error }.

(** [*oauth2.RetrieveError]; the status is that of its response, when it has one. *)
Record RetrieveError := mkRetrieveError { Response : option Z; ErrorCode : string }.

(** What the code asks about an error: the [errors.AsType] tests, with the fields
    or the answers it then reads. [as_api] gives the [*googleapi.Error] found,
    with that error itself. *)
Record Views := mkViews {
  as_api : error → option (APIError * error);
  from_status : error → option Status;          (** [status.FromError] *)
  as_oauth : error → option RetrieveError;
  as_net : error → option bool;                 (** [net.Error] and its [Timeout] *)
  as_op : error → option (bool * bool);         (** [*net.OpError]: Timeout, Temporary *)
  as_dns : error → option bool;                 (** [*net.DNSError]: Temporary *)
  as_tls_verification : error → bool;
  as_tls_alert : error → bool;
  as_tls_record_header : error → bool;
  as_x509_unknown_authority : error → bool;
  as_x509_hostname : error → bool;
  as_x509_certificate_invalid : error → bool
}.

Section with_views.
Context (V : Views).

Definition isTLSError (err : error) : bool :=
  as_tls_verification V err || as_tls_alert V err || as_tls_record_header V err ||
  as_x509_unknown_authority V err || as_x509_hostname V err || as_x509_certificate_invalid V err.

Definition transient_errnos : list string :=
  ["syscall.ECONNREFUSED"; "syscall.ECONNRESET"; "syscall.ECONNABORTED"; "syscall.EPIPE";
   "syscall.ETIMEDOUT"; "syscall.EHOSTUNREACH"; "syscall.ENETUNREACH"].

Definition isTransientNetError (err : error) (timeout : bool) : bool :=
  if timeout then true
  else if match as_op V err with Some (t, tmp) => t || tmp | None => false end then true
  else if match as_dns V err with Some tmp => tmp | None => false end then true
  else if is_err "io.EOF" err || is_err "io.ErrUnexpectedEOF" err || is_err "net.ErrClosed" err
  then true
  else existsb (λ errno, is_err errno err) transient_errnos.

Definition classifyNetError (err : error) (timeout : bool) : option error :=
  if isTLSError err then Permanent (Some err)
  else if isTransientNetError err timeout then Some err
  else Permanent (Some err).

Definition isPermanentOAuthErrorCode (code : string) : bool :=
  bool_decide (code ∈ ["invalid_request"; "invalid_client"; "invalid_grant";
    "unauthorized_client"; "unsupported_grant_type"; "invalid_scope"]).

Definition classifyOAuthRetrieveError (err : error) (rErr : RetrieveError) : option error :=
  let statusCode := default 0 (Response rErr) in
  if isPermanentOAuthErrorCode (ErrorCode rErr) then Permanent (Some err)
  else if apierr.RetryableStatus statusCode then Some err
  else Permanent (Some err).

Definition classifyByErrorString (err : error) : option error :=
  let errStr := error_text err in
  if contains "impersonate:" errStr || contains "unauthorized_client" errStr ||
     contains "invalid_grant" errStr
  then Permanent (Some err)
  else if contains "oauth2: cannot fetch token" errStr then
    if contains "timeout" errStr || contains "connection refused" errStr ||
       contains "connection reset" errStr
    then Some err
    else Permanent (Some err)
  else Permanent (Some err).

Definition StatusForbidden : Z := 403.
Definition quota_reason (r : string) : bool :=
  bool_decide (r ∈ ["rateLimitExceeded"; "userRateLimitExceeded"; "quotaExceeded"]).

Definition classifyAPIError (api : APIError) (apiErr : error) : option error :=
  let isRetryable :=
    if apierr.RetryableStatus (Code api) then true
    else if Code api =? StatusForbidden then existsb quota_reason (Reasons api)
    else false in
  if isRetryable then Some apiErr else Permanent (Some apiErr).

Definition classifyGRPCError (s : Status) : option error :=
  if apierr.RetryableGRPCCode (grpc_Code s) then Err s else Permanent (Err s).

(** [ctxErr] is [ctx.Err()] at the time of the call. *)
Definition Classify (ctxErr : option error) (err : option error) : option error :=
  match err with
  | None => None
  | Some e =>
      match ctxErr with
      | Some ce => Permanent (Some ce)
      | None =>
          if is_err "context.Canceled" e then Permanent (Some e)
          else match as_api V e with
          | Some (api, apiErr) => classifyAPIError api apiErr
          | None =>
              match from_status V e with
              | Some s => classifyGRPCError s
              | None =>
                  match as_oauth V e with
                  | Some rErr => classifyOAuthRetrieveError e rErr
                  | None =>
                      match as_net V e with
                      | Some timeout => classifyNetError e timeout
                      | None =>
                          if is_err "io.EOF" e then Some e
                          else if is_err "io.ErrUnexpectedEOF" e then Some e
                          else classifyByErrorString e
                      end
                  end
              end
          end
      end
  end.

Section with_world.
Context {W T : Type} (zero : T).
(** [CtxErr] is [ctx.Err()]; [Rand], [Wait], [Now] and [ParseTime] as for the
    transport. *)
Context (CtxErr : W → option error) (Rand : Z → W → Z * W) (Wait : Z → W → option error * W).
Context (Now : W → Z * W) (ParseTime : string → option Z).

Record config := mkConfig {
  maxAttempts : Z;
  initialBackoff : Z;
  maxBackoff : Z;
  onRetry : option (Z → Z → option error → go W unit)
}.

Definition WithMaxAttempts (attempts : Z) (c : config) : config :=
  if 0 <? attempts
  then mkConfig attempts (initialBackoff c) (maxBackoff c) (onRetry c) else c.
Definition WithInitialBackoff (d : Z) (c : config) : config :=
  if 0 <? d then mkConfig (maxAttempts c) d (maxBackoff c) (onRetry c) else c.
Definition WithMaxBackoff (d : Z) (c : config) : config :=
  if 0 <? d then mkConfig (maxAttempts c) (initialBackoff c) d (onRetry c) else c.
Definition WithOnRetry (fn : option (Z → Z → option error → go W unit)) (c : config) : config :=
  mkConfig (maxAttempts c) (initialBackoff c) (maxBackoff c) fn.

(** The exported options, as data: an option is one of these four. *)
Inductive Option :=
| OMaxAttempts (n : Z) | OInitialBackoff (d : Z) | OMaxBackoff (d : Z)
| OOnRetry (fn : option (Z → Z → option error → go W unit)).

Definition apply_option (c : config) (o : Option) : config :=
  match o with
  | OMaxAttempts n => WithMaxAttempts n c
  | OInitialBackoff d => WithInitialBackoff d c
  | OMaxBackoff d => WithMaxBackoff d c
  | OOnRetry fn => WithOnRetry fn c
  end.

Definition configure (opts : list Option) : config :=
  fold_left apply_option opts (mkConfig defaultMaxAttempts 0 0 None).

(** [parseRetryAfter] is, line for line, the transport's [RetryAfterDelay]. *)
Definition parseRetryAfter (header : string) (now : Z) : option Z :=
  transport.RetryAfterDelay ParseTime header now.

(** The delay before jitter with the caller's base and cap. *)
Definition base_delay (cfg : config) (attempt : Z) : Z :=
  let base := if initialBackoff cfg <=? 0 then defaultBaseDelay else initialBackoff cfg in
  let maxCap := if maxBackoff cfg <=? 0 then defaultMaxCap else maxBackoff cfg in
  let shift := Z.min (Z.max attempt 0) maxAttemptShift in
  Z.min (wrap64 (wrap64 (Z.shiftl 1 shift) * base)) maxCap.

Definition schedule (cfg : config) (attempt : Z) : go W Z :=
  if (0 <? initialBackoff cfg) || (0 <? maxBackoff cfg) then
    let b := base_delay cfg attempt in
    jit ← (if 0 <? Z.quot b jitterDivisor then does (Rand (Z.quot b jitterDivisor)) else mret 0);
    mret (wrap64 (b + jit))
  else
    let ceiling := Z.quot (BackoffWithConfig_v1 (λ _, 0) attempt backoffBase retry.maxBackoff)
                     jitterFraction in
    r ← does (Rand ceiling);
    mret (BackoffWithConfig_v1 (λ _, r) attempt backoffBase retry.maxBackoff).

(** What a Retry-After header of an API error does to the delay. *)
Definition paced (err : option error) (cfg : config) (now delay : Z) : Z :=
  match err ≫= as_api V with
  | Some (api, _) =>
      match Header api with
      | Some h =>
          match parseRetryAfter h now with
          | Some headerDelay =>
              let delay := Z.max delay headerDelay in
              if 0 <? maxBackoff cfg then Z.min delay (maxBackoff cfg) else delay
          | None => delay
          end
      | None => delay
      end
  | None => delay
  end.

Definition calculateDelay (err : option error) (attempt : Z) (cfg : config) (now : Z) : go W Z :=
  delay ← schedule cfg attempt;
  mret (paced err cfg now delay).

Definition gcp_failed (e : error) : error := wrap_pre "gcp operation failed: " e.
Definition gcp_failed_after (attempt : Z) (e : option error) : error :=
  EFmt (PText ("gcp operation failed after " +:+ itoa attempt +:+ " attempts: ")
    match e with Some e => PWrap e PNil | None => PText "%!w(<nil>)" PNil end).

Context (operation : go W (T * option error)).

(** The loop [for { ... }]: [None] when the fuel ran out. *)
Fixpoint retry_loop (cfg : config) (fuel : nat) (attempt : Z) : go W (option (T * option error)) :=
  match fuel with
  | O => mret None
  | S fuel' =>
      ctxErr ← reads CtxErr;
      match (ctxErr : option error) with
      | Some err => mret (Some (zero, Some (gcp_failed err)))
      | None =>
          let attempt := attempt + 1 in
          r ← operation;
          match r.2 with
          | None => mret (Some (r.1, None))
          | Some opErr =>
              ctxErr ← reads CtxErr;
              let classifiedErr := Classify ctxErr (Some opErr) in
              if IsPermanent classifiedErr
              then mret (Some (zero, Some (gcp_failed_after attempt classifiedErr)))
              else if maxAttempts cfg <=? attempt
              then mret (Some (zero, Some (gcp_failed_after attempt classifiedErr)))
              else
                now ← does Now;
                delay ← calculateDelay classifiedErr (attempt - 1) cfg now;
                _ ← match onRetry cfg with
                    | Some f => f attempt delay classifiedErr
                    | None => mret tt
                    end;
                cancelled ← does (Wait delay);
                match (cancelled : option error) with
                | Some ce => mret (Some (zero, Some (gcp_failed ce)))
                | None => retry_loop cfg fuel' attempt
                end
          end
      end
  end.

Definition WithRetryVal (fuel : nat) (opts : list Option) : go W (option (T * option error)) :=
  retry_loop (configure opts) fuel 0.

End with_world.
Arguments config : clear implicits.
Arguments Option : clear implicits.

Definition WithRetry {W} CtxErr Rand Wait Now ParseTime (operation : go W (option error))
    (fuel : nat) (opts : list (Option W)) : go W (option (option error)) :=
  r ← WithRetryVal tt CtxErr Rand Wait Now ParseTime (oe ← operation; mret (tt, oe)) fuel opts;
  mret (snd <$> r).

End with_views.
Arguments config : clear implicits.
Arguments Option : clear implicits.

(** ** Specification *)

Section spec.
Context (V : Views).

(** The errors that are worth a retry: the first of the typed views that applies
    decides, the text of the error only when none does. *)
Definition transient_api (api : APIError) : Prop :=
  apierr.RetryableStatus (Code api) = true ∨
  Code api = 403 ∧ ∃ r, r ∈ Reasons api ∧ quota_reason r = true.
Definition transient_oauth (r : RetrieveError) : Prop :=
  isPermanentOAuthErrorCode (ErrorCode r) = false ∧
  ∃ code, Response r = Some code ∧ apierr.RetryableStatus code = true.
Definition transient_text (e : error) : Prop :=
  let t := error_text e in
  contains "impersonate:" t = false ∧ contains "unauthorized_client" t = false ∧
  contains "invalid_grant" t = false ∧ contains "oauth2: cannot fetch token" t = true ∧
  (contains "timeout" t = true ∨ contains "connection refused" t = true ∨
   contains "connection reset" t = true).
Definition disconnected (e : error) : Prop :=
  is_err "io.EOF" e = true ∨ is_err "io.ErrUnexpectedEOF" e = true.

Definition transient (e : error) : Prop :=
  is_err "context.Canceled" e = false ∧
  match as_api V e, from_status V e, as_oauth V e, as_net V e with
  | Some (api, _), _, _, _ => transient_api api
  | None, Some s, _, _ => apierr.RetryableGRPCCode (grpc_Code s) = true
  | None, None, Some r, _ => transient_oauth r
  | None, None, None, Some timeout =>
      isTLSError V e = false ∧ isTransientNetError V e timeout = true
  | None, None, None, None => disconnected e ∨ transient_text e
  end.

(** What the code relies on: an error found inside another is not itself marked
    permanent, and a status with a code other than OK has an error. *)
Record Views_ok : Prop := {
  api_unmarked : ∀ e api a, as_api V e = Some (api, a) → as_permanent a = None;
  status_unmarked : ∀ e s a, from_status V e = Some s → Err s = Some a → as_permanent a = None;
  status_error : ∀ e s, from_status V e = Some s → Err s = None → grpc_Code s = 0
}.

(** ** Lemmas *)

Lemma permanent_is_permanent e : IsPermanent (Permanent (Some e)) = true.
Proof. done. Qed.

Lemma unmarked_not_permanent e : as_permanent e = None → IsPermanent (Some e) = false.
Proof. unfold IsPermanent. by intros ->. Qed.

Lemma classify_api_spec api a :
  as_permanent a = None →
  IsPermanent (classifyAPIError api a) = false ↔ transient_api api.
Proof.
  intros Ha. unfold classifyAPIError, transient_api, StatusForbidden.
  destruct (apierr.RetryableStatus (Code api)).
  { rewrite unmarked_not_permanent by done. tauto. }
  destruct (Z.eqb_spec (Code api) 403) as [E|E].
  - destruct (existsb quota_reason (Reasons api)) eqn:Ex.
    + rewrite unmarked_not_permanent by done. apply existsb_exists in Ex as (r & Hr & Hq).
      split; [|done]. intros _. right. split; [done|]. exists r. by rewrite list_elem_of_In.
    + rewrite permanent_is_permanent. split; [done|]. intros [?|(_ & r & Hr & Hq)]; [done|].
      rewrite list_elem_of_In in Hr. exfalso.
      rewrite (proj2 (existsb_exists quota_reason (Reasons api))) in Ex; [done|by exists r].
  - rewrite permanent_is_permanent. split; [done|]. intros [?|[??]]; done.
Qed.

Lemma classify_oauth_spec e r :
  as_permanent e = None →
  IsPermanent (classifyOAuthRetrieveError e r) = false ↔ transient_oauth r.
Proof.
  intros He. unfold classifyOAuthRetrieveError, transient_oauth.
  destruct (isPermanentOAuthErrorCode _); [rewrite permanent_is_permanent; naive_solver|].
  destruct (Response r) as [code|]; [change (default 0 (Some code)) with code|].
  - destruct (apierr.RetryableStatus code) eqn:E.
    + rewrite unmarked_not_permanent by done. split; [|done]. intros _. split; [done|]. by exists code.
    + rewrite permanent_is_permanent. naive_solver.
  - split; [discriminate|]. naive_solver.
Qed.

Lemma classify_text_spec e :
  as_permanent e = None →
  IsPermanent (classifyByErrorString e) = false ↔ transient_text e.
Proof.
  intros He. unfold classifyByErrorString, transient_text.
  pose proof (unmarked_not_permanent e He) as Hu. pose proof (permanent_is_permanent e) as Hp.
  repeat match goal with |- context [contains ?p ?t] => destruct (contains p t) end;
    simpl orb; cbv iota; rewrite ?Hu, ?Hp; naive_solver.
Qed.

Lemma classify_net_spec e timeout :
  as_permanent e = None →
  IsPermanent (classifyNetError V e timeout) = false ↔
  isTLSError V e = false ∧ isTransientNetError V e timeout = true.
Proof.
  intros He. unfold classifyNetError.
  pose proof (unmarked_not_permanent e He) as Hu. pose proof (permanent_is_permanent e) as Hp.
  destruct (isTLSError V e), (isTransientNetError V e timeout); rewrite ?Hu, ?Hp; naive_solver.
Qed.

Lemma classify_grpc_spec e s :
  Views_ok → from_status V e = Some s → grpc_Code s ≠ 0 →
  IsPermanent (classifyGRPCError s) = false ↔ apierr.RetryableGRPCCode (grpc_Code s) = true.
Proof.
  intros Hv Hs Hc. unfold classifyGRPCError.
  destruct (Err s) as [a|] eqn:Ee; [|by apply (status_error Hv e) in Ee].
  pose proof (unmarked_not_permanent a (status_unmarked Hv e s a Hs Ee)) as Hu.
  destruct (apierr.RetryableGRPCCode _); [by rewrite Hu|].
  rewrite permanent_is_permanent. done.
Qed.

(** ** Properties *)

(** Classify lets exactly the transient errors through: while the context is
    live, an error that no retry.Permanent marks and that carries no gRPC status
    OK is retried if and only if it is transient, where the first typed view of
    the error decides (API, gRPC, OAuth2, network, end of file) and the text
    only when none applies. Once the context is done, or for a nil error, the
    error itself plays no role: the context's error comes back, permanent. *)
Theorem classify_exact (e : error) (ce : error) :
  Views_ok → as_permanent e = None →
  (∀ s, from_status V e = Some s → grpc_Code s ≠ 0) →
  (IsPermanent (Classify V None (Some e)) = false ↔ transient e) ∧
  IsPermanent (Classify V (Some ce) (Some e)) = true ∧
  Classify V (Some ce) (Some e) = Some (EPermanent ce) ∧
  Classify V None None = None.
Proof.
  intros Hv He Hs. split; [|done]. unfold transient, Classify.
  pose proof (unmarked_not_permanent e He) as Hu.
  destruct (is_err "context.Canceled" e); [rewrite permanent_is_permanent; naive_solver|].
  destruct (as_api V e) as [[api a]|] eqn:Ea.
  { rewrite classify_api_spec by (by apply (api_unmarked Hv e api)). naive_solver. }
  destruct (from_status V e) as [s|] eqn:Es.
  { rewrite (classify_grpc_spec e) by (try done; by apply Hs). naive_solver. }
  destruct (as_oauth V e) as [r|]; [rewrite classify_oauth_spec by done; naive_solver|].
  destruct (as_net V e) as [b|]; [rewrite classify_net_spec by done; naive_solver|].
  unfold disconnected. destruct (is_err "io.EOF" e); [rewrite Hu; naive_solver|].
  destruct (is_err "io.ErrUnexpectedEOF" e); [rewrite Hu; naive_solver|].
  rewrite classify_text_spec by done. naive_solver.
Qed.

(** An operation's own retry.Permanent mark does not reach the decision when
    the marked error is an API error of a retryable status: Classify unwraps it
    and answers the bare API error, which is retried. *)
Theorem classify_drops_permanent_mark (e a : error) (api : APIError) :
  as_api V (EPermanent e) = Some (api, a) → as_permanent a = None →
  is_err "context.Canceled" e = false → apierr.RetryableStatus (Code api) = true →
  IsPermanent (Permanent (Some e)) = true ∧
  Classify V None (Permanent (Some e)) = Some a ∧ IsPermanent (Some a) = false.
Proof.
  intros Ha Hp Hc Hr. split; [done|]. split; [|by apply unmarked_not_permanent].
  unfold Classify, Permanent. simpl is_err. rewrite Hc, Ha. unfold classifyAPIError. by rewrite Hr.
Qed.

End spec.

(** ** The retry loop *)

Section loop_spec.
Context (V : Views) {W T : Type} (zero : T).
Context (CtxErr : W → option error) (Rand : Z → W → Z * W) (Wait : Z → W → option error * W).
Context (Now : W → Z * W) (ParseTime : string → option Z).
Context (operation : go W (T * option error)).

Abbreviation calculateDelay := (calculateDelay V Rand ParseTime).
Abbreviation retry_loop := (retry_loop V zero CtxErr Rand Wait Now ParseTime operation).
Abbreviation WithRetryVal := (WithRetryVal V zero CtxErr Rand Wait Now ParseTime operation).

Definition callback (cfg : config W) (n delay : Z) (e : option error) : go W unit :=
  match onRetry cfg with Some f => f n delay e | None => mret tt end.

(** [retried cfg a w n w']: from attempt [a] to attempt [n], every call was made
    with a live context, failed with an error to retry, and was followed by the
    callback and by a full wait of the computed delay. *)
Inductive retried (cfg : config W) : Z → W → Z → W → Prop :=
| retried_none a w : retried cfg a w a w
| retried_more a w v err w1 delay w3 w4 w5 n w' :
    CtxErr w = None → operation w = (Returned (v, Some err), w1) →
    let c := Classify V (CtxErr w1) (Some err) in
    IsPermanent c = false → a + 1 < maxAttempts cfg →
    calculateDelay c a cfg (Now w1).1 (Now w1).2 = (Returned delay, w3) →
    callback cfg (a + 1) delay c w3 = (Returned tt, w4) → Wait delay w4 = (None, w5) →
    retried cfg (a + 1) w5 n w' → retried cfg a w n w'.

(** How the loop ends after [n] attempts. *)
Inductive finishes (cfg : config W) (n : Z) (w : W) : T * option error → W → Prop :=
| fin_cancelled err : CtxErr w = Some err → finishes cfg n w (zero, Some (gcp_failed err)) w
| fin_success v w1 :
    CtxErr w = None → operation w = (Returned (v, None), w1) → finishes cfg n w (v, None) w1
| fin_failed v err w1 :
    CtxErr w = None → operation w = (Returned (v, Some err), w1) →
    let c := Classify V (CtxErr w1) (Some err) in
    IsPermanent c = true ∨ maxAttempts cfg = n + 1 →
    finishes cfg n w (zero, Some (gcp_failed_after (n + 1) c)) w1
| fin_wait v err w1 delay w3 w4 ce w' :
    CtxErr w = None → operation w = (Returned (v, Some err), w1) →
    let c := Classify V (CtxErr w1) (Some err) in
    IsPermanent c = false → n + 1 < maxAttempts cfg →
    calculateDelay c n cfg (Now w1).1 (Now w1).2 = (Returned delay, w3) →
    callback cfg (n + 1) delay c w3 = (Returned tt, w4) → Wait delay w4 = (Some ce, w') →
    finishes cfg n w (zero, Some (gcp_failed ce)) w'.

Lemma retry_loop_spec cfg fuel a w o w' :
  retry_loop cfg fuel a w = (Returned o, w') → 0 ≤ a < maxAttempts cfg →
  maxAttempts cfg ≤ a + Z.of_nat fuel →
  ∃ r n w1, o = Some r ∧ retried cfg a w n w1 ∧ a ≤ n < maxAttempts cfg ∧ finishes cfg n w1 r w'.
Proof.
  revert a w. induction fuel as [|fuel IH]; intros a w H Ha Hf; [lia|]. cbn [gcp.retry_loop] in H.
  apply bind_returned in H as (c0 & w0 & E & H). cbv [reads] in E. simplify_eq.
  destruct (CtxErr w0) as [err|] eqn:Ec.
  { go_inv. eexists _, a, w'. split_and!; [done|constructor|lia|lia|by constructor]. }
  apply bind_returned in H as ([v oe] & w1 & Eo & H). cbn [fst snd] in H. destruct oe as [err|].
  2: { go_inv. eexists _, a, w0. split_and!; [done|constructor|lia|lia|by eapply fin_success]. }
  apply bind_returned in H as (c1 & w2 & E & H). cbv [reads] in E. simplify_eq.
  set (c := Classify V (CtxErr w2) (Some err)) in *.
  destruct (IsPermanent c) eqn:Ep.
  { go_inv. eexists _, a, w0. split_and!; [done|constructor|lia|lia|].
    eapply fin_failed; eauto. }
  destruct (Z.leb_spec (maxAttempts cfg) (a + 1)).
  { go_inv. eexists _, a, w0. split_and!; [done|constructor|lia|lia|].
    eapply fin_failed; eauto. right. lia. }
  apply bind_returned in H as (now & w3 & En & H). unfold does in En.
  destruct (Now w2) as [now' w3'] eqn:Enow. simplify_eq.
  apply bind_returned in H as (delay & w4 & Ed & H). replace (a + 1 - 1) with a in Ed by lia.
  apply bind_returned in H as ([] & w5 & Ecb & H).
  apply bind_returned in H as (oc & w6 & Ew & H). unfold does in Ew.
  destruct (Wait delay w5) as [oc' w6'] eqn:Ewait. simplify_eq.
  assert (calculateDelay c a cfg (Now w2).1 (Now w2).2 = (Returned delay, w4)) as Ed'
    by (by rewrite Enow).
  destruct oc as [ce|].
  - go_inv. eexists _, a, w0. split_and!; [done|constructor|lia|lia|]. eapply fin_wait; eauto.
  - apply IH in H as (r & n & w7 & -> & Hr & Hn & Hfin); [|lia|lia].
    exists r, n, w7. split_and!; [done| |lia|lia|done]. eapply retried_more; eauto.
Qed.

Lemma configure_positive (opts : list (Option W)) : 0 < maxAttempts (configure opts).
Proof.
  unfold configure. apply (fold_left_ind (λ _ c, 0 < maxAttempts c)); [done|].
  intros _ [n|d|d|f] c Hc; simpl; [|unfold WithInitialBackoff|unfold WithMaxBackoff|done];
    unfold WithMaxAttempts; case_match; simpl; bool_to_prop; lia.
Qed.

Lemma no_panic_delay e a cfg now : no_panic (calculateDelay e a cfg now).
Proof. unfold gcp.calculateDelay, schedule. no_panic. Qed.

Lemma no_panic_loop cfg fuel a :
  no_panic operation → (∀ f n d e, onRetry cfg = Some f → no_panic (f n d e)) →
  no_panic (retry_loop cfg fuel a).
Proof.
  intros Ho Hc. revert a. induction fuel as [|fuel IH]; intros a; cbn [gcp.retry_loop]; [no_panic|].
  pose proof no_panic_delay. no_panic.
Qed.

(** C37: WithRetryVal runs the operation at most maxAttempts times (ten by
    default; options with values that are not positive change nothing), never
    with a context already done, and between two calls it reports to the
    callback and waits the computed delay. It ends with the value of the first
    success; with the classified error when that is permanent or the attempts
    are used up; or with the context's error. It always ends, when neither the
    operation nor the callback panics: as many loop turns as attempts are
    enough. *)
Theorem with_retry_outcome (opts : list (Option W)) (fuel : nat) w :
  maxAttempts (configure opts) ≤ Z.of_nat fuel →
  (∀ o w', WithRetryVal fuel opts w = (Returned o, w') →
     ∃ r n w1, o = Some r ∧ retried (configure opts) 0 w n w1 ∧
       0 ≤ n < maxAttempts (configure opts) ∧ finishes (configure opts) n w1 r w') ∧
  (no_panic operation → (∀ f n d e, onRetry (configure opts) = Some f → no_panic (f n d e)) →
     ∃ r w', WithRetryVal fuel opts w = (Returned (Some r), w')).
Proof.
  intros Hf. pose proof (configure_positive opts). split.
  - intros o w' E. apply retry_loop_spec in E; [done|lia|lia].
  - intros Ho Hc. destruct (no_panic_loop (configure opts) fuel 0 Ho Hc w) as (o & w' & E).
    exists (default (zero, None) o), w'. unfold gcp.WithRetryVal. rewrite E.
    by apply retry_loop_spec in E as (r & n & w1 & -> & _); [|lia|lia].
Qed.

Definition eff_base (cfg : config W) : Z :=
  if initialBackoff cfg <=? 0 then defaultBaseDelay else initialBackoff cfg.
Definition eff_cap (cfg : config W) : Z :=
  if gcp.maxBackoff cfg <=? 0 then defaultMaxCap else gcp.maxBackoff cfg.

Implicit Type cfg : config W.

(** The header delay that [paced] finds. *)
Definition header_delay (err : option error) (now : Z) : option Z :=
  r ← err ≫= as_api V; h ← Header r.1; parseRetryAfter ParseTime h now.

Definition rand_valid : Prop := ∀ n w, 0 < n → 0 ≤ (Rand n w).1 < n.

Lemma paced_spec err cfg now d :
  paced V ParseTime err cfg now d =
  match header_delay err now with
  | Some hd => if 0 <? gcp.maxBackoff cfg then Z.min (Z.max d hd) (gcp.maxBackoff cfg) else Z.max d hd
  | None => d
  end.
Proof.
  unfold paced, header_delay. destruct (err ≫= as_api V) as [[api x]|]; simpl; [|done].
  destruct (Header api) as [h|]; simpl; [|done]. by destruct (parseRetryAfter ParseTime h now).
Qed.

Lemma eff_positive cfg : 0 < eff_base cfg ∧ 0 < eff_cap cfg.
Proof.
  unfold eff_base, eff_cap, defaultBaseDelay, defaultMaxCap, Millisecond, Second.
  destruct (Z.leb_spec (initialBackoff cfg) 0), (Z.leb_spec (gcp.maxBackoff cfg) 0); lia.
Qed.

Lemma base_delay_ideal cfg a :
  2 ^ 30 * eff_base cfg ≤ max_int64 →
  base_delay cfg a = ideal_backoff a (eff_base cfg) (eff_cap cfg).
Proof.
  intros H. unfold base_delay, ideal_backoff. change maxAttemptShift with retry.maxAttemptShift.
  destruct (shift_pow a) as (-> & Hp & _). destruct (eff_positive cfg) as [Hb _].
  fold (eff_base cfg) (eff_cap cfg).
  rewrite wrap64_id; [done|]. unfold is_int64, min_int64. nia.
Qed.

Lemma schedule_jitter cfg a w d w' :
  rand_valid → 0 < base_delay cfg a → schedule Rand cfg a w = (Returned d, w') →
  ∃ j, d = wrap64 (base_delay cfg a + j) ∧ 0 ≤ j ≤ base_delay cfg a / 5.
Proof.
  intros Hr Hb H. unfold schedule in H.
  assert (Hq : Z.quot (base_delay cfg a) 5 = base_delay cfg a / 5) by (apply Z.quot_div_nonneg; lia).
  change jitterDivisor with 5 in H. rewrite Hq in H.
  assert (0 ≤ base_delay cfg a / 5) by (apply Z.div_pos; lia).
  destruct ((0 <? initialBackoff cfg) || (0 <? gcp.maxBackoff cfg)) eqn:Ec.
  - destruct (Z.ltb_spec 0 (base_delay cfg a / 5)) as [Hpos|].
    + apply bind_returned in H as (j & w1 & E & H). unfold does in E.
      specialize (Hr (base_delay cfg a / 5) w Hpos).
      destruct (Rand (base_delay cfg a / 5) w) as [j' w2]. simplify_eq. go_inv.
      exists j. simpl in Hr. split; [done|lia].
    + go_inv. exists 0. split; [done|lia].
  - apply orb_false_iff in Ec as [H1 H2]. apply Z.ltb_ge in H1, H2.
    assert (∀ r, BackoffWithConfig_v1 (λ _, r) a backoffBase retry.maxBackoff =
      wrap64 (base_delay cfg a + jitter (λ _, r) (base_delay cfg a / 5))) as Er.
    { intros r. unfold BackoffWithConfig_v1. change jitterFraction with 5.
      rewrite <- Hq. unfold base_delay.
      by rewrite (proj2 (Z.leb_le (initialBackoff cfg) 0) H1), (proj2 (Z.leb_le (gcp.maxBackoff cfg) 0) H2). }
    apply bind_returned in H as (r & w1 & E & H). go_inv. rewrite Er in E |- *.
    assert (base_delay cfg a ≤ 5 * Second) as Hle.
    { unfold base_delay. rewrite (proj2 (Z.leb_le (gcp.maxBackoff cfg) 0) H2). apply Z.le_min_r. }
    assert (jitter (λ _, 0) (base_delay cfg a / 5) = 0) as Ej
      by (unfold jitter; by case_match).
    rewrite Ej, Z.add_0_r, wrap64_id in E
      by (unfold is_int64, min_int64, max_int64, Second in *; lia).
    change jitterFraction with 5 in E. rewrite Hq in E. unfold does in E.
    exists (jitter (λ _, r) (base_delay cfg a / 5)). split; [done|]. unfold jitter.
    destruct (Z.leb_spec (base_delay cfg a / 5) 0) as [|Hpos]; [lia|].
    specialize (Hr _ w Hpos). destruct (Rand (base_delay cfg a / 5) w). simplify_eq.
    simpl in Hr. lia.
Qed.

(** The wait between two attempts, when the caller's base and cap leave room
    for their arithmetic in 64 bits: it is positive; without a Retry-After it is
    2^attempt times the base, capped, plus at most a fifth, so it can exceed a
    configured WithMaxBackoff by that fifth; with a Retry-After it is at least
    the header's delay and, when WithMaxBackoff is given, never above it. A base
    of ten seconds at the 31st attempt does not leave that room: the product
    wraps and the wait is negative. *)
Theorem calculate_delay_bounds err a cfg now w d w' :
  rand_valid → 2 ^ 30 * eff_base cfg ≤ max_int64 → eff_cap cfg + eff_cap cfg / 5 ≤ max_int64 →
  calculateDelay err a cfg now w = (Returned d, w') →
  let i := ideal_backoff a (eff_base cfg) (eff_cap cfg) in
  match header_delay err now with
  | None => i ≤ d ≤ i + i / 5 ∧ 0 < d
  | Some hd =>
      0 < d ∧ Z.min i (eff_cap cfg) ≤ d ∧
      (gcp.maxBackoff cfg ≤ 0 → hd ≤ d) ∧
      (0 < gcp.maxBackoff cfg → d ≤ gcp.maxBackoff cfg ∧ Z.min hd (gcp.maxBackoff cfg) ≤ d)
  end ∧
  base_delay (mkConfig 31 (10 * Second) Hour (None : option (Z → Z → option error → go W unit))) 30 < 0.
Proof.
  intros Hr Hb Hc H i. split; [|by vm_compute]. unfold gcp.calculateDelay in H.
  apply bind_returned in H as (d0 & w1 & Es & H). go_inv.
  destruct (eff_positive cfg) as [Hbp Hcp].
  pose proof (ideal_bounds a _ _ Hbp Hcp) as Hi. fold i in Hi.
  pose proof (base_delay_ideal cfg a Hb) as Ei. fold i in Ei.
  apply schedule_jitter in Es as (j & -> & Hj); [|done|lia]. rewrite Ei in *.
  assert (i / 5 ≤ eff_cap cfg / 5) by (apply Z.div_le_mono; lia).
  rewrite wrap64_id by (unfold is_int64, min_int64; lia).
  rewrite paced_spec. destruct (header_delay err now) as [hd|]; [|lia].
  unfold eff_cap in *. destruct (Z.ltb_spec 0 (gcp.maxBackoff cfg)), (Z.leb_spec (gcp.maxBackoff cfg) 0); lia.
Qed.

End loop_spec.

(** ** Witnesses *)

(** Views that know one error type, the API error, found through wrapping: the
    custom errors named after their status. *)
Definition demo_api (code : Z) (header : option string) : error * APIError :=
  (ECustom "googleapi.Error" ("googleapi: Error " +:+ itoa code) None PNil,
   mkAPIError code [] header).

Fixpoint find_api (e : error) : option (APIError * error) :=
  match e with
  | EPermanent e' => find_api e'
  | ECustom _ msg _ _ =>
      if bool_decide (msg = error_text (demo_api 503 None).1)
      then Some ((demo_api 503 (Some "7")).2, (demo_api 503 None).1)
      else if bool_decide (msg = error_text (demo_api 404 None).1)
      then Some ((demo_api 404 None).2, (demo_api 404 None).1)
      else None
  | _ => None
  end.

Definition demo_views : Views :=
  mkViews find_api (λ _, None) (λ _, None) (λ _, None) (λ _, None) (λ _, None)
    (λ _, false) (λ _, false) (λ _, false) (λ _, false) (λ _, false) (λ _, false).

Lemma find_api_unmarked e api a : find_api e = Some (api, a) → as_permanent a = None.
Proof.
  induction e using error_mut with (P0 := λ _, True); simpl; try done; try naive_solver.
  repeat case_match; intros [= <- <-]; done.
Qed.

Lemma demo_views_ok : Views_ok demo_views.
Proof. split; [apply find_api_unmarked|done|done]. Qed.

Definition api503 : error := (demo_api 503 None).1.
Definition api404 : error := (demo_api 404 None).1.

Lemma classify_exact_witness :
  IsPermanent (Classify demo_views None (Some api503)) = false ∧
  Classify demo_views (Some context_Canceled) (Some api503) = Some (EPermanent context_Canceled).
Proof.
  destruct (classify_exact demo_views api503 context_Canceled demo_views_ok eq_refl ltac:(done))
    as (H & _ & H2 & _). split; [|exact H2]. apply H. split; [done|]. vm_compute. by left.
Defined.

Lemma classify_drops_permanent_mark_witness :
  Classify demo_views None (Permanent (Some api503)) = Some api503.
Proof.
  destruct (classify_drops_permanent_mark demo_views api503 api503 (demo_api 503 (Some "7")).2)
    as (_ & H & _); [by vm_compute..|]. exact H.
Defined.

(** An operation that fails with 503 while its world is positive. *)
Definition op503 : go Z (Z * option error) := λ w,
  if 0 <? w then (Returned (0, Some api503), w - 1) else (Returned (42, None), w).
Definition wait_ok (d : Z) (w : Z) : option error * Z := (None, w).
Definition rand_zero (n : Z) (w : Z) : Z * Z := (0, w).
Definition epoch (w : Z) : Z * Z := (0, w).
Definition never (w : Z) : option error := None.

Definition demo_run (fuel : nat) (opts : list (Option Z)) : go Z (option (Z * option error)) :=
  WithRetryVal demo_views (-1) never rand_zero wait_ok epoch transport.no_date op503 fuel opts.

Lemma with_retry_outcome_witness :
  ∃ n, 0 ≤ n < 3 ∧
    (demo_run 3 [OMaxAttempts 3; OMaxAttempts (-1)] 2).1 = Returned (Some (42, None)).
Proof.
  destruct (with_retry_outcome demo_views (-1) never rand_zero wait_ok epoch transport.no_date op503
    [OMaxAttempts 3; OMaxAttempts (-1)] 3 2 ltac:(by vm_compute)) as [H _].
  destruct (H (Some (42, None)) 0 ltac:(by vm_compute)) as (r & n & w1 & _ & _ & Hn & _).
  exists n. split; [exact Hn|by vm_compute].
Defined.

Lemma calculate_delay_bounds_witness :
  ∃ d, calculateDelay demo_views rand_zero transport.no_date (Some api503) 2
         (configure [OMaxBackoff Second] : config Z) 0 0 = (Returned d, 0) ∧ d ≤ Second.
Proof.
  eexists. split; [by vm_compute|].
  pose proof (calculate_delay_bounds demo_views rand_zero transport.no_date (Some api503) 2
    (configure [OMaxBackoff Second] : config Z) 0 0 Second 0) as H.
  simpl in H. destruct H as [(_ & _ & _ & H) _];
    [by intros n w Hn; simpl; lia|by vm_compute|by vm_compute|by vm_compute|].
  apply H. by vm_compute.
Defined.

End gcp.
