(* ===== verification/Calls.v ===== *)
(** * Calls of Google APIs under the retry of retry/gcp

    The packages under [src/go/google] wrap every API call in [gcp.WithRetry] or
    [gcp.WithRetryVal] with no options. A closure that assigns a captured variable
    when its call succeeds is an operation that returns that value. [Env] holds
    what the retry asks of the world; [run_val] and [run] are the calls. *)

From S2P Require Import Prelude GoStrings GoErr GoMonad Apierr Retry Transport Gcp.

Record Env (W : Type) := mkEnv {
  env_views : gcp.Views;
  env_CtxErr : W → option error;
  env_Rand : Z → W → Z * W;
  env_Wait : Z → W → option error * W;
  env_Now : W → Z * W;
  env_ParseTime : string → option Z
}.
Arguments mkEnv {W}.
Arguments env_views {W}.
Arguments env_CtxErr {W}.
Arguments env_Rand {W}.
Arguments env_Wait {W}.
Arguments env_Now {W}.
Arguments env_ParseTime {W}.

(** The default number of attempts, which is fuel enough ([run_val_returns]). *)
Definition call_fuel : nat := 10.

(** Fuel that is spent shows as a panic, which the code does not have. *)
Definition out_of_fuel {W A} : go W A := λ w, (Panicked "out of fuel", w).

Section calls.
Context {W : Type} (env : Env W).

(** [gcp.WithRetryVal(ctx, op)] *)
Definition run_val {T} (zero : T) (op : go W (T * option error)) : go W (T * option error) :=
  r ← gcp.WithRetryVal (env_views env) zero (env_CtxErr env) (env_Rand env) (env_Wait env)
        (env_Now env) (env_ParseTime env) op call_fuel [];
  match r with Some r => mret r | None => out_of_fuel end.

(** [gcp.WithRetry(ctx, op)] *)
Definition run (op : go W (option error)) : go W (option error) :=
  r ← run_val tt (oe ← op; mret (tt, oe)); mret r.2.

(** The world parts that only the retry itself uses keep [P]. *)
Record retry_keeps (P : W → Prop) : Prop := {
  keeps_Rand : ∀ n w, P w → P (env_Rand env n w).2;
  keeps_Wait : ∀ d w, P w → P (env_Wait env d w).2;
  keeps_Now : ∀ w, P w → P (env_Now env w).2
}.

Lemma schedule_keeps P cfg a :
  retry_keeps P → triple P (gcp.schedule (env_Rand env) cfg a) (λ _, P).
Proof.
  intros [Hr _ _]. unfold gcp.schedule. case_match.
  - apply (triple_bind _ _ _ (λ _, P)); [|intros; by apply triple_ret].
    case_match; [apply triple_does; auto|by apply triple_ret].
  - apply (triple_bind _ _ _ (λ _, P)); [apply triple_does; auto|intros; by apply triple_ret].
Qed.

(** When a failing attempt keeps [P] and a successful one gives [Q], the retry
    keeps [P] when it fails and gives [Q] when it succeeds. *)
Lemma run_val_triple {T} (zero : T) (op : go W (T * option error)) (P : W → Prop)
    (Q : T → W → Prop) :
  retry_keeps P →
  triple P op (λ r w, match r.2 with None => Q r.1 w | Some _ => P w end) →
  triple P (run_val zero op) (λ r w, match r.2 with None => Q r.1 w | Some _ => P w end).
Proof.
  intros Hk Hop. unfold run_val, gcp.WithRetryVal.
  eapply (triple_bind _ _ _ (λ o w, match o with
    | Some r => match r.2 with None => Q r.1 w | Some _ => P w end | None => P w end)).
  2:{ intros [r|]; [by apply triple_ret|by intros w a w' _]. }
  generalize 0. induction call_fuel as [|fuel IH]; intros a; cbn [gcp.retry_loop].
  { by apply triple_ret. }
  eapply (triple_bind _ _ _ (λ _, P)); [by apply triple_reads|]. intros [e|]; [by apply triple_ret|].
  eapply triple_bind; [exact Hop|]. intros [v [e|]]; simpl; [|by apply triple_ret].
  eapply (triple_bind _ _ _ (λ _, P)); [by apply triple_reads|]. intros ce.
  match goal with |- triple _ (if ?c then _ else _) _ => destruct c end; [by apply triple_ret|].
  match goal with |- triple _ (if ?c then _ else _) _ => destruct c end; [by apply triple_ret|].
  eapply (triple_bind _ _ _ (λ _, P)); [apply triple_does, (keeps_Now _ Hk)|]. intros now.
  eapply (triple_bind _ _ _ (λ _, P)).
  { unfold gcp.calculateDelay. eapply triple_bind; [by apply schedule_keeps|].
    intros d. by apply triple_ret. }
  intros d. eapply (triple_bind _ _ _ (λ _, P)); [by apply triple_ret|]. intros _.
  eapply (triple_bind _ _ _ (λ _, P)); [apply triple_does, (keeps_Wait _ Hk)|].
  intros [ce'|]; [by apply triple_ret|apply IH].
Qed.

Lemma run_triple (op : go W (option error)) (P Q : W → Prop) :
  retry_keeps P →
  triple P op (λ oe w, match oe with None => Q w | Some _ => P w end) →
  triple P (run op) (λ oe w, match oe with None => Q w | Some _ => P w end).
Proof.
  intros Hk Hop. unfold run. eapply triple_bind.
  - apply (run_val_triple tt _ P (λ _, Q) Hk). eapply triple_bind; [exact Hop|].
    intros oe. by apply triple_ret.
  - intros r. by apply triple_ret.
Qed.

(** A call always returns when its operation does. *)
Lemma run_val_returns {T} (zero : T) (op : go W (T * option error)) :
  no_panic op → no_panic (run_val zero op).
Proof.
  intros Hop w. unfold run_val.
  destruct (gcp.with_retry_outcome (env_views env) zero (env_CtxErr env) (env_Rand env)
    (env_Wait env) (env_Now env) (env_ParseTime env) op [] call_fuel w) as [_ H]; [by vm_compute|].
  destruct H as (r & w' & E); [done|done|]. rewrite (bind_eq _ _ _ _ _ E). by exists r, w'.
Qed.

Lemma run_returns (op : go W (option error)) : no_panic op → no_panic (run op).
Proof.
  intros Hop. unfold run. apply no_panic_bind; [|intros; apply no_panic_ret].
  apply run_val_returns. apply no_panic_bind; [done|intros; apply no_panic_ret].
Qed.
End calls.

#[export] Hint Resolve run_val_returns run_returns : go.

(** [x, err := m; if err != nil { return err }] followed by [k], for a function
    whose result is a value or an error; and the same for a call that returns
    only an error. *)
Notation "x ←? m ; k" :=
  (mbind (λ r, match r with inl e => mret (inl e) | inr x => k end) m)
  (at level 20, m at level 100, k at level 200, right associativity) : go_scope.
Notation "'check' m ; k" :=
  (mbind (λ oe, match oe with Some e => mret (inl e) | None => k end) m)
  (at level 20, m at level 100, k at level 200, right associativity) : go_scope.

(** Following a pointer that may be nil. *)
Definition deref {W A} (p : option A) : go W A :=
  match p with
  | Some a => mret a
  | None => λ w, (Panicked "invalid memory address or nil pointer dereference", w)
  end.

(** A client call [v, e := Do()], and what the closure makes of its error. *)
Definition api_val {W T} (zero : T) (msg : string) (f : W → (error + T) * W)
  : go W (T * option error) :=
  r ← does f;
  mret match r with inl e => (zero, Some (wrap_pre msg e)) | inr v => (v, None) end.
Definition api_err {W} (msg : string) (f : W → option error * W) : go W (option error) :=
  r ← does f; mret (wrap_pre msg <$> r).

Lemma no_panic_api_val {W T} (zero : T) msg (f : W → (error + T) * W) :
  no_panic (api_val zero msg f).
Proof. unfold api_val. no_panic. Qed.

Lemma no_panic_api_err {W} msg (f : W → option error * W) : no_panic (api_err msg f).
Proof. unfold api_err. no_panic. Qed.

Lemma api_val_triple {W T} (zero : T) msg (f : W → (error + T) * W) (P : W → Prop) (Q : T → W → Prop) :
  (∀ w, P w → match (f w).1 with inl _ => P (f w).2 | inr v => Q v (f w).2 end) →
  triple P (api_val zero msg f) (λ r w, match r.2 with None => Q r.1 w | Some _ => P w end).
Proof.
  intros H. unfold api_val.
  eapply (triple_bind _ _ _ (λ r w, match r with inl _ => P w | inr v => Q v w end));
    [apply triple_does; exact H|].
  intros [e|v]; by apply triple_ret.
Qed.

Lemma api_err_triple {W} msg (f : W → option error * W) (P Q : W → Prop) :
  (∀ w, P w → match (f w).1 with Some _ => P (f w).2 | None => Q (f w).2 end) →
  triple P (api_err msg f) (λ oe w, match oe with None => Q w | Some _ => P w end).
Proof.
  intros H. unfold api_err.
  eapply (triple_bind _ _ _ (λ r w, match r with Some _ => P w | None => Q w end));
    [apply triple_does; exact H|].
  intros [e|]; by apply triple_ret.
Qed.

#[export] Hint Resolve no_panic_api_val no_panic_api_err : go.
