(* ===== verification/SetDiff.v ===== *)
(** * dataquality/datadiff: set, map and migration comparison

    Models [src/go/dataquality/datadiff/setdiff.go]. A type [T comparable] is a
    type with decidable equality (a Go float with NaN is not); a Go map used as
    a set is a [gset], one used as a map a [gmap], whose iteration order
    [range] is any order. *)

From S2P Require Import Prelude GoStrings.

Module setdiff.

Section sets.
Context {T : Type} `{Countable T}.
Implicit Types (l left right : list T) (x v : T) (seen : gset T).

Record SetResult := mkSetResult {
  LeftOnly : list T; RightOnly : list T; Intersection : list T
}.

Definition empty {A} (l : list A) : bool := match l with [] => true | _ => false end.

Definition Match (r : SetResult) : bool := empty (LeftOnly r) && empty (RightOnly r).
Definition IsSubset (r : SetResult) : bool := empty (LeftOnly r).
Definition IsSuperset (r : SetResult) : bool := empty (RightOnly r).
Definition IsDisjoint (r : SetResult) : bool := empty (Intersection r).

Definition set_of (l : list T) : gset T := fold_left (λ s v, {[v]} ∪ s) l ∅.

(** The loop over [left]: its state is (leftSet, leftOnly, intersection). *)
Definition left_step (rightSet : gset T) (s : gset T * list T * list T) (v : T)
  : gset T * list T * list T :=
  let '(leftSet, leftOnly, intersection) := s in
  if decide (v ∈ leftSet) then s
  else
    let leftSet := {[v]} ∪ leftSet in
    if decide (v ∈ rightSet) then (leftSet, leftOnly, intersection ++ [v])
    else (leftSet, leftOnly ++ [v], intersection).

(** The loop over [right]: its state is (rightSet, rightOnly). *)
Definition right_step (leftSet : gset T) (s : gset T * list T) (v : T) : gset T * list T :=
  let '(rightSet, rightOnly) := s in
  if decide (v ∈ leftSet) then s
  else if decide (v ∈ rightSet) then (rightSet ∖ {[v]}, rightOnly ++ [v])
  else s.

Definition SetDiff (left right : list T) : SetResult :=
  let rightSet := set_of right in
  let '(leftSet, leftOnly, intersection) :=
    fold_left (left_step rightSet) left (∅, [], []) in
  let '(_, rightOnly) := fold_left (right_step leftSet) right (rightSet, []) in
  mkSetResult leftOnly rightOnly intersection.

Record ThreeWayResult := mkThreeWayResult {
  Moved : list T; Leftovers : list T; MissingFromTarget : list T; UnaccountedTarget : list T
}.

Definition Passed (r : ThreeWayResult) : bool :=
  empty (Leftovers r) && empty (MissingFromTarget r) && empty (UnaccountedTarget r).

(** The loop over the baseline: its state is (baselineSet, moved, leftoverItems,
    missing). *)
Definition baseline_step (targetSet leftoverSet : gset T)
    (s : gset T * list T * list T * list T) (v : T) : gset T * list T * list T * list T :=
  let '(baselineSet, moved, leftoverItems, missing) := s in
  if decide (v ∈ baselineSet) then s
  else
    let baselineSet := {[v]} ∪ baselineSet in
    if decide (v ∈ leftoverSet) then (baselineSet, moved, leftoverItems ++ [v], missing)
    else if decide (v ∈ targetSet) then (baselineSet, moved ++ [v], leftoverItems, missing)
    else (baselineSet, moved, leftoverItems, missing ++ [v]).

(** The loop over the target: its state is (seenTarget, unaccounted). *)
Definition target_step (baselineSet : gset T) (s : gset T * list T) (v : T) : gset T * list T :=
  let '(seenTarget, unaccounted) := s in
  if decide (v ∈ seenTarget) then s
  else
    let seenTarget := {[v]} ∪ seenTarget in
    if decide (v ∈ baselineSet) then (seenTarget, unaccounted)
    else (seenTarget, unaccounted ++ [v]).

Definition ThreeWayDiff (baseline target leftovers : list T) : ThreeWayResult :=
  let targetSet := set_of target in
  let leftoverSet := set_of leftovers in
  let '(baselineSet, moved, leftoverItems, missing) :=
    fold_left (baseline_step targetSet leftoverSet) baseline (∅, [], [], []) in
  let '(_, unaccounted) := fold_left (target_step baselineSet) target (∅, []) in
  mkThreeWayResult moved leftoverItems missing unaccounted.

(** ** Reference definitions *)

(** The list without repetitions, in first-seen order. *)
Definition distinct (l : list T) : list T := reverse (remove_dups (reverse l)).

(** ** Lemmas *)

Lemma empty_nil {A} (l : list A) : empty l = true ↔ l = [].
Proof. by destruct l. Qed.

Lemma set_of_elem l v : v ∈ set_of l ↔ v ∈ l.
Proof.
  unfold set_of. apply (fold_left_ind (λ done s, ∀ v, v ∈ s ↔ v ∈ done)).
  - intros x. rewrite elem_of_nil. set_solver.
  - intros done x acc IH y. rewrite elem_of_union, elem_of_app, IH, elem_of_singleton, list_elem_of_singleton. tauto.
Qed.

Lemma distinct_snoc l v : distinct (l ++ [v]) = if decide (v ∈ l) then distinct l else distinct l ++ [v].
Proof.
  unfold distinct. rewrite reverse_snoc. simpl.
  destruct (decide_rel elem_of v (reverse l)) as [E|E]; rewrite elem_of_reverse in E;
    destruct (decide (v ∈ l)); try done. by rewrite reverse_cons.
Qed.

Lemma distinct_elem l v : v ∈ distinct l ↔ v ∈ l.
Proof. unfold distinct. by rewrite elem_of_reverse, elem_of_remove_dups, elem_of_reverse. Qed.

Lemma distinct_NoDup l : NoDup (distinct l).
Proof. unfold distinct. rewrite reverse_Permutation. apply NoDup_remove_dups. Qed.

Lemma filter_snoc (P : T → Prop) `{!∀ x, Decision (P x)} l v :
  filter P (l ++ [v]) = if decide (P v) then filter P l ++ [v] else filter P l.
Proof.
  rewrite filter_app. destruct (decide (P v)).
  - by rewrite filter_cons_True.
  - rewrite filter_cons_False by done. apply app_nil_r.
Qed.

(** Rewrites the filter of a snoc and decides the conditions. *)
Ltac snoc_cases :=
  rewrite ?distinct_snoc;
  repeat case_decide; rewrite ?filter_snoc; repeat case_decide; try done; try tauto.

Lemma left_loop rightSet left :
  let '(leftSet, leftOnly, intersection) := fold_left (left_step rightSet) left (∅, [], []) in
  (∀ v, v ∈ leftSet ↔ v ∈ left) ∧
  leftOnly = filter (λ v, v ∉ rightSet) (distinct left) ∧
  intersection = filter (λ v, v ∈ rightSet) (distinct left).
Proof.
  apply (fold_left_ind (λ done s, let '(leftSet, leftOnly, intersection) := s in
    (∀ v, v ∈ leftSet ↔ v ∈ done) ∧
    leftOnly = filter (λ v, v ∉ rightSet) (distinct done) ∧
    intersection = filter (λ v, v ∈ rightSet) (distinct done))).
  - split_and!; [|done|done]. intros v. set_solver.
  - intros done v [[ls lo] it] (Hs & -> & ->). unfold left_step.
    destruct (decide (v ∈ ls)) as [Hv|Hv]; rewrite Hs in Hv.
    { split_and!; [|by snoc_cases|by snoc_cases]. intros y. rewrite Hs. set_solver. }
    destruct (decide (v ∈ rightSet)) as [Hr|Hr]; (split_and!; [|by snoc_cases|by snoc_cases]);
      intros y; rewrite elem_of_union, Hs; set_solver.
Qed.

Lemma right_loop leftSet (right0 : gset T) right :
  (∀ v, v ∈ right → v ∈ right0) →
  (fold_left (right_step leftSet) right (right0, [])).2 =
    filter (λ v, v ∉ leftSet) (distinct right).
Proof.
  intros Hin.
  pose (P := λ (done : list T) (s : gset T * list T),
    (∀ v, v ∈ done → v ∈ right0) →
    (∀ v, v ∈ s.1 ↔ v ∈ right0 ∧ (v ∉ done ∨ v ∈ leftSet)) ∧
    s.2 = filter (λ v, v ∉ leftSet) (distinct done)).
  assert (P right (fold_left (right_step leftSet) right (right0, []))) as HP; [|by apply HP].
  apply fold_left_ind; [intros _; split; [set_solver|done]|].
  intros done v [rs ro] IH Hd. destruct IH as [Hs Ho]; [set_solver|].
  simpl in Hs, Ho. subst ro. pose proof (Hd v ltac:(set_solver)) as Hv0. unfold right_step.
  destruct (decide (v ∈ leftSet)) as [Hv|Hv]; [|destruct (decide (v ∈ rs)) as [Hr|Hr]; rewrite Hs in Hr].
  all: split; [|by simpl; snoc_cases].
  all: intros y; simpl; rewrite ?elem_of_difference, ?elem_of_singleton, Hs, elem_of_app,
    list_elem_of_singleton.
  all: clear -Hv Hr Hv0 || clear -Hv Hv0; destruct (decide (y = v)) as [->|]; tauto.
Qed.

Lemma filter_ext (P Q : T → Prop) `{!∀ x, Decision (P x), !∀ x, Decision (Q x)} l :
  (∀ v, P v ↔ Q v) → filter P l = filter Q l.
Proof. intros E. apply list_filter_iff, E. Qed.

Lemma filter_empty_iff (P : T → Prop) `{!∀ x, Decision (P x)} l :
  filter P l = [] ↔ ∀ v, v ∈ l → ¬ P v.
Proof.
  split.
  - intros E v Hv HP. assert (v ∈ filter P l) as Hf by (by apply list_elem_of_filter). by rewrite E in Hf; inversion Hf.
  - intros HP. apply filter_none, Forall_forall, HP.
Qed.

(** ** Properties *)

(** SetDiff is set difference and intersection with first-seen order kept: on
    the two lists without their repetitions, LeftOnly are the elements of the
    left one that the right one lacks, RightOnly the reverse, Intersection the
    elements of the left one that the right one has. So Match says that the
    two lists have the same elements, IsSubset and IsSuperset that one side's
    are all the other's, and IsDisjoint that they share none. *)
Theorem set_diff_reference left right :
  let r := SetDiff left right in
  LeftOnly r = filter (λ v, v ∉ right) (distinct left) ∧
  RightOnly r = filter (λ v, v ∉ left) (distinct right) ∧
  Intersection r = filter (λ v, v ∈ right) (distinct left) ∧
  (Match r = true ↔ ∀ v, v ∈ left ↔ v ∈ right) ∧
  (IsSubset r = true ↔ left ⊆ right) ∧ (IsSuperset r = true ↔ right ⊆ left) ∧
  (IsDisjoint r = true ↔ ∀ v, v ∈ left → v ∉ right).
Proof.
  intros r. assert (r = mkSetResult (filter (λ v, v ∉ right) (distinct left))
    (filter (λ v, v ∉ left) (distinct right)) (filter (λ v, v ∈ right) (distinct left))) as ->.
  { subst r. unfold SetDiff. pose proof (left_loop (set_of right) left) as HL.
    destruct (fold_left (left_step _) left _) as [[ls lo] it]. destruct HL as (Hs & -> & ->).
    pose proof (right_loop ls (set_of right) right) as HR.
    destruct (fold_left (right_step ls) right _) as [rs ro].
    simpl in HR. rewrite HR by (intros v; by rewrite set_of_elem).
    f_equal; apply filter_ext; intros v; by rewrite ?set_of_elem, ?Hs. }
  unfold Match, IsSubset, IsSuperset, IsDisjoint. simpl. rewrite andb_true_iff, !empty_nil, !filter_empty_iff.
  setoid_rewrite distinct_elem. split_and!; try done.
  - split.
    + intros [H1 H2] v. split; intros Hv; destruct (decide (v ∈ right)), (decide (v ∈ left)); naive_solver.
    + intros E. split; intros v Hv Hn; naive_solver.
  - split; intros E v Hv; [|by auto]. destruct (decide (v ∈ right)); naive_solver.
  - split; intros E v Hv; [|by auto]. destruct (decide (v ∈ left)); naive_solver.
Qed.

Lemma baseline_loop (targetSet leftoverSet : gset T) baseline :
  let '(baselineSet, moved, leftoverItems, missing) :=
    fold_left (baseline_step targetSet leftoverSet) baseline (∅, [], [], []) in
  (∀ v, v ∈ baselineSet ↔ v ∈ baseline) ∧
  moved = filter (λ v, (v ∉ leftoverSet) ∧ v ∈ targetSet) (distinct baseline) ∧
  leftoverItems = filter (λ v, v ∈ leftoverSet) (distinct baseline) ∧
  missing = filter (λ v, (v ∉ leftoverSet) ∧ v ∉ targetSet) (distinct baseline).
Proof.
  apply (fold_left_ind (λ done s, let '(bs, mv, lo, ms) := s in
    (∀ v, v ∈ bs ↔ v ∈ done) ∧
    mv = filter (λ v, (v ∉ leftoverSet) ∧ v ∈ targetSet) (distinct done) ∧
    lo = filter (λ v, v ∈ leftoverSet) (distinct done) ∧
    ms = filter (λ v, (v ∉ leftoverSet) ∧ v ∉ targetSet) (distinct done))).
  - split_and!; [|done..]. intros v. set_solver.
  - intros done v [[[bs mv] lo] ms] (Hs & -> & -> & ->). unfold baseline_step.
    destruct (decide (v ∈ bs)) as [Hv|Hv]; rewrite Hs in Hv.
    { split_and!; [|by snoc_cases..]. intros y. rewrite Hs. set_solver. }
    destruct (decide (v ∈ leftoverSet)) as [Hr|Hr]; [|destruct (decide (v ∈ targetSet))];
      (split_and!; [|by snoc_cases..]); intros y; rewrite elem_of_union, Hs; set_solver.
Qed.

Lemma target_loop (baselineSet : gset T) target :
  (fold_left (target_step baselineSet) target (∅, [])).2 =
    filter (λ v, v ∉ baselineSet) (distinct target).
Proof.
  pose (P := λ (done : list T) (s : gset T * list T),
    (∀ v, v ∈ s.1 ↔ v ∈ done) ∧ s.2 = filter (λ v, v ∉ baselineSet) (distinct done)).
  assert (P target (fold_left (target_step baselineSet) target (∅, []))) as HP; [|by apply HP].
  apply fold_left_ind; [split; [set_solver|done]|].
  intros done v [st un] [Hs Ho]. simpl in Hs, Ho. subst un. unfold target_step.
  destruct (decide (v ∈ st)) as [Hv|Hv]; rewrite Hs in Hv.
  { split; [|by simpl; snoc_cases]. intros y. simpl. rewrite Hs. set_solver. }
  destruct (decide (v ∈ baselineSet)); (split; [|by simpl; snoc_cases]); intros y; simpl;
    rewrite elem_of_union, Hs; set_solver.
Qed.

(** ThreeWayDiff sorts every baseline item, once and in first-seen order,
    into exactly one of three lists: still among the leftovers, moved (in the
    target and not left over), or missing from both; and lists the target items
    that the baseline lacks. It passes exactly when no baseline item is left
    over and baseline and target have the same items; leftovers that were never
    in the baseline do not count, and a migration that leaves an item behind
    fails even if baseline minus leftovers is the target. *)
Theorem three_way_reference baseline target leftovers :
  let r := ThreeWayDiff baseline target leftovers in
  Moved r = filter (λ v, (v ∉ leftovers) ∧ v ∈ target) (distinct baseline) ∧
  Leftovers r = filter (λ v, v ∈ leftovers) (distinct baseline) ∧
  MissingFromTarget r = filter (λ v, (v ∉ leftovers) ∧ v ∉ target) (distinct baseline) ∧
  UnaccountedTarget r = filter (λ v, v ∉ baseline) (distinct target) ∧
  Moved r ++ Leftovers r ++ MissingFromTarget r ≡ₚ distinct baseline ∧
  (Passed r = true ↔
     (∀ v, v ∈ baseline → v ∉ leftovers) ∧ (∀ v, v ∈ baseline ↔ v ∈ target)).
Proof.
  intros r. assert (r = mkThreeWayResult
    (filter (λ v, (v ∉ leftovers) ∧ v ∈ target) (distinct baseline))
    (filter (λ v, v ∈ leftovers) (distinct baseline))
    (filter (λ v, (v ∉ leftovers) ∧ v ∉ target) (distinct baseline))
    (filter (λ v, v ∉ baseline) (distinct target))) as ->.
  { subst r. unfold ThreeWayDiff.
    pose proof (baseline_loop (set_of target) (set_of leftovers) baseline) as HB.
    destruct (fold_left (baseline_step _ _) baseline _) as [[[bs mv] lo] ms].
    destruct HB as (Hs & -> & -> & ->).
    pose proof (target_loop bs target) as HT.
    destruct (fold_left (target_step bs) target _) as [st un]. simpl in HT. rewrite HT.
    f_equal; apply filter_ext; intros v; by rewrite ?set_of_elem, ?Hs. }
  simpl. split_and!; try done.
  - clear. induction (distinct baseline) as [|v l IH]; [done|]. etrans; [|exact (perm_skip v IH)]. clear IH.
    destruct (decide (v ∈ leftovers)) as [Hl|Hl]; [|destruct (decide (v ∈ target)) as [Ht|Ht]];
      rewrite !(filter_cons _ v); repeat case_decide; try tauto; simpl; rewrite ?app_assoc, <- ?Permutation_middle, ?app_assoc; done.
  - unfold Passed. simpl. rewrite !andb_true_iff, !empty_nil, !filter_empty_iff.
    setoid_rewrite distinct_elem. split.
    + intros [[H1 H2] H3]. split; [done|]. intros v.
      destruct (decide (v ∈ target)), (decide (v ∈ baseline)); naive_solver.
    + intros [H1 H2]. naive_solver.
Qed.

End sets.
Arguments SetResult : clear implicits.
Arguments ThreeWayResult : clear implicits.

(** ** Maps *)

Section maps.
Context {K V : Type} `{Countable K}.
(** [Sprint] is [fmt.Sprint] on values; [range] the order in which a [for ...
    range] loop visits a map, any permutation of its entries. *)
Context (Sprint : V → string) (range : gmap K V → list (K * V)).

Record Mismatch := mkMismatch { Left : V; Right : V }.

Record MapResult := mkMapResult {
  Identical : gmap K V;
  map_LeftOnly : gmap K V;
  map_RightOnly : gmap K V;
  Mismatched : gmap K Mismatch
}.

Definition map_Match (r : MapResult) : bool :=
  Nat.eqb (size (map_LeftOnly r)) 0 && Nat.eqb (size (map_RightOnly r)) 0 &&
  Nat.eqb (size (Mismatched r)) 0.

Definition Summary (r : MapResult) : string :=
  "identical=" +:+ pretty (size (Identical r)) +:+ " left_only=" +:+ pretty (size (map_LeftOnly r)) +:+
  " right_only=" +:+ pretty (size (map_RightOnly r)) +:+ " mismatched=" +:+ pretty (size (Mismatched r)).

Definition matched (equals : option (V → V → bool)) (lv rv : V) : bool :=
  match equals with
  | Some eq => eq lv rv
  | None => bool_decide (Sprint lv = Sprint rv)
  end.

Definition map_left_step (right : gmap K V) (equals : option (V → V → bool))
    (res : MapResult) (kv : K * V) : MapResult :=
  let '(k, lv) := kv in
  match right !! k with
  | None =>
      mkMapResult (Identical res) (<[k:=lv]> (map_LeftOnly res)) (map_RightOnly res) (Mismatched res)
  | Some rv =>
      if matched equals lv rv
      then mkMapResult (<[k:=lv]> (Identical res)) (map_LeftOnly res) (map_RightOnly res) (Mismatched res)
      else mkMapResult (Identical res) (map_LeftOnly res) (map_RightOnly res)
             (<[k:=mkMismatch lv rv]> (Mismatched res))
  end.

Definition map_right_step (left : gmap K V) (res : MapResult) (kv : K * V) : MapResult :=
  let '(k, rv) := kv in
  match left !! k with
  | Some _ => res
  | None =>
      mkMapResult (Identical res) (map_LeftOnly res) (<[k:=rv]> (map_RightOnly res)) (Mismatched res)
  end.

Definition MapDiff (left right : gmap K V) (equals : option (V → V → bool)) : MapResult :=
  let res := fold_left (map_left_step right equals) (range left) (mkMapResult ∅ ∅ ∅ ∅) in
  fold_left (map_right_step left) (range right) res.

(** ** Lemmas *)

(** Building a map by inserting [g] of each entry that has one. *)
Definition collect {A} (g : K * V → option A) (l : list (K * V)) (m : gmap K A) : gmap K A :=
  fold_left (λ m kv, match g kv with Some a => <[kv.1:=a]> m | None => m end) l m.

Lemma collect_lookup {A} (g : K * V → option A) (l : list (K * V)) k :
  NoDup l.*1 →
  (∀ a, collect g l ∅ !! k = Some a ↔ ∃ v, (k, v) ∈ l ∧ g (k, v) = Some a).
Proof.
  unfold collect. induction l as [|[k' v'] l IH] using rev_ind; intros Hnd a.
  { simpl. rewrite lookup_empty. split; [done|]. intros (v & Hv & _). by inversion Hv. }
  rewrite fmap_app in Hnd. apply NoDup_app in Hnd as (Hnd & Hnot & _).
  assert (k' ∉ l.*1) as Hk' by (intros Hin; apply (Hnot k' Hin); by apply list_elem_of_singleton).
  rewrite fold_left_snoc. simpl. specialize (IH Hnd a).
  setoid_rewrite elem_of_app. setoid_rewrite list_elem_of_singleton.
  destruct (decide (k = k')) as [->|Hne].
  - assert (∀ v, (k', v) ∉ l) as Hno.
    { intros v Hv. apply Hk'. apply list_elem_of_fmap. by exists (k', v). }
    destruct (g (k', v')) as [b|] eqn:Eg.
    + rewrite lookup_insert_eq. split; [intros [= <-]; eauto|].
      intros (v & [Hv|[= ->]] & E); [by apply Hno in Hv|congruence].
    + rewrite IH. split; intros (v & Hv & E).
      * by apply Hno in Hv.
      * destruct Hv as [Hv|[= ->]]; [by apply Hno in Hv|congruence].
  - destruct (g (k', v')) as [b|]; rewrite ?lookup_insert_ne by done; rewrite IH;
      split; intros (v & Hv & E); exists v; (split; [|done]); [by left| |by left|];
      destruct Hv as [Hv|Hv]; simplify_eq; done.
Qed.

Context (Hrange : ∀ m, range m ≡ₚ map_to_list m).

Lemma collect_range {A} (g : K * V → option A) (m : gmap K V) k :
  collect g (range m) ∅ !! k = m !! k ≫= (λ v, g (k, v)).
Proof using Hrange.
  assert (NoDup (range m).*1) as Hnd by (rewrite Hrange; apply NoDup_fst_map_to_list).
  apply option_eq. intros a. rewrite (collect_lookup g _ k Hnd a), bind_Some.
  setoid_rewrite Hrange. by setoid_rewrite elem_of_map_to_list.
Qed.

Definition g_identical equals (right : gmap K V) (kv : K * V) : option V :=
  rv ← right !! kv.1; if matched equals kv.2 rv then Some kv.2 else None.
Definition g_only (other : gmap K V) (kv : K * V) : option V :=
  match other !! kv.1 with None => Some kv.2 | Some _ => None end.
Definition g_mismatched equals (right : gmap K V) (kv : K * V) : option Mismatch :=
  rv ← right !! kv.1; if matched equals kv.2 rv then None else Some (mkMismatch kv.2 rv).

Lemma left_fold right equals (l : list (K * V)) res :
  fold_left (map_left_step right equals) l res =
  mkMapResult (collect (g_identical equals right) l (Identical res))
    (collect (g_only right) l (map_LeftOnly res)) (map_RightOnly res)
    (collect (g_mismatched equals right) l (Mismatched res)).
Proof.
  revert res. induction l as [|[k v] l IH]; intros res; simpl; [by destruct res|].
  rewrite IH. unfold map_left_step, g_identical, g_only, g_mismatched. simpl.
  destruct (right !! k) as [rv|]; simpl; [by destruct (matched equals v rv)|done].
Qed.

Lemma right_fold left (l : list (K * V)) res :
  fold_left (map_right_step left) l res =
  mkMapResult (Identical res) (map_LeftOnly res) (collect (g_only left) l (map_RightOnly res))
    (Mismatched res).
Proof.
  revert res. induction l as [|[k v] l IH]; intros res; simpl; [by destruct res|].
  rewrite IH. unfold map_right_step, g_only. simpl. by destruct (left !! k).
Qed.

Lemma size_empty {A} (m : gmap K A) : Nat.eqb (size m) 0 = true ↔ ∀ k, m !! k = None.
Proof. rewrite Nat.eqb_eq, map_size_empty_iff. split; [intros -> k; apply lookup_empty|apply map_empty]. Qed.

(** MapDiff puts every key of either map in exactly one of its four maps,
    whatever the iteration order: keys of one side only with their value, keys
    of both under Identical with the left value when the predicate (or, without
    one, the printed text) says equal, else under Mismatched with both values.
    It matches exactly when the two maps have the same keys with equal values. *)
Theorem map_diff_reference (left right : gmap K V) equals k :
  let r := MapDiff left right equals in
  (Identical r !! k, map_LeftOnly r !! k, map_RightOnly r !! k, Mismatched r !! k) =
  match left !! k, right !! k with
  | Some lv, Some rv =>
      if matched equals lv rv then (Some lv, None, None, None)
      else (None, None, None, Some (mkMismatch lv rv))
  | Some lv, None => (None, Some lv, None, None)
  | None, Some rv => (None, None, Some rv, None)
  | None, None => (None, None, None, None)
  end ∧
  (map_Match r = true ↔ ∀ k, match left !! k, right !! k with
     | Some lv, Some rv => matched equals lv rv = true
     | None, None => True
     | _, _ => False
     end).
Proof using Hrange.
  intros r. subst r. unfold MapDiff. rewrite right_fold, left_fold. simpl. split.
  - rewrite !collect_range. unfold g_identical, g_only, g_mismatched. simpl.
    destruct (left !! k) as [lv|], (right !! k) as [rv|]; simpl; try done.
    by destruct (matched equals lv rv).
  - unfold map_Match. simpl. rewrite !andb_true_iff, !size_empty. setoid_rewrite collect_range.
    unfold g_only, g_mismatched. simpl. split.
    + intros [[H1 H2] H3] k'. specialize (H1 k'); specialize (H2 k'); specialize (H3 k').
      destruct (left !! k'), (right !! k'); simpl in *; try done. by destruct (matched _ _ _).
    + intros E. split_and!; intros k'; specialize (E k'); destruct (left !! k'), (right !! k');
        simpl in *; try done. by rewrite E.
Qed.

End maps.

(** ** Witness *)

Definition text_map : gmap string string := {["a" := "1"; "b" := "2"]}.

Lemma map_diff_reference_witness :
  map_Match (MapDiff id map_to_list text_map text_map None) = true.
Proof.
  destruct (map_diff_reference id map_to_list (λ m, reflexivity _) text_map text_map None "a") as [_ H].
  apply H. intros k. destruct (text_map !! k); [by apply bool_decide_eq_true_2|done].
Defined.

End setdiff.
