(* ===== verification/Gcpenv.v ===== *)
(** * platform/gcpenv: the project ID of the process

    Models [src/go/platform/gcpenv/gcpenv.go]. The environment is a function
    [getenv] (an unset variable is empty), the metadata service answers through
    [Do]. *)

From S2P Require Import Prelude GoStrings GoMonad.

Module gcpenv.

Definition envKeys : list string :=
  ["GCP_PROJECT_ID"; "GOOGLE_CLOUD_PROJECT"; "GCP_PROJECT"; "PROJECT_ID"].

Definition defaultMetadataURL : string :=
  "http://metadata.google.internal/computeMetadata/v1/project/project-id".
Definition maxMetadataBodyBytes : nat := 1024.

Fixpoint FromEnv_loop (getenv : string → string) (keys : list string) : string :=
  match keys with
  | [] => ""
  | key :: keys =>
      let id := getenv key in
      if bool_decide (id = "") then FromEnv_loop getenv keys else id
  end.

Definition FromEnv (getenv : string → string) : string := FromEnv_loop getenv envKeys.

(** [strings.EqualFold] against a text of ASCII letters without k and s. *)
Definition MetadataDisabled (getenv : string → string) : bool :=
  bool_decide (to_lower (getenv "GCP_METADATA_DISABLED") = "true").

(** The answer of a GET: no request could be built or sent, or a response with a
    status and a body, [None] when reading the body fails. *)
Inductive reply := Unreachable | Replied (status : Z) (body : option string).

Section resolver.
Context {W : Type} (Do : string → go W reply).

Record Resolver := mkResolver { MetadataURL : string; cached : string }.

Definition queryMetadata (r : Resolver) : go W string :=
  let url := if bool_decide (MetadataURL r = "") then defaultMetadataURL else MetadataURL r in
  resp ← Do url;
  mret (match (resp : reply) with
        | Unreachable => ""
        | Replied status body =>
            if status =? 200 then
              match body with
              | Some b => trim_space (str_take maxMetadataBodyBytes b)
              | None => ""
              end
            else ""
        end).

(** The result and the resolver afterwards, the mutex held. *)
Definition ProjectID (getenv : string → string) (r : Resolver) : go W (string * Resolver) :=
  let id := FromEnv getenv in
  if bool_decide (id = "") then
    if MetadataDisabled getenv then mret ("", r)
    else if bool_decide (cached r = "") then
      id ← queryMetadata r;
      mret (id, mkResolver (MetadataURL r) id)
    else mret (cached r, r)
  else mret (id, r).

(** Calls one after the other, each with the environment it finds. *)
Fixpoint ProjectIDs (envs : list (string → string)) (r : Resolver)
  : go W (list string * Resolver) :=
  match envs with
  | [] => mret ([], r)
  | getenv :: envs =>
      p ← ProjectID getenv r;
      q ← ProjectIDs envs p.2;
      mret (p.1 :: q.1, q.2)
  end.

(** ** Lemmas *)

Lemma from_env_loop getenv keys :
  match list_find (λ key, getenv key ≠ "") keys with
  | Some (_, key) => FromEnv_loop getenv keys = getenv key
  | None => FromEnv_loop getenv keys = ""
  end.
Proof.
  induction keys as [|key keys IH]; [done|]. simpl.
  destruct (decide (getenv key ≠ "")) as [E|E]; simpl.
  - by rewrite bool_decide_eq_false_2.
  - rewrite bool_decide_eq_true_2 by (by apply dec_stable).
    by destruct (list_find _ keys) as [[i k]|].
Qed.

Lemma project_id_step getenv r w id r' w' :
  ProjectID getenv r w = (Returned (id, r'), w') →
  MetadataURL r' = MetadataURL r ∧
  (FromEnv getenv = "" → MetadataDisabled getenv = false → id ≠ "" → cached r' = id) ∧
  (cached r ≠ "" → r' = r ∧ w' = w).
Proof.
  unfold ProjectID. intros E. destruct (MetadataDisabled getenv);
    repeat case_bool_decide; go_inv; split_and!; simpl; intros; done.
Qed.

Lemma project_ids_cached envs r w ids r' w' :
  ProjectIDs envs r w = (Returned (ids, r'), w') → cached r ≠ "" → r' = r ∧ w' = w.
Proof.
  revert r w ids. induction envs as [|e envs IH]; intros r w ids E Hc; simpl in E; go_inv; [done|].
  destruct a as [id r1], a0 as [ids1 r2]. apply project_id_step in E0 as (_ & _ & Hk).
  destruct (Hk Hc) as [-> ->]. by apply IH in E1.
Qed.

(** An answer of the metadata service among the results of calls. *)
Definition from_metadata (envs : list (string → string)) (ids : list string) (id : string) : Prop :=
  ∃ i getenv, envs !! i = Some getenv ∧ ids !! i = Some id ∧
    FromEnv getenv = "" ∧ MetadataDisabled getenv = false ∧ id ≠ "".

Lemma project_ids_agree envs r w ids r' w' id :
  ProjectIDs envs r w = (Returned (ids, r'), w') → from_metadata envs ids id → cached r' = id.
Proof.
  revert r w ids. induction envs as [|e envs IH]; intros r w ids E (i & g & Hi & Hid & Hm);
    [done|]. simpl in E. go_inv. destruct a as [id1 r1], a0 as [ids1 r2]. simpl in *.
  destruct i as [|i]; simplify_eq/=.
  - apply project_id_step in E0 as (_ & Hc & _). destruct Hm as (He & Hd & Hne).
    specialize (Hc He Hd Hne). apply project_ids_cached in E1 as [-> _]; congruence.
  - eapply IH; [exact E1|]. by exists i, g.
Qed.

(** ** Properties *)

(** The project ID is resolved in the documented order: the first variable of
    GCP_PROJECT_ID, GOOGLE_CLOUD_PROJECT, GCP_PROJECT and PROJECT_ID that is not
    empty wins and neither the metadata service nor the cache is touched; with
    none set and metadata disabled the ID is empty; and over any sequence of
    calls the metadata service contributes at most one ID: all the calls
    that use it and get an ID get the same one, after which it is not asked
    again. *)
Theorem project_id_resolution (envs : list (string → string)) r w ids r' w' :
  ProjectIDs envs r w = (Returned (ids, r'), w') →
  (∀ getenv i key w0, list_find (λ key, getenv key ≠ "") envKeys = Some (i, key) →
     ProjectID getenv r w0 = (Returned (getenv key, r), w0)) ∧
  (∀ getenv w0, (∀ key, key ∈ envKeys → getenv key = "") → MetadataDisabled getenv = true →
     ProjectID getenv r w0 = (Returned ("", r), w0)) ∧
  (∀ id1 id2, from_metadata envs ids id1 → from_metadata envs ids id2 → id1 = id2) ∧
  (cached r ≠ "" → r' = r ∧ w' = w).
Proof.
  intros E. split_and!.
  - intros getenv i key w0 Hf. unfold ProjectID, FromEnv.
    pose proof (from_env_loop getenv envKeys) as Hl. rewrite Hf in Hl. rewrite Hl.
    apply list_find_Some in Hf as (_ & Hne & _). by rewrite bool_decide_eq_false_2.
  - intros getenv w0 Hn Hd. unfold ProjectID, FromEnv.
    pose proof (from_env_loop getenv envKeys) as Hl.
    destruct (list_find _ envKeys) as [[i key]|] eqn:Hf.
    { apply list_find_Some in Hf as (Hi & Hne & _). apply list_elem_of_lookup_2 in Hi. by apply Hn in Hi. }
    by rewrite Hl, Hd.
  - intros id1 id2 H1 H2. eapply project_ids_agree in H1, H2; [|done..]. congruence.
  - by eapply project_ids_cached.
Qed.

End resolver.

Definition ci_env (key : string) : string := if bool_decide (key = "PROJECT_ID") then "ci" else "".
Definition no_env (key : string) : string := "".
Definition metadata : string → go nat reply := λ _ n,
  (Returned (match n with O => Unreachable | _ => Replied 200 (Some (" p" +:+ pretty n)) end), S n).

Lemma project_id_resolution_witness :
  (ProjectIDs metadata [no_env; ci_env; no_env; no_env] (mkResolver "" "") 0%nat).1 =
    Returned (["" ; "ci"; "p1"; "p1"], mkResolver "" "p1") ∧
  ProjectID metadata ci_env (mkResolver "" "") 7%nat = (Returned ("ci", mkResolver "" ""), 7%nat).
Proof.
  split; [by vm_compute|].
  destruct (project_id_resolution metadata [no_env; ci_env; no_env; no_env] (mkResolver "" "") 0%nat
    ["" ; "ci"; "p1"; "p1"] (mkResolver "" "p1") 2%nat) as [H _]; [by vm_compute|].
  apply (H ci_env 3%nat "PROJECT_ID"). by vm_compute.
Defined.

End gcpenv.
