(* ===== verification/DataDiff.v ===== *)
(** * dataquality/datadiff: comparing two tables

    Models [target.go], [diff.go], [result.go], [compare.go] and [format.go] of
    [src/go/dataquality/datadiff] (the printing of a report apart). *)

From Stdlib Require Import Ascii SpecFloat.
From S2P Require Import Prelude GoStrings GoFloat GoFormat GoErr GoMonad Gcpenv.

Module datadiff.

(** ** Targets *)

Definition ErrInvalidTarget : error :=
  ENew "datadiff.ErrInvalidTarget" "expected project.dataset.table".

Record Target := mkTarget { Project : string; Dataset : string; Table : string }.

Definition Target_String (t : Target) : string :=
  Project t +:+ "." +:+ Dataset t +:+ "." +:+ Table t.
Definition FullyQualified (t : Target) : string :=
  "`" +:+ Project t +:+ "." +:+ Dataset t +:+ "." +:+ Table t +:+ "`".

Definition Qualifier (t : Target) : string := Project t.
Definition Target_Schema (t : Target) : string := Dataset t.
Definition Relation (t : Target) : string := Table t.

Definition dot : ascii := "."%char.

Definition ParseTarget (s : string) : Target * option error :=
  match split_n dot 3 s with
  | [p; d; t] => (mkTarget p d t, None)
  | _ => (mkTarget "" "" "",
          Some (EFmt (PWrap ErrInvalidTarget (PText (": got " +:+ quote s) PNil))))
  end.

Definition ParseTargetPair (left right : string) : Target * Target * option error :=
  let zero := mkTarget "" "" "" in
  match ParseTarget left with
  | (_, Some err) => (zero, zero, Some (wrap_pre "left: " err))
  | (l, None) =>
      match ParseTarget right with
      | (_, Some err) => (zero, zero, Some (wrap_pre "right: " err))
      | (r, None) => (l, r, None)
      end
  end.

Definition BillingProject (getenv : string → string) (explicit : string) (fallback : Target)
  : string :=
  if bool_decide (explicit = "") then
    let p := gcpenv.FromEnv getenv in
    if bool_decide (p = "") then Project fallback else p
  else explicit.

(** ** Columns *)

Definition ModeNullable : string := "NULLABLE".
Definition ModeRequired : string := "REQUIRED".
Definition ModeRepeated : string := "REPEATED".

Inductive Column := mkColumn (Name DataType Mode : string) (Position : Z) (Children : list Column).

Definition Name (c : Column) : string := let 'mkColumn n _ _ _ _ := c in n.
Definition DataType (c : Column) : string := let 'mkColumn _ t _ _ _ := c in t.
Definition Mode (c : Column) : string := let 'mkColumn _ _ m _ _ := c in m.
Definition Children (c : Column) : list Column := let 'mkColumn _ _ _ _ l := c in l.

Record TableMeta := mkTableMeta {
  Columns : list Column; RowCount : Z; PartitionColumn : string; ClusterColumns : list string; SizeBytes : Z
}.

Definition IsNested (c : Column) : bool := (0 <? length (Children c))%nat.
Definition IsRepeated (c : Column) : bool := bool_decide (Mode c = ModeRepeated).

Definition path_of (prefix name : string) : string :=
  if bool_decide (prefix = "") then name else prefix +:+ "." +:+ name.

Fixpoint FlattenTo (c : Column) (prefix : string) (acc : list Column) : list Column :=
  match c with
  | mkColumn name ty mode pos children =>
      let path := path_of prefix name in
      match children with
      | [] => acc ++ [mkColumn path ty mode pos []]
      | _ => fold_left (λ acc child, FlattenTo child path acc) children acc
      end
  end.

Definition Flatten (c : Column) (prefix : string) : list Column := FlattenTo c prefix [].

Definition FlattenAll (cols : list Column) : list Column :=
  fold_left (λ flat c, FlattenTo c "" flat) cols [].

Record ColumnTypeDiff := mkTypeDiff { td_Name : string; LeftType : string; RightType : string }.

Record SchemaResult := mkSchemaResult {
  sr_Match : bool; LeftOnly : list Column; RightOnly : list Column; TypeDiffs : list ColumnTypeDiff
}.

Definition indexColumns (cols : list Column) : gmap string Column :=
  fold_left (λ m c, <[Name c:=c]> m) cols ∅.

Definition schema_left_step (rightByName : gmap string Column)
    (s : list Column * list ColumnTypeDiff) (c : Column) : list Column * list ColumnTypeDiff :=
  match rightByName !! Name c with
  | None => (s.1 ++ [c], s.2)
  | Some rc =>
      if bool_decide (DataType c = DataType rc) then s
      else (s.1, s.2 ++ [mkTypeDiff (Name c) (DataType c) (DataType rc)])
  end.

Definition schema_right_step (leftByName : gmap string Column) (s : list Column) (c : Column)
  : list Column :=
  match leftByName !! Name c with None => s ++ [c] | Some _ => s end.

Definition is_nil {A} (l : list A) : bool := match l with [] => true | _ => false end.

Definition DiffColumns (left right : list Column) : SchemaResult :=
  let flatLeft := FlattenAll left in
  let flatRight := FlattenAll right in
  let leftByName := indexColumns flatLeft in
  let rightByName := indexColumns flatRight in
  let '(lo, td) := fold_left (schema_left_step rightByName) flatLeft ([], []) in
  let ro := fold_left (schema_right_step leftByName) flatRight [] in
  mkSchemaResult (is_nil lo && is_nil ro && is_nil td) lo ro td.

(** ** Aggregates *)

Definition isFinite (x : float64) : bool := negb (is_nan x) && negb (is_inf x).

(** [math.Max] *)
Definition Max (x y : float64) : float64 :=
  match x, y with
  | S754_infinity false, _ | _, S754_infinity false => S754_infinity false
  | S754_nan, _ | _, S754_nan => S754_nan
  | S754_zero sx, S754_zero _ => if sx then y else x
  | _, _ => if SFltb y x then x else y
  end.

Record ColumnStat := mkColumnStat {
  Column_ : string; Sum : float64; Avg : float64; Min : float64; Max_ : float64;
  CountDistinct : Z; NullCount : Z
}.

Record StatDiff := mkStatDiff {
  sd_Column : string; Field : string; Left : float64; Right : float64; Delta : float64
}.

Record StatsResult := mkStatsResult {
  st_Match : bool; st_Left : list ColumnStat; st_Right : list ColumnStat; Diffs : list StatDiff
}.

Definition diffFloat (col field : string) (l r tolerance : float64) : list StatDiff :=
  if SFeqb l r then []
  else
    let base := Max (SFabs l) (SFabs r) in
    if SFltb zero64 base && SFltb zero64 tolerance &&
       SFleb (fdiv (SFabs (fsub l r)) base) tolerance
    then []
    else [mkStatDiff col field l r (fsub r l)].

Definition diffInt (col field : string) (l r : Z) : list StatDiff :=
  if l =? r then []
  else [mkStatDiff col field (of_int l) (of_int r) (of_int (wrap64 (r - l)))].

Definition index_stats (l : list ColumnStat) : gmap string ColumnStat :=
  fold_left (λ m s, <[Column_ s:=s]> m) l ∅.

Definition diff_stat (tolerance : float64) (ls rs : ColumnStat) : list StatDiff :=
  let c := Column_ ls in
  diffFloat c "Sum" (Sum ls) (Sum rs) tolerance ++
  diffFloat c "Avg" (Avg ls) (Avg rs) tolerance ++
  diffFloat c "Min" (Min ls) (Min rs) tolerance ++
  diffFloat c "Max" (Max_ ls) (Max_ rs) tolerance ++
  diffInt c "CountDistinct" (CountDistinct ls) (CountDistinct rs) ++
  diffInt c "NullCount" (NullCount ls) (NullCount rs).

Definition DiffStats (left right : list ColumnStat) (tolerance : float64) : StatsResult :=
  let rightByCol := index_stats right in
  let diffs := fold_left (λ diffs ls,
    match rightByCol !! Column_ ls with
    | None => diffs
    | Some rs => diffs ++ diff_stat tolerance ls rs
    end) left [] in
  mkStatsResult (is_nil diffs) left right diffs.

Definition withinTolerance (d : StatDiff) (tolerance : float64) : bool :=
  if negb (isFinite (Left d)) || negb (isFinite (Right d)) || negb (isFinite (Delta d)) then false
  else
    let base := Max (SFabs (Left d)) (SFabs (Right d)) in
    if SFeqb base zero64 then false
    else SFleb (fdiv (SFabs (Delta d)) base) tolerance.

(** The loop of [applyStatsTolerance] overwrites the slice it reads: its state is
    the slice and [n]. *)
Definition keep_step (tolerance : float64) (s : list StatDiff * nat) (i : nat)
  : list StatDiff * nat :=
  match s.1 !! i with
  | None => s
  | Some d => if withinTolerance d tolerance then s else (<[s.2:=d]> s.1, S s.2)
  end.

Definition applyStatsTolerance (s : StatsResult) (tolerance : float64) : StatsResult :=
  if SFeqb tolerance zero64 || is_nil (Diffs s) then s
  else
    let '(diffs, n) := fold_left (keep_step tolerance) (seq 0 (length (Diffs s))) (Diffs s, 0%nat) in
    mkStatsResult (Nat.eqb n 0) (st_Left s) (st_Right s) (take n diffs).

(** ** The comparison *)

Record ComparisonSpec := mkSpec {
  LeftName : string; RightName : string; spec_Key : string; spec_Filter : string
}.

Record VolumeResult := mkVolume { v_Match : bool; LeftCount : Z; RightCount : Z }.

Definition Volume_String (v : VolumeResult) : string :=
  if v_Match v then "MATCH (" +:+ itoa (LeftCount v) +:+ " rows)"
  else "MISMATCH (left=" +:+ itoa (LeftCount v) +:+ ", right=" +:+ itoa (RightCount v) +:+
       ", delta=" +:+ itoa (wrap64 (RightCount v - LeftCount v)) +:+ ")".

(** A row difference; its values are of any type. *)
Record Diff (any : Type) := mkDiff { Key : string; Side : string; Fields : gmap string (any * any) }.

Record ContentResult (any : Type) := mkContent {
  c_Match : bool; c_LeftOnly : Z; c_RightOnly : Z; Differed : Z; Matched : Z;
  c_Diffs : list (Diff any)
}.
Arguments c_Match {any}.

Definition no_content (any : Type) : ContentResult any := mkContent any false 0 0 0 0 [].

Record Result (any : Type) := mkResult {
  Spec : ComparisonSpec; Schema : SchemaResult; Volume : VolumeResult;
  Content : ContentResult any; Stats : StatsResult
}.
Arguments Spec {any}.
Arguments Schema {any}.
Arguments Volume {any}.
Arguments Content {any}.
Arguments Stats {any}.

Definition Pass {any} (r : Result any) : bool :=
  sr_Match (Schema r) && v_Match (Volume r) && c_Match (Content r).

Record options := mkOptions { maxDiffs : Z; statsTolerance : float64 }.
Definition WithMaxDiffs (n : Z) (o : options) : options := mkOptions n (statsTolerance o).
Definition WithStatsTolerance (t : float64) (o : options) : options := mkOptions (maxDiffs o) t.

Record Config := mkConfig { cfg_Key : string; cfg_Filter : string }.

Definition defaultMaxDiffs : Z := 100.
(** 1e-9 *)
Definition defaultStatsTolerance : float64 := fdiv (of_int 1) (of_int 1000000000).

Section compare.
Context {W any : Type}.

(** The port: a result comes with an error or without. *)
Record Comparator := mkComparator {
  cmp_Left : string;
  cmp_Right : string;
  CompareSchema : go W (SchemaResult * option error);
  CompareVolume : string → go W (VolumeResult * option error);
  CompareContent : string → string → Z → go W (ContentResult any * option error);
  CompareStats : string → go W (StatsResult * option error)
}.

(** [if err != nil && firstErr == nil { firstErr = fmt.Errorf("<layer>: %w", err) }] *)
Definition note (firstErr : option error) (layer : string) (err : option error) : option error :=
  match err, firstErr with
  | Some e, None => Some (wrap_pre (layer +:+ ": ") e)
  | _, _ => firstErr
  end.

Definition Compare (cmp : Comparator) (cfg : Config) (opts : list (options → options))
  : go W (Result any * option error) :=
  let o := fold_left (λ o f, f o) opts (mkOptions defaultMaxDiffs defaultStatsTolerance) in
  schema ← CompareSchema cmp;
  let firstErr := note None "schema" schema.2 in
  volume ← CompareVolume cmp (cfg_Filter cfg);
  let firstErr := note firstErr "volume" volume.2 in
  content ← (if sr_Match schema.1
             then CompareContent cmp (cfg_Key cfg) (cfg_Filter cfg) (maxDiffs o)
             else mret (no_content any, None));
  let firstErr := note firstErr "content" content.2 in
  stats ← CompareStats cmp (cfg_Filter cfg);
  let firstErr := note firstErr "stats" stats.2 in
  mret (mkResult any (mkSpec (cmp_Left cmp) (cmp_Right cmp) (cfg_Key cfg) (cfg_Filter cfg))
          schema.1 volume.1 content.1 (applyStatsTolerance stats.1 (statsTolerance o)),
        firstErr).

End compare.
Arguments Comparator : clear implicits.

(** ** Reports *)

(** [PrintResult] and [PrintCost], as the text they write. *)
Definition lf : string := String (ascii_of_nat 10) "".
Definition printed (lines : list string) : string := foldr (λ l s, l +:+ lf +:+ s) "" lines.

Definition schema_lines (r : SchemaResult) : list string :=
  if sr_Match r then ["✅ Schema: MATCH"]
  else "❌ Schema: MISMATCH" ::
    ((λ c, "   left-only:  " +:+ Name c +:+ " (" +:+ DataType c +:+ ")") <$> LeftOnly r) ++
    ((λ c, "   right-only: " +:+ Name c +:+ " (" +:+ DataType c +:+ ")") <$> RightOnly r) ++
    ((λ d, "   type-diff:  " +:+ td_Name d +:+ " (" +:+ LeftType d +:+ " → " +:+ RightType d +:+ ")") <$> TypeDiffs r).

Definition volume_lines (r : VolumeResult) : list string :=
  if v_Match r then ["✅ Volume: MATCH (" +:+ itoa (LeftCount r) +:+ " rows)"]
  else ["❌ Volume: MISMATCH (left=" +:+ itoa (LeftCount r) +:+ ", right=" +:+ itoa (RightCount r) +:+ ", delta=" +:+
          itoa (wrap64 (RightCount r - LeftCount r)) +:+ ")"].

Definition content_lines {any} (r : ContentResult any) : list string :=
  if c_Match r then ["✅ Content: MATCH (" +:+ itoa (Matched _ r) +:+ " rows identical)"]
  else ("❌ Content: MISMATCH (matched=" +:+ itoa (Matched _ r) +:+ ", left-only=" +:+ itoa (c_LeftOnly _ r) +:+
          ", right-only=" +:+ itoa (c_RightOnly _ r) +:+ ", differed=" +:+ itoa (Differed _ r) +:+ ")") ::
    ((λ d, "   " +:+ Side _ d +:+ ": key=" +:+ Key _ d) <$> c_Diffs _ r).

Definition stats_lines (r : StatsResult) : list string :=
  if st_Match r then ["✅ Stats: MATCH"]
  else "❌ Stats: MISMATCH" ::
    ((λ d, "   " +:+ sd_Column d +:+ "." +:+ Field d +:+ ": left=" +:+ FormatFixed 4 (Left d) +:+ " right=" +:+
       FormatFixed 4 (Right d) +:+ " delta=" +:+ FormatFixed 4 (Delta d)) <$> Diffs r).

Definition PrintResult {any} (r : Result any) : string :=
  printed (schema_lines (Schema r) ++ volume_lines (Volume r) ++ content_lines (Content r) ++ stats_lines (Stats r) ++
    [""; if Pass r then "🎉 ALL LAYERS PASS" else "⚠️  COMPARISON FAILED"]).

Definition bytesPerMB : float64 := of_int 1000000.
Definition bytesPerTB : float64 := of_int 1000000000000.
Definition costPerTB : float64 := fdiv (of_int 625) (of_int 100).
Definition PrintCost (bytes : Z) : string :=
  let mb := fdiv (of_int bytes) bytesPerMB in
  let cost := SFmul prec emax (fdiv (of_int bytes) bytesPerTB) costPerTB in
  printed ["📊 Bytes processed: " +:+ FormatFixed 2 mb +:+ " MB ($" +:+ FormatFixed 4 cost +:+ " on-demand)"].

(** ** Reference definitions *)

(** The leaves of a column with the names on the way to them. *)
Fixpoint leaves (c : Column) : list (list string * Column) :=
  match c with
  | mkColumn name _ _ _ children =>
      match children with
      | [] => [([name], c)]
      | _ => flat_map (λ child, (λ pl, (name :: pl.1, pl.2)) <$> leaves child) children
      end
  end.

Fixpoint named (c : Column) : bool :=
  match c with mkColumn name _ _ _ children => negb (bool_decide (name = "")) && forallb named children end.

Definition leaf_column (prefix : string) (pl : list string * Column) : Column :=
  match pl.2 with
  | mkColumn _ ty mode pos _ => mkColumn (path_of prefix (join "." pl.1)) ty mode pos []
  end.

(** ** Lemmas *)

Section column_ind.
Context (P : Column → Prop).
Context (Hmk : ∀ n t m p l, Forall P l → P (mkColumn n t m p l)).

Fixpoint column_induction (c : Column) : P c :=
  match c with
  | mkColumn n t m p l =>
      Hmk n t m p l ((fix each (l : list Column) : Forall P l :=
        match l with
        | [] => Forall_nil_2 P
        | c :: l => Forall_cons_2 P c l (column_induction c) (each l)
        end) l)
  end.
End column_ind.

Lemma str_app_not_empty s t : s ≠ "" → s +:+ t ≠ "".
Proof. destruct s; [done|by rewrite str_cons_app]. Qed.

Lemma path_of_nested prefix name rest :
  name ≠ "" → path_of (path_of prefix name) rest = path_of prefix (name +:+ "." +:+ rest).
Proof.
  intros Hn. unfold path_of. destruct (decide (prefix = "")) as [->|Hp].
  - rewrite !(bool_decide_eq_true_2 (EmptyString = EmptyString)) by done.
    by rewrite bool_decide_eq_false_2.
  - rewrite (bool_decide_eq_false_2 (prefix = "")) by done.
    rewrite bool_decide_eq_false_2 by (by apply str_app_not_empty). by rewrite !str_app_assoc.
Qed.

Lemma leaves_path c pl : pl ∈ leaves c → pl.1 ≠ [].
Proof.
  destruct c as [n t m p l]. simpl. destruct l as [|c l].
  - intros Hp%list_elem_of_singleton. by subst.
  - intros Hp%list_elem_of_In%in_flat_map. destruct Hp as (c' & _ & Hp%list_elem_of_In).
    apply list_elem_of_fmap in Hp as (? & -> & _). done.
Qed.

Lemma leaf_column_nested prefix name pl :
  name ≠ "" → pl.1 ≠ [] →
  leaf_column (path_of prefix name) pl = leaf_column prefix (name :: pl.1, pl.2).
Proof.
  intros Hn Hp. unfold leaf_column. simpl. destruct (pl.2) as [? ? ? ? ?].
  destruct pl.1 as [|x l]; [done|]. by rewrite path_of_nested.
Qed.

Lemma flatten_leaves c : ∀ prefix acc, named c = true →
  FlattenTo c prefix acc = acc ++ (leaf_column prefix <$> leaves c).
Proof.
  induction c as [n t m p l IH] using column_induction. intros prefix acc Hn.
  simpl in Hn. apply andb_true_iff in Hn as [Hn Hl].
  apply negb_true_iff, bool_decide_eq_false in Hn. destruct l as [|c l]; [done|].
  cbn [FlattenTo leaves]. generalize dependent (c :: l). clear c l. intros l IH Hl. revert acc.
  induction IH as [|c l Hc _ IHl]; intros acc; simpl; [by rewrite app_nil_r|].
  simpl in Hl. apply andb_true_iff in Hl as [Hc' Hl]. rewrite Hc, (IHl Hl) by done.
  rewrite fmap_app, <- app_assoc. f_equal. f_equal. rewrite <- list_fmap_compose.
  apply list_fmap_ext. intros i pl Hi. apply list_elem_of_lookup_2 in Hi. simpl.
  apply leaf_column_nested; [done|]. by eapply leaves_path.
Qed.

Lemma flatten_all_leaves cols :
  forallb named cols = true → FlattenAll cols = leaf_column "" <$> (cols ≫= leaves).
Proof.
  unfold FlattenAll. induction cols as [|c cols IH] using rev_ind; intros Hn; [done|].
  rewrite forallb_app in Hn. apply andb_true_iff in Hn as [Hn Hc]. simpl in Hc.
  rewrite andb_true_r in Hc. rewrite fold_left_snoc, IH, flatten_leaves by done.
  rewrite bind_app, fmap_app. simpl. by rewrite app_nil_r.
Qed.

(** Indexing a list by a key, the last entry of a key winning. *)
Section index.
Context {A : Type} (key : A → string).
Definition index (l : list A) : gmap string A := fold_left (λ m c, <[key c:=c]> m) l ∅.

Lemma index_some l k c : index l !! k = Some c → c ∈ l ∧ key c = k.
Proof.
  unfold index. revert c. induction l as [|x l IH] using rev_ind; intros c; [done|].
  rewrite fold_left_snoc, elem_of_app, list_elem_of_singleton.
  destruct (decide (key x = k)) as [<-|Hne].
  - rewrite lookup_insert_eq. intros [= ->]. auto.
  - rewrite lookup_insert_ne by done. intros (? & ?)%IH. auto.
Qed.

Lemma index_none l k : index l !! k = None ↔ k ∉ key <$> l.
Proof.
  unfold index. induction l as [|x l IH] using rev_ind; [set_solver|].
  rewrite fold_left_snoc, fmap_app, not_elem_of_app. csimpl. rewrite list_elem_of_singleton.
  destruct (decide (key x = k)) as [<-|Hne].
  - rewrite lookup_insert_eq. naive_solver.
  - rewrite lookup_insert_ne by done. rewrite IH. naive_solver.
Qed.

Lemma index_unique l c : NoDup (key <$> l) → c ∈ l → index l !! key c = Some c.
Proof.
  unfold index. induction l as [|x l IH] using rev_ind; intros Hnd Hc; [by inversion Hc|].
  rewrite fmap_app in Hnd. apply NoDup_app in Hnd as (Hnd & Hno & _).
  rewrite fold_left_snoc. apply elem_of_app in Hc as [Hc|Hc].
  - rewrite lookup_insert_ne; [by apply IH|]. intros E. apply (Hno (key c)).
    + by apply list_elem_of_fmap_2.
    + rewrite <- E. by apply list_elem_of_singleton.
  - apply list_elem_of_singleton in Hc as ->. apply lookup_insert_eq.
Qed.
End index.

Lemma schema_left_fold m l :
  fold_left (schema_left_step m) l ([], []) =
  (filter (λ c, m !! Name c = None) l,
   omap (λ c, rc ← m !! Name c;
     if bool_decide (DataType c = DataType rc) then None
     else Some (mkTypeDiff (Name c) (DataType c) (DataType rc))) l).
Proof.
  induction l as [|c l IH] using rev_ind; [done|]. rewrite fold_left_snoc, IH.
  rewrite filter_app, omap_app. unfold schema_left_step. csimpl.
  destruct (m !! Name c) as [rc|] eqn:E; simpl.
  - rewrite filter_cons_False by congruence. simpl. rewrite app_nil_r.
    destruct (bool_decide _); [by rewrite app_nil_r|done].
  - rewrite filter_cons_True by done. by rewrite app_nil_r.
Qed.

Lemma schema_right_fold m l :
  fold_left (schema_right_step m) l [] = filter (λ c, m !! Name c = None) l.
Proof.
  induction l as [|c l IH] using rev_ind; [done|]. rewrite fold_left_snoc, IH, filter_app.
  unfold schema_right_step. destruct (m !! Name c) eqn:E.
  - rewrite filter_cons_False by congruence. by rewrite app_nil_r.
  - by rewrite filter_cons_True.
Qed.

Lemma is_nil_true {A} (l : list A) : is_nil l = true ↔ l = [].
Proof. by destruct l. Qed.

Lemma nodup_types_perm (L R : list Column) :
  NoDup (Name <$> L) → NoDup (Name <$> R) →
  ((λ c, (Name c, DataType c)) <$> L ≡ₚ (λ c, (Name c, DataType c)) <$> R ↔
   (∀ c, c ∈ L → ∃ rc, rc ∈ R ∧ Name rc = Name c ∧ DataType rc = DataType c) ∧
   (∀ c, c ∈ R → Name c ∈ Name <$> L)).
Proof.
  intros HL HR. set (f := λ c, (Name c, DataType c)).
  assert (∀ l : list Column, NoDup (Name <$> l) → NoDup (f <$> l)) as Hf.
  { intros l Hl. apply (NoDup_fmap_1 fst). by rewrite <- list_fmap_compose. }
  assert (∀ (l : list Column) c, c ∈ l → f c ∈ f <$> l) as Hin by (intros; by apply list_elem_of_fmap_2).
  assert (∀ (l : list Column) x, x ∈ f <$> l → ∃ c, c ∈ l ∧ f c = x) as Hout.
  { intros l x (c & -> & Hc)%list_elem_of_fmap. by exists c. }
  split.
  - intros E. split.
    + intros c Hc. apply Hin in Hc. rewrite E in Hc. apply Hout in Hc as (rc & Hrc & [= E1 E2]). eauto.
    + intros c Hc. apply Hin in Hc. rewrite <- E in Hc. apply Hout in Hc as (lc & Hlc & [= E1 E2]).
      apply list_elem_of_fmap. eauto.
  - intros [H1 H2]. apply NoDup_Permutation; [by apply Hf..|]. intros x. split; intros (c & Hc & <-)%Hout.
    + destruct (H1 c Hc) as (rc & Hrc & E1 & E2).
      replace (f c) with (f rc) by (unfold f; congruence). by apply Hin.
    + apply H2 in Hc as E. apply list_elem_of_fmap in E as (lc & E & Hlc).
      destruct (H1 lc Hlc) as (rc & Hrc & E1 & E2).
      assert (rc = c) as ->.
      { pose proof (index_unique Name R rc HR Hrc) as I1. pose proof (index_unique Name R c HR Hc) as I2.
        rewrite E1, <- E, I2 in I1. by injection I1. }
      replace (f c) with (f lc) by (unfold f; congruence). by apply Hin.
Qed.

Lemma omap_nil_all {A B} (f : A → option B) (l : list A) :
  (∀ x, x ∈ l → f x = None) → omap f l = [].
Proof.
  induction l as [|x l IH]; intros H; [done|]. csimpl.
  rewrite (H x) by left. apply IH. intros y Hy. apply H. by right.
Qed.

Lemma within_finite d tolerance :
  withinTolerance d tolerance = true →
  isFinite (Left d) = true ∧ isFinite (Right d) = true ∧ isFinite (Delta d) = true.
Proof.
  unfold withinTolerance. destruct (isFinite (Left d)), (isFinite (Right d)), (isFinite (Delta d)); done.
Qed.

Lemma keep_loop tolerance ds k :
  (k ≤ length ds)%nat →
  let '(ds', n) := fold_left (keep_step tolerance) (seq 0 k) (ds, 0%nat) in
  (n ≤ k)%nat ∧ length ds' = length ds ∧ drop k ds' = drop k ds ∧
  take n ds' = filter (λ d, withinTolerance d tolerance = false) (take k ds).
Proof.
  induction k as [|k IH]; intros Hk; [done|].
  rewrite seq_S, fold_left_snoc. simpl Nat.add. specialize (IH ltac:(lia)).
  destruct (fold_left (keep_step tolerance) (seq 0 k) (ds, 0%nat)) as [ds' n].
  destruct IH as (Hn & Hlen & Hdrop & Htake).
  destruct (lookup_lt_is_Some_2 ds k ltac:(lia)) as [d Hd].
  assert (ds' !! k = Some d) as Hd'.
  { rewrite <- (Nat.add_0_r k), <- lookup_drop, Hdrop, lookup_drop, Nat.add_0_r. done. }
  assert (drop (S k) ds' = drop (S k) ds) as HdropS.
  { replace (S k) with (k + 1)%nat by lia. by rewrite <- !drop_drop, Hdrop. }
  unfold keep_step. simpl fst. simpl snd. rewrite Hd', (take_S_r ds k d Hd), filter_app.
  destruct (withinTolerance d tolerance) eqn:E.
  - rewrite filter_cons_False by congruence. rewrite app_nil_r. split_and!; [lia|done|done|done].
  - rewrite filter_cons_True by done. split_and!; [lia|by rewrite length_insert| |].
    + by rewrite drop_insert_lt by lia.
    + rewrite <- Htake. rewrite (take_S_r _ n d) by (apply list_lookup_insert_eq; lia).
      by rewrite take_insert_ge by lia.
Qed.

Lemma feqb_refl x : SFeqb x x = true ↔ is_nan x = false.
Proof.
  destruct x as [[]|[]| |[] m e]; try done; unfold SFeqb; simpl;
    rewrite Z.compare_refl, Pos.compare_refl; done.
Qed.

Lemma diff_float_self col field x tolerance :
  diffFloat col field x x tolerance = [] ↔ is_nan x = false.
Proof.
  unfold diffFloat. destruct (SFeqb x x) eqn:E; [by rewrite <- feqb_refl, E|].
  destruct (is_nan x) eqn:En; [|by apply feqb_refl in En; congruence].
  destruct x; try done.
Qed.

Lemma diff_int_self col field z : diffInt col field z z = [].
Proof. unfold diffInt. by rewrite Z.eqb_refl. Qed.

Definition no_nan (s : ColumnStat) : Prop :=
  is_nan (Sum s) = false ∧ is_nan (Avg s) = false ∧ is_nan (Min s) = false ∧ is_nan (Max_ s) = false.

Lemma diff_stat_self tolerance s : diff_stat tolerance s s = [] ↔ no_nan s.
Proof.
  unfold diff_stat, no_nan. rewrite !diff_int_self, !app_nil, !diff_float_self. tauto.
Qed.

Lemma diffs_fold (m : gmap string ColumnStat) tolerance l :
  fold_left (λ diffs ls, match m !! Column_ ls with
    | None => diffs | Some rs => diffs ++ diff_stat tolerance ls rs end) l [] =
  l ≫= (λ ls, match m !! Column_ ls with None => [] | Some rs => diff_stat tolerance ls rs end).
Proof.
  induction l as [|ls l IH] using rev_ind; [done|].
  rewrite fold_left_snoc, IH, bind_app. simpl. rewrite app_nil_r.
  destruct (m !! Column_ ls); [done|by rewrite app_nil_r].
Qed.

Lemma bind_nil {A B} (f : A → list B) (l : list A) : l ≫= f = [] ↔ ∀ x, x ∈ l → f x = [].
Proof.
  induction l as [|x l IH]; simpl.
  - split; [intros _ x Hx; inversion Hx|done].
  - rewrite app_nil, IH. setoid_rewrite elem_of_cons. naive_solver.
Qed.

(** ** Properties *)

(** DiffColumns compares the leaves of the two schemas. Flattening gives each
    leaf once, in order, under its dotted path. LeftOnly and RightOnly are the
    leaves whose path the other side lacks, in order; and when no path occurs
    twice on a side, the schemas match exactly when they have the same pairs of
    path and type, in any order: modes and positions play no part. *)
Theorem diff_columns_reference left right :
  let L := FlattenAll left in let R := FlattenAll right in let r := DiffColumns left right in
  (forallb named left = true → L = leaf_column "" <$> (left ≫= leaves)) ∧
  LeftOnly r = filter (λ c, Name c ∉ Name <$> R) L ∧
  RightOnly r = filter (λ c, Name c ∉ Name <$> L) R ∧
  (NoDup (Name <$> L) → NoDup (Name <$> R) →
   sr_Match r = true ↔
     (λ c, (Name c, DataType c)) <$> L ≡ₚ (λ c, (Name c, DataType c)) <$> R).
Proof.
  intros L R r. split; [apply flatten_all_leaves|].
  assert (∀ l k : list Column, filter (λ c : Column, indexColumns l !! Name c = None) k =
    filter (λ c, Name c ∉ Name <$> l) k) as Hf.
  { intros l k. apply list_filter_iff. intros c. apply index_none. }
  subst r. unfold DiffColumns. fold L R. rewrite schema_left_fold, schema_right_fold. simpl. rewrite !Hf.
  split_and!; [done|done|]. intros HL HR. rewrite (nodup_types_perm L R HL HR).
  rewrite !andb_true_iff, !is_nil_true. split.
  - intros [[H1 H2] H3]. split.
    + intros c Hc. destruct (indexColumns R !! Name c) as [rc|] eqn:E.
      * pose proof E as E'. apply index_some in E' as [Hrc Hn]. exists rc. split_and!; [done|done|].
        destruct (decide (DataType c = DataType rc)) as [|Ht]; [done|]. exfalso.
        assert (mkTypeDiff (Name c) (DataType c) (DataType rc) ∈ (@nil ColumnTypeDiff)) as Hin; [|by inversion Hin].
        rewrite <- H3. apply list_elem_of_omap. exists c. split; [done|]. rewrite E. simpl.
        by rewrite bool_decide_eq_false_2.
      * apply index_none in E. assert (c ∈ (@nil Column)) as Hin; [|by inversion Hin].
        rewrite <- H1. by apply list_elem_of_filter.
    + intros c Hc. destruct (decide (Name c ∈ Name <$> L)) as [|Hn]; [done|].
      assert (c ∈ (@nil Column)) as Hin; [|by inversion Hin]. rewrite <- H2. by apply list_elem_of_filter.
  - intros [H1 H2]. split_and!.
    + apply filter_none, Forall_forall. intros c Hc Hn. destruct (H1 c Hc) as (rc & Hrc & E & _).
      apply Hn. rewrite <- E. by apply list_elem_of_fmap_2.
    + apply filter_none, Forall_forall. intros c Hc Hn. by apply Hn, H2.
    + apply omap_nil_all. intros c Hc. destruct (H1 c Hc) as (rc & Hrc & E1 & E2).
      unfold indexColumns. rewrite <- E1. fold (index Name R). rewrite (index_unique Name R rc HR Hrc). simpl.
      by rewrite bool_decide_eq_true_2.
Qed.

(** The tolerance filter removes noise and nothing else: whatever overwriting
    the in-place loop does, the differences left are exactly those that are not
    within tolerance, in their order; none with an infinite or undefined side or
    delta is ever removed; and the result matches exactly when none is left. A
    zero tolerance, or a result without differences, is left as it is. And a
    table compared with itself shows a difference exactly where an aggregate is
    NaN, which survives the filter. *)
Theorem stats_tolerance_filter (s : StatsResult) (tolerance : float64) (l : list ColumnStat) :
  let s' := applyStatsTolerance s tolerance in
  (SFeqb tolerance zero64 = false → Diffs s ≠ [] →
   Diffs s' = filter (λ d, withinTolerance d tolerance = false) (Diffs s) ∧
   (st_Match s' = true ↔ Diffs s' = [])) ∧
  (SFeqb tolerance zero64 = true ∨ Diffs s = [] → s' = s) ∧
  (∀ d, d ∈ Diffs s → isFinite (Left d) && isFinite (Right d) && isFinite (Delta d) = false →
        d ∈ Diffs s') ∧
  (NoDup (Column_ <$> l) →
   (st_Match (DiffStats l l tolerance) = true ↔ ∀ x, x ∈ l → no_nan x)).
Proof.
  intros s'. assert (SFeqb tolerance zero64 = false → Diffs s ≠ [] →
    Diffs s' = filter (λ d, withinTolerance d tolerance = false) (Diffs s) ∧
    (st_Match s' = true ↔ Diffs s' = [])) as Hf.
  { intros Ht Hd. subst s'. unfold applyStatsTolerance. rewrite Ht.
    destruct (is_nil (Diffs s)) eqn:En; [by apply is_nil_true in En|]. simpl.
    pose proof (keep_loop tolerance (Diffs s) (length (Diffs s)) ltac:(lia)) as HL.
    destruct (fold_left _ _ _) as [ds n]. destruct HL as (Hn & Hlen & _ & Hk). simpl.
    rewrite firstn_all in Hk. split; [done|]. rewrite Nat.eqb_eq. split; [by intros ->|].
    intros E. apply (f_equal length) in E. rewrite length_take in E. simpl in E. lia. }
  assert (SFeqb tolerance zero64 = true ∨ Diffs s = [] → s' = s) as Hs.
  { subst s'. unfold applyStatsTolerance. intros [->| ->]; [done|]. by rewrite orb_true_r. }
  split_and!; [done|done| |].
  - intros d Hd Hfin. destruct (SFeqb tolerance zero64) eqn:Ht; [rewrite Hs by (by left); done|].
    destruct (Hf eq_refl) as [-> _]; [by intros E; rewrite E in Hd; inversion Hd|].
    apply list_elem_of_filter. split; [|done].
    destruct (withinTolerance d tolerance) eqn:E; [|done].
    apply within_finite in E as (E1 & E2 & E3). by rewrite E1, E2, E3 in Hfin.
  - intros Hnd. unfold DiffStats. simpl. rewrite is_nil_true, diffs_fold, bind_nil.
    split; intros H x Hx; specialize (H x Hx); unfold index_stats in *; fold (index Column_ l) in *;
      rewrite (index_unique Column_ l x Hnd Hx) in *; by apply (diff_stat_self tolerance).
Qed.

(** Compare runs its layers in order and each one even when an earlier one
    failed, except that the content is compared only when the schemas match. The
    error returned is that of the first layer that failed, named after it, and
    the result carries every layer's answer. So a comparison passes only if
    schema, volume and content were all compared and all match; the statistics
    do not take part. *)
Theorem compare_layers {W any} (cmp : Comparator W any) cfg opts w res oe w' :
  Compare cmp cfg opts w = (Returned (res, oe), w') →
  ∃ schema se volume ve content ce stats te w1 w2 w3 tolerance,
    CompareSchema cmp w = (Returned (schema, se), w1) ∧
    CompareVolume cmp (cfg_Filter cfg) w1 = (Returned (volume, ve), w2) ∧
    (if sr_Match schema
     then ∃ n, CompareContent cmp (cfg_Key cfg) (cfg_Filter cfg) n w2 = (Returned (content, ce), w3)
     else content = no_content any ∧ ce = None ∧ w3 = w2) ∧
    CompareStats cmp (cfg_Filter cfg) w3 = (Returned (stats, te), w') ∧
    oe = head (omap id [wrap_pre "schema: " <$> se; wrap_pre "volume: " <$> ve;
                        wrap_pre "content: " <$> ce; wrap_pre "stats: " <$> te]) ∧
    Schema res = schema ∧ Volume res = volume ∧ Content res = content ∧
    Stats res = applyStatsTolerance stats tolerance ∧
    (Pass res = true ↔ sr_Match schema = true ∧ v_Match volume = true ∧
       c_Match content = true ∧ w3 = (CompareContent cmp (cfg_Key cfg) (cfg_Filter cfg)
         (maxDiffs (fold_left (λ o f, f o) opts (mkOptions defaultMaxDiffs defaultStatsTolerance))) w2).2).
Proof.
  unfold Compare. intros E. go_inv. destruct a as [schema se], a0 as [volume ve], a1 as [content ce], a2 as [stats te].
  simpl in *. eexists schema, se, volume, ve, content, ce, stats, te, w0, w1, w2, _.
  split_and!; try done.
  - destruct (sr_Match schema); [by eexists|]. by go_inv.
  - by destruct se, ve, ce, te.
  - unfold Pass. simpl. rewrite !andb_true_iff. destruct (sr_Match schema).
    + rewrite E2. simpl. tauto.
    + split; [by intros [[? _] _]|by intros [? _]].
Qed.

Lemma split_target s p d t :
  split_n dot 3 s = [p; d; t] ↔
  s = p +:+ "." +:+ d +:+ "." +:+ t ∧ contains_byte dot p = false ∧ contains_byte dot d = false.
Proof.
  split.
  - intros H. cbn in H. destruct (cut dot s) as [[b r] ok] eqn:E1. destruct ok; [|done].
    destruct (cut dot r) as [[b' r'] ok'] eqn:E2. destruct ok'; [|done]. simplify_eq.
    apply cut_true in E1 as [-> H1], E2 as [-> H2]. done.
  - intros (-> & Hp & Hd). cbn. change ("." +:+ d +:+ "." +:+ t) with (String dot (d +:+ String dot t)).
    by rewrite (cut_app dot p _ Hp), (cut_app dot d t Hd).
Qed.

(** ParseTarget and Target.String invert each other: a text parses exactly
    when it has two dots or more, the project and the dataset then have none (the
    table may), and printing the target gives the text back; a printed target
    parses to itself when its project and dataset have no dot. A text that does
    not parse gives the zero target and an error that is ErrInvalidTarget. *)
Theorem target_round_trip (s : string) (t : Target) :
  (ParseTarget s = (t, None) ↔
     Target_String t = s ∧ contains_byte dot (Project t) = false ∧ contains_byte dot (Dataset t) = false) ∧
  (∀ e, (ParseTarget s).2 = Some e →
     is_err "datadiff.ErrInvalidTarget" e = true ∧ (ParseTarget s).1 = mkTarget "" "" "").
Proof.
  unfold ParseTarget. split.
  - pose proof (split_target s (Project t) (Dataset t) (Table t)) as HS.
    unfold Target_String. destruct t as [p d tb]. cbn [Project Dataset Table] in *. split.
    + intros H. destruct (split_n dot 3 s) as [|x1 [|x2 [|x3 [|]]]]; simplify_eq.
      by destruct (proj1 HS eq_refl) as (-> & ? & ?).
    + intros (<- & Hp & Hd). by rewrite (proj2 HS).
  - intros e. destruct (split_n dot 3 s) as [|x1 [|x2 [|x3 [|]]]]; cbn [fst snd]; by intros [= <-].
Qed.

(** The printed verdict is that of Pass, on the last line, and each of the first three
    layers is printed as a match exactly when it is one. *)
Theorem printed_verdict {any} (r : Result any) :
  (∃ body, PrintResult r = body +:+ (if Pass r then "🎉 ALL LAYERS PASS" else "⚠️  COMPARISON FAILED") +:+ lf) ∧
  (Pass r = true ↔
     head (schema_lines (Schema r)) = Some "✅ Schema: MATCH" ∧
     head (volume_lines (Volume r)) = Some ("✅ Volume: MATCH (" +:+ itoa (LeftCount (Volume r)) +:+ " rows)") ∧
     head (content_lines (Content r)) = Some ("✅ Content: MATCH (" +:+ itoa (Matched _ (Content r)) +:+ " rows identical)")).
Proof.
  split.
  - unfold PrintResult. set (v := if Pass r then _ else _).
    assert (∀ ls, printed (ls ++ [""; v]) = printed (ls ++ [""]) +:+ v +:+ lf) as Hp.
    { intros ls. induction ls as [|l ls IH]; simpl; [by rewrite str_app_nil_r|]. by rewrite IH, !str_app_assoc. }
    eexists. rewrite !app_assoc, Hp. done.
  - unfold Pass, schema_lines, volume_lines, content_lines.
    destruct (sr_Match _), (v_Match _), (c_Match _); simpl; naive_solver.
Qed.

(** The statistics are no part of the verdict: they may differ in a report that says
    that all layers pass. *)
Example all_layers_pass_but_stats :
  let r : Result unit := mkResult unit (mkSpec "a" "b" "id" "") (mkSchemaResult true [] [] []) (mkVolume true 3 3)
    (mkContent unit true 0 0 0 3 [])
    (mkStatsResult false [] [] [mkStatDiff "price" "sum" (of_int 10) (of_int 13) (of_int 3)]) in
  contains "❌ Stats: MISMATCH" (PrintResult r) = true ∧
  contains "   price.sum: left=10.0000 right=13.0000 delta=3.0000" (PrintResult r) = true ∧
  contains "ALL LAYERS PASS" (PrintResult r) = true.
Proof. vm_compute. repeat split. Qed.

Example cost_printed :
  PrintCost 2500000000000 = "📊 Bytes processed: 2500000.00 MB ($15.6250 on-demand)" +:+ lf.
Proof. vm_compute. reflexivity. Qed.

(** ** Witness *)

(** Tables whose schemas differ, a failing volume layer: the content layer, which
    would count in the world, is not run. *)
Definition broken : Comparator nat nat :=
  mkComparator "l" "r"
    (mret (DiffColumns [mkColumn "a" "INT64" "NULLABLE" 0 []] [mkColumn "a" "STRING" "NULLABLE" 0 []], None))
    (λ _, mret (mkVolume false 0 0, Some (ENew "timeout" "timeout")))
    (λ _ _ _ n, (Returned (no_content nat, None), S n))
    (λ _, mret (mkStatsResult true [] [] [], Some (ENew "quota" "quota"))).

Definition broken_result : Result nat :=
  mkResult nat (mkSpec "l" "r" "id" "")
    (mkSchemaResult false [] [] [mkTypeDiff "a" "INT64" "STRING"]) (mkVolume false 0 0)
    (no_content nat) (mkStatsResult true [] [] []).

Lemma compare_layers_witness :
  Pass broken_result = false ∧
  ∃ schema, sr_Match schema = false ∧ Schema broken_result = schema.
Proof.
  split; [by vm_compute|].
  destruct (compare_layers broken (mkConfig "id" "") [WithMaxDiffs 5] 0%nat broken_result
    (Some (wrap_pre "volume: " (ENew "timeout" "timeout"))) 0%nat)
    as (schema & se & volume & ve & content & ce & stats & te & w1 & w2 & w3 & tol & H & _ & _ & _ & _ & Hs & _);
    [by vm_compute|].
  exists schema. split; [|exact Hs]. by rewrite <- Hs.
Defined.

(** A nested column and a flat one whose name has a dot are the same schema. *)
Example dotted_name_is_nested :
  sr_Match (DiffColumns [mkColumn "a" "RECORD" "NULLABLE" 0 [mkColumn "b" "INT64" "NULLABLE" 0 []]]
                        [mkColumn "a.b" "INT64" "REPEATED" 0 []]) = true.
Proof. by vm_compute. Qed.

End datadiff.
