(* ===== verification/PrivacyFilter.v ===== *)
(** * discovery/privacyfilter: what may enter the search index

    Models [src/go/discovery/privacyfilter/filter.go] on the [Document] of
    [src/go/discovery/search/types.go]. Case is folded on ASCII letters. *)

From Stdlib Require Import Ascii.
From S2P Require Import Prelude GoStrings.

Module privacyfilter.

Record Document := mkDocument {
  ID : string; Kind : string; Source : string; Path : string; Language : string;
  Title : string; Content : string; Metadata : gmap string string; UpdatedAt : Z
}.

Record Filter := mkFilter {
  skipPatternsLower : list string;
  redactPatterns : list string;
  redactPatternsLower : list string
}.

Definition New : Filter :=
  let skips := [".env"; "credentials"; "secret"; "token"; "password"; "private_key"; "id_rsa";
                ".pem"; ".key"; ".kratos/"] in
  let redacts := ["GITHUB_TOKEN"; "API_KEY"; "SECRET_KEY"; "PRIVATE_KEY"; "Bearer ";
                  "password="; "token="] in
  mkFilter (to_lower <$> skips) redacts (to_lower <$> redacts).

Definition newline : ascii := ascii_of_nat 10.
Definition nl : string := String newline "".

(** [filepath.Base] with the separator [/]. *)
Definition slash : ascii := "/"%char.
Fixpoint after_slash (s : string) : string :=
  match s with
  | EmptyString => EmptyString
  | String c s' =>
      if contains_byte slash s' then after_slash s'
      else if bool_decide (c = slash) then s' else s
  end.
Definition Base (path : string) : string :=
  if bool_decide (path = "") then "."
  else
    let b := after_slash (TrimRight slash path) in
    if bool_decide (b = "") then "/" else b.

Section filter.
Context (f : Filter).

Definition shouldSkip (doc : Document) : bool :=
  let pathLower := to_lower (Path doc) in
  let baseLower := to_lower (Base (Path doc)) in
  existsb (λ patternLower, contains patternLower pathLower || contains patternLower baseLower)
    (skipPatternsLower f).

Definition marker (pattern : string) : string := "[REDACTED — contains " +:+ pattern +:+ "]".

(** The inner loop over the patterns of a line: the first that matches wins. *)
Fixpoint redact_line (patternsLower patterns : list string) (line : string) : string :=
  match patternsLower, patterns with
  | patternLower :: patternsLower, pattern :: patterns =>
      if contains patternLower (to_lower line) then marker pattern
      else redact_line patternsLower patterns line
  | _, _ => line
  end.

Definition redact (content : string) : string :=
  if bool_decide (content = "") then content
  else
    let contentLower := to_lower content in
    let hasAny := existsb (λ patternLower, contains patternLower contentLower)
                    (redactPatternsLower f) in
    if negb hasAny then content
    else
      let lines := split newline content in
      join nl (redact_line (redactPatternsLower f) (redactPatterns f) <$> lines).

(** The loop over a metadata map writes to keys that are already there. *)
Definition redact_metadata (m : gmap string string) : gmap string string :=
  map_imap (λ k v, let r := redact v in if bool_decide (r = v) then Some v else Some r) m.

Definition redact_document (d : Document) : Document :=
  mkDocument (ID d) (Kind d) (Source d) (Path d) (Language d) (redact (Title d))
    (redact (Content d)) (redact_metadata (Metadata d)) (UpdatedAt d).

(** The clean documents and the count. The loop writes its results into [docs]
    too, so the third component is the slice of the caller afterwards. *)
Definition apply_step (s : list Document * Z * list Document) (d : Document)
  : list Document * Z * list Document :=
  let '(clean, skipped, docs) := s in
  if shouldSkip d then (clean, skipped + 1, docs ++ [d])
  else (clean ++ [redact_document d], skipped, docs ++ [redact_document d]).

Definition Apply (docs : list Document) : list Document * Z * list Document :=
  fold_left apply_step docs ([], 0, []).

End filter.

(** ** Specification

    What may not be in the index, told without the filter. *)

(** [p] occurs in [s], whatever the case of its ASCII letters. *)
Definition occurs (p s : string) : Prop := ∃ a m b, s = a +:+ m +:+ b ∧ to_lower m = to_lower p.

(** A path with one of these keeps its document out. *)
Definition unwanted_paths : list string :=
  [".env"; "credentials"; "secret"; "token"; "password"; "private_key"; "id_rsa"; ".pem"; ".key"; ".kratos/"].
(** A line with one of these is replaced. *)
Definition unwanted_lines : list string :=
  ["GITHUB_TOKEN"; "API_KEY"; "SECRET_KEY"; "PRIVATE_KEY"; "Bearer "; "password="; "token="].

Definition wanted (d : Document) : Prop := ∀ p, p ∈ unwanted_paths → ¬ occurs p (Path d).

(** What becomes of a line: it stays when none of these occurs in it, and else only
    the name of one that does is left. *)
Inductive cleaned_line (line : string) : string → Prop :=
| line_stays : (∀ p, p ∈ unwanted_lines → ¬ occurs p line) → cleaned_line line line
| line_goes p : p ∈ unwanted_lines → occurs p line →
    cleaned_line line ("[REDACTED — contains " +:+ p +:+ "]").
Definition cleaned_text (s t : string) : Prop := Forall2 cleaned_line (split newline s) (split newline t).

(** What becomes of a document. *)
Record cleaned (d e : Document) : Prop := {
  same_fields : (ID e, Kind e, Source e, Path e, Language e, UpdatedAt e) =
                (ID d, Kind d, Source d, Path d, Language d, UpdatedAt d);
  clean_title : cleaned_text (Title d) (Title e);
  clean_content : cleaned_text (Content d) (Content e);
  clean_metadata k : option_Forall2 cleaned_text (Metadata d !! k) (Metadata e !! k)
}.

(** ** Lemmas *)

Lemma after_slash_suffix s : ∃ a, s = a +:+ after_slash s.
Proof.
  induction s as [|c s (a & E)]; [by exists ""|]. cbn.
  destruct (contains_byte slash s).
  - exists (String c a). by rewrite str_cons_app, <- E.
  - destruct (bool_decide (c = slash)); [by exists (String c "")|by exists ""].
Qed.

(** The base of a path is somewhere in it, "." and "/" apart. *)
Lemma base_mid s : (∃ a b, s = a +:+ Base s +:+ b) ∨ Base s = "." ∨ Base s = "/".
Proof.
  unfold Base. destruct (bool_decide (s = "")); [by auto|].
  destruct (TrimRight_prefix slash s) as (b & Eb). destruct (after_slash_suffix (TrimRight slash s)) as (a & Ea).
  destruct (bool_decide _); [by auto|]. left. exists a, b.
  by rewrite <- str_app_assoc, <- Ea.
Qed.

(** The patterns of a filter: folded, of one line, and not "." or "/" or a part
    of these; each marker is its own redaction. *)
Record filter_ok (f : Filter) : Prop := {
  skip_not_dot : ∀ p, p ∈ skipPatternsLower f → contains p "." = false ∧ contains p "/" = false;
  markers_fixed : ∀ p, p ∈ redactPatterns f →
    redact_line (redactPatternsLower f) (redactPatterns f) (marker p) = marker p ∧
    contains_byte newline (marker p) = false;
  same_length : length (redactPatternsLower f) = length (redactPatterns f);
  redact_not_empty : "" ∉ redactPatternsLower f
}.

Lemma new_ok : filter_ok New.
Proof.
  split; [| |done|].
  - intros p Hp. assert (Forall (λ p, contains p "." = false ∧ contains p "/" = false)
      (skipPatternsLower New)) as H by (repeat constructor). rewrite Forall_forall in H. by apply H.
  - intros p Hp. assert (Forall (λ p,
      redact_line (redactPatternsLower New) (redactPatterns New) (marker p) = marker p ∧
      contains_byte newline (marker p) = false) (redactPatterns New)) as H
      by (repeat (apply Forall_cons; split; [by vm_compute|]); apply Forall_nil; done).
    rewrite Forall_forall in H. by apply H.
  - by apply (bool_decide_eq_true_1 ("" ∉ redactPatternsLower New)).
Qed.

Section lemmas.
Context (f : Filter) (Hf : filter_ok f).

Abbreviation red := (redact_line (redactPatternsLower f) (redactPatterns f)).

Definition sensitive (line : string) : Prop :=
  ∃ p, p ∈ redactPatternsLower f ∧ contains p (to_lower line) = true.

Lemma redact_line_spec ls ps line :
  length ls = length ps →
  (redact_line ls ps line = line ∧ (∀ p, p ∈ ls → contains p (to_lower line) = false)) ∨
  (∃ p, p ∈ ps ∧ redact_line ls ps line = marker p ∧ ∃ q, q ∈ ls ∧ contains q (to_lower line) = true).
Proof.
  revert ps. induction ls as [|l ls IH]; intros [|p ps] Hl; try done; cbn.
  { left. split; [done|]. intros p Hp. inversion Hp. }
  destruct (contains l (to_lower line)) eqn:E.
  - right. exists p. split_and!; [by left|done|]. exists l. by split; [left|].
  - destruct (IH ps) as [[E1 E2]|(q & Hq & E1 & q' & Hq' & E2)]; [by injection Hl| |].
    + left. split; [done|]. intros p' [->|Hp']%elem_of_cons; [done|by apply E2].
    + right. exists q. split_and!; [by right|done|]. exists q'. by split; [right|].
Qed.

Lemma red_cases line :
  (red line = line ∧ ¬ sensitive line) ∨ (∃ p, p ∈ redactPatterns f ∧ red line = marker p ∧ sensitive line).
Proof using Hf.
  destruct (redact_line_spec _ _ line (same_length f Hf)) as [[E H]|H]; [left|by right].
  split; [done|]. intros (p & Hp & Hc). rewrite H in Hc; done.
Qed.

Lemma red_idempotent line : red (red line) = red line.
Proof using Hf.
  destruct (red_cases line) as [[E _]|(p & Hp & E & _)]; rewrite !E; [done|].
  by apply (markers_fixed f Hf).
Qed.

Lemma red_one_line line : contains_byte newline line = false → contains_byte newline (red line) = false.
Proof using Hf.
  intros H. destruct (red_cases line) as [[E _]|(p & Hp & E & _)]; rewrite E; [done|].
  by apply (markers_fixed f Hf).
Qed.

(** The shortcut of [redact] is sound: it is the line-by-line redaction. *)
Lemma redact_lines s : redact f s = join nl (red <$> split newline s).
Proof using Hf.
  unfold redact. destruct (bool_decide (s = "")) eqn:Es.
  { apply bool_decide_eq_true in Es as ->. cbn. destruct (red_cases "") as [[-> _]|(p & Hp & E & q & Hq & Hc)]; [done|].
    destruct q as [|c q]; [by apply (redact_not_empty f Hf) in Hq|done]. }
  destruct (existsb _ _) eqn:Ex; simpl; [done|].
  rewrite <- (join_split newline s) at 1. unfold nl. f_equal. symmetry.
  apply list_eq_Forall2. apply Forall2_fmap_l. apply Forall_Forall2_diag, Forall_forall.
  intros line Hl. destruct (red_cases line) as [[E _]|(p & Hp & E & q & Hq & Hc)]; [done|].
  exfalso. apply split_mid in Hl as (a & b & ->).
  assert (existsb (λ p, contains p (to_lower (a +:+ line +:+ b))) (redactPatternsLower f) = true) as H.
  { apply existsb_exists. exists q. split; [by apply list_elem_of_In|].
    rewrite !to_lower_app. by apply contains_mid. }
  congruence.
Qed.

Lemma split_redact s : split newline (redact f s) = red <$> split newline s.
Proof using Hf.
  rewrite redact_lines. apply split_join.
  - intros E. apply fmap_nil_inv in E. by apply split_not_nil in E.
  - apply Forall_fmap, Forall_forall. intros line Hl. apply red_one_line. by eapply split_clean.
Qed.

Lemma redact_twice s : redact f (redact f s) = redact f s.
Proof using Hf.
  rewrite (redact_lines (redact f s)), split_redact, <- list_fmap_compose, redact_lines. f_equal.
  apply list_fmap_ext. intros i line _. apply red_idempotent.
Qed.

Lemma should_skip_path d :
  shouldSkip f d = true ↔ ∃ p, p ∈ skipPatternsLower f ∧ contains p (to_lower (Path d)) = true.
Proof using Hf.
  unfold shouldSkip. rewrite existsb_exists. split.
  - intros (p & Hp%list_elem_of_In & Hc). exists p. split; [done|].
    apply orb_true_iff in Hc as [Hc|Hc]; [done|].
    destruct (base_mid (Path d)) as [(a & b & E)|[E|E]].
    + rewrite E, !to_lower_app. by apply contains_mid.
    + rewrite E in Hc. change (to_lower ".") with "." in Hc. destruct (skip_not_dot f Hf p Hp) as [H _]. congruence.
    + rewrite E in Hc. change (to_lower "/") with "/" in Hc. destruct (skip_not_dot f Hf p Hp) as [_ H]. congruence.
  - intros (p & Hp & Hc). exists p. split; [by apply list_elem_of_In|]. by rewrite Hc.
Qed.

Lemma apply_spec docs :
  Apply f docs =
    (redact_document f <$> filter (λ d, shouldSkip f d = false) docs,
     Z.of_nat (length (filter (λ d, shouldSkip f d = true) docs)),
     (λ d, if shouldSkip f d then d else redact_document f d) <$> docs).
Proof.
  unfold Apply. induction docs as [|d docs IH] using rev_ind; [done|].
  rewrite fold_left_snoc, IH, !filter_app, !fmap_app. unfold apply_step. csimpl.
  destruct (shouldSkip f d) eqn:E.
  - rewrite filter_cons_False, filter_cons_True by congruence. simpl. rewrite app_nil_r.
    rewrite length_app. simpl. f_equal. f_equal. lia.
  - rewrite filter_cons_True, filter_cons_False by congruence. simpl. by rewrite app_nil_r.
Qed.
End lemmas.

Lemma to_lower_split s x y : to_lower s = x +:+ y → ∃ a b, s = a +:+ b ∧ to_lower a = x ∧ to_lower b = y.
Proof.
  revert s. induction x as [|c x IH]; intros s E; [by exists "", s|]. destruct s as [|d s]; [done|].
  simpl in E. rewrite str_cons_app in E. injection E as <- (a & b & -> & <- & <-)%IH.
  by exists (String d a), b.
Qed.

Lemma occurs_contains p s : occurs p s ↔ contains (to_lower p) (to_lower s) = true.
Proof.
  rewrite contains_spec. split.
  - intros (a & m & b & -> & E). exists (to_lower a), (to_lower b). by rewrite !to_lower_app, E.
  - intros (a & b & (x & y & -> & _ & (m & z & -> & E & _)%to_lower_split)%to_lower_split). by exists x, m, z.
Qed.

Lemma line_cleaned ps line :
  let red := redact_line (to_lower <$> ps) ps line in
  (red = line ∧ ∀ p, p ∈ ps → ¬ occurs p line) ∨ (∃ p, p ∈ ps ∧ occurs p line ∧ red = marker p).
Proof.
  cbv zeta. induction ps as [|p ps IH].
  { left. split; [done|]. by intros p ?%elem_of_nil. }
  csimpl. destruct (contains (to_lower p) (to_lower line)) eqn:E.
  - right. exists p. split_and!; [by left|by apply occurs_contains|done].
  - destruct IH as [[-> H]|(q & Hq & Ho & ->)]; [left|right; exists q; split_and!; [by right|done..]].
    split; [done|]. intros q [->|Hq]%elem_of_cons; [|by apply H]. rewrite occurs_contains. congruence.
Qed.

Lemma redact_cleans s : cleaned_text s (redact New s).
Proof.
  unfold cleaned_text. rewrite (split_redact New new_ok). apply Forall2_fmap_r, Forall_Forall2_diag, Forall_true.
  intros line. unfold compose. pose proof (line_cleaned unwanted_lines line) as H. cbv zeta in H.
  change (to_lower <$> unwanted_lines) with (redactPatternsLower New) in H.
  change (redact_line (redactPatternsLower New) unwanted_lines line) with
    (redact_line (redactPatternsLower New) (redactPatterns New) line) in H.
  destruct H as [[-> H]|(p & Hp & Ho & ->)]; [by apply line_stays|by apply line_goes].
Qed.

Lemma document_cleaned d : cleaned d (redact_document New d).
Proof.
  split; [done|apply redact_cleans|apply redact_cleans|]. intros k. simpl. unfold redact_metadata.
  rewrite map_lookup_imap. destruct (Metadata d !! k) as [v|]; simpl; [|constructor].
  case_bool_decide as E; constructor; [rewrite <- E at 2|]; apply redact_cleans.
Qed.

Lemma skip_unwanted d : shouldSkip New d = false ↔ wanted d.
Proof.
  rewrite <- not_true_iff_false, (should_skip_path New new_ok). unfold wanted.
  change (skipPatternsLower New) with (to_lower <$> unwanted_paths). split.
  - intros H p Hp Ho. apply H. exists (to_lower p). by split; [apply list_elem_of_fmap_2|apply occurs_contains].
  - intros H (q & (p & -> & Hp)%list_elem_of_fmap & Hc). by apply (H p), occurs_contains.
Qed.

(** ** Properties *)

(** Redaction is exact, whatever the case of the letters: the shortcut that
    returns a text without any pattern unchanged does not alter the result; a
    line that contains a pattern becomes the marker of a configured one and every
    other line stays as it is, in its place; what is left has no line with a
    pattern except markers; and redacting twice is redacting once. *)
Theorem redact_exact (s : string) :
  let red := redact_line (redactPatternsLower New) (redactPatterns New) in
  redact New s = join nl (red <$> split newline s) ∧
  split newline (redact New s) = red <$> split newline s ∧
  (∀ line, (red line = line ∧ ¬ sensitive New line) ∨
           (∃ p, p ∈ redactPatterns New ∧ red line = marker p ∧ sensitive New line)) ∧
  (∀ line, line ∈ split newline (redact New s) →
     ¬ sensitive New line ∨ ∃ p, p ∈ redactPatterns New ∧ line = marker p) ∧
  redact New (redact New s) = redact New s.
Proof.
  intros red. split_and!.
  - by apply redact_lines, new_ok.
  - by apply split_redact, new_ok.
  - intros line. by apply red_cases, new_ok.
  - intros line Hl. rewrite split_redact in Hl by apply new_ok.
    apply list_elem_of_fmap in Hl as (l & -> & _).
    destruct (red_cases New new_ok l) as [[-> H]|(p & Hp & E & _)]; [by left|]. right. by exists p.
  - by apply redact_twice, new_ok.
Qed.

(** Apply lets a document through exactly when no skip pattern occurs in its
    path, whatever the case (testing the base name as well changes nothing);
    those it lets through keep their order, with title, content and every
    metadata value redacted and the rest unchanged; documents in are documents
    out plus the count; and applying the filter to its own output changes
    nothing. *)
Theorem apply_exact (docs : list Document) :
  let '(clean, skipped, docs') := Apply New docs in
  clean = redact_document New <$> filter (λ d, shouldSkip New d = false) docs ∧
  Z.of_nat (length docs) = Z.of_nat (length clean) + skipped ∧
  (∀ d, d ∈ docs →
     (shouldSkip New d = true ↔
      ∃ p, p ∈ skipPatternsLower New ∧ contains p (to_lower (Path d)) = true)) ∧
  (∀ d k, Metadata (redact_document New d) !! k = redact New <$> Metadata d !! k) ∧
  Apply New clean = (clean, 0, clean).
Proof.
  rewrite apply_spec.
  assert (∀ d k, Metadata (redact_document New d) !! k = redact New <$> Metadata d !! k) as Hm.
  { intros d k. simpl. unfold redact_metadata. rewrite map_lookup_imap.
    destruct (Metadata d !! k) as [v|]; simpl; [|done]. case_bool_decide; congruence. }
  assert (∀ d, redact_document New (redact_document New d) = redact_document New d) as Hi.
  { intros d. unfold redact_document at 1. cbn -[redact New redact_metadata]. unfold redact_document.
    f_equal; [by apply redact_twice, new_ok..|]. apply map_eq. intros k.
    change (Metadata (redact_document New (redact_document New d)) !! k =
            Metadata (redact_document New d) !! k).
    rewrite !Hm. destruct (Metadata d !! k); [|done]. cbn -[redact New]. f_equal.
    by apply redact_twice, new_ok. }
  set (l := filter (λ d, shouldSkip New d = false) docs).
  split_and!; [done| | |done|].
  - rewrite length_fmap. subst l. clear. induction docs as [|d docs IH]; [done|].
    destruct (shouldSkip New d) eqn:E.
    + rewrite (filter_cons_False _ d), (filter_cons_True _ d) by congruence. simpl. lia.
    + rewrite (filter_cons_True _ d), (filter_cons_False _ d) by congruence. simpl. lia.
  - intros d _. apply should_skip_path, new_ok.
  - assert (∀ d, d ∈ redact_document New <$> l → shouldSkip New d = false) as Hs.
    { intros d (d' & -> & Hd')%list_elem_of_fmap. by apply list_elem_of_filter in Hd' as [Hd' _]. }
    rewrite apply_spec, filter_all by (by apply Forall_forall).
    rewrite filter_none by (apply Forall_forall; intros d Hd; rewrite Hs; done).
    f_equal; [f_equal|].
    + rewrite <- list_fmap_compose. apply list_fmap_ext. intros i d _. apply Hi.
    + etrans; [|apply list_fmap_id]. apply list_fmap_ext.
      intros i d Hd%list_elem_of_lookup_2. rewrite (Hs d Hd).
      apply list_elem_of_fmap in Hd as (d' & -> & _). apply Hi.
Qed.

End privacyfilter.
