(* ===== verification/Search.v ===== *)
(** * discovery/search: the ports of the search index, and their contract test

    [src/go/discovery/search/types.go] and [ports.go]: a query, a result, and the
    index as a record of operations on a world. What the comments of the port
    promise is the class [IndexLaws]. [searchtest/contract.go] is a program that
    drives an index and reports; with the laws it reports nothing. Documents that
    go through [privacyfilter] first give a clean index, whatever keeps the laws. *)

From S2P Require Import Prelude GoStrings GoErr GoFloat PrivacyFilter.

Module search.
Export PrivacyFilter.privacyfilter (Document, mkDocument).
Module F := PrivacyFilter.privacyfilter.

Definition Kind : Type := string.
Definition KindCode : Kind := "code".
Definition KindDoc : Kind := "doc".
Definition KindMemory : Kind := "memory".
Definition KindEtching : Kind := "etching".
Definition KindArtifact : Kind := "artifact".
Definition KindProto : Kind := "proto".
Definition KindConfig : Kind := "config".

Record Query := mkQuery { Text : string; Kinds : list Kind; Workspaces : list string; Limit : Z }.
Record Result := mkResult { res_Document : Document; Score : float64; Snippets : list string }.

Section ports.
Context {W : Type}.

(** Every method takes a context and acts on the world of the index. *)
Record Index := mkIndex {
  IndexDoc : Document → W → option error * W;
  BatchIndex : list Document → W → option error * W;
  Search : Query → W → (list Result * option error) * W;
  Delete : string → W → option error * W;
  Count : W → (Z * option error) * W
}.

(** ** The contract test *)

(** A subtest ends on [t.Fatal], and goes on after [t.Errorf]; the messages of one. *)
Definition subtest (name : string) (msgs : list string) : list string := (λ m, name +:+ ": " +:+ m) <$> msgs.

Definition doc (id kind source title content : string) : Document :=
  mkDocument id kind source "" "" title content ∅ 0.

Section contract.
Context (idx : Index) (new : W).

Definition test_index_and_search : list string :=
  let d := doc "contract:1" KindDoc "test" "Contract Test Document" "This validates the Index port contract." in
  match IndexDoc idx d new with
  | (Some err, _) => ["Index: " +:+ error_text err]
  | (None, w) =>
      match Search idx (mkQuery "contract" [] [] 5) w with
      | ((_, Some err), _) => ["Search: " +:+ error_text err]
      | ((results, None), _) => if (length results =? 0)%nat then ["Search should find indexed document"] else []
      end
  end.

Definition test_batch_and_count : list string :=
  let docs := [doc "batch:1" "" "" "" "first document about testing"; doc "batch:2" "" "" "" "second document about testing"] in
  match BatchIndex idx docs new with
  | (Some err, _) => ["BatchIndex: " +:+ error_text err]
  | (None, w) =>
      match Count idx w with
      | ((_, Some err), _) => ["Count: " +:+ error_text err]
      | ((count, None), _) =>
          if negb (count =? -1) && (count <? 2) then ["Count should be >= 2 or -1, got " +:+ itoa count] else []
      end
  end.

Definition test_delete : list string :=
  let '(_, w) := IndexDoc idx (doc "del:1" "" "" "" "to delete") new in
  match Delete idx "del:1" w with
  | (Some err, _) => ["Delete: " +:+ error_text err]
  | (None, _) => []
  end.

Definition test_empty_search : list string :=
  match Search idx (mkQuery "xyznonexistent999" [] [] 5) new with
  | ((_, Some err), _) => ["Search should not error on empty: " +:+ error_text err]
  | ((results, None), _) =>
      if negb (length results =? 0)%nat then ["expected 0 results, got " +:+ itoa (Z.of_nat (length results))] else []
  end.

Definition test_kind_filter : list string :=
  let docs := [doc "kf:1" KindCode "" "" "func contract test code"; doc "kf:2" KindDoc "" "" "contract test documentation"] in
  let '(_, w) := BatchIndex idx docs new in
  let '((results, _), _) := Search idx (mkQuery "contract" [KindCode] [] 0) w in
  results ≫= λ r, let k := F.Kind (res_Document r) in
    if bool_decide (k = KindCode) then [] else ["kind filter violated: got " +:+ k +:+ ", want code"].

(** The failures that the test reports; every subtest has an index of its own. *)
Definition IndexContractTest : list string :=
  subtest "Index and Search" test_index_and_search ++
  subtest "BatchIndex and Count" test_batch_and_count ++
  subtest "Delete" test_delete ++
  subtest "Empty Search" test_empty_search ++
  subtest "Search with Kind filter" test_kind_filter.
End contract.

(** ** What an index promises *)

(** The documents by ID, after some were added or updated. *)
Definition added (m : gmap string Document) (docs : list Document) : gmap string Document :=
  fold_left (λ m d, <[F.ID d := d]> m) docs m.

(** What a query asks of a document. *)
Definition asked (q : Query) (d : Document) : Prop :=
  contains (Text q) (F.Content d) = true ∧ (Kinds q = [] ∨ F.Kind d ∈ Kinds q).

(** Every index: what a call that succeeds has done. *)
Class IndexLaws (idx : Index) (content : W → gmap string Document) : Prop := {
  index_adds d w w' : IndexDoc idx d w = (None, w') → content w' = added (content w) [d];
  batch_adds ds w w' : BatchIndex idx ds w = (None, w') → content w' = added (content w) ds;
  delete_removes id w w' : Delete idx id w = (None, w') → content w' = base.delete id (content w);
  count_counts w n w' : Count idx w = ((n, None), w') →
    content w' = content w ∧ (n = -1 ∨ n = Z.of_nat (size (content w)));
  search_sound q w rs w' : Search idx q w = ((rs, None), w') →
    content w' = content w ∧
    ∀ r, r ∈ rs → ∃ id, content w !! id = Some (res_Document r) ∧ (Kinds q = [] ∨ F.Kind (res_Document r) ∈ Kinds q)
}.

(** An index whose calls succeed, and that finds a document by the words of its text. *)
Class TextIndexLaws (idx : Index) (content : W → gmap string Document) : Prop := {
  index_succeeds d w : (IndexDoc idx d w).1 = None;
  batch_succeeds ds w : (BatchIndex idx ds w).1 = None;
  delete_succeeds id w : (Delete idx id w).1 = None;
  count_succeeds w : (Count idx w).1.2 = None;
  search_succeeds q w : (Search idx q w).1.2 = None;
  search_matches q w rs w' : Search idx q w = ((rs, None), w') →
    (∀ r, r ∈ rs → asked q (res_Document r)) ∧
    (0 ≤ Limit q → rs = [] → ∀ id d, content w !! id = Some d → ¬ asked q d)
}.

Lemma added_lookup ds m id d :
  added m ds !! id = Some d → (d ∈ ds ∧ F.ID d = id) ∨ m !! id = Some d.
Proof.
  revert m. induction ds as [|x ds IH]; intros m; [by right|]. simpl. intros [[? ?]|H]%IH.
  - left. split; [by right|done].
  - apply lookup_insert_Some in H as [[<- <-]|[_ H]]; [|by right]. left. split; [by left|done].
Qed.

(** What was not skipped stays, when identifiers are distinct. *)
Abbreviation clean ds := (F.redact_document F.New <$> filter (λ d, F.shouldSkip F.New d = false) ds).

Lemma added_keeps ds m id d : (id ∉ F.ID <$> ds) → m !! id = Some d → added m (clean ds) !! id = Some d.
Proof.
  revert m. induction ds as [|x ds IH]; intros m Hn Hm; [done|]. csimpl in Hn. rewrite filter_cons.
  destruct (decide _); csimpl; apply IH; try set_solver.
  rewrite lookup_insert_ne; [done|]. simpl. set_solver.
Qed.

Lemma added_finds ds m d :
  NoDup (F.ID <$> ds) → d ∈ ds → F.shouldSkip F.New d = false →
  added m (clean ds) !! F.ID d = Some (F.redact_document F.New d).
Proof.
  intros Hn Hd Hskip. revert m Hn Hd. induction ds as [|x ds IH]; intros m Hn; [by intros ?%elem_of_nil|].
  csimpl in Hn. apply NoDup_cons in Hn as [Hx Hn]. rewrite filter_cons. intros [->|Hd]%elem_of_cons.
  - rewrite decide_True by done. simpl. by apply added_keeps, lookup_insert_eq.
  - destruct (decide _); simpl; by apply IH.
Qed.

Section laws.
Context (idx : Index) (content : W → gmap string Document) `{!IndexLaws idx content}.

(** C38: A clean index stays clean. When everything goes through the privacy filter into
    an index that keeps the laws, and the call succeeds, then whatever a query finds
    is one of the documents, with a path in which none of the names of secrets
    ([F.unwanted_paths]) occurs, and cleaned ([F.cleaned]): in its title, its text
    and its metadata every line in which one of the marks of a secret
    ([F.unwanted_lines]) occurs is replaced by a line that names the mark, and every
    other line is as it was, in its place. Both are told as literal lists, and
    ASCII case does not matter. When identifiers are distinct, every document whose
    path has no such name is there, cleaned. *)
Theorem filtered_index_is_clean (ds : list Document) (new w : W) :
  content new = ∅ →
  BatchIndex idx (F.Apply F.New ds).1.1 new = (None, w) →
  (∀ q rs w', Search idx q w = ((rs, None), w') →
     content w' = content w ∧
     ∀ r, r ∈ rs → F.wanted (res_Document r) ∧ ∃ d, d ∈ ds ∧ F.cleaned d (res_Document r)) ∧
  (∀ d, d ∈ ds → F.wanted d → NoDup (F.ID <$> ds) →
     ∃ e, content w !! F.ID d = Some e ∧ F.cleaned d e).
Proof using All.
  intros H0. rewrite F.apply_spec. simpl. intros Hw%batch_adds. rewrite H0 in Hw. split.
  - intros q rs w' [Ec Hs]%search_sound. split; [done|].
    intros r Hr. destruct (Hs r Hr) as (id & Hid & _). rewrite Hw in Hid.
    apply added_lookup in Hid as [[Hin _]|Hid]; [|by rewrite lookup_empty in Hid].
    apply list_elem_of_fmap in Hin as (d & Ed & [Hskip Hd]%list_elem_of_filter). rewrite Ed.
    split; [by apply F.skip_unwanted in Hskip|]. exists d. split; [done|apply F.document_cleaned].
  - intros d Hd Hskip%F.skip_unwanted Hnd. exists (F.redact_document F.New d).
    split; [rewrite Hw; by apply added_finds|apply F.document_cleaned].
Qed.

Context `{!TextIndexLaws idx content}.

(** The contract test passes for every index that keeps the laws and starts empty. *)
Theorem contract_test_passes (new : W) : content new = ∅ → IndexContractTest idx new = [].
Proof using All.
  intros H0. unfold IndexContractTest.
  assert (test_index_and_search idx new = []) as ->.
  { unfold test_index_and_search. set (d := doc "contract:1" _ _ _ _).
    pose proof (index_succeeds d new) as E. destruct (IndexDoc idx d new) as [? w] eqn:Ei. simpl in E. subst.
    apply index_adds in Ei. rewrite H0 in Ei.
    set (q := mkQuery "contract" [] [] 5). pose proof (search_succeeds q w) as E.
    destruct (Search idx q w) as [[rs ?] w'] eqn:Es. simpl in E. subst.
    apply search_matches in Es as [_ Hc]. destruct rs as [|r rs]; [|done].
    destruct (Hc ltac:(simpl; lia) eq_refl (F.ID d) d).
    - rewrite Ei. unfold added. simpl. apply lookup_insert_eq.
    - split; [by vm_compute|by left]. }
  assert (test_batch_and_count idx new = []) as ->.
  { unfold test_batch_and_count. set (ds := [doc "batch:1" _ _ _ _; _]).
    pose proof (batch_succeeds ds new) as E. destruct (BatchIndex idx ds new) as [? w] eqn:Eb. simpl in E. subst.
    apply batch_adds in Eb. rewrite H0 in Eb.
    pose proof (count_succeeds w) as E. destruct (Count idx w) as [[n ?] w'] eqn:Ec. simpl in E. subst.
    apply count_counts in Ec as [_ [->| ->]]; [done|]. by rewrite Eb. }
  assert (test_delete idx new = []) as ->.
  { unfold test_delete. destruct (IndexDoc idx _ new) as [? w].
    pose proof (delete_succeeds "del:1" w) as E. destruct (Delete idx "del:1" w) as [? w']. simpl in E. by subst. }
  assert (test_empty_search idx new = []) as ->.
  { unfold test_empty_search. set (q := mkQuery _ _ _ _). pose proof (search_succeeds q new) as E.
    destruct (Search idx q new) as [[rs ?] w'] eqn:Es. simpl in E. subst. apply search_sound in Es as [_ Hs].
    destruct rs as [|r rs]; [done|]. destruct (Hs r) as (id & Hid & _); [by left|]. by rewrite H0, lookup_empty in Hid. }
  assert (test_kind_filter idx new = []) as ->; [|done].
  unfold test_kind_filter. destruct (BatchIndex idx _ new) as [? w]. set (q := mkQuery _ _ _ _).
  pose proof (search_succeeds q w) as E. destruct (Search idx q w) as [[rs ?] w'] eqn:Es. simpl in E. subst.
  apply search_sound in Es as [_ Hs].
  induction rs as [|r rs IH]; [done|]. csimpl. rewrite IH by (intros x Hx; apply Hs; by right).
  destruct (Hs r) as (_ & _ & [?|Hk]); [by left|done|]. simpl in Hk. apply list_elem_of_singleton in Hk.
  by rewrite bool_decide_eq_true_2.
Qed.
End laws.
End ports.
Arguments Index : clear implicits.

(** ** Witnesses *)

(** An index in memory: the documents by ID, searched one by one. *)
Definition matches_query (q : Query) (d : Document) : bool :=
  contains (Text q) (F.Content d) && (bool_decide (Kinds q = []) || bool_decide (F.Kind d ∈ Kinds q)).
Definition memory : Index (gmap string Document) := mkIndex
  (λ d m, (None, added m [d]))
  (λ ds m, (None, added m ds))
  (λ q m, (((λ d, mkResult d zero64 []) <$> filter (λ d, matches_query q d = true) (map_to_list m).*2, None), m))
  (λ id m, (None, base.delete id m))
  (λ m, ((Z.of_nat (size m), None), m)).

Lemma matches_asked q d : matches_query q d = true ↔ asked q d.
Proof. unfold matches_query, asked. by rewrite andb_true_iff, orb_true_iff, !bool_decide_eq_true. Qed.

Lemma memory_found q (m : gmap string Document) r :
  r ∈ (Search memory q m).1.1 ↔ ∃ id d, m !! id = Some d ∧ asked q d ∧ r = mkResult d zero64 [].
Proof.
  simpl. rewrite list_elem_of_fmap. setoid_rewrite list_elem_of_filter. setoid_rewrite list_elem_of_fmap.
  setoid_rewrite matches_asked. split.
  - intros (? & -> & Ha & [id d] & -> & Hp%elem_of_map_to_list). by exists id, d.
  - intros (id & d & Hid & Ha & ->). exists d. do 2 (split; [done|]). exists (id, d). by rewrite elem_of_map_to_list.
Qed.

#[export] Instance memory_laws : IndexLaws memory id.
Proof.
  split; try by (intros; simplify_eq/=).
  - intros m n w' [= <- <-]. split; [done|by right].
  - intros q m rs w' E. split; [by injection E|]. intros r Hr.
    assert (r ∈ (Search memory q m).1.1) as (id0 & d0 & Hid & [_ Hk] & ->)%memory_found by (by rewrite E).
    by exists id0.
Qed.

#[export] Instance memory_text_laws : TextIndexLaws memory id.
Proof.
  split; try done. intros q m rs w' E. split.
  - intros r Hr. by assert (r ∈ (Search memory q m).1.1) as (id & d & _ & Ha & ->)%memory_found by (by rewrite E).
  - intros _ -> id d Hid Ha.
    assert (mkResult d zero64 [] ∈ (Search memory q m).1.1) as Hr by (apply memory_found; by exists id, d).
    rewrite E in Hr. by apply elem_of_nil in Hr.
Qed.

Lemma contract_test_passes_witness : IndexContractTest memory ∅ = [].
Proof. apply (contract_test_passes memory id). reflexivity. Defined.

(** A file with a key, and one with a secret in its name: the first is found without
    its line, the second is not there. *)
Definition demo_file : Document :=
  mkDocument "1" KindCode "" "main.go" "go" "main" ("package main" +:+ F.nl +:+ "Api_Key=42") ∅ 0.
Definition demo_docs : list Document := [demo_file; mkDocument "2" KindConfig "" "app/.ENV" "" "env" "package main" ∅ 0].

Lemma filtered_index_is_clean_witness :
  let w := (BatchIndex memory (F.Apply F.New demo_docs).1.1 ∅).2 in
  (∃ e, id w !! "1" = Some e ∧ F.cleaned demo_file e ∧
     F.Content e = "package main" +:+ F.nl +:+ "[REDACTED — contains API_KEY]") ∧
  Forall (λ r, F.wanted (res_Document r)) (Search memory (mkQuery "main" [] [] 9) w).1.1.
Proof.
  intros w. destruct (filtered_index_is_clean memory id demo_docs ∅ w) as [Hs Ha]; [reflexivity|reflexivity|].
  split.
  - destruct (Ha demo_file) as (e & He & Hc).
    + by left.
    + apply F.skip_unwanted. vm_compute. reflexivity.
    + by apply (bool_decide_unpack _); vm_compute.
    + exists e. split; [exact He|]. split; [exact Hc|]. revert He. vm_compute. by intros [= <-].
  - apply List.Forall_forall. intros r Hr. apply list_elem_of_In in Hr.
    destruct (Hs (mkQuery "main" [] [] 9) _ _ eq_refl) as [_ H]. by apply H.
Defined.

(** The contract test does not look for the document that it deleted: an index whose
    Delete does nothing passes. *)
Definition forgetful : Index (gmap string Document) :=
  mkIndex (IndexDoc memory) (BatchIndex memory) (Search memory) (λ id m, (None, m)) (Count memory).
Example forgetful_delete_passes : IndexContractTest forgetful ∅ = [].
Proof. vm_compute. reflexivity. Qed.

End search.
