(* ===== verification/Coordination.v ===== *)
(** * platform/coordination: subjects and holders

    Models [src/go/platform/coordination/coordination.go]: the validation of a
    subject that becomes part of a path, and the record of who is inside a
    window. The path separator is [/]. *)

From Stdlib Require Import Ascii.
From S2P Require Import Prelude GoStrings GoErr.

Module coordination.

Definition ErrBadSubject : error :=
  ENew "coordination.ErrBadSubject"
    "subject may not be empty, a parent reference, or contain a path separator".
Definition ErrLocked : error :=
  ENew "coordination.ErrLocked" "another holder is already inside this window".
Definition ErrStaleLock : error :=
  ENew "coordination.ErrStaleLock"
    "the window is claimed by a holder record that was left behind".

Definition PathSeparator : ascii := "/"%char.

Definition bad_subject (subject : string) : error :=
  EFmt (PText (quote subject +:+ ": ") (PWrap ErrBadSubject PNil)).

(** [Subject.Validate] *)
Definition Validate (subject : string) : option error :=
  if bool_decide (subject = "") || bool_decide (subject = ".") || bool_decide (subject = "..")
  then Some (bad_subject subject)
  else if contains_byte PathSeparator subject || contains_byte "/"%char subject
  then Some (bad_subject subject)
  else if contains ".." subject then Some (bad_subject subject)
  else None.

(** [Since] is [None] for the zero time. *)
Record Holder := mkHolder { PID : Z; Host : string; Since : option Z; Purpose : string }.

#[export] Instance Holder_eq_dec : EqDecision Holder.
Proof. solve_decision. Defined.

(** The description of process [pid] on [host] (when its name is known) at [now]. *)
Definition Self (pid : Z) (host : option string) (now : Z) (purpose : string) : Holder :=
  mkHolder pid (match host with Some h => h | None => "unknown" end) (Some now) purpose.

(** [RFC3339] renders a time. *)
Definition Holder_String (RFC3339 : option Z → string) (h : Holder) : string :=
  let purpose := if bool_decide (Purpose h = "") then "unstated purpose" else Purpose h in
  "pid " +:+ itoa (PID h) +:+ " on " +:+ Host h +:+ " since " +:+ RFC3339 (Since h) +:+
  " (" +:+ purpose +:+ ")".

Definition Age (h : Holder) (now : Z) : Z :=
  match Since h with None => 0 | Some t => time_sub now t end.

(** ** The contract of a window

    What a [Waiter] and an [Excluder] promise of the window of one subject, for
    any number of callers. A window is free, held by a caller, or abandoned: its
    record was left behind by a holder that is gone. *)

Inductive window := Free | Held (t : nat) | Abandoned.

Inductive window_step : window → window → Prop :=
| window_enter t : window_step Free (Held t)
| window_leave t : window_step (Held t) Free
| window_abandon t : window_step (Held t) Abandoned.

(** An implementation: its states and steps, when its window has no record, and
    which callers take themselves to be inside. *)
Class Window (St : Type) := mkWindow {
  w_start : St;
  w_step : St → St → Prop;
  w_free : St → Prop;
  w_inside : St → nat → Prop
}.

Definition reachable `{Window St} (s : St) : Prop := rtc w_step w_start s.

Definition presents `{Window St} (s : St) (w : window) : Prop :=
  match w with
  | Free => w_free s
  | Held t => w_inside s t
  | Abandoned => ¬ w_free s ∧ ∀ t, ¬ w_inside s t
  end.

(** What it promises. *)
Class WindowLaws (St : Type) `{Window St} := {
  w_starts : w_free w_start;
  w_one : ∀ s w w', reachable s → presents s w → presents s w' → w = w';
  w_sim : ∀ s s' w, reachable s → w_step s s' → presents s w →
    ∃ w', presents s' w' ∧ (w' = w ∨ window_step w w');
  w_enters : ∀ s, reachable s → w_free s → ∃ s' t, rtc w_step s s' ∧ w_inside s' t
}.

(** How an implementation keeps its promises. *)
Section presents.
Context `{Window St}.
Implicit Types s : St.

(** At most one caller is inside, and then the window is not free. *)
Definition guarded s : Prop :=
  (∀ t, w_inside s t → ¬ w_free s) ∧ (∀ t t', w_inside s t → w_inside s t' → t = t').

Lemma guarded_one s w w' : guarded s → presents s w → presents s w' → w = w'.
Proof.
  intros [Hf Ho] Hw Hw'. destruct w as [|t|], w' as [|t'|]; simpl in *; try done.
  - by destruct (Hf t').
  - by destruct Hw'.
  - by destruct (Hf t).
  - f_equal. by apply Ho.
  - by destruct Hw' as [_ Hw']; destruct (Hw' t).
  - by destruct Hw.
  - by destruct Hw as [_ Hw]; destruct (Hw t').
Qed.

Lemma presents_frame s s' w :
  (w_free s' ↔ w_free s) → (∀ t, w_inside s' t ↔ w_inside s t) → presents s w → presents s' w.
Proof.
  intros Ef Ei. destruct w as [|t|]; simpl; [by rewrite Ef|by rewrite Ei|].
  rewrite Ef. intros [? Ha]. split; [done|]. intros t. rewrite Ei. apply Ha.
Qed.

(** The holder leaves, and its record is removed or not. *)
Lemma leave_sim s s' t w :
  guarded s → w_inside s t → (∀ t1, w_inside s' t1 → w_inside s t1 ∧ t1 ≠ t) →
  w_free s' ∨ ¬ w_free s' → presents s w →
  ∃ w', presents s' w' ∧ (w' = w ∨ window_step w w').
Proof.
  intros Hg Ht Hin Hf Hw. assert (w = Held t) as -> by (by eapply guarded_one).
  destruct Hf as [Hf|Hf]; [exists Free; split; [done|right; constructor]|].
  exists Abandoned. split; [|right; constructor]. split; [done|].
  intros t1 H1. apply Hin in H1 as [H1 Hne]. by apply Hne, Hg.
Qed.

(** A caller enters a free window. *)
Lemma enter_sim s s' t w :
  guarded s → w_free s → w_inside s' t → presents s w →
  ∃ w', presents s' w' ∧ (w' = w ∨ window_step w w').
Proof.
  intros Hg Hf Ht Hw. assert (w = Free) as -> by (by eapply guarded_one).
  exists (Held t). split; [done|right; constructor].
Qed.

End presents.

(** A client: callers that read a shared resource and write back what [op] makes
    of what they read, both while they are inside; [mid] holds what those in the
    middle of an update have read. A caller in the middle does not leave, but it
    can die. *)
Section client.
Context `{HW : WindowLaws St} {R : Type} (op : nat → R → R).

Record client := mkClient { win : St; res : R; mid : gmap nat R; updates : list nat }.

Inductive client_step (c : client) : client → Prop :=
| client_window s' : w_step (win c) s' →
    (∀ t r, mid c !! t = Some r → w_inside s' t) →
    client_step c (mkClient s' (res c) (mid c) (updates c))
| client_read t : w_inside (win c) t →
    client_step c (mkClient (win c) (res c) (<[t:=res c]> (mid c)) (updates c))
| client_write t r : mid c !! t = Some r →
    client_step c (mkClient (win c) (op t r) (delete t (mid c)) (updates c ++ [t]))
| client_dies t :
    client_step c (mkClient (win c) (res c) (delete t (mid c)) (updates c)).

Definition client_start (r0 : R) : client := mkClient w_start r0 ∅ [].

Record client_inv (r0 : R) (c : client) : Prop := {
  ci_reach : reachable (win c);
  ci_mid : ∀ t r, mid c !! t = Some r → w_inside (win c) t ∧ r = res c;
  ci_res : res c = fold_left (λ r t, op t r) (updates c) r0
}.

Lemma inside_one (s : St) t t' : reachable s → w_inside s t → w_inside s t' → t = t'.
Proof using Type*. intros Hr H1 H2. pose proof (w_one s (Held t) (Held t') Hr H1 H2). congruence. Qed.

Lemma client_inv_step r0 c c' : client_inv r0 c → client_step c c' → client_inv r0 c'.
Proof using Type*.
  intros [Hr Hm Hf] Hs. destruct Hs as [s' Hs Hin|t Ht|t r Ht|t]; split; simpl; try done.
  - by eapply rtc_r.
  - intros t r E. split; [by eapply Hin|by eapply Hm].
  - intros t' r' [[<- <-]|[_ E]]%lookup_insert_Some; [done|by apply Hm].
  - intros t' r' [Hne E]%lookup_delete_Some. exfalso. apply Hne.
    eapply inside_one; [exact Hr|by eapply Hm|by eapply Hm].
  - rewrite fold_left_snoc, <- Hf. by destruct (Hm _ _ Ht) as [_ ->].
  - intros t' r' [_ E]%lookup_delete_Some. by apply Hm.
Qed.

(** No update is lost: the resource is always what the completed updates make of
    its first value, one after the other. *)
Theorem no_lost_update r0 c :
  rtc client_step (client_start r0) c →
  res c = fold_left (λ r t, op t r) (updates c) r0.
Proof using Type*.
  intros Hr. apply (ci_res r0). apply (rtc_invariant client_step (client_inv r0) (client_start r0)); [|split|done].
  - intros c1 c2. apply client_inv_step.
  - apply rtc_refl.
  - simpl. intros. simplify_map_eq.
  - done.
Qed.

(** An implementation refines the abstract window. *)
Lemma window_refined (s : St) : reachable s → ∃ w, presents s w ∧ rtc window_step Free w.
Proof using Type*.
  assert (∀ s0 w0, rtc w_step s0 s → reachable s0 → presents s0 w0 → rtc window_step Free w0 →
    ∃ w, presents s w ∧ rtc window_step Free w) as Hgen.
  { intros s0 w0 Hr. revert w0. induction Hr as [|s0 s1 s2 Hs _ IH]; [eauto|].
    intros w0 H0 Hp Hw. destruct (w_sim _ _ _ H0 Hs Hp) as (w1 & Hp1 & Hw1).
    apply (IH w1); [by eapply rtc_r|done|]. destruct Hw1 as [->|Hw1]; [done|by eapply rtc_r]. }
  intros Hr. apply (Hgen w_start Free); [done|apply rtc_refl|apply w_starts|apply rtc_refl].
Qed.

End client.

(** ** Specification *)

(** A file name that a join keeps as one element under its directory. *)
Definition single_element (name : string) : Prop :=
  name ≠ "" ∧ name ≠ "." ∧ name ≠ ".." ∧ contains_byte PathSeparator name = false.

(** ** Lemmas *)

Lemma validate_cases subject :
  (Validate subject = None ∧ single_element subject ∧ contains ".." subject = false) ∨
  (Validate subject = Some (bad_subject subject) ∧
   (¬ single_element subject ∨ contains ".." subject = true)).
Proof.
  unfold Validate, single_element. repeat case_bool_decide; simpl; try (right; naive_solver).
  change (contains_byte "/" subject) with (contains_byte PathSeparator subject).
  destruct (contains_byte PathSeparator subject), (contains ".." subject); simpl; naive_solver.
Qed.

Lemma single_element_suffix subject suffix :
  single_element subject → (2 < str_len suffix)%nat → contains_byte PathSeparator suffix = false →
  single_element (subject +:+ suffix).
Proof.
  intros (Hne & H1 & H2 & Hs) Hlen Hc. unfold single_element.
  rewrite contains_byte_app, Hs, Hc.
  assert (∀ a b, str_len (a +:+ b) = str_len a + str_len b)%nat as Hl.
  { intros a b. induction a as [|c a IH]; [done|]. rewrite str_cons_app. cbn [str_len]. rewrite IH. done. }
  assert (∀ s, (str_len s ≤ 2)%nat → subject +:+ suffix ≠ s) as Hno.
  { intros s Hle E. apply (f_equal str_len) in E. rewrite Hl in E. lia. }
  split_and!; [apply Hno; simpl; lia..|done].
Qed.

(** ** Properties *)

(** Validate accepts a subject exactly when it is a file name of its own: not
    empty, not "." or "..", without a separator and without a parent reference
    inside; any other gives an error that is ErrBadSubject. So the lock and the
    fence file of an accepted subject are single elements under the directory
    of the store, no two subjects share either, and no lock file of one subject
    is the fence file of another. *)
Theorem validate_safe (s t : string) :
  (Validate s = None ↔ single_element s ∧ contains ".." s = false) ∧
  (Validate s ≠ None → ∃ e, Validate s = Some e ∧ is_err "coordination.ErrBadSubject" e = true) ∧
  (Validate s = None → single_element (s +:+ ".lock") ∧ single_element (s +:+ ".fence")) ∧
  (s +:+ ".lock" = t +:+ ".lock" ∨ s +:+ ".fence" = t +:+ ".fence" → s = t) ∧
  s +:+ ".lock" ≠ t +:+ ".fence".
Proof.
  split_and!.
  - destruct (validate_cases s) as [(E & H)|(E & H)]; rewrite E; [done|].
    split; [done|]. intros [H1 H2]. destruct H as [H|H]; [done|congruence].
  - intros H. destruct (validate_cases s) as [(E & _)|(E & _)]; [done|]. eexists. by split; [exact E|].
  - intros H. destruct (validate_cases s) as [(_ & Hs & _)|(E & _)]; [|congruence].
    split; (apply single_element_suffix; [done|simpl; lia|done]).
  - intros [E|E]; by apply str_app_inj_r in E.
  - intros E. replace ".lock" with (".loc" +:+ "k") in E by done.
    replace ".fence" with (".fenc" +:+ "e") in E by done. rewrite <- !str_app_assoc in E.
    generalize dependent (s +:+ ".loc"). generalize (t +:+ ".fenc"). clear.
    intros a b. revert a. induction b as [|c b IH]; intros [|d a] E;
      rewrite ?str_cons_app, ?str_nil_app in E; try done.
    + destruct a; rewrite ?str_cons_app, ?str_nil_app in E; done.
    + destruct b; rewrite ?str_cons_app, ?str_nil_app in E; done.
    + injection E as _ E. by apply (IH a).
Qed.

End coordination.
