(* ===== verification/FileLock.v ===== *)
(** * platform/coordination/filelock: the waiting lock over a directory

    Models [src/go/platform/coordination/filelock/filelock.go] for one subject of
    one store: its lock file, its fence file, and any number of callers of
    Acquire, in any interleaving of their file operations. A caller is a thread
    with a program counter; a step is one file operation, which may fail where
    the code has an error path, or the death of a caller. Temporary files and
    tombs, which only their creator names, are part of the program counter. *)

From S2P Require Import Prelude GoStrings GoErr Coordination.

Module filelock.
Import coordination.

Definition LockSuffix : string := ".lock".
Definition FenceSuffix : string := ".fence".
Definition DefaultPollMin : Z := 100 * Millisecond.
Definition DefaultPollMax : Z := 400 * Millisecond.

Record Options := mkOptions { PollMin : Z; PollMax : Z; StaleAfter : Z }.

(** [rand n] is [rand.Int64N(n)]. *)
Definition jitteredPoll (rand : Z → Z) (o : Options) : Z :=
  let '(minWait, maxWait) :=
    if (PollMin o <=? 0) || (PollMax o <=? PollMin o)
    then (DefaultPollMin, DefaultPollMax) else (PollMin o, PollMax o) in
  wrap64 (minWait + rand (wrap64 (maxWait - minWait))).

(** The name of a file of a subject, under the directory. *)
Definition path (subject suffix : string) : error + string :=
  match Validate subject with
  | Some err => inl (EFmt (PWrap err PNil))
  | None => inr (subject +:+ suffix)
  end.

(** What [os.Stat] reports of a file: its inode and modification time. *)
Record FileInfo := mkFileInfo { ino : Z; mtime : Z }.

(** The identity of a file and the bytes it holds. The bytes are the JSON of a
    holder, which determines it. *)
Record record := mkRecord { fi : FileInfo; raw : Holder }.

Definition SameFile (a b : FileInfo) : bool := ino a =? ino b.

(** [record.same], for the record now at the path. *)
Definition same (r at_path : record) : bool :=
  SameFile (fi at_path) (fi r) && bool_decide (raw at_path = raw r).

(** [readHolder]: the holder of the record that is read. *)
Definition readHolder (r : record) : Holder :=
  match Since (raw r) with
  | Some _ => raw r
  | None => mkHolder (PID (raw r)) (Host (raw r)) (Some (mtime (fi r))) (coordination.Purpose (raw r))
  end.

(** Where an operator finds the record and the counter; and who is inside, for the
    record now at the path. *)
Definition LockPath (subject : string) : error + string := path subject LockSuffix.
Definition FencePath (subject : string) : error + string := path subject FenceSuffix.
Definition HolderOf (subject : string) (at_path : option record) : Holder * bool * option error :=
  match LockPath subject with
  | inl err => (mkHolder 0 "" None "", false, Some err)
  | inr _ => match at_path with
             | None => (mkHolder 0 "" None "", false, None)
             | Some r => (readHolder r, true, None)
             end
  end.

Definition occupant (RFC3339 : option Z → string) (at_path : option record) : string :=
  match at_path with
  | None => "nobody (the window was free at the last look)"
  | Some r =>
      let h := readHolder r in
      if (PID h =? 0) && bool_decide (Host h = "")
      then "an unreadable record (present, but not parseable as a holder)"
      else Holder_String RFC3339 h
  end.

(** The counter to write, from the content of the fence file. *)
Definition next_fence (file : option Z) : Z :=
  match file with None => 1 | Some n => wrap_u64 (n + 1) end.

(** The test of [reclaim]: is the record past the reclaim age? *)
Definition stale (o : Options) (now : Z) (r : record) : bool :=
  negb (StaleAfter o <=? 0) && negb (Age (readHolder r) now <=? StaleAfter o).

(** Where a call of Acquire is. *)
Inductive pc :=
| Attempt                        (** the top of the loop of Acquire *)
| Staged (r : record)            (** claim: the temporary file is written and stat'ed *)
| Linked (r : record)            (** claim: linked, the directory not yet synced *)
| Refused                        (** the link found an existing target *)
| Judged (j : record)            (** reclaim: [j] was read and is too old *)
| Aside (j moved : record)       (** takeAside: [moved] was renamed onto the tomb *)
| Waiting                        (** the select of Acquire *)
| Entered (r : record)           (** claim succeeded *)
| FenceRead (r : record) (n : Z) (** advanceFence: the counter is read, [n] to be written *)
| Inside (r : record) (n : Z)    (** Acquire returned with fence [n] *)
| Leaving (r : record)           (** releaseOwn, before its test *)
| Removing (r : record)          (** releaseOwn, the test passed *)
| Gone.                          (** released, or Acquire returned an error *)

Record State := mkState {
  lock : option record;
  fence : option Z;
  threads : gmap nat pc;
  now : Z;
  used : list record;   (** every record ever staged *)
  handed : list Z;      (** the fences Acquire returned, in order *)
  writes : nat          (** how often the fence file was replaced *)
}.

Definition to (t : nat) (p : pc) (s : State) : State :=
  mkState (lock s) (fence s) (<[t:=p]> (threads s)) (now s) (used s) (handed s) (writes s).
Definition set_lock (l : option record) (s : State) : State :=
  mkState l (fence s) (threads s) (now s) (used s) (handed s) (writes s).
Definition stage (r : record) (s : State) : State :=
  mkState (lock s) (fence s) (threads s) (now s) (used s ++ [r]) (handed s) (writes s).
Definition write_fence (n : Z) (s : State) : State :=
  mkState (lock s) (Some n) (threads s) (now s) (used s) (handed s) (S (writes s)).
Definition hand (n : Z) (s : State) : State :=
  mkState (lock s) (fence s) (threads s) (now s) (used s) (handed s ++ [n]) (writes s).
Definition tick (d : Z) (s : State) : State :=
  mkState (lock s) (fence s) (threads s) (now s + d) (used s) (handed s) (writes s).
Definition kill (t : nat) (s : State) : State :=
  mkState (lock s) (fence s) (delete t (threads s)) (now s) (used s) (handed s) (writes s).

Section steps.
Context (o : Options).

Definition at_ (s : State) (t : nat) (p : pc) : Prop := threads s !! t = Some p.

(** A record just written is told apart from every earlier one: its file is new
    and it carries the process and the instant that wrote it. *)
Definition fresh (r : record) (s : State) : Prop :=
  Since (raw r) = Some (now s) ∧ Forall (λ r', same r r' = false) (used s).

(** [Acquire]: the loop around the attempts, and its select. *)
Inductive acquire_step (s : State) : State → Prop :=
| step_start t : threads s !! t = None → acquire_step s (to t Attempt s)
| step_poll t : at_ s t Waiting → acquire_step s (to t Attempt s)
| step_cancel t : at_ s t Waiting → acquire_step s (to t Gone s).

(** [claim]: the record is staged, linked, and the directory synced. *)
Inductive claim_step (s : State) : State → Prop :=
| step_stage t r : at_ s t Attempt → fresh r s → claim_step s (to t (Staged r) (stage r s))
| step_stage_fail t : at_ s t Attempt → claim_step s (to t Gone s)
| step_link t r : at_ s t (Staged r) → lock s = None →
    claim_step s (to t (Linked r) (set_lock (Some r) s))
| step_link_exists t r r' : at_ s t (Staged r) → lock s = Some r' → claim_step s (to t Refused s)
| step_link_fail t r : at_ s t (Staged r) → claim_step s (to t Gone s)
| step_sync t r : at_ s t (Linked r) → claim_step s (to t (Entered r) s)
| step_sync_fail t r : at_ s t (Linked r) → claim_step s (to t (Leaving r) s).

(** [advanceFence]: the counter is read, then replaced by its successor. A
    failed sync of the directory comes after the replacement. *)
Inductive fence_step (s : State) : State → Prop :=
| step_fence_read t r : at_ s t (Entered r) →
    fence_step s (to t (FenceRead r (next_fence (fence s))) s)
| step_fence_read_fail t r : at_ s t (Entered r) → fence_step s (to t (Leaving r) s)
| step_fence_write t r n : at_ s t (FenceRead r n) →
    fence_step s (to t (Inside r n) (hand n (write_fence n s)))
| step_fence_write_fail t r n : at_ s t (FenceRead r n) → fence_step s (to t (Leaving r) s)
| step_fence_sync_fail t r n : at_ s t (FenceRead r n) →
    fence_step s (to t (Leaving r) (write_fence n s)).

(** The release that [enter] returns: its first call leads to [releaseOwn]. *)
Inductive enter_step (s : State) : State → Prop :=
| step_release t r n : at_ s t (Inside r n) → enter_step s (to t (Leaving r) s).

(** [releaseOwn]: the test, in which any failure to look is a no, then the
    removal of whatever is at the path. *)
Inductive release_step (s : State) : State → Prop :=
| step_test t r r' : at_ s t (Leaving r) → lock s = Some r' → same r r' = true →
    release_step s (to t (Removing r) s)
| step_test_other t r : at_ s t (Leaving r) → release_step s (to t Gone s)
| step_remove t r : at_ s t (Removing r) → release_step s (to t Gone (set_lock None s))
| step_remove_fail t r : at_ s t (Removing r) → release_step s (to t Gone s).

(** [reclaim]: the record at the path is judged, or left because reclaim is off,
    the record is young, or it could not be read. *)
Inductive reclaim_step (s : State) : State → Prop :=
| step_no_reclaim t : at_ s t Refused → reclaim_step s (to t Waiting s)
| step_judge t j : at_ s t Refused → lock s = Some j → stale o (now s) j = true →
    reclaim_step s (to t (Judged j) s).

(** [takeAside]: whatever is at the path is renamed onto the tomb and compared
    with the judged record; a live one is linked back, if its place is free. *)
Inductive aside_step (s : State) : State → Prop :=
| step_aside_gone t j : at_ s t (Judged j) → lock s = None → aside_step s (to t Waiting s)
| step_aside t j m : at_ s t (Judged j) → lock s = Some m →
    aside_step s (to t (Aside j m) (set_lock None s))
| step_aside_fail t j : at_ s t (Judged j) → aside_step s (to t Gone s)
| step_reclaimed t j m : at_ s t (Aside j m) → same j m = true → aside_step s (to t Waiting s)
| step_restore t j m : at_ s t (Aside j m) → same j m = false → lock s = None →
    aside_step s (to t Waiting (set_lock (Some m) s))
| step_two_inside t j m r' : at_ s t (Aside j m) → same j m = false → lock s = Some r' →
    aside_step s (to t Gone s)
| step_aside_lost t j m : at_ s t (Aside j m) → aside_step s (to t Gone s).

(** The death of a caller at any point, and time. *)
Inductive world_step (s : State) : State → Prop :=
| step_crash t p : at_ s t p → world_step s (kill t s)
| step_tick d : 0 <= d → world_step s (tick d s).

Inductive step (s s' : State) : Prop :=
| by_acquire : acquire_step s s' → step s s'
| by_claim : claim_step s s' → step s s'
| by_fence : fence_step s s' → step s s'
| by_enter : enter_step s s' → step s s'
| by_release : release_step s s' → step s s'
| by_reclaim : reclaim_step s s' → step s s'
| by_aside : aside_step s s' → step s s'
| by_world : world_step s s' → step s s'.

End steps.

(** A store whose fence file holds [f], with nobody inside. *)
Definition init (f : option Z) (t0 : Z) : State := mkState None f ∅ t0 [] [] 0.

(** The record of a caller that is inside: between the link and the remove. *)
Definition owns (p : pc) : option record :=
  match p with
  | Linked r | Entered r | FenceRead r _ | Inside r _ | Leaving r | Removing r => Some r
  | _ => None
  end.

(** ** Invariants *)

(** A thread's own record, from the moment it is staged. *)
Definition mine (p : pc) : option record :=
  match p with Staged r => Some r | _ => owns p end.

Definition reclaiming (p : pc) : bool :=
  match p with Judged _ | Aside _ _ => true | _ => false end.

Definition pending (p : pc) : option Z :=
  match p with FenceRead _ n => Some n | _ => None end.

(** Without reclaim: whoever is inside has the lock file, and is alone. *)
Record exclusive (s : State) : Prop := {
  ex_quiet : ∀ t p, threads s !! t = Some p → reclaiming p = false;
  ex_lock : ∀ t p r, threads s !! t = Some p → owns p = Some r → lock s = Some r;
  ex_one : ∀ t t' p p' r r', threads s !! t = Some p → threads s !! t' = Some p' →
    owns p = Some r → owns p' = Some r' → t = t'
}.

(** Two threads never own records that could be taken for each other. *)
Record distinct_records (s : State) : Prop := {
  dr_used : ∀ t p r, threads s !! t = Some p → mine p = Some r → r ∈ used s;
  dr_apart : ∀ t t' p p' r r', threads s !! t = Some p → threads s !! t' = Some p' →
    mine p = Some r → mine p' = Some r' → t ≠ t' → same r r' = false
}.

(** The counter, as long as it has not gone through all of its 64 bits. *)
Definition counts (f0 : option Z) (s : State) : Prop :=
  default 0 f0 + Z.of_nat (writes s) < 2 ^ 64 →
  (fence s = None ∧ f0 = None ∧ writes s = 0%nat ∨
   fence s = Some (default 0 f0 + Z.of_nat (writes s))) ∧
  Sorted.StronglySorted Z.lt (handed s) ∧
  Forall (λ n, default 0 f0 < n ≤ default 0 f0 + Z.of_nat (writes s)) (handed s) ∧
  (∀ t p n, threads s !! t = Some p → pending p = Some n →
     default 0 f0 + Z.of_nat (writes s) + 1 < 2 ^ 64 → n = default 0 f0 + Z.of_nat (writes s) + 1).

(** ** Lemmas *)

Lemma same_refl r : same r r = true.
Proof. unfold same, SameFile. by rewrite Z.eqb_refl, bool_decide_eq_true_2. Qed.

Lemma same_sym r r' : same r r' = same r' r.
Proof.
  unfold same, SameFile. rewrite Z.eqb_sym. f_equal. apply bool_decide_ext. split; by intros ->.
Qed.

Lemma never_stale o now r : StaleAfter o ≤ 0 → stale o now r = false.
Proof. intros H. unfold stale. by rewrite (proj2 (Z.leb_le _ _) H). Qed.

(** The rule a step was made by. *)
Ltac step_cases Hs :=
  let H := fresh in destruct Hs as [H|H|H|H|H|H|H|H]; inversion H; subst; clear H.

(** Moves one thread and looks at another. *)
Ltac look :=
  repeat match goal with
  | H : <[_ := _]> _ !! _ = Some _ |- _ => apply lookup_insert_Some in H as [[<- <-]|[? H]]
  | H : delete _ _ !! _ = Some _ |- _ => apply lookup_delete_Some in H as [? H]
  end; simpl in *.

Section off.
Context (o : Options) (Hoff : StaleAfter o ≤ 0).

Lemma exclusive_step s s' : exclusive s → step o s s' → exclusive s'.
Proof using Hoff.
  intros [Hq Hl Ho] Hs. step_cases Hs; unfold at_ in *; simpl;
    try (rewrite never_stale in *; done);
    try match goal with H : threads _ !! _ = Some (Judged _) |- _ => by apply Hq in H end;
    try match goal with H : threads _ !! _ = Some (Aside _ _) |- _ => by apply Hq in H end.
  all: split; simpl; intros; look; simplify_eq; try done; eauto 4.
  all: try match goal with
    | H1 : threads ?s !! ?t = Some ?p, H2 : owns ?p = Some _, H3 : lock ?s = None |- _ =>
        rewrite (Hl _ _ _ H1 H2) in H3; done
    end.
  all: try (exfalso; match goal with
    | H1 : threads ?s !! ?t = Some ?p, H2 : owns ?p = Some _, H3 : threads ?s !! ?t' = Some _, H4 : ?t' ≠ ?t |- _ =>
        apply H4; eapply Ho; [exact H3|exact H1|reflexivity|exact H2]
    end).
Qed.

Lemma next_fence_counts f0 s :
  (fence s = None ∧ f0 = None ∧ writes s = 0%nat ∨
   fence s = Some (default 0 f0 + Z.of_nat (writes s))) →
  0 ≤ default 0 f0 → default 0 f0 + Z.of_nat (writes s) + 1 < 2 ^ 64 →
  next_fence (fence s) = default 0 f0 + Z.of_nat (writes s) + 1.
Proof.
  intros [(-> & -> & ->)| ->] H0 Hlt; [done|]. simpl. unfold wrap_u64. apply Z.mod_small. lia.
Qed.

Lemma sorted_snoc (l : list Z) n :
  Sorted.StronglySorted Z.lt l → Forall (λ x, x < n) l → Sorted.StronglySorted Z.lt (l ++ [n]).
Proof.
  induction 1 as [|x l Hs IH Hf]; intros Hl; simpl; [by repeat constructor|].
  apply Forall_cons in Hl as [Hx Hl]. constructor; [by apply IH|].
  apply Forall_app. split; [done|by apply Forall_singleton].
Qed.

Lemma counts_write f0 s t r n :
  counts f0 s → threads s !! t = Some (FenceRead r n) →
  default 0 f0 + Z.of_nat (S (writes s)) < 2 ^ 64 →
  n = default 0 f0 + Z.of_nat (S (writes s)) ∧ Sorted.StronglySorted Z.lt (handed s) ∧
  Forall (λ x, x < n) (handed s) ∧ Forall (λ x, default 0 f0 < x) (handed s).
Proof.
  intros Hc Ht Hlt. destruct Hc as (_ & Hsort & Hb & Hp); [lia|].
  rewrite (Hp _ _ n Ht eq_refl) by lia. split_and!; [lia|done|..];
    (eapply Forall_impl; [exact Hb|simpl; intros; lia]).
Qed.

Lemma counts_frame f0 s s' :
  counts f0 s → fence s' = fence s → handed s' = handed s → writes s' = writes s →
  (∀ t p n, threads s' !! t = Some p → pending p = Some n →
     (∃ t' p', threads s !! t' = Some p' ∧ pending p' = Some n) ∨ n = next_fence (fence s)) →
  0 ≤ default 0 f0 → counts f0 s'.
Proof.
  intros Hc Ef Eh Ew Hp H0 Hlt. rewrite Ew in Hlt. destruct (Hc Hlt) as (Hf & Hs & Hb & Hn).
  rewrite Ef, Eh, Ew. split_and!; [done..|]. intros t p n Ht Hpn Hlt'.
  destruct (Hp t p n Ht Hpn) as [(t' & p' & Ht' & Hp')| ->]; [by eapply Hn|by apply next_fence_counts].
Qed.

Lemma counts_step f0 s s' :
  0 ≤ default 0 f0 → exclusive s → counts f0 s → step o s s' → counts f0 s'.
Proof using Hoff.
  intros H0 Hex Hc Hs. step_cases Hs; unfold at_ in *.
  all: try (by (eapply counts_frame; [exact Hc|done|done|done| |done]; simpl; intros; look; simplify_eq;
    first [by right|by left; eauto])).
  all: match goal with H : threads _ !! _ = Some (FenceRead _ _) |- _ => rename H into Ht end.
  all: intros Hlt; simpl in Hlt; pose proof (counts_write f0 _ _ _ _ Hc Ht Hlt) as (-> & Hsort & Hub & Hlb); simpl.
  all: split_and!; [by right|first [done|by apply sorted_snoc]| |].
  - apply Forall_app. split; [|apply Forall_singleton; lia].
    rewrite Forall_forall in Hub, Hlb. apply Forall_forall. intros x Hx. specialize (Hub x Hx); specialize (Hlb x Hx). lia.
  - intros t' p' n' Ht' Hp' _. look; [by simplify_eq|]. exfalso. destruct p'; simplify_eq/=.
    match goal with H : _ ≠ _ |- _ => apply H end. by eapply (ex_one _ Hex); [exact Ht|exact Ht'|..].
  - rewrite Forall_forall in Hub, Hlb. apply Forall_forall. intros x Hx. specialize (Hub x Hx); specialize (Hlb x Hx). lia.
  - intros t' p' n' Ht' Hp' _. look; [by simplify_eq|]. exfalso. destruct p'; simplify_eq/=.
    match goal with H : _ ≠ _ |- _ => apply H end. by eapply (ex_one _ Hex); [exact Ht|exact Ht'|..].
Qed.

Lemma exclusive_init f t0 : exclusive (init f t0).
Proof. split; simpl; intros; simplify_map_eq. Qed.

Lemma reach_off f0 t0 s : 0 ≤ default 0 f0 → rtc (step o) (init f0 t0) s → exclusive s ∧ counts f0 s.
Proof using Hoff.
  intros H0 Hr. apply (rtc_invariant (step o) (λ s, exclusive s ∧ counts f0 s) (init f0 t0)); [| |done].
  - intros s1 s2 [H1 H2] Hs. split; [by eapply exclusive_step|by eapply counts_step].
  - split; [apply exclusive_init|]. intros _. simpl. split_and!; [|constructor|constructor|].
    + destruct f0; [right; simpl; f_equal; lia|by left].
    + intros. simplify_map_eq.
Qed.

End off.

(** ** The window it presents *)

Definition inside (s : State) (t : nat) : Prop :=
  ∃ p r, threads s !! t = Some p ∧ owns p = Some r.

#[export] Instance filelock_window o f0 t0 : Window State :=
  mkWindow State (init f0 t0) (step o) (λ s, lock s = None) inside.

(** A thread that moves between two places, both inside or both outside. *)
Lemma inside_move (s s' : State) t p p' t1 :
  threads s !! t = p → threads s' = <[t:=p']> (threads s) →
  (is_Some (p ≫= owns) ↔ is_Some (owns p')) → inside s' t1 ↔ inside s t1.
Proof.
  intros Ht E Ho. unfold inside. rewrite E. destruct (decide (t = t1)) as [<-|Hne].
  - rewrite lookup_insert_eq, Ht. unfold is_Some in Ho. destruct p; naive_solver.
  - by rewrite lookup_insert_ne.
Qed.

(** A thread that leaves. *)
Lemma inside_gone (s s' : State) t p p' t1 :
  threads s !! t = Some p → threads s' = <[t:=p']> (threads s) ∨ threads s' = delete t (threads s) →
  owns p' = None → inside s' t1 → inside s t1 ∧ t1 ≠ t.
Proof.
  intros Ht E Ho (q & r & Hq & Hr). destruct E as [E|E]; rewrite E in Hq.
  - apply lookup_insert_Some in Hq as [[-> ->]|[? Hq]]; [congruence|]. split; [by exists q, r|done].
  - apply lookup_delete_Some in Hq as [? Hq]. split; [by exists q, r|done].
Qed.

Section off_window.
Context (o : Options) (Hoff : StaleAfter o ≤ 0) (f0 : option Z) (t0 : Z).
#[local] Existing Instance filelock_window.
#[local] Instance the_window : Window State := filelock_window o f0 t0.

Lemma reach_exclusive s : reachable s → exclusive s.
Proof using Hoff.
  intros Hr. apply (rtc_invariant (step o) exclusive (init f0 t0)); [|apply exclusive_init|done].
  intros s1 s2. by apply exclusive_step.
Qed.

Lemma exclusive_guarded s : exclusive s → guarded s.
Proof.
  intros [_ Hl Ho]. split; simpl.
  - intros t (p & r & E & Er). by rewrite (Hl _ _ _ E Er).
  - intros t t' (p & r & E & Er) (p' & r' & E' & Er'). by apply (Ho t t' p p' r r').
Qed.

(** A caller that is inside goes; the record is removed, or stays. *)
Lemma exclusive_leave s s' t w :
  exclusive s → inside s t → (∀ t1, inside s' t1 → inside s t1 ∧ t1 ≠ t) →
  lock s' = None ∨ lock s' = lock s → presents s w →
  ∃ w', presents s' w' ∧ (w' = w ∨ window_step w w').
Proof.
  intros Hex Ht Hin Hlk. apply (leave_sim s s' t); [by apply exclusive_guarded|done|done|].
  destruct Hlk as [E|E]; [by left|right]. simpl. rewrite E. exact (proj1 (exclusive_guarded s Hex) t Ht).
Qed.

Lemma exclusive_sim s s' w :
  exclusive s → step o s s' → presents s w → ∃ w', presents s' w' ∧ (w' = w ∨ window_step w w').
Proof using Hoff.
  intros Hex Hs Hw. step_cases Hs; unfold at_ in *;
    try (rewrite never_stale in *; done);
    try match goal with H : threads _ !! _ = Some (Judged _) |- _ => by apply (ex_quiet _ Hex) in H end;
    try match goal with H : threads _ !! _ = Some (Aside _ _) |- _ => by apply (ex_quiet _ Hex) in H end.
  all: try (exists w; split; [|by left]; eapply presents_frame; [| |exact Hw]; [done|]; intros t1;
    first [done|eapply inside_move; [eassumption|reflexivity|simpl; unfold is_Some; naive_solver]]).
  all: try (match goal with H : threads ?s !! ?t = Some ?p |- _ =>
    eapply (exclusive_leave _ _ t); [done|by eexists _, _|intros t1; eapply inside_gone; [exact H|by (left + right)|done]|by (left + right)|done] end).
  all: try (eapply enter_sim; [by apply exclusive_guarded|done| |done]; eexists _, _; simpl; by rewrite lookup_insert_eq).
  match goal with H : threads s !! t = Some p |- _ => rename H into Ht end.
  destruct (owns p) as [r|] eqn:Eo.
  - eapply (exclusive_leave s (kill t s) t); [done|by exists p, r| |by right|done]. intros t1 (q & r1 & E & Er).
    simpl in E. apply lookup_delete_Some in E as [? E]. split; [by exists q, r1|done].
  - exists w. split; [|by left]. apply (presents_frame s); [done| |done]. intros t1. simpl. unfold inside. simpl.
    split; intros (q & r1 & E & Er); exists q, r1; (split; [|done]).
    + by apply lookup_delete_Some in E as [_ E].
    + rewrite lookup_delete_ne; [done|]. intros <-. congruence.
Qed.

(** A file that is not any of the records used so far. *)
Lemma unused_ino (l : list record) : ∃ i, Forall (λ r, ino (fi r) < i) l.
Proof.
  induction l as [|r l [i IH]]; [by exists 0|]. exists (Z.max i (ino (fi r) + 1)).
  constructor; [lia|]. eapply Forall_impl; [exact IH|]. simpl. lia.
Qed.

Lemma free_enters s : lock s = None → ∃ s' t, rtc (step o) s s' ∧ inside s' t.
Proof.
  intros Hl. destruct (unused_ino (used s)) as [i Hi].
  set (t := base.fresh (dom (threads s))). assert (threads s !! t = None) as Ht.
  { apply not_elem_of_dom, is_fresh. }
  set (r := mkRecord (mkFileInfo i (now s)) (mkHolder 0 "" (Some (now s)) "")).
  exists (to t (Entered r) (to t (Linked r) (set_lock (Some r) (to t (Staged r) (stage r (to t Attempt s)))))), t.
  split; [|exists (Entered r), r; simpl; by rewrite lookup_insert_eq].
  eapply rtc_l; [by apply by_acquire, (step_start _ t), Ht|].
  eapply rtc_l; [apply by_claim, (step_stage _ t r); [apply lookup_insert_eq|]|].
  { split; [done|]. eapply Forall_impl; [exact Hi|]. intros r' Hr'. unfold same, SameFile. simpl in *.
    by rewrite (proj2 (Z.eqb_neq _ _)) by (simpl; lia). }
  eapply rtc_l; [apply by_claim, (step_link _ t r); [apply lookup_insert_eq|done]|].
  eapply rtc_l; [apply by_claim, (step_sync _ t r), lookup_insert_eq|]. apply rtc_refl.
Qed.

#[export] Instance filelock_laws : WindowLaws State.
Proof using Hoff.
  split; [done|..].
  - intros s w w' Hr. by apply guarded_one, exclusive_guarded, reach_exclusive.
  - intros s s' w Hr Hs. by apply exclusive_sim; [apply reach_exclusive|].
  - intros s _. apply free_enters.
Qed.

End off_window.

Lemma distinct_step o s s' : distinct_records s → step o s s' → distinct_records s'.
Proof.
  intros [Hu Ha] Hs. step_cases Hs; unfold at_ in *.
  all: split; simpl; intros; look; simplify_eq; try done; eauto 4.
  all: try (apply elem_of_app; first [by right; apply list_elem_of_singleton|left; by eauto]).
  all: try (match goal with H : fresh _ _ |- _ => destruct H as [_ H]; rewrite Forall_forall in H end).
  all: try (match goal with
    | H : ∀ x, x ∈ used _ → same ?r x = false |- same ?r _ = false => apply H; by eauto
    | H : ∀ x, x ∈ used _ → same ?r x = false |- same _ ?r = false => rewrite same_sym; apply H; by eauto
    end).
Qed.

Lemma reach_distinct o f0 t0 s : rtc (step o) (init f0 t0) s → distinct_records s.
Proof.
  intros Hr. apply (rtc_invariant (step o) distinct_records (init f0 t0)); [|by split; simpl; intros; simplify_map_eq|done].
  intros s1 s2. apply distinct_step.
Qed.

Lemma owns_mine p r : owns p = Some r → mine p = Some r.
Proof. by destruct p. Qed.

(** ** Properties *)

(** C1: with reclaim off, the default, the window is exclusive whatever the
    interleaving of the callers, the file operations that fail and the callers
    that die: at any time at most one caller is between its claim and its
    removal of the record, and the record at the path is that caller's. And the
    fences handed out are strictly increasing, each above the counter found in
    the fence file at first, until the counter has used up its 64 bits. *)
Theorem window_exclusive o f0 t0 s :
  StaleAfter o ≤ 0 → 0 ≤ default 0 f0 → rtc (step o) (init f0 t0) s →
  (∀ t t' p p' r r', threads s !! t = Some p → threads s !! t' = Some p' →
     owns p = Some r → owns p' = Some r' → t = t') ∧
  (∀ t p r, threads s !! t = Some p → owns p = Some r → lock s = Some r) ∧
  (default 0 f0 + Z.of_nat (writes s) < 2 ^ 64 →
     Sorted.StronglySorted Z.lt (handed s) ∧ Forall (λ n, default 0 f0 < n) (handed s)).
Proof.
  intros Hoff H0 Hr. destruct (reach_off o Hoff f0 t0 s H0 Hr) as [[Hq Hl Ho] Hc].
  split_and!; [done|done|]. intros Hlt. destruct (Hc Hlt) as (_ & Hs & Hb & _).
  split; [done|]. eapply Forall_impl; [exact Hb|]. simpl. lia.
Qed.

(** A release takes only its own record: whatever the reclaim age, the test
    before the removal never takes the record of another caller, staged or
    published, for the caller's own, even when the file system reuses an inode;
    so a caller whose record was reclaimed leaves its successor's in place. *)
Theorem release_own_record o f0 t0 s t t' r r' p' :
  rtc (step o) (init f0 t0) s →
  threads s !! t = Some (Leaving r) → threads s !! t' = Some p' → mine p' = Some r' → t ≠ t' →
  same r r' = false ∧
  (lock s = Some r' → ∀ s', step o s s' → threads s' !! t ≠ Some (Removing r)).
Proof.
  intros Hr Ht Ht' Hm Hne. assert (same r r' = false) as Hd.
  { destruct (reach_distinct o f0 t0 s Hr) as [_ Ha]. exact (Ha t t' _ p' r r' Ht Ht' eq_refl Hm Hne). }
  split; [done|]. intros Hl s' Hs E. step_cases Hs; unfold at_ in *; simpl in *;
    try apply lookup_insert_Some in E as [[? ?]|[? ?]]; try apply lookup_delete_Some in E as [? ?];
    simplify_eq; congruence.
Qed.

(** The waits between attempts lie within the configured bounds, or within
    100 and 400 milliseconds when these are unset or inverted. *)
Theorem jittered_poll_bounds rand o :
  (∀ n, 0 < n → 0 ≤ rand n < n) → PollMax o ≤ max_int64 →
  let bounds := if (0 <? PollMin o) && (PollMin o <? PollMax o) then (PollMin o, PollMax o)
                else (DefaultPollMin, DefaultPollMax) in
  bounds.1 ≤ jitteredPoll rand o < bounds.2.
Proof.
  intros Hr Hm.
  assert (∀ a b, 0 < a → a < b → b ≤ max_int64 →
    a ≤ wrap64 (a + rand (wrap64 (b - a))) < b) as Hw.
  { intros a b Ha Hab Hb. assert (wrap64 (b - a) = b - a) as ->
      by (apply wrap64_id; unfold is_int64, min_int64; lia).
    specialize (Hr (b - a) ltac:(lia)). rewrite wrap64_id by (unfold is_int64, min_int64; lia). lia. }
  assert (DefaultPollMin ≤ wrap64 (DefaultPollMin + rand (wrap64 (DefaultPollMax - DefaultPollMin)))
    < DefaultPollMax) as Hd by (by apply Hw).
  unfold jitteredPoll. destruct (Z.leb_spec (PollMin o) 0), (Z.ltb_spec 0 (PollMin o)); try lia; simpl;
    [done|]. destruct (Z.leb_spec (PollMax o) (PollMin o)), (Z.ltb_spec (PollMin o) (PollMax o));
    try lia; simpl; [done|by apply Hw].
Qed.

(** ** Runs *)

Definition rec_at (ino pid since : Z) : record :=
  mkRecord (mkFileInfo ino since) (mkHolder pid "host" (Some since) "work").

Definition no_reclaim : Options := mkOptions 0 0 0.
Definition reclaim_after_1 : Options := mkOptions 0 0 1.

Tactic Notation "rule" uconstr(c) :=
  first [eapply by_acquire; eapply c | eapply by_claim; eapply c | eapply by_fence; eapply c
        |eapply by_enter; eapply c | eapply by_release; eapply c | eapply by_reclaim; eapply c
        |eapply by_aside; eapply c | eapply by_world; eapply c].
Tactic Notation "go_step" uconstr(c) := eapply rtc_l; [rule c; first [reflexivity|done|by split; repeat constructor]|].
Ltac arrive := match goal with |- rtc _ ?x ?y => assert (x = y) as -> by (vm_compute; reflexivity) end; apply rtc_refl.

(** A caller enters, a second one queues behind it. *)
Definition one_inside : State :=
  mkState (Some (rec_at 1 10 0)) (Some 8) {[1%nat := Inside (rec_at 1 10 0) 8; 2%nat := Waiting]} 0
    [rec_at 1 10 0; rec_at 2 20 0] [8] 1.

Lemma one_inside_reached : rtc (step no_reclaim) (init (Some 7) 0) one_inside.
Proof.
  go_step (step_start _ 1%nat).
  go_step (step_stage _ 1%nat (rec_at 1 10 0)).
  go_step (step_link _ 1%nat (rec_at 1 10 0)).
  go_step (step_sync _ 1%nat (rec_at 1 10 0)).
  go_step (step_fence_read _ 1%nat (rec_at 1 10 0)).
  go_step (step_fence_write _ 1%nat (rec_at 1 10 0) 8).
  go_step (step_start _ 2%nat).
  go_step (step_stage _ 2%nat (rec_at 2 20 0)).
  go_step (step_link_exists _ 2%nat (rec_at 2 20 0)).
  go_step (step_no_reclaim _ _ 2%nat).
  arrive.
Qed.

(** Two callers are inside with the same fence: the first one, slow between
    reading the counter and writing it, is reclaimed by the second. *)
Definition two_inside : State :=
  mkState (Some (rec_at 3 20 2)) (Some 1)
    {[1%nat := Inside (rec_at 1 10 0) 1; 2%nat := Inside (rec_at 3 20 2) 1]} 2
    [rec_at 1 10 0; rec_at 2 20 2; rec_at 3 20 2] [1; 1] 2.

Lemma reclaim_run : rtc (step reclaim_after_1) (init None 0) two_inside.
Proof.
  go_step (step_start _ 1%nat).
  go_step (step_stage _ 1%nat (rec_at 1 10 0)).
  go_step (step_link _ 1%nat (rec_at 1 10 0)).
  go_step (step_sync _ 1%nat (rec_at 1 10 0)).
  go_step (step_fence_read _ 1%nat (rec_at 1 10 0)).
  go_step (step_tick _ 2).
  go_step (step_start _ 2%nat).
  go_step (step_stage _ 2%nat (rec_at 2 20 2)).
  go_step (step_link_exists _ 2%nat (rec_at 2 20 2)).
  go_step (step_judge reclaim_after_1 _ 2%nat (rec_at 1 10 0)).
  go_step (step_aside _ 2%nat (rec_at 1 10 0) (rec_at 1 10 0)).
  go_step (step_reclaimed _ 2%nat (rec_at 1 10 0) (rec_at 1 10 0)).
  go_step (step_poll _ 2%nat).
  go_step (step_stage _ 2%nat (rec_at 3 20 2)).
  go_step (step_link _ 2%nat (rec_at 3 20 2)).
  go_step (step_sync _ 2%nat (rec_at 3 20 2)).
  go_step (step_fence_read _ 2%nat (rec_at 3 20 2)).
  go_step (step_fence_write _ 2%nat (rec_at 3 20 2) 1).
  go_step (step_fence_write _ 1%nat (rec_at 1 10 0) 1).
  arrive.
Qed.

(** C2: with reclaim off the lock keeps the contract of a Waiter. It refines the
    abstract window, step by step: a caller enters only when the window is free,
    and the window is free again only after its holder left; a record whose
    holder died, or failed to remove it, leaves it abandoned for good. A free
    window can be entered. So callers that read a shared resource and write it
    back inside the window lose no update, for any resource and any update. *)
Theorem filelock_refines_window o f0 t0 s :
  let _ := filelock_window o f0 t0 in
  StaleAfter o ≤ 0 → reachable s →
  (∃ w, presents s w ∧ rtc window_step Free w) ∧
  (∀ w s', presents s w → step o s s' → ∃ w', presents s' w' ∧ (w' = w ∨ window_step w w')) ∧
  (presents s Free → ∃ s' t, rtc (step o) s s' ∧ inside s' t) ∧
  (∀ R (op : nat → R → R) r0 c, rtc (client_step op) (client_start r0) c →
     res c = fold_left (λ r t, op t r) (updates c) r0).
Proof.
  intros W Hoff Hr. pose proof (filelock_laws o Hoff f0 t0) as L. split_and!.
  - by apply window_refined.
  - intros w s' Hw Hs. by eapply w_sim.
  - exact (w_enters s Hr).
  - intros R op r0 c. apply no_lost_update.
Qed.

(** With a reclaim age the fence is not the witness the comments make it: a
    run exists in which two calls of Acquire are inside at once and both
    returned the same fence, because the counter is advanced by a read and a
    write that a reclaimed caller and its successor can interleave. *)
Theorem reclaim_can_share_fence :
  ∃ s r r', rtc (step reclaim_after_1) (init None 0) s ∧
    threads s !! 1%nat = Some (Inside r 1) ∧ threads s !! 2%nat = Some (Inside r' 1) ∧
    handed s = [1; 1].
Proof.
  exists two_inside, (rec_at 1 10 0), (rec_at 3 20 2). split; [|done].
  apply reclaim_run.
Qed.

(** ** Witnesses *)

Lemma window_exclusive_witness :
  lock one_inside = Some (rec_at 1 10 0) ∧ Forall (λ n, 7 < n) (handed one_inside).
Proof.
  destruct (window_exclusive no_reclaim (Some 7) 0 one_inside ltac:(done) ltac:(done) one_inside_reached)
    as (_ & Hl & Hf).
  split; [by apply (Hl 1%nat (Inside (rec_at 1 10 0) 8))|by apply Hf].
Defined.

Lemma filelock_refines_window_witness :
  let _ := filelock_window no_reclaim (Some 7) 0 in
  ∃ w, presents one_inside w ∧ rtc window_step Free w.
Proof.
  intros W. apply (filelock_refines_window no_reclaim (Some 7) 0 one_inside ltac:(done) one_inside_reached).
Defined.

(** The first caller of [two_inside] starts its release. *)
Definition overtaken : State := to 1%nat (Leaving (rec_at 1 10 0)) two_inside.

Lemma overtaken_reached : rtc (step reclaim_after_1) (init None 0) overtaken.
Proof.
  eapply rtc_r; [exact reclaim_run|].
  apply by_enter. by apply (step_release two_inside 1%nat (rec_at 1 10 0) 1).
Qed.

Lemma release_own_record_witness : same (rec_at 1 10 0) (rec_at 3 20 2) = false.
Proof.
  apply (release_own_record reclaim_after_1 None 0 overtaken 1%nat 2%nat _ _
    (Inside (rec_at 3 20 2) 1) overtaken_reached); done.
Defined.

Lemma jittered_poll_bounds_witness :
  100 * Millisecond ≤ jitteredPoll (λ n, n - 1) (mkOptions 5 5 0) < 400 * Millisecond.
Proof. apply (jittered_poll_bounds (λ n, n - 1) (mkOptions 5 5 0)); [intros; lia|done]. Defined.

End filelock.
