(* ===== verification/RunState.v ===== *)
(** * platform/runstate: leases and locks of a run

    Models [key.go], [lease.go] and [lock.go] of [src/go/platform/runstate]. A
    directory is a map from file names to contents; an operating-system call may
    fail; [Marshal] and [Unmarshal] stand for [encoding/json] on a lease. *)

From Stdlib Require Import Ascii.
From S2P Require Import Prelude GoStrings GoErr Coordination.

Module runstate.
Import coordination.

Definition backslash : ascii := "\"%char.

Definition checkSubject (subject : string) : option error :=
  if bool_decide (subject = "") || bool_decide (subject = ".") || bool_decide (subject = "..")
  then Some (bad_subject subject)
  else if contains_byte PathSeparator subject || contains_byte "/"%char subject ||
          contains_byte backslash subject
  then Some (bad_subject subject)
  else if contains ".." subject then Some (bad_subject subject)
  else None.

(** The file name, under the directory of the store. *)
Definition pathFor (prefix subject suffix : string) : error + string :=
  match checkSubject subject with
  | Some err => inl err
  | None => inr (prefix +:+ subject +:+ suffix)
  end.

(** ** Leases *)

Definition DefaultLeasePrefix : string := "lease.".
Definition leaseSuffix : string := ".json".

Record Lease := mkLease { Subject : string; Fingerprint : string; IssuedAt : Z }.

#[export] Instance Lease_eq_dec : EqDecision Lease.
Proof. solve_decision. Defined.

Definition Valid (l : Lease) (now : Z) (subject fingerprint : string) (window : Z) : bool :=
  if negb (bool_decide (Subject l = subject)) || bool_decide (Fingerprint l = "") ||
     negb (bool_decide (Fingerprint l = fingerprint))
  then false
  else
    let age := time_sub now (IssuedAt l) in
    (0 <=? age) && (age <? window).

(** A directory: the content of each file. *)
Abbreviation dir := (gmap string string).

(** [Dir] is a clean path, and [full] joins a file name to it. *)
Record LeaseStore := mkLeaseStore { Dir : string; Prefix : string }.

Definition full (dirname name : string) : string := dirname +:+ "/" +:+ name.

Definition lease_prefix (s : LeaseStore) : string :=
  if bool_decide (Prefix s = "") then DefaultLeasePrefix else Prefix s.

Definition Path (s : LeaseStore) (subject : string) : error + string :=
  pathFor (lease_prefix s) subject leaseSuffix.

Lemma check_subject_cases subject :
  (checkSubject subject = None ∧ single_element subject ∧ contains ".." subject = false ∧
     contains_byte backslash subject = false) ∨
  (checkSubject subject = Some (bad_subject subject) ∧
     ¬ (single_element subject ∧ contains ".." subject = false ∧ contains_byte backslash subject = false)).
Proof.
  unfold checkSubject, single_element. repeat case_bool_decide; simpl; try (right; naive_solver).
  change (contains_byte "/" subject) with (contains_byte PathSeparator subject).
  destruct (contains_byte PathSeparator subject), (contains_byte backslash subject), (contains ".." subject);
    simpl; naive_solver.
Qed.

Lemma path_ok s subject path :
  Path s subject = inr path → path = lease_prefix s +:+ subject +:+ leaseSuffix.
Proof. unfold Path, pathFor. destruct (checkSubject subject); congruence. Qed.

Lemma path_inj s s1 s2 path : Path s s1 = inr path → Path s s2 = inr path → s1 = s2.
Proof.
  intros H1%path_ok H2%path_ok. subst. apply str_app_inj_l in H2. by apply str_app_inj_r in H2.
Qed.

Section leases.
Context (Marshal : Lease → error + string) (Unmarshal : string → option Lease).

Definition no_lease : Lease := mkLease "" "" 0.

(** [fault]: the error of the read, when it fails on a file that exists. *)
Definition Load (s : LeaseStore) (subject : string) (fault : option error) (d : dir)
  : Lease * bool * option error :=
  match Path s subject with
  | inl err => (no_lease, false, Some err)
  | inr path =>
      match d !! path with
      | None => (no_lease, false, None)
      | Some b =>
          match fault with
          | Some e => (no_lease, false, Some (wrap_pre ("read lease " +:+ full (Dir s) path +:+ ": ") e))
          | None =>
              match Unmarshal b with
              | None => (no_lease, false, None)
              | Some lease => (lease, true, None)
              end
          end
      end
  end.

(** Which of the calls of a save fails, and how; a failed write leaves a part of
    the content. *)
Inductive fault :=
| FMkdir (e : error) | FCreateTemp (e : error) | FWrite (written : string) (e : error)
| FChmod (e : error) | FClose (e : error) | FRename (e : error).

Definition newline : ascii := ascii_of_nat 10.
Definition lease_line (b : string) : string := b +:+ String newline "".

(** The states the directory goes through, the last one final, and the result.
    [name] is the name [os.CreateTemp] picked. The deferred remove of that name is the
    last step; [removes] tells whether it succeeds, and its error is dropped. *)
Definition Save (s : LeaseStore) (lease : Lease) (name : string) (f : option fault) (removes : bool) (d : dir)
  : list dir * option error :=
  let remove (x : dir) := if removes then delete name x else x in
  match Path s (Subject lease) with
  | inl err => ([d], Some err)
  | inr path =>
      match f with
      | Some (FMkdir e) => ([d], Some (wrap_pre ("lease directory " +:+ Dir s +:+ ": ") e))
      | _ =>
          match Marshal lease with
          | inl e => ([d], Some (wrap_pre "marshal lease: " e))
          | inr b =>
              match f with
              | Some (FCreateTemp e) => ([d], Some (wrap_pre "temporary lease: " e))
              | _ =>
                  let created := <[name := ""]> d in
                  match f with
                  | Some (FWrite w e) =>
                      let partial := <[name := w]> d in
                      ([d; created; partial; remove partial], Some (wrap_pre "write lease: " e))
                  | _ =>
                      let written := <[name := lease_line b]> d in
                      match f with
                      | Some (FChmod e) =>
                          ([d; created; written; remove written], Some (wrap_pre "lease permissions: " e))
                      | Some (FClose e) =>
                          ([d; created; written; remove written], Some (wrap_pre "close lease: " e))
                      | Some (FRename e) =>
                          ([d; created; written; remove written], Some (wrap_pre "place lease: " e))
                      | _ =>
                          let renamed := <[path := lease_line b]> (delete name written) in
                          ([d; created; written; renamed; remove renamed], None)
                      end
                  end
              end
          end
      end
  end.

Definition final (t : list dir) (d : dir) : dir := default d (last t).

(** [fault]: the error of the remove, when it fails on a file that exists. *)
Definition Consume (s : LeaseStore) (subject : string) (fault : option error) (d : dir)
  : option error * dir :=
  match Path s subject with
  | inl err => (Some err, d)
  | inr path =>
      match d !! path, fault with
      | Some _, Some e => (Some (wrap_pre ("remove lease " +:+ full (Dir s) path +:+ ": ") e), d)
      | _, _ => (None, delete path d)
      end
  end.

(** [encoding/json] gives back the texts it was given when they are UTF-8; other bytes
    it replaces. *)
Definition encodable (l : Lease) : Prop :=
  valid_utf8 (Subject l) = true ∧ valid_utf8 (Fingerprint l) = true.
Context (Hjson : ∀ lease b, encodable lease → Marshal lease = inr b → Unmarshal (lease_line b) = Some lease).

(** ** Properties *)

(** A lease is valid exactly while it should be: same subject, same fingerprint
    and not the empty one, issued not in the future and less than the window
    ago, as exact arithmetic on the instants, although the age the code compares
    is a Duration that saturates. *)
Theorem lease_valid_window (l : Lease) now subject fingerprint window :
  is_int64 window →
  Valid l now subject fingerprint window = true ↔
    Subject l = subject ∧ Fingerprint l = fingerprint ∧ fingerprint ≠ "" ∧
    0 ≤ now - IssuedAt l < window.
Proof.
  intros Hw. unfold Valid, is_int64 in *.
  assert (((0 <=? time_sub now (IssuedAt l)) && (time_sub now (IssuedAt l) <? window))%bool = true ↔
    0 ≤ now - IssuedAt l < window) as Ha.
  { rewrite andb_true_iff, Z.leb_le, Z.ltb_lt. unfold time_sub, min_int64, max_int64 in *. lia. }
  repeat case_bool_decide; simpl; rewrite ?Ha; naive_solver.
Qed.

(** A file is left behind under the temporary name only if it cannot be removed. *)
Lemma save_shape s lease name f removes d :
  d !! name = None → (∀ path, Path s (Subject lease) = inr path → path ≠ name) →
  let '(states, err) := Save s lease name f removes d in
  Forall (λ x, x = d ∨ (∃ c, x = <[name:=c]> d) ∨ (err = None ∧ x = final states d)) states ∧
  (err ≠ None → final states d = d ∨ removes = false ∧ ∃ c, final states d = <[name:=c]> d) ∧
  (err = None → ∃ path b, Path s (Subject lease) = inr path ∧ Marshal lease = inr b ∧
     final states d = <[path:=lease_line b]> d).
Proof.
  intros Hn Hp. unfold Save, final.
  assert (∀ c, delete name (<[name:=c]> d) = d) as Hd by (intros; by rewrite delete_insert_id).
  destruct (Path s (Subject lease)) as [err|path]; [simpl; split_and!; [by repeat constructor|by left|done]|].
  destruct (Marshal lease) as [e|b].
  { destruct f as [[]|]; simpl; (split_and!; [by repeat constructor|by left|done]). }
  assert (delete name (<[path:=lease_line b]> d) = <[path:=lease_line b]> d) as Hr.
  { rewrite delete_id; [done|]. rewrite lookup_insert_ne; [done|]. by apply Hp. }
  destruct f as [[]|], removes; simpl; rewrite ?Hd, ?Hr; (split_and!; [|try done|try done]);
    try (intros _; by left); try (intros _; by eauto); try (intros _; by eexists _, _).
  all: repeat (apply Forall_cons; split; [eauto 6|]); by apply Forall_nil.
Qed.

(** C8: a save is atomic and a lease comes back as it was saved. In every state the
    directory goes through, whichever call fails, the file of each subject
    either is as it was or, for the subject saved and then only when the save
    succeeds, has the complete new lease; a failed save leaves the directory as
    it found it, or with its temporary file when that cannot be removed; after a
    successful one Load gives exactly that lease, when its texts are UTF-8, and what
    it gave before for every other subject; and after Consume it gives none. *)
Theorem lease_store_atomic (s : LeaseStore) lease name f removes d :
  d !! name = None → (∀ subject path, Path s subject = inr path → path ≠ name) →
  let '(states, err) := Save s lease name f removes d in
  let d' := final states d in
  (∀ x subject path, x ∈ states → Path s subject = inr path →
     x !! path = d !! path ∨
     (err = None ∧ subject = Subject lease ∧ x = d' ∧ ∃ b, Marshal lease = inr b ∧ x !! path = Some (lease_line b))) ∧
  (err ≠ None → d' = d ∨ removes = false ∧ ∃ c, d' = <[name := c]> d) ∧
  (err = None → (encodable lease → Load s (Subject lease) None d' = (lease, true, None)) ∧
     ∀ subject, subject ≠ Subject lease → Load s subject None d' = Load s subject None d) ∧
  (err = None → ∃ d'', Consume s (Subject lease) None d' = (None, d'') ∧
     Load s (Subject lease) None d'' = (no_lease, false, None) ∧
     Consume s (Subject lease) None d'' = (None, d'')).
Proof using Hjson.
  intros Hn Hp. pose proof (save_shape s lease name f removes d Hn (Hp (Subject lease))) as HS.
  destruct (Save s lease name f removes d) as [states err]. destruct HS as (Hall & Herr & Hok).
  rewrite Forall_forall in Hall. split_and!.
  - intros x subject path Hx Hs. destruct (Hall x Hx) as [->|[(c & ->)|[-> ->]]]; [by left| |].
    + left. apply lookup_insert_ne. intros E. by apply (Hp _ _ Hs).
    + destruct (Hok eq_refl) as (p & b & Hpath & Hm & ->).
      destruct (decide (p = path)) as [->|Hne]; [right|left; by apply lookup_insert_ne].
      split_and!; [done|by eapply path_inj|done|]. exists b. by rewrite lookup_insert_eq.
  - done.
  - intros ->. destruct (Hok eq_refl) as (p & b & Hpath & Hm & ->). unfold Load. rewrite Hpath, lookup_insert_eq.
    split; [intros He; by rewrite (Hjson _ _ He Hm)|]. intros subject Hne.
    destruct (Path s subject) as [e|q] eqn:Eq; [done|]. rewrite lookup_insert_ne; [done|].
    intros ->. apply Hne. by eapply path_inj.
  - intros ->. destruct (Hok eq_refl) as (p & b & Hpath & Hm & ->). unfold Consume, Load. rewrite Hpath, lookup_insert_eq.
    eexists. split; [done|]. rewrite lookup_delete_eq. split; [done|].
    by rewrite (delete_id (delete p _)) by apply lookup_delete_eq.
Qed.

End leases.

(** ** Locks *)

Definition DefaultLockPrefix : string := "lock.".

Record Locker := mkLocker { lock_Dir : string; lock_Prefix : string; OnSignal : bool (* is it set? *) }.

Definition lock_prefix (l : Locker) : string :=
  if bool_decide (lock_Prefix l = "") then DefaultLockPrefix else lock_Prefix l.

(** What the operating system answers to the exclusive create. *)
Inductive opened := Created | Exists (e : error) | OpenFailed (e : error).

(** [Acquire], up to its file operations: the error, or nothing and the name of
    the lock file. *)
Definition Acquire (l : Locker) (subject : string) (mkdir : option error) (open : opened)
  : error + string :=
  match pathFor (lock_prefix l) subject "" with
  | inl err => inl err
  | inr path =>
      match mkdir with
      | Some e => inl (wrap_pre ("lock directory " +:+ lock_Dir l +:+ ": ") e)
      | None =>
          match open with
          | Created => inr path
          | Exists _ => inl (EFmt (PText (subject +:+ " (" +:+ full (lock_Dir l) path +:+ "): ") (PWrap ErrLocked PNil)))
          | OpenFailed e => inl (wrap_pre ("lock " +:+ full (lock_Dir l) path +:+ ": ") e)
          end
      end
  end.

Definition TryAcquire (l : Locker) (subject : string) (mkdir : option error) (open : opened)
  : error + string :=
  match Validate subject with
  | Some err => inl (wrap_pre "subject: " err)
  | None => Acquire l subject mkdir open
  end.

(** One lock file and any number of calls of Acquire that succeeded, each with
    its [removeOnce]. The file remembers which call created it. *)
Record Run := mkRun {
  removed : bool;   (** removeOnce is done *)
  stopped : bool    (** stopOnce is done: release was called, the signal channel is closed *)
}.

Record State := mkState { file : option nat; runs : gmap nat Run }.

(** [remove()]: the first time, [os.Remove(path)], which may fail. *)
Definition remove (t : nat) (ok : bool) (r : Run) (s : State) : State :=
  if removed r then mkState (file s) (<[t:=r]> (runs s))
  else mkState (if ok then None else file s) (<[t:=mkRun true (stopped r)]> (runs s)).

Inductive step (l : Locker) : State → State → Prop :=
| step_acquire s t : file s = None → runs s !! t = None →
    step l s (mkState (Some t) (<[t:=mkRun false false]> (runs s)))
| step_release s t r ok : runs s !! t = Some r → step l s (remove t ok (mkRun (removed r) true) s)
| step_signal s t r ok : runs s !! t = Some r → stopped r = false → OnSignal l = true →
    step l s (remove t ok r s)
| step_signal_dies s t r ok : runs s !! t = Some r → stopped r = false → OnSignal l = false →
    step l s (mkState (file (remove t ok r s)) (delete t (runs s)))
| step_crash s t r : runs s !! t = Some r → step l s (mkState (file s) (delete t (runs s))).

Definition start : State := mkState None ∅.

(** A run holds the lock until its file was removed on its behalf. *)
Definition holds (s : State) (t : nat) : Prop := ∃ r, runs s !! t = Some r ∧ removed r = false.

Lemma holder_step l s s' :
  (∀ t, holds s t → file s = Some t) → step l s s' → ∀ t, holds s' t → file s' = Some t.
Proof.
  intros H Hs t (r' & Hr & Hn). unfold holds in H.
  inversion Hs as [? t0 Hf Ht|? t0 r ok Ht|? t0 r ok Ht Hst Hon|? t0 r ok Ht Hst Hon|? t0 r Ht]; subst; clear Hs;
    unfold remove in *; simpl in *.
  - apply lookup_insert_Some in Hr as [[-> _]|[Hne Hr]]; [done|].
    rewrite (H t) in Hf by eauto. done.
  - destruct (removed r) eqn:Er; simpl in *; apply lookup_insert_Some in Hr as [[-> <-]|[Hne Hr]];
      simplify_eq/=; try congruence; [apply H; eauto|].
    exfalso. apply Hne. pose proof (H t0 ltac:(eauto)). pose proof (H t ltac:(eauto)). congruence.
  - destruct (removed r) eqn:Er; simpl in *; apply lookup_insert_Some in Hr as [[-> <-]|[Hne Hr]];
      simplify_eq/=; try congruence; [apply H; eauto|].
    exfalso. apply Hne. pose proof (H t0 ltac:(eauto)). pose proof (H t ltac:(eauto)). congruence.
  - apply lookup_delete_Some in Hr as [Hne Hr]. destruct (removed r) eqn:Er; simpl; [apply H; eauto|].
    exfalso. apply Hne. pose proof (H t0 ltac:(eauto)). pose proof (H t ltac:(eauto)). congruence.
  - apply lookup_delete_Some in Hr as [Hne Hr]. apply H. eauto.
Qed.

Lemma holder_file l s : rtc (step l) start s → ∀ t, holds s t → file s = Some t.
Proof.
  intros Hr. apply (rtc_invariant (step l) (λ s, ∀ t, holds s t → file s = Some t) start); [|
    by intros t (r & E & _); simplify_map_eq|done].
  intros s1 s2. apply holder_step.
Qed.

(** The window it presents. *)
#[export] Instance locker_window l : Window State := mkWindow State start (step l) (λ s, file s = None) holds.

Section locker_laws.
Context (l : Locker).
#[local] Instance the_locker : Window State := locker_window l.

Implicit Types s : State.

Definition owned s : Prop := ∀ t, holds s t → file s = Some t.

Lemma owned_guarded s : owned s → guarded s.
Proof.
  intros Hh. split; simpl.
  - intros t Ht. by rewrite (Hh _ Ht).
  - intros t t' Ht Ht'. apply Hh in Ht, Ht'. congruence.
Qed.

(** One run ends, or no longer holds the lock. *)
Lemma holds_end s f t r m t1 :
  runs s !! t = Some r → m = delete t (runs s) ∨ (∃ r', m = <[t:=r']> (runs s) ∧ removed r' = true) →
  holds (mkState f m) t1 ↔ holds s t1 ∧ t1 ≠ t.
Proof.
  intros Ht Hm. unfold holds. simpl. destruct (decide (t1 = t)) as [->|Hne].
  - destruct Hm as [->|(r' & -> & Hr')]; [rewrite lookup_delete_eq|rewrite lookup_insert_eq];
      (split; [intros (r1 & E & Hn); simplify_eq; congruence|by intros [_ ?]]).
  - destruct Hm as [->|(r' & -> & Hr')]; [rewrite lookup_delete_ne by done|rewrite lookup_insert_ne by done]; tauto.
Qed.

Lemma end_sim s f t r m w :
  owned s → runs s !! t = Some r →
  m = delete t (runs s) ∨ (∃ r', m = <[t:=r']> (runs s) ∧ removed r' = true) →
  f = file s ∨ (f = None ∧ removed r = false) → presents s w →
  ∃ w', presents (mkState f m) w' ∧ (w' = w ∨ window_step w w').
Proof.
  intros Hh Ht Hm Hf Hw. pose proof (λ t1, holds_end s f t r m t1 Ht Hm) as He.
  destruct (removed r) eqn:Er.
  - exists w. split; [|by left]. apply (presents_frame s); [simpl; naive_solver| |done]. intros t1. simpl. rewrite He.
    split; [by intros [? _]|]. intros H1. split; [done|]. intros ->. destruct H1 as (r1 & E & Hn). congruence.
  - apply (leave_sim s _ t); [by apply owned_guarded|by exists r|intros t1; apply He|simpl|done].
    destruct Hf as [->|[-> _]]; [right|by left]. rewrite (Hh t); [done|by exists r].
Qed.

Lemma owned_sim s s' w :
  owned s → step l s s' → presents s w → ∃ w', presents s' w' ∧ (w' = w ∨ window_step w w').
Proof.
  intros Hh Hs Hw. inversion Hs as [? t Hf Ht|? t r ok Ht|? t r ok Ht Hst Hon|? t r ok Ht Hst Hon|? t r Ht];
    subst; clear Hs.
  - apply (enter_sim s _ t); [by apply owned_guarded|done| |done].
    exists (mkRun false false). split; [apply lookup_insert_eq|done].
  - unfold remove. simpl. destruct (removed r) eqn:Er.
    + apply (end_sim s _ t r); [done|done|right; by eexists|by left|done].
    + apply (end_sim s _ t r); [done|done|right; by eexists|destruct ok; naive_solver|done].
  - unfold remove. simpl. destruct (removed r) eqn:Er.
    + apply (end_sim s _ t r); [done|done|right; by eexists|by left|done].
    + apply (end_sim s _ t r); [done|done|right; by eexists|destruct ok; naive_solver|done].
  - unfold remove. simpl. destruct (removed r) eqn:Er; simpl.
    + apply (end_sim s _ t r); [done|done|by left|by left|done].
    + apply (end_sim s _ t r); [done|done|by left|destruct ok; naive_solver|done].
  - apply (end_sim s _ t r); [done|done|by left|by left|done].
Qed.

Lemma free_acquires s : file s = None → ∃ s' t, rtc (step l) s s' ∧ holds s' t.
Proof.
  intros Hf. set (t := fresh (dom (runs s))).
  exists (mkState (Some t) (<[t:=mkRun false false]> (runs s))), t. split.
  - eapply rtc_l; [|apply rtc_refl]. simpl. apply step_acquire; [done|]. apply not_elem_of_dom, is_fresh.
  - exists (mkRun false false). split; [apply lookup_insert_eq|done].
Qed.

#[export] Instance locker_laws : WindowLaws State.
Proof.
  split; [done|..].
  - intros s w w' Hr. apply guarded_one, owned_guarded. exact (holder_file l s Hr).
  - intros s s' w Hr. apply owned_sim. exact (holder_file l s Hr).
  - intros s _. apply free_acquires.
Qed.

End locker_laws.

(** C6: a Locker gives exclusion: whatever the releases, repeated or not, the
    signals, the removals that fail and the runs that die, at most one run holds
    the lock, and the lock file is the one it created. A run whose lock was
    already removed, by a release or by a signal it survived, never removes the
    file again, so a second release takes nothing from a successor; and a run
    that holds the lock makes every further exclusive create fail. *)
Theorem locker_exclusive l s t :
  rtc (step l) start s →
  (∀ t', holds s t → holds s t' → t = t') ∧ (holds s t → file s = Some t) ∧
  (∀ r s', runs s !! t = Some r → removed r = true →
     s' = remove t true (mkRun (removed r) true) s → file s' = file s) ∧
  (∀ s', holds s t → step l s s' → ∀ t', runs s !! t' = None → runs s' !! t' = None).
Proof.
  intros Hr. pose proof (holder_file l s Hr) as Hh. split_and!.
  - intros t' H1 H2. pose proof (Hh _ H1). pose proof (Hh _ H2). congruence.
  - apply Hh.
  - intros r s' _ Hrem ->. unfold remove. simpl. by rewrite Hrem.
  - intros s' Ht Hs t' Hn. apply Hh in Ht. inversion Hs; subst; clear Hs; simpl in *; try congruence.
    all: unfold remove; repeat case_match; simpl; try (apply lookup_insert_None; split; [done|congruence]).
    all: try (apply lookup_delete_None; by right).
Qed.

(** C7: a Locker keeps the contract of an Excluder. It refines the abstract
    window, step by step, through releases, signals, failed removals and the
    death of runs: a run enters only when the window is free, and the window is
    free again only after its holder left; a file that could not be removed, or
    whose run died, leaves it abandoned for good. A free window can be entered.
    So runs that read a shared resource and write it back while they hold the
    lock lose no update, for any resource and any update. *)
Theorem locker_refines_window l s :
  let _ := locker_window l in
  reachable s →
  (∃ w, presents s w ∧ rtc window_step Free w) ∧
  (∀ w s', presents s w → step l s s' → ∃ w', presents s' w' ∧ (w' = w ∨ window_step w w')) ∧
  (presents s Free → ∃ s' t, rtc (step l) s s' ∧ holds s' t) ∧
  (∀ R (op : nat → R → R) r0 c, rtc (client_step op) (client_start r0) c →
     res c = fold_left (λ r t, op t r) (updates c) r0).
Proof.
  intros W Hr. pose proof (locker_laws l) as L. split_and!.
  - by apply window_refined.
  - intros w s' Hw Hs. by eapply w_sim.
  - exact (w_enters s Hr).
  - intros R op r0 c. apply no_lost_update.
Qed.

(** ** Witnesses *)

Definition demo_lease : Lease := mkLease "job" "abc" 0.
Definition demo_Unmarshal (b : string) : option Lease :=
  if bool_decide (b = lease_line "job") then Some demo_lease else None.

Lemma lease_valid_window_witness : Valid demo_lease 5 "job" "abc" 10 = true.
Proof. apply lease_valid_window; [by vm_compute|]. by repeat split. Defined.

Definition only_job (l : Lease) : error + string :=
  if bool_decide (l = demo_lease) then inr "job" else inl (ENew "json" "json").

Lemma only_job_json : ∀ lease b, encodable lease → only_job lease = inr b → demo_Unmarshal (lease_line b) = Some lease.
Proof. intros l b _. unfold only_job. case_bool_decide; [|done]. intros [= <-]. by subst. Qed.

Lemma lease_store_atomic_witness :
  Load demo_Unmarshal (mkLeaseStore "state" "") "job" None
    (final (Save only_job (mkLeaseStore "state" "") demo_lease ".lease-1" None true ∅).1 ∅) = (demo_lease, true, None).
Proof.
  pose proof (lease_store_atomic only_job demo_Unmarshal only_job_json (mkLeaseStore "state" "") demo_lease
    ".lease-1" None true ∅) as H.
  simpl in H. destruct H as (_ & _ & H & _); [done| |by apply H].
  intros subject path Hp. apply path_ok in Hp as ->. by intros E.
Defined.

Definition held : State := mkState (Some 2%nat) {[1%nat := mkRun true false; 2%nat := mkRun false false]}.

(** Run 1 survives a signal, run 2 takes the lock. *)
Lemma held_reached : rtc (step (mkLocker "state" "" true)) start held.
Proof.
  eapply rtc_l; [by apply (step_acquire _ _ 1%nat)|].
  eapply rtc_l; [by apply (step_signal _ _ 1%nat (mkRun false false) true)|].
  eapply rtc_l; [by apply (step_acquire _ _ 2%nat)|].
  match goal with |- rtc _ ?x ?y => assert (x = y) as -> by (vm_compute; reflexivity) end. apply rtc_refl.
Qed.

Lemma locker_exclusive_witness : file held = Some 2%nat.
Proof.
  apply (locker_exclusive (mkLocker "state" "" true) held 2%nat held_reached). by exists (mkRun false false).
Defined.

Lemma locker_refines_window_witness :
  let _ := locker_window (mkLocker "state" "" true) in ∃ w, presents held w ∧ rtc window_step Free w.
Proof. intros W. apply (locker_refines_window (mkLocker "state" "" true) held held_reached). Defined.

End runstate.
