(* ===== verification/BuildStamp.v ===== *)
(** * platform/buildstamp: which build a binary is

    Models [buildstamp.go] and [errors.go] of [src/go/platform/buildstamp]. The
    variables a linker sets are the record [Flags], what [debug.ReadBuildInfo]
    answers is an argument. A dependency map is a [gmap]: Go's nil map and its
    empty one are the same here. *)

From Stdlib Require Import Ascii.
From S2P Require Import Prelude GoStrings GoErr.

Module buildstamp.

Definition ErrMalformedStamp : error :=
  ENew "buildstamp.ErrMalformedStamp" "malformed build stamp".
Definition ErrUnknownCommit : error :=
  ENew "buildstamp.ErrUnknownCommit" "binary has no known commit".
Definition ErrCommitMismatch : error :=
  ENew "buildstamp.ErrCommitMismatch" "binary was built from an unexpected commit".
Definition ErrDirtyBuild : error :=
  ENew "buildstamp.ErrDirtyBuild" "binary was built from a dirty working tree".
Definition ErrDependencyUnclean : error :=
  ENew "buildstamp.ErrDependencyUnclean" "dependency revision is not clean".
Definition ErrDependencyMissing : error :=
  ENew "buildstamp.ErrDependencyMissing" "build stamp does not record the dependency".

Definition Unknown : string := "unknown".
Definition trueValue : string := "true".
Definition shortSHALen : nat := 7.
Definition dirtySuffix : string := "-dirty".
Definition fullSHALen : nat := 40.

Definition hex_digit (c : ascii) : bool :=
  let n := nat_of_ascii c in
  ((48 <=? n) && (n <=? 57) || (97 <=? n) && (n <=? 102))%nat.

Fixpoint all_hex (s : string) : bool :=
  match s with EmptyString => true | String c s' => hex_digit c && all_hex s' end.

(** [fullSHA.MatchString] *)
Definition fullSHA (s : string) : bool := (str_len s =? fullSHALen)%nat && all_hex s.

Record Flags := mkFlags { fl_Version : string; fl_Commit : string; Modified : string; fl_BuiltAt : string }.

Record Stamp := mkStamp {
  Name : string; Version : string; Commit : string; Dirty : bool; BuiltAt : string;
  Module_ : string; Deps : gmap string string
}.

Definition set_commit (v : string) (s : Stamp) : Stamp :=
  mkStamp (Name s) (Version s) v (Dirty s) (BuiltAt s) (Module_ s) (Deps s).
Definition set_dirty (v : bool) (s : Stamp) : Stamp :=
  mkStamp (Name s) (Version s) (Commit s) v (BuiltAt s) (Module_ s) (Deps s).
Definition set_built (v : string) (s : Stamp) : Stamp :=
  mkStamp (Name s) (Version s) (Commit s) (Dirty s) v (Module_ s) (Deps s).
Definition set_module (v : string) (s : Stamp) : Stamp :=
  mkStamp (Name s) (Version s) (Commit s) (Dirty s) (BuiltAt s) v (Deps s).
Definition set_dep (k v : string) (s : Stamp) : Stamp :=
  mkStamp (Name s) (Version s) (Commit s) (Dirty s) (BuiltAt s) (Module_ s) (<[k:=v]> (Deps s)).
Definition set_name (n v : string) (s : Stamp) : Stamp :=
  mkStamp n v (Commit s) (Dirty s) (BuiltAt s) (Module_ s) (Deps s).

Definition fill_setting (fl : Flags) (s : Stamp) (kv : string * string) : Stamp :=
  let '(key, value) := kv in
  if bool_decide (key = "vcs.revision") then
    if bool_decide (Commit s = "") then set_commit value s else s
  else if bool_decide (key = "vcs.time") then
    if bool_decide (BuiltAt s = "") then set_built value s else s
  else if bool_decide (key = "vcs.modified") then
    if bool_decide (Modified fl = "") then set_dirty (bool_decide (value = trueValue)) s else s
  else s.

(** The build information: the path of the main module and the settings. *)
Definition fillFromBuildInfo (fl : Flags) (bi : option (string * list (string * string))) (s : Stamp)
  : Stamp :=
  match bi with
  | None => s
  | Some (path, settings) => fold_left (fill_setting fl) settings (set_module path s)
  end.

Definition Get (fl : Flags) (bi : option (string * list (string * string))) (name : string)
    (deps : gmap string string) : Stamp :=
  let s := mkStamp name (fl_Version fl) (fl_Commit fl) (bool_decide (Modified fl = trueValue))
             (fl_BuiltAt fl) "" deps in
  let s := fillFromBuildInfo fl bi s in
  if bool_decide (Commit s = "") then set_commit Unknown s else s.

(** [slices.Sorted(maps.Keys(m))] *)
Definition sorted_keys (m : gmap string string) : list string :=
  merge_sort String.le ((map_to_list m).*1).

Definition dep_of (m : gmap string string) (k : string) : string := default "" (m !! k).

Definition Stamp_String (s : Stamp) : string :=
  let b := Name s in
  let b := if bool_decide (Version s = "") then b else b +:+ " " +:+ Version s in
  let b := b +:+ " commit=" +:+ Commit s +:+ " dirty=" +:+ bool_text (Dirty s) in
  let b := if bool_decide (BuiltAt s = "") then b else b +:+ " built=" +:+ BuiltAt s in
  let b := fold_left (λ b k, b +:+ " " +:+ k +:+ "=" +:+ dep_of (Deps s) k) (sorted_keys (Deps s)) b in
  trim_space b.

Definition Short (s : Stamp) : string :=
  let c := if (shortSHALen <? str_len (Commit s))%nat then str_take shortSHALen (Commit s)
           else Commit s in
  let c := if Dirty s then c +:+ dirtySuffix else c in
  if bool_decide (Version s = "") then c else Version s +:+ " (" +:+ c +:+ ")".

Definition malformed (msg : string) : error := EFmt (PWrap ErrMalformedStamp (PText (": " +:+ msg) PNil)).

Definition absorb (key value : string) (s : Stamp) : error + Stamp :=
  if bool_decide (key = "commit") then inr (set_commit value s)
  else if bool_decide (key = "dirty") then
    if bool_decide (value = trueValue) then inr (set_dirty true s)
    else if bool_decide (value = "false") then inr (set_dirty false s)
    else inl (malformed ("dirty must be true or false, got " +:+ quote value))
  else if bool_decide (key = "built") then inr (set_built value s)
  else inr (set_dep key value s).

Definition equals : ascii := "="%char.

Fixpoint ParseStamp_loop (fields : list string) (s : Stamp) (leading : list string) (seenKV : bool)
  : error + Stamp * list string :=
  match fields with
  | [] => inr (s, leading)
  | f :: fields =>
      let '(key, value, isKV) := cut equals f in
      if isKV then
        match absorb key value s with
        | inl err => inl err
        | inr s => ParseStamp_loop fields s leading true
        end
      else if seenKV then
        inl (malformed ("unexpected bare word " +:+ quote f +:+ " after key=value fields"))
      else ParseStamp_loop fields s (leading ++ [f]) false
  end.

Definition zero_stamp : Stamp := mkStamp "" "" "" false "" "" ∅.

Definition ParseStamp (line : string) : error + Stamp :=
  let fs := fields line in
  match fs with
  | [] => inl (malformed "empty line")
  | _ =>
      match ParseStamp_loop fs zero_stamp [] false with
      | inl err => inl err
      | inr (s, leading) =>
          if bool_decide (Commit s = "") then inl (malformed "no commit= field")
          else
            match leading with
            | [] => inr s
            | n :: vs => inr (set_name n (join " " vs) s)
            end
      end
  end.

Definition checkDep (name value : string) : option error :=
  if bool_decide (value = "") || bool_decide (value = Unknown) then
    Some (EFmt (PWrap ErrDependencyUnclean
      (PText (": " +:+ quote name +:+ " has an unknown revision — rebuild against a clean checkout") PNil)))
  else if has_suffix dirtySuffix value then
    Some (EFmt (PWrap ErrDependencyUnclean
      (PText (": " +:+ quote name +:+ " was dirty at build time (" +:+ value +:+
        ") — a binary built against uncommitted changes is not reproducible") PNil)))
  else None.

Fixpoint check_deps (m : gmap string string) (names : list string) : option error :=
  match names with
  | [] => None
  | name :: names => checkDep name (dep_of m name) ;;? check_deps m names
  end.

Definition Matches (s : Stamp) (expectedCommit : string) : option error :=
  if negb (fullSHA expectedCommit) then
    Some (malformed ("expected commit " +:+ quote expectedCommit +:+ " is not a full 40-character SHA"))
  else if bool_decide (Commit s = "") || bool_decide (Commit s = Unknown) then
    Some (wrap_post ErrUnknownCommit " — rebuild from a git checkout")
  else if negb (fullSHA (Commit s)) then
    Some (malformed ("binary commit " +:+ quote (Commit s) +:+ " is not a full 40-character SHA"))
  else if negb (bool_decide (Commit s = expectedCommit)) then
    Some (wrap_post ErrCommitMismatch
      (": built from " +:+ Commit s +:+ ", expected " +:+ expectedCommit +:+ " — rebuild"))
  else if Dirty s then Some (wrap_post ErrDirtyBuild " — rebuild from a clean checkout")
  else check_deps (Deps s) (sorted_keys (Deps s)).

Fixpoint RequireDeps (s : Stamp) (names : list string) : option error :=
  match names with
  | [] => None
  | name :: names =>
      match Deps s !! name with
      | None =>
          Some (EFmt (PWrap ErrDependencyMissing
            (PText (": " +:+ quote name +:+ " — build via the release script") PNil)))
      | Some value => checkDep name value ;;? RequireDeps s names
      end
  end.

(** ** Specification *)

Definition clean_revision (v : string) : Prop :=
  v ≠ "" ∧ v ≠ Unknown ∧ has_suffix dirtySuffix v = false.

Definition bare (s : string) : Prop := word s ∧ contains_byte equals s = false.

(** A stamp that its line can carry: the name is one word and the version some
    words without an equals sign, a version needs a name, values have no spaces,
    and no dependency is named after a field of the stamp. *)
Record printable (s : Stamp) (version : list string) : Prop := {
  pr_name : Name s = "" ∧ version = [] ∨ bare (Name s);
  pr_version : Version s = join " " version ∧ Forall bare version;
  pr_commit : word (Commit s);
  pr_built : no_space (BuiltAt s) = true;
  pr_module : Module_ s = "";
  pr_deps : ∀ k v, Deps s !! k = Some v →
    no_space k = true ∧ contains_byte equals k = false ∧ no_space v = true ∧
    k ≠ "commit" ∧ k ≠ "dirty" ∧ k ≠ "built"
}.

(** ** Lemmas *)

Definition kv_field (kv : string * string) : string := kv.1 +:+ "=" +:+ kv.2.

(** The fields of the line after the name. *)
Definition dep_fields (m : gmap string string) : list (string * string) :=
  (λ k, (k, dep_of m k)) <$> sorted_keys m.
Definition kv_fields (s : Stamp) : list (string * string) :=
  ("commit", Commit s) :: ("dirty", bool_text (Dirty s)) ::
  (if bool_decide (BuiltAt s = "") then [] else [("built", BuiltAt s)]) ++ dep_fields (Deps s).

Lemma sorted_keys_perm m : sorted_keys m ≡ₚ (map_to_list m).*1.
Proof. apply merge_sort_Permutation. Qed.

Lemma sorted_keys_elem m k : k ∈ sorted_keys m ↔ ∃ v, m !! k = Some v.
Proof.
  rewrite sorted_keys_perm, list_elem_of_fmap. split.
  - intros ([k' v] & -> & Hin). apply elem_of_map_to_list in Hin. by exists v.
  - intros (v & Hv). exists (k, v). split; [done|by apply elem_of_map_to_list].
Qed.

Lemma deps_text (m : gmap string string) l b :
  fold_left (λ b k, b +:+ " " +:+ k +:+ "=" +:+ dep_of m k) l b =
  b +:+ spaced ((λ k, kv_field (k, dep_of m k)) <$> l).
Proof.
  revert b. induction l as [|k l IH]; intros b; csimpl; [by rewrite str_app_nil_r|].
  rewrite IH. unfold kv_field. cbn [spaced foldr fst snd]. by rewrite !str_app_assoc.
Qed.

Lemma stamp_text s version :
  printable s version →
  Stamp_String s = trim_space (Name s +:+ spaced (version ++ (kv_field <$> kv_fields s))).
Proof.
  intros Hp. destruct (pr_version s version Hp) as [Hv Hb]. unfold Stamp_String. f_equal.
  rewrite deps_text, spaced_app.
  assert ((if bool_decide (Version s = "") then Name s else Name s +:+ " " +:+ Version s) =
    Name s +:+ spaced version) as ->.
  { rewrite Hv. destruct version as [|w ws]; [symmetry; exact (str_app_nil_r (Name s))|].
    rewrite <- spaced_join by done. rewrite bool_decide_eq_false_2; [done|]. intros E.
    apply Forall_cons in Hb as [[[Hne _] _] _]. destruct ws; [done|].
    change (join " " (w :: s0 :: ws)) with (w +:+ " " +:+ join " " (s0 :: ws)) in E.
    by apply str_app_eq_nil in E as [? _]. }
  unfold kv_fields, dep_fields. csimpl.
  destruct (bool_decide (BuiltAt s = "")); csimpl; rewrite <- list_fmap_compose;
    unfold kv_field; cbn [fst snd spaced foldr]; rewrite !str_app_assoc; reflexivity.
Qed.

Lemma kv_field_word k v :
  no_space k = true → no_space v = true → word (kv_field (k, v)).
Proof.
  intros Hk Hv. unfold word, kv_field. cbn [fst snd]. split.
  - intros [_ E]%str_app_eq_nil. by apply str_app_eq_nil in E as [? _].
  - by rewrite !no_space_app, Hk, Hv.
Qed.

Lemma kv_fields_ok s version :
  printable s version →
  Forall (λ kv, contains_byte equals kv.1 = false ∧ word (kv_field kv)) (kv_fields s).
Proof.
  intros Hp. destruct (pr_commit s version Hp) as [_ Hc]. pose proof (pr_built s version Hp) as Hb.
  unfold kv_fields. repeat (apply Forall_cons; split).
  - split; [done|by apply kv_field_word].
  - split; [done|]. apply kv_field_word; [done|by destruct (Dirty s)].
  - apply Forall_app. split.
    + destruct (bool_decide _); constructor; [|done]. split; [done|by apply kv_field_word].
    + unfold dep_fields. apply Forall_fmap, Forall_forall. intros k (v & Hk)%sorted_keys_elem.
      destruct (pr_deps s version Hp k v Hk) as (H1 & H2 & H3 & _). simpl. unfold dep_of. rewrite Hk.
      split; [done|by apply kv_field_word].
Qed.

Lemma loop_bare ws rest s leading :
  Forall bare ws →
  ParseStamp_loop (ws ++ rest) s leading false = ParseStamp_loop rest s (leading ++ ws) false.
Proof.
  intros H. revert leading. induction H as [|w ws [_ Hw] _ IH]; intros leading; simpl;
    [by rewrite app_nil_r|]. rewrite cut_none by done. rewrite IH. by rewrite <- app_assoc.
Qed.

Lemma loop_kv k v rest s leading seen :
  contains_byte equals k = false →
  ParseStamp_loop (kv_field (k, v) :: rest) s leading seen =
  match absorb k v s with inl err => inl err | inr s => ParseStamp_loop rest s leading true end.
Proof.
  intros Hk. unfold kv_field. cbn [ParseStamp_loop fst snd].
  change ("=" +:+ v) with (String equals v). by rewrite cut_app.
Qed.

Lemma absorb_dep k v s :
  k ≠ "commit" → k ≠ "dirty" → k ≠ "built" → absorb k v s = inr (set_dep k v s).
Proof. intros. unfold absorb. by rewrite !bool_decide_eq_false_2. Qed.

Lemma loop_deps l s leading :
  Forall (λ kv, contains_byte equals kv.1 = false ∧ kv.1 ≠ "commit" ∧ kv.1 ≠ "dirty" ∧ kv.1 ≠ "built") l →
  ParseStamp_loop (kv_field <$> l) s leading true =
  inr (mkStamp (Name s) (Version s) (Commit s) (Dirty s) (BuiltAt s) (Module_ s)
         (fold_left (λ m kv, <[kv.1:=kv.2]> m) l (Deps s)), leading).
Proof.
  intros H. revert s. induction H as [|[k v] l (H1 & H2 & H3 & H4) _ IH]; intros s.
  - by destruct s.
  - rewrite fmap_cons, loop_kv, absorb_dep by done. by rewrite IH.
Qed.

Lemma deps_rebuilt m : fold_left (λ d kv, <[kv.1:=kv.2]> d) (dep_fields m) ∅ = m.
Proof.
  assert (∀ l (d : gmap string string) k,
    fold_left (λ d kv, <[kv.1:=kv.2]> d) ((λ k, (k, dep_of m k)) <$> l) d !! k =
    if decide (k ∈ l) then Some (dep_of m k) else d !! k) as Hl.
  { induction l as [|x l IH]; intros d k; csimpl.
    - done.
    - rewrite IH. destruct (decide (k ∈ l)) as [Hin|Hin], (decide (k ∈ x :: l)) as [Hin'|Hin']; try done.
      + exfalso. apply Hin'. by right.
      + apply elem_of_cons in Hin' as [->|?]; [|done]. by rewrite lookup_insert_eq.
      + apply lookup_insert_ne. intros ->. apply Hin'. by left. }
  apply map_eq. intros k. unfold dep_fields. rewrite Hl. destruct (decide _) as [Hin|Hin].
  - apply sorted_keys_elem in Hin as (v & Hv). unfold dep_of. by rewrite Hv.
  - rewrite lookup_empty. destruct (m !! k) eqn:E; [|done]. exfalso. apply Hin, sorted_keys_elem. eauto.
Qed.

Lemma loop_fields s version leading :
  printable s version →
  ParseStamp_loop (kv_field <$> kv_fields s) zero_stamp leading false =
  inr (mkStamp "" "" (Commit s) (Dirty s) (BuiltAt s) "" (Deps s), leading).
Proof.
  intros Hp. unfold kv_fields. rewrite !fmap_cons, loop_kv by done. cbn [absorb].
  change (absorb "commit" (Commit s) zero_stamp) with (inr (A:=error) (set_commit (Commit s) zero_stamp)).
  cbv iota. rewrite loop_kv by done.
  assert (∀ x, absorb "dirty" (bool_text (Dirty s)) x = inr (set_dirty (Dirty s) x)) as ->
    by (by destruct (Dirty s)). cbv iota. rewrite fmap_app.
  assert (Forall (λ kv, contains_byte equals kv.1 = false ∧ kv.1 ≠ "commit" ∧ kv.1 ≠ "dirty" ∧ kv.1 ≠ "built")
    (dep_fields (Deps s))) as Hd.
  { apply Forall_fmap, Forall_forall. intros k (v & Hk)%sorted_keys_elem.
    destruct (pr_deps s version Hp k v Hk) as (_ & H2 & _ & H4). done. }
  case_bool_decide as Hb.
  - rewrite fmap_nil. simpl app. rewrite loop_deps by done. simpl. by rewrite deps_rebuilt, Hb.
  - rewrite fmap_cons, fmap_nil. simpl app. rewrite loop_kv by done.
    change (absorb "built" (BuiltAt s) ?x) with (inr (A:=error) (set_built (BuiltAt s) x)).
    cbv iota. rewrite loop_deps by done. simpl. by rewrite deps_rebuilt.
Qed.

(** ** Properties *)

(** C9: ParseStamp reads back what String prints: the same stamp, with every
    dependency, for each stamp its line can carry. *)
Theorem stamp_round_trip (s : Stamp) (version : list string) :
  printable s version → ParseStamp (Stamp_String s) = inr s.
Proof.
  intros Hp. destruct (pr_version s version Hp) as [Hv Hb]. pose proof (kv_fields_ok s version Hp) as Hk.
  assert (no_space (Name s) = true) as Hns.
  { destruct (pr_name s version Hp) as [[-> _]|[[_ ?] _]]; done. }
  assert (fields (Stamp_String s) =
    (if decide (Name s = "") then [] else [Name s]) ++ version ++ (kv_field <$> kv_fields s)) as Hf.
  { rewrite (stamp_text s version Hp), fields_trim. apply fields_spaced; [done|]. apply Forall_app. split.
    - eapply Forall_impl; [exact Hb|]. by intros w [? _].
    - apply Forall_fmap. eapply Forall_impl; [exact Hk|]. by intros kv [_ ?]. }
  assert (Commit s ≠ "") as Hc by apply (pr_commit s version Hp).
  unfold ParseStamp. rewrite Hf.
  assert ((if decide (Name s = "") then [] else [Name s]) ++ version ++ (kv_field <$> kv_fields s) =
    ((if decide (Name s = "") then [] else Name s :: version)) ++ (kv_field <$> kv_fields s)) as ->.
  { destruct (decide (Name s = "")) as [E|E]; [|done].
    destruct (pr_name s version Hp) as [[_ ->]|[[? _] _]]; done. }
  set (lead := if decide (Name s = "") then [] else Name s :: version).
  assert (Forall bare lead) as Hlead.
  { subst lead. destruct (decide _) as [|E]; [done|]. constructor; [|done].
    by destruct (pr_name s version Hp) as [[? _]|?]. }
  destruct (lead ++ (kv_field <$> kv_fields s)) as [|f fs] eqn:El.
  { apply app_nil in El as [_ El]. done. }
  rewrite <- El, loop_bare, (loop_fields s version) by done. simpl.
  rewrite bool_decide_eq_false_2 by done. subst lead. pose proof (pr_module s version Hp) as Hm.
  destruct s as [n v c dt bu mo de]. simpl in *. subst mo. destruct (decide (n = "")) as [->|E]; simpl.
  - destruct (pr_name _ _ Hp) as [[_ E]|[[E _] _]]; simpl in E; [|done]. subst. done.
  - by rewrite Hv.
Qed.

Lemma check_dep_none name v : checkDep name v = None ↔ clean_revision v.
Proof.
  unfold checkDep, clean_revision. repeat case_bool_decide; simpl; try (split; [done|tauto]).
  destruct (has_suffix dirtySuffix v); split; naive_solver.
Qed.

Lemma check_deps_none m names :
  check_deps m names = None ↔ ∀ k, k ∈ names → clean_revision (dep_of m k).
Proof.
  induction names as [|n names IH]; simpl; [by split; [intros _ k Hk; inversion Hk|]|].
  setoid_rewrite elem_of_cons. destruct (checkDep n (dep_of m n)) as [e|] eqn:E.
  - split; [done|]. intros H. specialize (H n (or_introl eq_refl)).
    apply (check_dep_none n) in H. congruence.
  - rewrite IH. apply check_dep_none in E. split; [intros H k [->|Hk]; auto|auto].
Qed.

Lemma require_deps_none s names :
  RequireDeps s names = None ↔ ∀ k, k ∈ names → ∃ v, Deps s !! k = Some v ∧ clean_revision v.
Proof.
  induction names as [|n names IH]; simpl; [by split; [intros _ k Hk; inversion Hk|]|].
  setoid_rewrite elem_of_cons. destruct (Deps s !! n) as [v|] eqn:Ev.
  - destruct (checkDep n v) as [e|] eqn:E.
    + split; [done|]. intros H. destruct (H n (or_introl eq_refl)) as (v' & Hv' & Hc).
      rewrite Ev in Hv'. injection Hv' as <-. apply (check_dep_none n) in Hc. congruence.
    + rewrite IH. apply check_dep_none in E. split; [intros H k [->|Hk]; eauto|auto].
  - split; [done|]. intros H. destruct (H n (or_introl eq_refl)) as (v' & Hv' & _). congruence.
Qed.

Lemma unknown_not_sha : fullSHA Unknown = false.
Proof. done. Qed.

(** Matches and RequireDeps accept exactly what they promise: the expected
    commit is a full SHA and the binary's commit, the build was clean, and every
    recorded dependency has a revision that is neither unknown nor dirty;
    and, for the names required, each one is recorded with such a revision. A
    binary without a commit is refused as unknown, one of another commit as a
    mismatch, a dirty one as dirty. *)
Theorem matches_exact (s : Stamp) (expected : string) (names : list string) :
  (Matches s expected = None ↔
     fullSHA expected = true ∧ Commit s = expected ∧ Dirty s = false ∧
     ∀ k v, Deps s !! k = Some v → clean_revision v) ∧
  (RequireDeps s names = None ↔
     ∀ k, k ∈ names → ∃ v, Deps s !! k = Some v ∧ clean_revision v) ∧
  (fullSHA expected = true →
     (Commit s = "" ∨ Commit s = Unknown → errors_is "buildstamp.ErrUnknownCommit" (Matches s expected) = true) ∧
     (fullSHA (Commit s) = true → Commit s ≠ expected →
        errors_is "buildstamp.ErrCommitMismatch" (Matches s expected) = true) ∧
     (Commit s = expected → Dirty s = true →
        errors_is "buildstamp.ErrDirtyBuild" (Matches s expected) = true)).
Proof.
  assert (∀ c, fullSHA c = true → c ≠ "" ∧ c ≠ Unknown) as Hsha by (intros c Hc; split; intros ->; done).
  split_and!.
  - unfold Matches. destruct (fullSHA expected) eqn:Ee; simpl; [|split; [done|by intros (? & _)]].
    destruct (Hsha expected Ee) as [H1 H2].
    destruct (decide (Commit s = expected)) as [E|E].
    + rewrite E, Ee, !bool_decide_eq_false_2, (bool_decide_eq_true_2 (expected = expected)) by done. simpl.
      destruct (Dirty s); [split; [done|by intros (_ & _ & ? & _)]|].
      rewrite check_deps_none. split.
      * intros H. split_and!; [done..|]. intros k v Hk.
        assert (dep_of (Deps s) k = v) as <- by (unfold dep_of; by rewrite Hk).
        apply H, sorted_keys_elem. eauto.
      * intros (_ & _ & _ & H) k (v & Hk)%sorted_keys_elem. unfold dep_of. rewrite Hk. by apply (H k).
    + rewrite (bool_decide_eq_false_2 (Commit s = expected)) by done. simpl.
      split; [|by intros (_ & ? & _)]. by repeat case_match.
  - apply require_deps_none.
  - intros Ee. unfold Matches. rewrite Ee. simpl. split_and!.
    + intros [-> | ->]; done.
    + intros Hc Hne. destruct (Hsha _ Hc) as [H1 H2].
      rewrite !bool_decide_eq_false_2 by done. simpl. by rewrite Hc.
    + intros E Hd. destruct (Hsha _ Ee) as [H1 H2].
      rewrite E, Ee, !bool_decide_eq_false_2, (bool_decide_eq_true_2 (expected = expected)) by done.
      simpl. by rewrite Hd.
Qed.

(** A linker flag wins over the embedded settings, whatever these are. *)
Lemma get_flags_win fl bi name deps :
  fl_Commit fl ≠ "" → fl_BuiltAt fl ≠ "" → Modified fl ≠ "" →
  let s := Get fl bi name deps in
  Commit s = fl_Commit fl ∧ BuiltAt s = fl_BuiltAt fl ∧
  Dirty s = bool_decide (Modified fl = trueValue) ∧ Deps s = deps ∧ Name s = name.
Proof.
  intros Hc Hb Hm. unfold Get.
  set (s0 := mkStamp _ _ _ _ _ _ _).
  assert (∀ s, Commit s = fl_Commit fl → BuiltAt s = fl_BuiltAt fl → ∀ kv,
    Commit (fill_setting fl s kv) = Commit s ∧ BuiltAt (fill_setting fl s kv) = BuiltAt s ∧
    Dirty (fill_setting fl s kv) = Dirty s ∧ Deps (fill_setting fl s kv) = Deps s ∧
    Name (fill_setting fl s kv) = Name s) as Hstep.
  { intros s Ec Eb [k v]. unfold fill_setting. repeat case_bool_decide; try done; congruence. }
  assert (∀ l s, Commit s = fl_Commit fl → BuiltAt s = fl_BuiltAt fl →
    let s' := fold_left (fill_setting fl) l s in
    Commit s' = Commit s ∧ BuiltAt s' = BuiltAt s ∧ Dirty s' = Dirty s ∧ Deps s' = Deps s ∧ Name s' = Name s) as Hfold.
  { induction l as [|kv l IH]; intros s Ec Eb; [done|]. destruct (Hstep s Ec Eb kv) as (E1 & E2 & E3 & E4 & E5).
    simpl. destruct (IH (fill_setting fl s kv)) as (F1 & F2 & F3 & F4 & F5); [congruence..|].
    split_and!; congruence. }
  assert (let s' := fillFromBuildInfo fl bi s0 in Commit s' = fl_Commit fl ∧ BuiltAt s' = fl_BuiltAt fl ∧
    Dirty s' = bool_decide (Modified fl = trueValue) ∧ Deps s' = deps ∧ Name s' = name) as (E1 & E2 & E3 & E4 & E5).
  { unfold fillFromBuildInfo. destruct bi as [[p l]|]; [|done].
    destruct (Hfold l (set_module p s0) eq_refl eq_refl) as (-> & -> & -> & -> & ->). done. }
  rewrite bool_decide_eq_false_2; [done|]. by rewrite E1.
Qed.

(** ** Witnesses *)

Definition sha : string := "0123456789abcdef0123456789abcdef01234567".

Definition tool : Stamp := mkStamp "tool" "1.4.0 beta" sha true "2026-01-02" "" {["lib" := "abc1234"; "app" := "unknown"]}.

Lemma tool_printable : printable tool ["1.4.0"; "beta"].
Proof.
  split; try done; [by right|split; [done|]; by repeat constructor|].
  intros k v H. simpl in H. apply lookup_insert_Some in H as [[<- <-]|[_ H]]; [done|].
  apply lookup_singleton_Some in H as [<- <-]. done.
Qed.

Lemma stamp_round_trip_witness : ParseStamp (Stamp_String tool) = inr tool.
Proof. apply (stamp_round_trip tool ["1.4.0"; "beta"]). apply tool_printable. Defined.

(** A dependency recorded under the name of a field takes its place on the way
    through the line: the dirty build below, whose own Matches refuses it, comes
    back clean. *)
Example dependency_shadows_field :
  let s := mkStamp "tool" "" sha true "" "" {["dirty" := "false"]} in
  errors_is "buildstamp.ErrDirtyBuild" (Matches s sha) = true ∧
  match ParseStamp (Stamp_String s) with
  | inr s' => Matches s' sha = None ∧ Deps s' = ∅
  | inl _ => False
  end.
Proof. by vm_compute. Qed.

End buildstamp.
