(* ===== verification/AuditLog.v ===== *)
(** * observability/audit: the audit trail, its file and its readers

    Models [audit.go], [reader.go] and [file/file.go] of
    [src/go/observability/audit]. The encoding of JSON and of times are
    parameters. A directory maps names to files and files to contents, so that a
    handle stays with its file when that is renamed; each call of the operating
    system that the code makes can fail. *)

From Stdlib Require Import Ascii.
From S2P Require Import Prelude GoStrings GoErr.

Module audit.

Definition newline : ascii := ascii_of_nat 10.
Definition carriage : ascii := ascii_of_nat 13.

(** ** Entries *)

(** The zero time is [None]; others count nanoseconds. *)
Record Entry := mkEntry { Time : option Z; Actor : string; Action : string; Resource : string }.

#[export] Instance Entry_eq_dec : EqDecision Entry.
Proof. solve_decision. Defined.

(** The wire representation. *)
Record entryJSON := mkEntryJSON {
  ts : string; actor : string; action : string; resource : string }.

#[export] Instance entryJSON_eq_dec : EqDecision entryJSON.
Proof. solve_decision. Defined.

(** [encoding/json] and the RFC 3339 layout of [time]. [checkValid] is the
    syntax check of [json.Unmarshal] and [compact] what [json.Marshal] does to
    the text of a marshaler. *)
Record Codec := mkCodec {
  json_Marshal : entryJSON → error + string;
  json_Unmarshal : string → error + entryJSON;
  checkValid : string → option error;
  compact : string → string;
  Format : Z → string;
  Parse : string → error + option Z
}.

Section codec.
Context (C : Codec).

Definition MarshalJSON (e : Entry) : error + string :=
  let ts := match Time e with None => "" | Some t => Format C t end in
  match json_Marshal C (mkEntryJSON ts (Actor e) (Action e) (Resource e)) with
  | inl err => inl (wrap_pre "marshal audit entry: " err)
  | inr data => inr data
  end.

Definition UnmarshalJSON (data : string) : error + Entry :=
  match json_Unmarshal C data with
  | inl err => inl (wrap_pre "unmarshal audit entry: " err)
  | inr raw =>
      let entry t := mkEntry t (actor raw) (action raw) (resource raw) in
      if bool_decide (ts raw = "") then inr (entry None)
      else match Parse C (ts raw) with
           | inl err => inl (wrap_pre ("parse audit entry time " +:+ quote (ts raw) +:+ ": ") err)
           | inr parsed => inr (entry parsed)
           end
  end.

(** [json.Marshal(entry)] and [json.Unmarshal(line, &entry)]. *)
Definition Marshal (e : Entry) : error + string :=
  match MarshalJSON e with
  | inl err => inl (wrap_pre "json: error calling MarshalJSON for type audit.Entry: " err)
  | inr data => inr (compact C data)
  end.

Definition Unmarshal (line : string) : error + Entry :=
  match checkValid C line with
  | Some err => inl err
  | None => UnmarshalJSON (trim_space line)
  end.

(** ** The streaming reader *)

Definition ErrInvalidJSONLine : error :=
  ENew "audit.ErrInvalidJSONLine" "invalid JSON line in audit stream".
Definition io_EOF : error := ENew "io.EOF" "EOF".
Definition bufio_ErrTooLong : error := ENew "bufio.ErrTooLong" "bufio.Scanner: token too long".

(** [bufio.MaxScanTokenSize]: the buffer that must hold a line. *)
Definition MaxScanTokenSize : nat := 64 * 1024.

(** The lines [bufio.ScanLines] finds: a final newline ends a line and does not
    begin one. *)
Fixpoint drop_last_empty (l : list string) : list string :=
  match l with
  | [] => []
  | [s] => if bool_decide (s = "") then [] else [s]
  | s :: l => s :: drop_last_empty l
  end.
Definition raw_lines (content : string) : list string := drop_last_empty (split newline content).

Definition drop_cr (line : string) : string :=
  if has_suffix (String carriage "") line then str_take (pred (str_len line)) line else line.

(** [pending]: the lines the scanner has not given yet; [fault]: the error that
    ends the stream, when that is not the end of the file. *)
Record Reader := mkReader { pending : list string; fault : option error; lineNum : Z }.

Definition NewReader (content : string) (fault : option error) : Reader :=
  mkReader (raw_lines content) fault 0.

Definition invalid_line (n : Z) (err : error) : error :=
  EFmt (PWrap ErrInvalidJSONLine (PText (" at line " +:+ itoa n +:+ ": ") (PWrap err PNil))).
Definition read_failed (err : error) : error := wrap_pre "read audit stream: " err.

Fixpoint Read_loop (pending : list string) (fault : option error) (lineNum : Z)
  : error + (Entry * Reader) :=
  match pending with
  | [] => inl (match fault with Some err => read_failed err | None => io_EOF end)
  | raw :: rest =>
      if (MaxScanTokenSize <=? str_len raw)%nat then inl (read_failed bufio_ErrTooLong)
      else
        let lineNum := lineNum + 1 in
        let line := drop_cr raw in
        if bool_decide (line = "") then Read_loop rest fault lineNum
        else match Unmarshal line with
             | inl err => inl (invalid_line lineNum err)
             | inr entry => inr (entry, mkReader rest fault lineNum)
             end
  end.

Definition Read (r : Reader) : error + (Entry * Reader) := Read_loop (pending r) (fault r) (lineNum r).

(** The loop of [ReadAll]: [None] when the fuel ran out. *)
Fixpoint ReadAll_loop (fuel : nat) (r : Reader) (entries : list Entry) : option (error + list Entry) :=
  match fuel with
  | O => None
  | S fuel =>
      match Read r with
      | inl err => Some (if is_err "io.EOF" err then inr entries else inl err)
      | inr (entry, r) => ReadAll_loop fuel r (entries ++ [entry])
      end
  end.

Definition ReadAll (r : Reader) : option (error + list Entry) :=
  ReadAll_loop (S (length (pending r))) r [].

Definition ReadEntries (content : string) (fault : option error) : option (error + list Entry) :=
  ReadAll (NewReader content fault).

End codec.

Definition Filter (entries : list Entry) (predicate : option (Entry → bool)) : list Entry :=
  match predicate with
  | None => entries
  | Some p => filter (λ e, p e = true) entries
  end.

(** ** Scorecards *)

Record Scorecard := mkScorecard {
  Total : Z; ByActor : gmap string Z; ByAction : gmap string Z; TopResources : list string }.

(** [m[k]++] *)
Definition bump (m : gmap string Z) (k : string) : gmap string Z := <[k := default 0 (m !! k) + 1]> m.

Definition bump_set (m : gmap string Z) (k : string) : gmap string Z :=
  if bool_decide (k = "") then m else bump m k.

Definition defaultTopResourcesLimit : nat := 10.

(** The comparison given to [sort.Slice]. It is a strict order of the pairs of a
    map, so that the sorted slice is the same for every order of iteration. *)
Definition ahead (x y : string * Z) : bool :=
  if negb (x.2 =? y.2) then y.2 <? x.2 else String.ltb x.1 y.1.
Definition not_after (x y : string * Z) : Prop := ahead y x = false.
#[export] Instance not_after_dec x y : Decision (not_after x y).
Proof. unfold not_after. apply _. Defined.

Definition aggregate_step (acc : gmap string Z * gmap string Z * gmap string Z) (e : Entry)
  : gmap string Z * gmap string Z * gmap string Z :=
  let '(byActor, byAction, resourceFreq) := acc in
  (bump_set byActor (Actor e), bump_set byAction (Action e), bump_set resourceFreq (Resource e)).

Definition AggregateScorecard (entries : list Entry) : Scorecard :=
  let '(byActor, byAction, resourceFreq) := fold_left aggregate_step entries (∅, ∅, ∅) in
  let resCounts := merge_sort not_after (map_to_list resourceFreq) in
  mkScorecard (Z.of_nat (length entries)) byActor byAction
    (take (Nat.min (length resCounts) defaultTopResourcesLimit) resCounts.*1).

(** ** The protobuf records of the contracts *)

Definition wrap32 (z : Z) : Z := (z + 2 ^ 31) mod 2 ^ 32 - 2 ^ 31.

Record pbEntry := mkPbEntry {
  EventTime : option Z; pb_Actor : string; pb_Action : string; pb_Resource : string }.
Record pbScorecard := mkPbScorecard {
  pb_Total : Z; pb_ByActor : gmap string Z; pb_ByAction : gmap string Z; pb_TopResources : list string }.

Definition Entry_ToProto (e : Entry) : pbEntry := mkPbEntry (Time e) (Actor e) (Action e) (Resource e).
Definition zero_entry : Entry := mkEntry None "" "" "".
Definition EntryFromProto (pb : option pbEntry) : Entry :=
  match pb with
  | None => zero_entry
  | Some pb => mkEntry (EventTime pb) (pb_Actor pb) (pb_Action pb) (pb_Resource pb)
  end.

Definition Scorecard_ToProto (s : Scorecard) : pbScorecard :=
  mkPbScorecard (wrap32 (Total s)) (wrap32 <$> ByActor s) (wrap32 <$> ByAction s) (TopResources s).
Definition ScorecardFromProto (pb : option pbScorecard) : Scorecard :=
  match pb with
  | None => mkScorecard 0 ∅ ∅ []
  | Some pb => mkScorecard (pb_Total pb) (pb_ByActor pb) (pb_ByAction pb) (pb_TopResources pb)
  end.

(** ** Counting *)

Section counting.

Definition occurrences (k : string) (ks : list string) : nat := length (filter (eq k) ks).

(** What a map of counters holds after counting [ks]. *)
Definition tally (ks : list string) (k : string) : option Z :=
  if decide (occurrences k ks = 0%nat) then None else Some (Z.of_nat (occurrences k ks)).

Lemma occurrences_snoc k ks x :
  occurrences k (ks ++ [x]) = (occurrences k ks + if decide (k = x) then 1 else 0)%nat.
Proof.
  unfold occurrences. rewrite filter_app, length_app. f_equal.
  destruct (decide (k = x)) as [E|E]; [by rewrite filter_cons_True|by rewrite filter_cons_False].
Qed.

Lemma lookup_bump m x k :
  bump m x !! k = if decide (k = x) then Some (default 0 (m !! k) + 1) else m !! k.
Proof.
  unfold bump. destruct (decide (k = x)) as [->|Hne]; [apply lookup_insert_eq|by apply lookup_insert_ne].
Qed.

Lemma fold_bump ks k : fold_left bump ks ∅ !! k = tally ks k.
Proof.
  induction ks as [|x ks IH] using rev_ind; [apply lookup_empty|].
  rewrite fold_left_snoc, lookup_bump, IH. unfold tally. rewrite occurrences_snoc.
  destruct (decide (k = x)); [|by rewrite Nat.add_0_r].
  rewrite (decide_False (P := _ + 1 = 0)%nat) by lia.
  f_equal. destruct (decide _) as [->|]; simpl; lia.
Qed.

Lemma fold_bump_set ks : fold_left bump_set ks ∅ = fold_left bump (filter (λ k, k ≠ "") ks) ∅.
Proof.
  induction ks as [|x ks IH] using rev_ind; [done|].
  rewrite filter_app, !fold_left_app, IH. simpl. unfold bump_set.
  destruct (decide (x = "")) as [->|Hne]; [done|].
  rewrite filter_cons_True by done. by rewrite bool_decide_eq_false_2.
Qed.

Lemma aggregate_folds es :
  fold_left aggregate_step es (∅, ∅, ∅) =
  (fold_left bump_set (Actor <$> es) ∅, fold_left bump_set (Action <$> es) ∅,
   fold_left bump_set (Resource <$> es) ∅).
Proof.
  induction es as [|e es IH] using rev_ind; [done|].
  by rewrite fold_left_snoc, IH, !fmap_app, !fold_left_app.
Qed.

(** The order of the ranking is total, so a ranking is unique. *)
Lemma ltb_leb s t : String.ltb s t = negb (String.leb t s).
Proof.
  unfold String.ltb, String.leb. rewrite (String.compare_antisym t s). by destruct (String.compare s t).
Qed.

Lemma not_after_spec x y : not_after x y ↔ y.2 < x.2 ∨ x.2 = y.2 ∧ String.le x.1 y.1.
Proof.
  unfold not_after, ahead. rewrite ltb_leb. unfold String.le.
  destruct (Z.eqb_spec y.2 x.2); simpl; [|rewrite Z.ltb_ge; lia].
  destruct (String.leb x.1 y.1); simpl; intuition (lia || done).
Qed.

#[export] Instance not_after_trans : Transitive not_after.
Proof.
  intros x y z. rewrite !not_after_spec. intros [?|[? ?]] [?|[? ?]]; [left; lia..|right].
  split; [lia|]. by etrans.
Qed.

#[export] Instance not_after_total : base.Total not_after.
Proof.
  intros x y. rewrite !not_after_spec. destruct (Z.lt_trichotomy x.2 y.2) as [?|[?|?]]; [auto..|auto].
  destruct (total String.le x.1 y.1); auto.
Qed.

#[export] Instance not_after_antisym : AntiSymm (=) not_after.
Proof.
  intros [k n] [k' n']. rewrite !not_after_spec. simpl. intros [?|[? ?]] [?|[? ?]]; try lia.
  f_equal; [by apply (anti_symm String.le)|done].
Qed.

End counting.

(** The non-empty names among [ks], counted. *)
Definition named_tally (ks : list string) (k : string) : option Z :=
  if bool_decide (k = "") then None else tally ks k.

Lemma fold_bump_set_lookup ks k : fold_left bump_set ks ∅ !! k = named_tally ks k.
Proof.
  rewrite fold_bump_set, fold_bump. unfold named_tally, tally, occurrences.
  case_bool_decide as E.
  - rewrite decide_True; [done|]. rewrite list_filter_filter. apply length_zero_nil, filter_none.
    apply Forall_forall. intros x _ [H1 H2]. congruence.
  - rewrite list_filter_filter. 
    assert (filter (λ x, k = x ∧ x ≠ "") ks = filter (eq k) ks) as ->; [|done].
    apply list_filter_iff. naive_solver.
Qed.

(** The aggregation counts the entries, and for each actor and each action but
    the empty one the entries that name it. The top resources are the first ten
    of the ranking of the resources by count, those with the same count by name:
    whatever the order in which the map is walked. *)
Theorem aggregate_exact es :
  let s := AggregateScorecard es in
  Total s = Z.of_nat (length es) ∧
  (∀ k, ByActor s !! k = named_tally (Actor <$> es) k) ∧
  (∀ k, ByAction s !! k = named_tally (Action <$> es) k) ∧
  (∃ ranked, NoDup ranked.*1 ∧ StronglySorted not_after ranked ∧
     (∀ k n, (k, n) ∈ ranked ↔ named_tally (Resource <$> es) k = Some n)) ∧
  (∀ ranked, NoDup ranked.*1 → StronglySorted not_after ranked →
     (∀ k n, (k, n) ∈ ranked ↔ named_tally (Resource <$> es) k = Some n) →
     TopResources s = take 10 ranked.*1).
Proof.
  unfold AggregateScorecard. rewrite aggregate_folds. simpl.
  set (m := fold_left bump_set (Resource <$> es) ∅).
  assert (∀ k n, (k, n) ∈ map_to_list m ↔ named_tally (Resource <$> es) k = Some n) as Hm.
  { intros k n. by rewrite elem_of_map_to_list, <- fold_bump_set_lookup. }
  pose proof (merge_sort_Permutation not_after (map_to_list m)) as Hp.
  split_and!; [done|intros; by apply fold_bump_set_lookup..| |].
  - exists (merge_sort not_after (map_to_list m)). split_and!.
    + rewrite Hp. apply NoDup_fst_map_to_list.
    + by apply StronglySorted_merge_sort; apply _.
    + intros k n. by rewrite Hp.
  - intros ranked Hnd Hs Hr.
    assert (ranked = merge_sort not_after (map_to_list m)) as ->.
    { apply (StronglySorted_unique not_after); [done|apply StronglySorted_merge_sort; apply _|].
      rewrite Hp. apply NoDup_Permutation; [by eapply NoDup_fmap_1|apply NoDup_map_to_list|].
      intros [k n]. by rewrite Hr, Hm. }
    unfold defaultTopResourcesLimit. generalize (merge_sort not_after (map_to_list m)). intros l.
    destruct (Nat.le_ge_cases (length l) 10) as [H|H]; [|by rewrite Nat.min_r].
    rewrite Nat.min_l by done. rewrite !take_ge; [done|..]; rewrite length_fmap; lia.
Qed.

(** ** The contract records *)

Definition is_int32 (z : Z) : Prop := - 2 ^ 31 ≤ z < 2 ^ 31.

Lemma wrap32_id z : is_int32 z → wrap32 z = z.
Proof. unfold is_int32, wrap32. intros H. rewrite Z.mod_small; lia. Qed.

(** An entry, and a scorecard whose counts fit 32 bits, come back from their
    protobuf records; an absent record gives an empty one. *)
Theorem proto_round_trip e s :
  is_int32 (Total s) → map_Forall (λ _, is_int32) (ByActor s) → map_Forall (λ _, is_int32) (ByAction s) →
  EntryFromProto (Some (Entry_ToProto e)) = e ∧
  ScorecardFromProto (Some (Scorecard_ToProto s)) = s.
Proof.
  intros Ht Ha Hc. destruct e, s; simpl in *. unfold EntryFromProto, Entry_ToProto, Scorecard_ToProto; simpl.
  split; [done|]. rewrite wrap32_id by done.
  f_equal; [rewrite <- (map_fmap_id ByActor0) at 2|rewrite <- (map_fmap_id ByAction0) at 2];
    apply map_fmap_ext; intros k z Hz; apply wrap32_id; [exact (Ha k z Hz)|exact (Hc k z Hz)].
Qed.

(** ** Reading *)

Section reading.
Context (C : Codec).

(** What one line of the stream is: nothing, an entry, or an error. *)
Definition parsed (raw : string) : error + option Entry :=
  if bool_decide (drop_cr raw = "") then inr None
  else match Unmarshal C (drop_cr raw) with inl err => inl err | inr e => inr (Some e) end.

Definition fits (raw : string) : Prop := (str_len raw < MaxScanTokenSize)%nat.

(** The lines before the end of the stream, or before the first bad one. *)
Definition good (lines : list string) (es : list Entry) : Prop :=
  Forall fits lines ∧ ∃ os, Forall2 (λ raw o, parsed raw = inr o) lines os ∧ es = omap id os.

Lemma good_cons raw lines es :
  good (raw :: lines) es → fits raw ∧ ∃ o es', parsed raw = inr o ∧ good lines es' ∧
    es = match o with Some e => e :: es' | None => es' end.
Proof.
  intros [Hf (os & H2 & ->)]. inv_clear Hf. inversion H2 as [|? o ? os' Ho Hos]; subst.
  split; [done|]. exists o, (omap id os'). split_and!; [done|by split; [|exists os']|]. by destruct o.
Qed.

Lemma read_loop_cons raw rest fl n :
  fits raw → Read_loop C (raw :: rest) fl n =
    match parsed raw with
    | inl err => inl (invalid_line (n + 1) err)
    | inr None => Read_loop C rest fl (n + 1)
    | inr (Some e) => inr (e, mkReader rest fl (n + 1))
    end.
Proof.
  unfold fits. intros H. cbn [Read_loop]. rewrite (proj2 (Nat.leb_gt _ _)) by done.
  unfold parsed. case_bool_decide; [done|]. by destruct (Unmarshal C (drop_cr raw)).
Qed.

Lemma read_loop_long raw rest fl n :
  ¬ fits raw → Read_loop C (raw :: rest) fl n = inl (read_failed bufio_ErrTooLong).
Proof.
  unfold fits. intros H%Nat.nlt_ge. cbn [Read_loop]. by rewrite (proj2 (Nat.leb_le _ _) H).
Qed.

(** How [ReadAll] ends on what follows the good lines. *)
Definition ending (lines : list string) (fl : option error) (n : Z) (es : list Entry)
  : option (error + list Entry) :=
  match Read_loop C lines fl n with
  | inl err => Some (if is_err "io.EOF" err then inr es else inl err)
  | inr _ => None
  end.

Lemma read_all_good lines es rest fl n acc fuel :
  good lines es → (length lines < fuel)%nat →
  (match Read_loop C rest fl (n + Z.of_nat (length lines)) with inl _ => True | inr _ => False end) →
  ReadAll_loop C fuel (mkReader (lines ++ rest) fl n) acc =
  ending rest fl (n + Z.of_nat (length lines)) (acc ++ es).
Proof.
  revert es n acc fuel.
  induction lines as [|raw lines IH]; intros es n acc fuel Hg Hl Hr; (destruct fuel as [|fuel]; [simpl in Hl; lia|]).
  - destruct Hg as [_ (os & H2 & ->)]. inv_clear H2. simpl in *. rewrite Z.add_0_r in *. unfold ending, Read. simpl.
    destruct (Read_loop C rest fl n); [|done]. by rewrite app_nil_r.
  - apply good_cons in Hg as (Hf & o & es' & Ho & Hg & ->).
    replace (n + Z.of_nat (length (raw :: lines))) with (n + 1 + Z.of_nat (length lines)) in *
      by (simpl; lia).
    destruct o as [e|].
    + cbn [ReadAll_loop]. unfold Read. cbn [pending fault lineNum app]. rewrite read_loop_cons, Ho by done. cbn [fst snd].
      rewrite (IH es'); [by rewrite <- app_assoc|done|simpl in Hl; lia|done].
    + assert (ReadAll_loop C (S fuel) (mkReader ((raw :: lines) ++ rest) fl n) acc =
              ReadAll_loop C (S fuel) (mkReader (lines ++ rest) fl (n + 1)) acc) as ->.
      { cbn [ReadAll_loop]. unfold Read. cbn [pending fault lineNum app]. by rewrite read_loop_cons, Ho by done. }
      apply IH; [done|simpl in Hl; lia|done].
Qed.

(** ReadEntries returns, and gives the entries of all lines that are not blank,
    in their order, when every line fits the buffer and parses and the stream
    ends at its end; otherwise it gives no entries but the first problem: the
    number of the first line that does not parse, with the reason; a line that
    is too long; or the error of the stream. *)
Theorem read_entries_exact content fl lines es rest :
  raw_lines content = lines ++ rest → good lines es →
  (rest = [] → fl = None → ReadEntries C content fl = Some (inr es)) ∧
  (∀ err, rest = [] → fl = Some err → is_err "io.EOF" err = false →
     ReadEntries C content fl = Some (inl (read_failed err))) ∧
  (∀ raw rest' err, rest = raw :: rest' → fits raw → parsed raw = inl err → is_err "io.EOF" err = false →
     ReadEntries C content fl = Some (inl (invalid_line (Z.of_nat (length lines) + 1) err))) ∧
  (∀ raw rest', rest = raw :: rest' → ¬ fits raw →
     ReadEntries C content fl = Some (inl (read_failed bufio_ErrTooLong))).
Proof.
  intros E Hg. unfold ReadEntries, ReadAll, NewReader. cbn [pending]. rewrite E.
  assert (length lines < S (length (lines ++ rest)))%nat as Hl by (rewrite length_app; lia).
  pose proof (read_all_good lines es rest fl 0 [] _ Hg Hl) as Hr. rewrite Z.add_0_l in Hr. unfold ending in Hr.
  split_and!.
  - intros -> ->. by rewrite Hr.
  - intros err -> -> He. rewrite Hr by done. simpl. by rewrite He.
  - intros raw rest' err -> Hf Hp He. rewrite read_loop_cons, Hp in Hr by done.
    rewrite Hr by done. unfold invalid_line. simpl. by rewrite He.
  - intros raw rest' -> Hf. rewrite read_loop_long in Hr by done. by rewrite Hr.
Qed.

End reading.

(** ** The wire format *)

Section wire.
Context (C : Codec) (valid : entryJSON → Prop) (in_range : Z → Prop).

(** What the documentation of [encoding/json] and of [time] says of the wire
    records with strings of valid UTF-8, and of the times RFC 3339 can express,
    to the second: an object on one line that reads back as it was. *)
Record faithful : Prop := {
  fa_json : ∀ j, valid j → ∃ s, let text := String "{" (s +:+ "}") in
    json_Marshal C j = inr text ∧ contains_byte newline s = false ∧ compact C text = text ∧
    json_Unmarshal C text = inr j ∧ checkValid C text = None ∧
    checkValid C (text +:+ String newline "") = None;
  fa_time : ∀ t, in_range t → Format C t ≠ "" ∧
    Parse C (Format C t) = inr (Some (t `div` Second * Second))
}.

Definition wire (e : Entry) : entryJSON :=
  mkEntryJSON (match Time e with None => "" | Some t => Format C t end) (Actor e) (Action e) (Resource e).
Definition encodable (e : Entry) : Prop :=
  valid (wire e) ∧ match Time e with None => True | Some t => in_range t end.
Definition to_second (e : Entry) : Entry :=
  mkEntry ((λ t, t `div` Second * Second) <$> Time e) (Actor e) (Action e) (Resource e).

Lemma trim_right_app s t : trim_right (s +:+ t) = if decide (trim_right t = "") then trim_right s else s +:+ trim_right t.
Proof.
  induction s as [|c s IH].
  - rewrite !str_nil_app. by destruct (decide (trim_right t = "")).
  - rewrite !str_cons_app. cbn [trim_right]. rewrite IH. destruct (decide (trim_right t = "")) as [E|E]; [done|].
    destruct (s +:+ trim_right t) eqn:Es; [|done]. destruct s; [|done]. by rewrite str_nil_app in Es.
Qed.

Lemma trim_object s : let text := String "{" (s +:+ "}") in
  trim_space text = text ∧ trim_space (text +:+ String newline "") = text.
Proof.
  intros text. unfold text, trim_space. rewrite str_cons_app.
  assert (∀ x, trim_left (String "{" x) = String "{" x) as Hl by done. rewrite !Hl.
  assert (trim_right (String "{" (s +:+ "}")) = String "{" (s +:+ "}")) as E.
  { rewrite <- str_cons_app, trim_right_app. done. }
  split; [exact E|]. rewrite <- str_cons_app, trim_right_app. exact E.
Qed.

Lemma drop_cr_object s : drop_cr (s +:+ "}") = s +:+ "}".
Proof.
  unfold drop_cr, has_suffix. rewrite str_len_app. simpl str_len.
  replace (str_len s + 1 - 1)%nat with (str_len s) by lia. rewrite str_drop_app.
  by rewrite andb_false_r.
Qed.

(** A line of the log, with and without its newline, reads back as the entry. *)
Lemma marshal_line e :
  faithful → encodable e → ∃ line, Marshal C e = inr line ∧ contains_byte newline line = false ∧
    drop_cr line = line ∧ line ≠ "" ∧ trim_space (line +:+ String newline "") ≠ "" ∧
    Unmarshal C line = inr (to_second e) ∧ Unmarshal C (line +:+ String newline "") = inr (to_second e).
Proof.
  intros HF [Hv Ht]. destruct (fa_json HF _ Hv) as (s & Hm & Hn & Hc & Hu & Hk & Hk').
  destruct (trim_object s) as [T1 T2]. set (text := String "{" (s +:+ "}")) in *.
  assert (UnmarshalJSON C text = inr (to_second e)) as HU.
  { unfold UnmarshalJSON. rewrite Hu. unfold wire, to_second. simpl. destruct (Time e) as [t|]; [|done].
    destruct (fa_time HF t Ht) as [Hne Hp]. simpl. by rewrite bool_decide_eq_false_2, Hp. }
  exists text. split_and!.
  - unfold Marshal, MarshalJSON. fold (wire e). rewrite Hm. by rewrite Hc.
  - unfold text. cbn [contains_byte]. by rewrite contains_byte_app, Hn.
  - unfold text. rewrite <- str_cons_app. apply drop_cr_object.
  - done.
  - by rewrite T2.
  - unfold Unmarshal. by rewrite Hk, T1.
  - unfold Unmarshal. by rewrite Hk', T2.
Qed.

(** A log that holds the lines of some entries, each with its newline. *)
Definition log_text (lines : list string) : string :=
  foldr (λ line t, (line +:+ String newline "") +:+ t) "" lines.

Lemma split_log lines :
  Forall (λ l, contains_byte newline l = false) lines → split newline (log_text lines) = lines ++ [""].
Proof.
  induction 1 as [|l lines Hl _ IH]; [done|]. simpl. rewrite str_app_assoc, str_cons_app, str_nil_app.
  by rewrite split_app_sep, IH.
Qed.

Lemma raw_lines_log lines :
  Forall (λ l, contains_byte newline l = false) lines → raw_lines (log_text lines) = lines.
Proof.
  intros H. unfold raw_lines. rewrite split_log by done. clear H. induction lines as [|l lines IH]; [done|].
  simpl. rewrite IH. by destruct lines.
Qed.

End wire.

End audit.

Module file.
Import audit.

(** ** The directory *)

Record FS := mkFS { names : gmap string nat; data : gmap nat string }.

Definition content (fs : FS) (i : nat) : string := default "" (data fs !! i).
Definition read_file (fs : FS) (path : string) : option string := content fs <$> names fs !! path.

(** [os.OpenFile] in append mode, with and without [O_CREATE]. *)
Definition ErrNotExist : error := ENew "fs.ErrNotExist" "file does not exist".
Definition open_create (path : string) (fs : FS) : nat * FS :=
  match names fs !! path with
  | Some i => (i, fs)
  | None =>
      let i := fresh (dom (data fs)) in
      (i, mkFS (<[path := i]> (names fs)) (<[i := ""]> (data fs)))
  end.
Definition open_existing (path : string) (fs : FS) : error + nat :=
  match names fs !! path with Some i => inr i | None => inl ErrNotExist end.

Definition remove (path : string) (fs : FS) : FS := mkFS (delete path (names fs)) (data fs).
Definition rename (a b : string) (fs : FS) : error + FS :=
  match names fs !! a with
  | Some i => inr (mkFS (<[b := i]> (delete a (names fs))) (data fs))
  | None => inl ErrNotExist
  end.
Definition append (i : nat) (s : string) (fs : FS) : FS :=
  mkFS (names fs) (<[i := content fs i +:+ s]> (data fs)).

(** ** The writer *)

Definition DefaultMaxLogSize : Z := 10 * 2 ^ 20.

(** [file] is [None] when the handle was closed; [written] counts bytes of a
    file, which an [int64] holds. *)
Record FileWriter := mkWriter { file : option nat; path : string; maxLogSize : Z; written : Z }.

Inductive Option := OMaxLogSize (size : Z) | OClock.
Definition apply_option (w : FileWriter) (o : Option) : FileWriter :=
  match o with
  | OMaxLogSize size => mkWriter (file w) (path w) size (written w)
  | OClock => w
  end.

Definition NewFileWriter (path : string) (opts : list Option) (open_fault stat_fault : option error) (fs : FS)
  : (error + FileWriter) * FS :=
  match open_fault with
  | Some err => (inl (wrap_pre "open audit log: " err), fs)
  | None =>
      let '(i, fs) := open_create path fs in
      match stat_fault with
      | Some err => (inl (wrap_pre "stat audit log: " err), fs)
      | None =>
          let w := mkWriter (Some i) path DefaultMaxLogSize (Z.of_nat (str_len (content fs i))) in
          (inr (fold_left apply_option opts w), fs)
      end
  end.

(** Which calls of a rotation, or of a write, fail. A failed write leaves the
    first bytes of what it was given. *)
Record faults := mkFaults {
  f_remove : bool;               (** the remove of the old backup *)
  f_rename : option error;
  f_reopen : option error;       (** reopening the log after a failed rename *)
  f_open : option error;         (** opening the new log *)
  f_reopen_backup : option error;
  f_write : option (nat * error)
}.
Definition no_faults : faults := mkFaults false None None None None None.

Definition backup (w : FileWriter) : string := path w +:+ ".1".
Definition set_file (f : option nat) (w : FileWriter) : FileWriter :=
  mkWriter f (path w) (maxLogSize w) (written w).

Definition rotateLocked (F : faults) (w : FileWriter) (fs : FS) : FileWriter * FS * option error :=
  let w := set_file None w in
  let fs := if f_remove F then fs else remove (backup w) fs in
  match (match f_rename F with Some err => inl err | None => rename (path w) (backup w) fs end) with
  | inl err =>
      let '(w, fs) :=
        match f_reopen F with
        | Some _ => (w, fs)
        | None => let '(i, fs) := open_create (path w) fs in (set_file (Some i) w, fs)
        end in
      (w, fs, Some (wrap_pre "rename audit log: " err))
  | inr fs =>
      match f_open F with
      | Some err =>
          let w :=
            match (match f_reopen_backup F with Some e => inl e | None => open_existing (backup w) fs end) with
            | inl _ => w
            | inr i => set_file (Some i) w
            end in
          (w, fs, Some (wrap_pre "create new audit log: " err))
      | None =>
          let '(i, fs) := open_create (path w) fs in
          (mkWriter (Some i) (path w) (maxLogSize w) 0, fs, None)
      end
  end.

Definition ErrClosed : error := ENew "fs.ErrClosed" "file already closed".

Section log.
Context (C : Codec).

(** [Log], with the clock reading [now]. *)
Definition Log (now : option Z) (F : faults) (entry : Entry) (w : FileWriter) (fs : FS)
  : FileWriter * FS * option error :=
  let entry := mkEntry now (Actor entry) (Action entry) (Resource entry) in
  let '(w, fs, rotated) :=
    if maxLogSize w <=? written w then rotateLocked F w fs else (w, fs, None) in
  match rotated with
  | Some err => (w, fs, Some (wrap_pre "rotate audit log: " err))
  | None =>
      match Marshal C entry with
      | inl err => (w, fs, Some (wrap_pre "marshal audit entry: " err))
      | inr line =>
          let line := line +:+ String newline "" in
          match file w with
          | None => (w, fs, Some (wrap_pre "write audit entry: " ErrClosed))
          | Some i =>
              match f_write F with
              | Some (n, err) =>
                  (w, append i (str_take n line) fs, Some (wrap_pre "write audit entry: " err))
              | None =>
                  (mkWriter (Some i) (path w) (maxLogSize w) (written w + Z.of_nat (str_len line)),
                   append i line fs, None)
              end
          end
      end
  end.

(** [Close]. *)
Definition Close (fault : option error) (w : FileWriter) : FileWriter * option error :=
  match file w with
  | None => (w, Some (wrap_pre "close audit log: " ErrClosed))
  | Some _ => (set_file None w, wrap_pre "close audit log: " <$> fault)
  end.

(** ** The scorecard of a file *)

Definition maxTopResources : nat := 5.

(** [sort.Slice] by count alone, on the pairs in the order of iteration: some
    order of the pairs in which the counts do not increase. *)
Context (sorted_pairs : gmap string Z → list (string * Z)).

Definition topN (m : gmap string Z) (n : nat) : list string :=
  let pairs := sorted_pairs m in
  let pairs := if (n <? length pairs)%nat then take n pairs else pairs in
  (λ p, p.1 +:+ " (" +:+ itoa p.2 +:+ ")") <$> pairs.

(** What [ReadBytes] returns, call by call: the pieces end in a newline, but for
    the last, which the end of the file cuts off. *)
Fixpoint read_pieces (l : list string) : list string :=
  match l with
  | [] => []
  | [s] => [s]
  | s :: l => (s +:+ String newline "") :: read_pieces l
  end.

(** The counts that the loop keeps. *)
Record counts := mkCounts {
  c_total : Z; c_actor : gmap string Z; c_action : gmap string Z; c_resource : gmap string Z }.

Definition count_line (c : counts) (line : string) : counts :=
  if bool_decide (trim_space line = "") then c
  else match Unmarshal C line with
       | inl _ => c
       | inr e =>
           mkCounts (c_total c + 1) (bump (c_actor c) (Actor e)) (bump (c_action c) (Action e))
             (bump (c_resource c) (Resource e))
       end.

(** [fs] as far as it could be read. *)
Definition ReadScorecard (path : string) (open_fault : option error) (fs : FS) : error + Scorecard :=
  match (match open_fault with Some err => inl err | None => open_existing path fs end) with
  | inl err => inl (wrap_pre "open audit log: " err)
  | inr i =>
      let c := fold_left count_line (read_pieces (split newline (content fs i))) (mkCounts 0 ∅ ∅ ∅) in
      inr (mkScorecard (c_total c) (c_actor c) (c_action c) (topN (c_resource c) maxTopResources))
  end.

End log.
(** ** Specification *)

(** Names lead to files, and to different ones. *)
Record fs_ok (fs : FS) : Prop := {
  fo_data : ∀ p i, names fs !! p = Some i → is_Some (data fs !! i);
  fo_inj : ∀ p q i, names fs !! p = Some i → names fs !! q = Some i → p = q
}.

(** A writer whose log holds [cur] and whose backup holds [bk]. *)
Record healthy (w : FileWriter) (fs : FS) (cur : string) (bk : option string) : Prop := {
  he_fs : fs_ok fs;
  he_file : file w = names fs !! path w;
  he_cur : read_file fs (path w) = Some cur;
  he_bk : read_file fs (backup w) = bk;
  he_written : written w = Z.of_nat (str_len cur)
}.

(** ** Lemmas *)

Lemma backup_ne w : backup w ≠ path w.
Proof. unfold backup. intros E. apply (f_equal str_len) in E. rewrite str_len_app in E. simpl in E. lia. Qed.

Lemma remove_ok p fs : fs_ok fs → fs_ok (remove p fs).
Proof.
  intros [Hd Hi]. split; simpl.
  - intros q i [_ H]%lookup_delete_Some. by eapply Hd.
  - intros q q' i [_ H]%lookup_delete_Some [_ H']%lookup_delete_Some. by eapply Hi.
Qed.

Lemma append_ok i s fs : fs_ok fs → fs_ok (append i s fs).
Proof.
  intros [Hd Hi]. split; simpl; [|done]. intros q j H. apply lookup_insert_is_Some'. right. by eapply Hd.
Qed.

Lemma open_create_ok p fs i fs' : fs_ok fs → open_create p fs = (i, fs') →
  fs_ok fs' ∧ names fs' !! p = Some i ∧ (∀ q, q ≠ p → read_file fs' q = read_file fs q) ∧
  read_file fs' p = Some (default "" (read_file fs p)).
Proof.
  intros [Hd Hi] E. unfold open_create in E. destruct (names fs !! p) as [j|] eqn:Ep; simplify_eq.
  - split_and!; [done|done|done|]. unfold read_file. by rewrite Ep.
  - set (i := fresh (dom (data fs))). assert (data fs !! i = None) as Hn by (apply not_elem_of_dom, is_fresh).
    assert (∀ q, names fs !! q ≠ Some i) as Hq by (intros q Hq; destruct (Hd _ _ Hq); congruence).
    split_and!.
    + split; simpl.
      * intros q j. destruct (decide (p = q)) as [<-|Hne].
        -- rewrite lookup_insert_eq. intros [= <-]. rewrite lookup_insert_eq. by eexists.
        -- rewrite lookup_insert_ne by done. intros H. apply lookup_insert_is_Some'. right. by eapply Hd.
      * intros q q' j [[<- <-]|[? H]]%lookup_insert_Some [[<- E]|[? H']]%lookup_insert_Some; try done;
          try (subst; by destruct (Hq q)); try (subst; by destruct (Hq q')). by eapply Hi.
    + simpl. apply lookup_insert_eq.
    + intros q Hne. unfold read_file. simpl. rewrite lookup_insert_ne by done.
      destruct (names fs !! q) as [j|] eqn:Ej; [|done]. simpl. f_equal. unfold content. simpl.
      rewrite lookup_insert_ne; [done|]. intros ->. by destruct (Hq q).
    + unfold read_file. simpl. rewrite lookup_insert_eq, Ep. simpl. unfold content. simpl. by rewrite lookup_insert_eq.
Qed.

Lemma rename_ok a b fs c : fs_ok fs → a ≠ b → read_file fs a = Some c →
  ∃ fs', rename a b fs = inr fs' ∧ fs_ok fs' ∧ read_file fs' a = None ∧ read_file fs' b = Some c ∧
    names fs' !! b = names fs !! a ∧ (∀ q, q ≠ a → q ≠ b → read_file fs' q = read_file fs q).
Proof.
  intros [Hd Hi] Hab Hc. unfold rename, read_file in *. destruct (names fs !! a) as [i|] eqn:Ea; [|done].
  eexists. split; [done|]. simpl. split_and!.
  - split; simpl.
    + intros q j [[<- <-]|[? [_ H]%lookup_delete_Some]]%lookup_insert_Some; by eapply Hd.
    + intros q q' j [[<- <-]|[? [? H]%lookup_delete_Some]]%lookup_insert_Some
        [[<- E]|[? [? H']%lookup_delete_Some]]%lookup_insert_Some; try done.
      * exfalso. by eapply (ltac:(done) : a ≠ q'), Hi.
      * exfalso. subst. by eapply (ltac:(done) : a ≠ q), Hi.
      * by eapply Hi.
  - rewrite lookup_insert_ne by done. by rewrite lookup_delete_eq.
  - by rewrite lookup_insert_eq.
  - apply lookup_insert_eq.
  - intros q Ha Hb. rewrite lookup_insert_ne by done. by rewrite lookup_delete_ne.
Qed.

Lemma append_read i s fs p c : fs_ok fs → names fs !! p = Some i → read_file fs p = Some c →
  read_file (append i s fs) p = Some (c +:+ s) ∧ (∀ q, q ≠ p → read_file (append i s fs) q = read_file fs q).
Proof.
  intros [Hd Hi] Hp Hc. unfold read_file in *. rewrite Hp in Hc. simplify_eq/=. split.
  - rewrite Hp. simpl. f_equal. unfold content. simpl. by rewrite lookup_insert_eq.
  - intros q Hne. destruct (names fs !! q) as [j|] eqn:Eq; [|done]. simpl. f_equal. unfold content. simpl.
    rewrite lookup_insert_ne; [done|]. intros ->. apply Hne. by eapply Hi.
Qed.

Lemma remove_read p q fs : read_file (remove p fs) q = if decide (q = p) then None else read_file fs q.
Proof.
  unfold read_file. simpl. destruct (decide (q = p)) as [->|Hne]; [by rewrite lookup_delete_eq|].
  by rewrite lookup_delete_ne.
Qed.

Lemma rotate_healthy w fs cur bk :
  healthy w fs cur bk → ∃ w' fs', rotateLocked no_faults w fs = (w', fs', None) ∧
    path w' = path w ∧ maxLogSize w' = maxLogSize w ∧ healthy w' fs' "" (Some cur).
Proof.
  intros [Hf Hfile Hc Hb Hw]. pose proof (backup_ne w) as Hne. unfold rotateLocked. simpl.
  change (backup (set_file None w)) with (backup w). 
  assert (read_file (remove (backup w) fs) (path w) = Some cur) as Hc'.
  { rewrite remove_read, decide_False; done. }
  destruct (rename_ok (path w) (backup w) (remove (backup w) fs) cur) as (fs1 & -> & Hf1 & Ha & Hb1 & _ & _);
    [by apply remove_ok|done|done|].
  destruct (open_create (path w) fs1) as [i fs2] eqn:Eo.
  destruct (open_create_ok _ _ _ _ Hf1 Eo) as (Hf2 & Hn & Ho & Hr).
  eexists _, fs2. split_and!; [done|done|done|]. split; simpl; [done|by rewrite Hn| | |done].
  - by rewrite Hr, Ha.
  - unfold backup in *. simpl. by rewrite Ho.
Qed.

Lemma options_keep opts w :
  let w' := fold_left apply_option opts w in
  file w' = file w ∧ path w' = path w ∧ written w' = written w.
Proof.
  revert w. induction opts as [|[n|] opts IH]; intros w; [done| |apply IH].
  exact (IH (apply_option w (OMaxLogSize n))).
Qed.

Lemma new_healthy path opts fs0 w0 fs1 :
  fs_ok fs0 → NewFileWriter path opts None None fs0 = (inr w0, fs1) →
  file.path w0 = path ∧ healthy w0 fs1 (default "" (read_file fs0 path)) (read_file fs0 (path +:+ ".1")).
Proof.
  intros Hf H. unfold NewFileWriter in H. destruct (open_create path fs0) as [i fs] eqn:Eo. simplify_eq.
  destruct (open_create_ok _ _ _ _ Hf Eo) as (Hf1 & Hn & Ho & Hr).
  assert (content fs1 i = default "" (read_file fs0 path)) as Hc.
  { unfold read_file at 1 in Hr. rewrite Hn in Hr. simpl in Hr. congruence. }
  set (w := mkWriter (Some i) path DefaultMaxLogSize (Z.of_nat (str_len (content fs1 i)))).
  destruct (options_keep opts w) as (E1 & E2 & E3). set (w' := fold_left apply_option opts w) in *.
  split; [done|]. pose proof (backup_ne w') as Hne. unfold backup in Hne. rewrite E2 in Hne.
  split; [done|by rewrite E1, E2|by rewrite E2| |by rewrite E3; simpl; rewrite Hc].
  unfold backup. rewrite E2. by apply Ho.
Qed.

Section logging.
Context (C : Codec).

Definition stamp (now : option Z) (e : Entry) : Entry := mkEntry now (Actor e) (Action e) (Resource e).

Lemma append_healthy w fs cur bk s :
  healthy w fs cur bk → ∃ i, file w = Some i ∧
    healthy (mkWriter (Some i) (path w) (maxLogSize w) (written w + Z.of_nat (str_len s))) (append i s fs)
      (cur +:+ s) bk.
Proof.
  intros [Hf Hfile Hc Hb Hw]. unfold read_file in Hc. destruct (names fs !! path w) as [i|] eqn:Ei; [|done].
  exists i. split; [done|]. simplify_eq/=.
  destruct (append_read i s fs (path w) (content fs i)) as [H1 H2]; [done|done|unfold read_file; by rewrite Ei|].
  split; simpl; [by apply append_ok|done|done| |].
  - apply (H2 (backup w)), backup_ne.
  - rewrite Hw, str_len_app. lia.
Qed.

Lemma log_healthy w fs cur bk now e line :
  healthy w fs cur bk → Marshal C (stamp now e) = inr line →
  let chunk := line +:+ String newline "" in
  ∃ w' fs', Log C now no_faults e w fs = (w', fs', None) ∧ path w' = path w ∧ maxLogSize w' = maxLogSize w ∧
    if maxLogSize w <=? written w then healthy w' fs' chunk (Some cur) else healthy w' fs' (cur +:+ chunk) bk.
Proof.
  intros H Hm chunk. unfold Log. fold (stamp now e). rewrite Hm. destruct (maxLogSize w <=? written w).
  - destruct (rotate_healthy _ _ _ _ H) as (w1 & fs1 & -> & Hp & Hx & H1).
    destruct (append_healthy w1 fs1 "" (Some cur) chunk H1) as (i & -> & H2). simpl.
    rewrite str_nil_app in H2. eexists _, _. split_and!; [done|done|done|exact H2].
  - destruct (append_healthy w fs cur bk chunk H) as (i & -> & H2). simpl.
    eexists _, _. split_and!; [done|done|done|exact H2].
Qed.

(** A sequence of calls without faults: the writer, the directory, the errors. *)
Fixpoint log_all (es : list (option Z * Entry)) (w : FileWriter) (fs : FS) : FileWriter * FS * list error :=
  match es with
  | [] => (w, fs, [])
  | (now, e) :: es =>
      let '(w, fs, err) := Log C now no_faults e w fs in
      let '(w, fs, errs) := log_all es w fs in
      (w, fs, option_list err ++ errs)
  end.

Definition concat_str (l : list string) : string := foldr (λ s t, s +:+ t) "" l.

Lemma concat_str_app l l' : concat_str (l ++ l') = concat_str l +:+ concat_str l'.
Proof. induction l as [|s l IH]; [done|]. simpl. by rewrite IH, str_app_assoc. Qed.

Definition chunk (line : string) : string := line +:+ String newline "".

(** What two files keep of the chunks written: the latest, [cur], and the ones
    before them, [kept]. *)
Record retained (w : FileWriter) (fs : FS) (bk0 : option string) (old kept cur : list string) : Prop := {
  re_healthy : healthy w fs (concat_str cur) (if decide (kept = []) then bk0 else Some (concat_str kept));
  re_first : kept = [] → old = [];
  re_cur : cur ≠ [];
  re_bound : ∀ pre x, cur = pre ++ [x] → pre ≠ [] → Z.of_nat (str_len (concat_str pre)) < maxLogSize w;
  re_kept : kept ≠ [] → maxLogSize w ≤ Z.of_nat (str_len (concat_str kept))
}.

Lemma retained_step w fs bk0 old kept cur now e line :
  retained w fs bk0 old kept cur → Marshal C (stamp now e) = inr line →
  ∃ w' fs' old' kept' cur', Log C now no_faults e w fs = (w', fs', None) ∧ path w' = path w ∧
    maxLogSize w' = maxLogSize w ∧ retained w' fs' bk0 old' kept' cur' ∧
    old' ++ kept' ++ cur' = (old ++ kept ++ cur) ++ [chunk line].
Proof.
  intros [Hh Hf Hc Hb Hk] Hm. destruct (log_healthy _ _ _ _ now e line Hh Hm) as (w' & fs' & E & Hp & Hx & H').
  destruct (Z.leb_spec (maxLogSize w) (written w)) as [Hle|Hlt].
  - exists w', fs', (old ++ kept), cur, [chunk line]. split_and!; [done|done|done| |by rewrite <- !app_assoc].
    split; [|done|done| |].
    + rewrite decide_False by done. simpl. by rewrite str_app_nil_r.
    + intros pre x E' Hne. destruct pre as [|y pre]; [done|]. by destruct pre.
    + intros _. rewrite Hx. by rewrite (he_written _ _ _ _ Hh) in Hle.
  - exists w', fs', old, kept, (cur ++ [chunk line]). split_and!; [done|done|done| |by rewrite <- !app_assoc].
    split; [|done|by destruct cur| |by rewrite Hx].
    + rewrite concat_str_app. simpl. by rewrite str_app_nil_r.
    + intros pre x [<- _]%app_inj_2 _; [|done]. rewrite Hx. by rewrite (he_written _ _ _ _ Hh) in Hlt.
Qed.

Lemma retained_run es ls w fs bk0 old kept cur :
  retained w fs bk0 old kept cur → Forall2 (λ x line, Marshal C (stamp x.1 x.2) = inr line) es ls →
  ∃ w' fs' old' kept' cur', log_all es w fs = (w', fs', []) ∧ path w' = path w ∧
    maxLogSize w' = maxLogSize w ∧ retained w' fs' bk0 old' kept' cur' ∧
    old' ++ kept' ++ cur' = (old ++ kept ++ cur) ++ (chunk <$> ls).
Proof.
  intros Hr H2. revert w fs old kept cur Hr. induction H2 as [|[now e] line es ls Hm _ IH]; intros w fs old kept cur Hr.
  - exists w, fs, old, kept, cur. split_and!; [done|done|done|done|by rewrite app_nil_r].
  - destruct (retained_step _ _ _ _ _ _ now e line Hr Hm) as (w1 & fs1 & o1 & k1 & c1 & E & Hp & Hx & Hr1 & El).
    destruct (IH _ _ _ _ _ Hr1) as (w2 & fs2 & o2 & k2 & c2 & E2 & Hp2 & Hx2 & Hr2 & El2).
    exists w2, fs2, o2, k2, c2. simpl. rewrite E, E2. split_and!; [done|congruence|congruence|done|].
    by rewrite El2, El, <- app_assoc.
Qed.

(** ** Reading the file *)

Context (sorted_pairs : gmap string Z → list (string * Z)).

(** The entry that the scorecard counts for one piece of the file. *)
Definition counted (piece : string) : option Entry :=
  if bool_decide (trim_space piece = "") then None
  else match Unmarshal C piece with inl _ => None | inr e => Some e end.

Lemma count_line_counted c p :
  count_line C c p =
    match counted p with
    | None => c
    | Some e => mkCounts (c_total c + 1) (bump (c_actor c) (Actor e)) (bump (c_action c) (Action e))
                  (bump (c_resource c) (Resource e))
    end.
Proof. unfold count_line, counted. case_bool_decide; [done|]. by destruct (Unmarshal C p). Qed.

Lemma count_lines pieces : let es := omap counted pieces in
  fold_left (count_line C) pieces (mkCounts 0 ∅ ∅ ∅) =
  mkCounts (Z.of_nat (length es)) (fold_left bump (Actor <$> es) ∅) (fold_left bump (Action <$> es) ∅)
    (fold_left bump (Resource <$> es) ∅).
Proof.
  induction pieces as [|p pieces IH] using rev_ind; [done|]. cbv zeta in *.
  rewrite fold_left_snoc, IH, omap_app, count_line_counted. cbn [omap list_omap].
  destruct (counted p) as [e|]; [|by rewrite app_nil_r].
  rewrite !fmap_app, !fold_left_app, length_app. simpl. f_equal. lia.
Qed.

Lemma read_pieces_log lines :
  Forall (λ l, contains_byte newline l = false) lines →
  read_pieces (split newline (log_text lines)) = (chunk <$> lines) ++ [""].
Proof.
  intros H. rewrite split_log by done. clear H. induction lines as [|l lines IH]; [done|].
  simpl. rewrite IH. by destruct lines.
Qed.

(** The pieces of a file of which the scorecard counts the entries. *)
Definition file_entries (path : string) (fs : FS) : list Entry :=
  omap counted (read_pieces (split newline (default "" (read_file fs path)))).

(** The scorecard of a file counts the entries of its lines, those without an
    actor or an action too, and skips every line that is blank or does not
    parse. The top resources are five of a ranking by count. *)
Theorem read_scorecard_exact path fs :
  (∀ m, sorted_pairs m ≡ₚ map_to_list m ∧ StronglySorted (λ x y, y.2 ≤ x.2) (sorted_pairs m)) →
  match names fs !! path with
  | None => ReadScorecard C sorted_pairs path None fs = inl (wrap_pre "open audit log: " ErrNotExist)
  | Some _ =>
      let es := file_entries path fs in
      ∃ s ranked, ReadScorecard C sorted_pairs path None fs = inr s ∧ Total s = Z.of_nat (length es) ∧
        (∀ k, ByActor s !! k = tally (Actor <$> es) k) ∧ (∀ k, ByAction s !! k = tally (Action <$> es) k) ∧
        TopResources s = (λ p, p.1 +:+ " (" +:+ itoa p.2 +:+ ")") <$> take 5 ranked ∧
        NoDup ranked.*1 ∧ StronglySorted (λ x y, y.2 ≤ x.2) ranked ∧
        ∀ k n, (k, n) ∈ ranked ↔ tally (Resource <$> es) k = Some n
  end.
Proof.
  intros Hs. unfold ReadScorecard, open_existing, file_entries, read_file.
  destruct (names fs !! path) as [i|]; [|done]. simpl. rewrite count_lines. simpl.
  set (es := omap counted _). set (m := fold_left bump (Resource <$> es) ∅). destruct (Hs m) as [Hp Hsort].
  eexists _, (sorted_pairs m). split; [done|]. simpl. split_and!; [done|apply fold_bump..| | |done|].
  - unfold topN, maxTopResources. destruct (Nat.ltb_spec 5 (length (sorted_pairs m))); [done|].
    by rewrite take_ge by lia.
  - rewrite Hp. apply NoDup_fst_map_to_list.
  - intros k n. by rewrite Hp, elem_of_map_to_list, <- fold_bump.
Qed.

End logging.

Section trail.
Context (C : Codec) (valid : entryJSON → Prop) (in_range : Z → Prop) (HF : faithful C valid in_range).

Abbreviation stamped es := ((λ x : option Z * Entry, stamp x.1 x.2) <$> es).

Lemma lines_of es :
  Forall (encodable C valid in_range) es → ∃ ls, Forall2 (λ e line, Marshal C e = inr line) es ls ∧
    Forall (λ l, contains_byte newline l = false) ls ∧
    Forall2 (λ e line, drop_cr line = line ∧ line ≠ "" ∧ Unmarshal C line = inr (to_second e) ∧
      counted C (chunk line) = Some (to_second e)) es ls.
Proof using HF.
  induction 1 as [|e es He _ (ls & H1 & H2 & H3)]; [by exists []|].
  destruct (marshal_line C valid in_range e HF He) as (line & Hm & Hn & Hcr & Hne & Ht & Hu & Hu').
  exists (line :: ls). split_and!; [by constructor|by constructor|]. constructor; [|done].
  split_and!; [done|done|done|]. unfold counted, chunk. by rewrite bool_decide_eq_false_2, Hu'.
Qed.

Lemma omap_counted es ls :
  Forall2 (λ e line, drop_cr line = line ∧ line ≠ "" ∧ Unmarshal C line = inr (to_second e) ∧
    counted C (chunk line) = Some (to_second e)) es ls →
  omap (counted C) (chunk <$> ls) = to_second <$> es.
Proof.
  induction 1 as [|e l es ls (_ & _ & _ & H) _ IH]; [done|]. simpl. rewrite H. f_equal. exact IH.
Qed.

Lemma good_lines es ls :
  Forall2 (λ e line, drop_cr line = line ∧ line ≠ "" ∧ Unmarshal C line = inr (to_second e) ∧
    counted C (chunk line) = Some (to_second e)) es ls →
  Forall fits ls → good C ls (to_second <$> es).
Proof.
  intros H Hf. split; [done|]. exists (Some <$> (to_second <$> es)). split.
  - clear Hf. induction H as [|e l es ls (Hd & Hne & Hu & _) _ IH]; [constructor|]. constructor; [|done].
    unfold parsed. by rewrite Hd, bool_decide_eq_false_2, Hu.
  - clear. induction es as [|e es IH]; [done|]. simpl. f_equal. exact IH.
Qed.

(** ** Properties *)

Lemma concat_chunks ls : concat_str (chunk <$> ls) = log_text ls.
Proof. induction ls as [|l ls IH]; [done|]. simpl. f_equal. exact IH. Qed.

(** What is dropped, kept and current of a log that was empty at first, as
    lines. *)
Lemma latest_lines (ls old kept cur : list string) :
  "" :: (chunk <$> ls) = old ++ kept ++ cur → (kept = [] → old = []) → cur ≠ [] →
  ∃ j k, (j ≤ k ≤ length ls)%nat ∧ (j ≠ 0 → j < k)%nat ∧ (k ≠ 0%nat → kept ≠ []) ∧
    concat_str kept = log_text (take (k - j) (drop j ls)) ∧
    concat_str cur = log_text (drop k ls) ∧
    (∀ pre x, drop k ls = pre ++ [x] → pre ≠ [] → ∃ pre', cur = pre' ++ [chunk x] ∧ pre' ≠ [] ∧
      concat_str pre' = concat_str (chunk <$> pre)).
Proof.
  intros El Ho Hcur. setoid_rewrite <- concat_chunks. setoid_rewrite fmap_take.
  destruct old as [|o old]; [destruct kept as [|x kept]|]; simpl in El.
  - exists 0%nat, 0%nat. subst cur. split_and!; [lia|lia|done|done|done|done|].
    intros pre x E Hne. rewrite drop_0 in E. subst ls. exists ("" :: (chunk <$> pre)). rewrite fmap_app. by split_and!.
  - injection El as <- El. exists 0%nat, (length kept).
    assert (length kept ≤ length ls)%nat as Hk.
    { apply (f_equal length) in El. rewrite length_fmap, length_app in El. lia. }
    rewrite drop_0, Nat.sub_0_r, fmap_drop, El, take_app_length, drop_app_length.
    split_and!; [lia|lia|done|done|done|done|]. intros pre x E Hne. exists (chunk <$> pre).
    apply (f_equal (fmap chunk)) in E. rewrite fmap_drop, El, drop_app_length, fmap_app in E.
    split_and!; [done|by destruct pre|done].
  - injection El as _ El. exists (length old), (length old + length kept)%nat.
    assert (kept ≠ []) as Hne by (intros ->; discriminate (Ho eq_refl)).
    assert (length kept ≠ 0)%nat by (by destruct kept).
    assert (length old + length kept ≤ length ls)%nat as Hk.
    { apply (f_equal length) in El. rewrite length_fmap, !length_app in El. lia. }
    replace (length old + length kept - length old)%nat with (length kept) by lia.
    assert (chunk <$> drop (length old + length kept) ls = cur) as Ed.
    { rewrite fmap_drop, El, <- drop_drop, !drop_app_length. done. }
    assert (chunk <$> drop (length old) ls = kept ++ cur) as Ek by (by rewrite fmap_drop, El, drop_app_length).
    rewrite Ek, take_app_length, Ed. split_and!; [lia|lia|lia|done|done|done|].
    intros pre x E Hp. exists (chunk <$> pre). rewrite <- Ed, E, fmap_app. split_and!; [done|by destruct pre|done].
Qed.

(** A file of lines gives its entries to both readers. *)
Lemma read_lines sorted_pairs path fs es ls :
  read_file fs path = Some (log_text ls) → Forall (λ l, contains_byte newline l = false) ls → Forall fits ls →
  Forall2 (λ e line, drop_cr line = line ∧ line ≠ "" ∧ Unmarshal C line = inr (to_second e) ∧
    counted C (chunk line) = Some (to_second e)) es ls →
  let latest := to_second <$> es in
  ReadEntries C (log_text ls) None = Some (inr latest) ∧
  ∃ s, ReadScorecard C sorted_pairs path None fs = inr s ∧ Total s = Z.of_nat (length latest) ∧
     (∀ a, ByActor s !! a = tally (Actor <$> latest) a) ∧
     (∀ a, ByAction s !! a = tally (Action <$> latest) a).
Proof using Type.
  intros Hr Hn Hf H2 latest. split.
  - apply (read_entries_exact C _ None ls latest []); [|by apply good_lines|done|done].
    rewrite app_nil_r. by apply raw_lines_log.
  - unfold ReadScorecard, open_existing. unfold read_file in Hr.
    destruct (names fs !! path) as [i|]; [|done]. injection Hr as Hc. simpl. rewrite Hc.
    rewrite read_pieces_log by done. rewrite count_lines, omap_app, (omap_counted es ls H2). fold latest.
    assert (omap (counted C) [""] = []) as -> by done. rewrite app_nil_r.
    eexists. split; [done|]. simpl. split_and!; [done|apply fold_bump..].
Qed.

(** Without faults, the log and its one backup keep the latest lines, whole and
    in order. What was in the file at first and the lines logged since are,
    in that order, a part that was dropped, the content of the backup, and the
    content of the log. Nothing is dropped before the backup was replaced; a
    backup is at least the maximum size, and the log without its last line is
    below it. No call returns an error. *)
Theorem log_keeps_latest path opts fs0 es ls w0 fs1 :
  fs_ok fs0 → NewFileWriter path opts None None fs0 = (inr w0, fs1) →
  Forall2 (λ e line, Marshal C e = inr line) (stamped es) ls →
  ∃ w fs old kept cur, log_all C es w0 fs1 = (w, fs, []) ∧
    default "" (read_file fs0 path) :: (chunk <$> ls) = old ++ kept ++ cur ∧
    read_file fs path = Some (concat_str cur) ∧
    read_file fs (path +:+ ".1") =
      (if decide (kept = []) then read_file fs0 (path +:+ ".1") else Some (concat_str kept)) ∧
    (kept = [] → old = []) ∧
    (kept ≠ [] → maxLogSize w0 ≤ Z.of_nat (str_len (concat_str kept))) ∧
    (∀ pre x, cur = pre ++ [x] → pre ≠ [] → Z.of_nat (str_len (concat_str pre)) < maxLogSize w0) ∧
    cur ≠ [].
Proof using Type.
  intros Hf Hn H2.
  destruct (new_healthy _ _ _ _ _ Hf Hn) as (Hp & Hh).
  assert (retained w0 fs1 (read_file fs0 (path +:+ ".1")) [] [] [default "" (read_file fs0 path)]) as Hr.
  { split; [|done|done| |done]; [simpl; by rewrite str_app_nil_r|].
    intros pre x E. destruct pre as [|? pre]; [done|]. by destruct pre. }
  apply (proj1 (Forall2_fmap_l _ _ _ _)) in H2.
  destruct (retained_run C _ _ _ _ _ _ _ _ Hr H2) as (w & fs & old & kept & cur & E & Hp' & Hm & Hr' & El).
  exists w, fs, old, kept, cur. rewrite Hp in Hp'. destruct Hr' as [[_ _ Hc Hb _] H3 H4 H5 H6].
  unfold backup in Hb. rewrite Hp' in *. rewrite Hm in *. by split_and!.
Qed.

(** C10: When no call on a file fails, what a writer logged is what is read
    back, but for what a second rotation removed. The hypotheses: the log did
    not exist, the entries are ones that JSON carries, and every line is under
    the limit of the reader's scanner. After any number of calls the entries
    are, in their order, those before j, which are lost, those from j to k,
    which ReadEntries gives for the backup, and those from k on, which it gives
    for the log, stamped by the writer and with their times to the second; the
    scorecard of the log counts exactly the latter. Entries leave the log only
    in a backup of at least the maximum size, entries are lost only when later
    ones are in a backup, and the log without its last line is below the
    maximum size. *)
Theorem log_read_back sorted_pairs path opts fs0 es w0 fs1 :
  fs_ok fs0 → read_file fs0 path = None → NewFileWriter path opts None None fs0 = (inr w0, fs1) →
  Forall (encodable C valid in_range) (stamped es) →
  (∀ e line, e ∈ stamped es → Marshal C e = inr line → fits line) →
  ∃ w fs ls j k, log_all C es w0 fs1 = (w, fs, []) ∧
    Forall2 (λ e line, Marshal C e = inr line) (stamped es) ls ∧
    (j ≤ k ≤ length es)%nat ∧ (j ≠ 0 → j < k)%nat ∧
    let latest := to_second <$> drop k (stamped es) in
    (k ≠ 0%nat → ∃ text, read_file fs (path +:+ ".1") = Some text ∧
       maxLogSize w0 ≤ Z.of_nat (str_len text) ∧
       ReadEntries C text None = Some (inr (to_second <$> take (k - j) (drop j (stamped es))))) ∧
    (∃ text, read_file fs path = Some text ∧ ReadEntries C text None = Some (inr latest)) ∧
    (∀ pre line, drop k ls = pre ++ [line] → pre ≠ [] → Z.of_nat (str_len (log_text pre)) < maxLogSize w0) ∧
    (∃ s, ReadScorecard C sorted_pairs path None fs = inr s ∧ Total s = Z.of_nat (length latest) ∧
       (∀ a, ByActor s !! a = tally (Actor <$> latest) a) ∧
       (∀ a, ByAction s !! a = tally (Action <$> latest) a)).
Proof using HF.
  intros Hf Hnone Hn He Hfit. destruct (lines_of _ He) as (ls & Hm & Hnl & Hls).
  destruct (log_keeps_latest _ _ _ _ _ _ _ Hf Hn Hm)
    as (w & fs & old & kept & cur & E & El & Hc & Hb & Ho & Hk & Hcb & Hcur).
  rewrite Hnone in El. destruct (latest_lines _ _ _ _ El Ho Hcur) as (j & k & Hjk & Hj & Hk0 & Ekept & Ecur & Hpre).
  assert (Forall fits ls) as Hfits.
  { apply Forall_forall. intros line Hl.
    apply list_elem_of_lookup in Hl as [i Hi]. destruct (Forall2_lookup_r _ _ _ _ _ Hm Hi) as (e & Hie & Hme).
    apply (Hfit e); [|done]. apply list_elem_of_lookup. by exists i. }
  rewrite <- (Forall2_length _ _ _ Hm), length_fmap in Hjk.
  exists w, fs, ls, j, k. rewrite Ecur in Hc.
  destruct (read_lines sorted_pairs path fs (drop k (stamped es)) (drop k ls)) as [H1 H2];
    [done|by apply Forall_drop|by apply Forall_drop|by apply Forall2_drop|].
  cbv zeta. split_and!; [done|done|lia|lia|lia| |by eexists| |done].
  - intros Hk1. specialize (Hk0 Hk1). exists (concat_str kept). rewrite Hb, decide_False by done.
    split_and!; [done|by apply Hk|]. rewrite Ekept.
    apply (read_entries_exact C _ None (take (k - j) (drop j ls)) _ []); [|apply good_lines|done|done].
    + rewrite app_nil_r. by apply raw_lines_log, Forall_take, Forall_drop.
    + by apply Forall2_take, Forall2_drop.
    + by apply Forall_take, Forall_drop.
  - intros pre line E' Hne. destruct (Hpre pre line E' Hne) as (pre' & E1 & E2 & E3).
    rewrite <- concat_chunks, <- E3. by eapply Hcb.
Qed.

End trail.

(** ** Where rotation and torn writes lose entries *)

(** When the new log cannot be opened, the writer goes on with the backup so as
    to keep logging, but the next call removes that very file: everything that
    was logged is gone, and both calls return errors without an entry
    written. *)
Theorem failed_rotation_loses_log C w fs cur bk F err now e now' e' :
  healthy w fs cur bk → maxLogSize w ≤ written w →
  f_remove F = false → f_rename F = None → f_open F = Some err → f_reopen_backup F = None →
  let '(w1, fs1, err1) := Log C now F e w fs in
  let '(w2, fs2, err2) := Log C now' no_faults e' w1 fs1 in
  is_Some err1 ∧ read_file fs1 (path w) = None ∧ read_file fs1 (backup w) = Some cur ∧
  file w1 = names fs1 !! backup w ∧
  is_Some err2 ∧ read_file fs2 (path w) = Some "" ∧ read_file fs2 (backup w) = None.
Proof.
  intros [Hf Hfile Hc Hb Hw] Hle F1 F2 F3 F4. pose proof (backup_ne w) as Hne.
  assert (read_file (remove (backup w) fs) (path w) = Some cur) as Hc'.
  { rewrite remove_read, decide_False; done. }
  destruct (rename_ok (path w) (backup w) (remove (backup w) fs) cur) as (fs1 & E1 & Hf1 & Ha & Hb1 & Hn1 & _);
    [by apply remove_ok|done|done|].
  assert (∃ i, names fs1 !! backup w = Some i) as [i Hi].
  { unfold read_file in Hb1. destruct (names fs1 !! backup w); [by eexists|done]. }
  assert (Log C now F e w fs = (set_file (Some i) w, fs1,
    Some (wrap_pre "rotate audit log: " (wrap_pre "create new audit log: " err)))) as ->.
  { unfold Log. rewrite (proj2 (Z.leb_le _ _) Hle). unfold rotateLocked. rewrite F1, F2, F3, F4.
    change (backup (set_file None w)) with (backup w). simpl path. rewrite E1.
    unfold open_existing. by rewrite Hi. }
  assert (rename (path w) (backup w) (remove (backup w) fs1) = inl ErrNotExist) as E2.
  { unfold rename. unfold read_file in Ha. simpl. rewrite lookup_delete_ne by done.
    by destruct (names fs1 !! path w). }
  destruct (open_create (path w) (remove (backup w) fs1)) as [j fs2] eqn:Eo.
  destruct (open_create_ok _ _ _ _ (remove_ok _ _ Hf1) Eo) as (_ & _ & Ho & Hr).
  assert (Log C now' no_faults e' (set_file (Some i) w) fs1 = (set_file (Some j) w, fs2,
    Some (wrap_pre "rotate audit log: " (wrap_pre "rename audit log: " ErrNotExist)))) as ->.
  { unfold Log. simpl written. simpl maxLogSize. rewrite (proj2 (Z.leb_le _ _) Hle). unfold rotateLocked. simpl.
    change (backup (set_file None (set_file (Some i) w))) with (backup w). rewrite E2, Eo. done. }
  split_and!; [by eexists|done|done|by rewrite Hi|by eexists| |].
  - rewrite Hr, remove_read, decide_False by done. by rewrite Ha.
  - rewrite Ho by done. by rewrite remove_read, decide_True.
Qed.

(** ** Runs *)

Definition demo_entry : Entry := mkEntry None "me" "run" "db".
Definition demo_wire : entryJSON := mkEntryJSON "t" "me" "run" "db".
Definition syntax_error : error := ENew "json.SyntaxError" "invalid character".

(** A codec for one record. *)
Definition demo_codec : Codec := mkCodec
  (λ j, if bool_decide (j = demo_wire) then inr "{x}" else inl syntax_error)
  (λ s, if bool_decide (s = "{x}") then inr demo_wire else inl syntax_error)
  (λ s, if bool_decide (s = "{x}") || bool_decide (s = "{x}" +:+ String newline "") then None
        else Some syntax_error)
  (λ s, s) (λ _, "t") (λ _, inr (Some 0)).

Lemma demo_faithful : faithful demo_codec (λ j, j = demo_wire) (λ t, t = 0).
Proof.
  split.
  - intros j ->. exists "x". by split_and!.
  - intros t ->. by split.
Qed.

Definition no_files : FS := mkFS ∅ ∅.
Lemma no_files_ok : fs_ok no_files.
Proof. split; intros; simplify_map_eq. Qed.

Definition by_key (m : gmap string Z) : list (string * Z) := map_to_list m.

Definition log1 : FileWriter * FS :=
  match NewFileWriter "log" [OMaxLogSize 8] None None no_files with
  | (inr w, fs) => (w, fs)
  | (inl _, fs) => (mkWriter None "" 0 0, fs)
  end.

(** A write that stops in the middle, by a crash or a full disk, leaves no
    newline, so the next line continues the broken one: of three calls two
    return no error, and the scorecard of the file counts one entry. *)
Example torn_write_swallows_next :
  let '(w1, fs1, e1) := Log demo_codec (Some 0) no_faults demo_entry log1.1 log1.2 in
  let '(w2, fs2, e2) :=
    Log demo_codec (Some 0) (mkFaults false None None None None (Some (2%nat, ErrClosed))) demo_entry w1 fs1 in
  let '(w3, fs3, e3) := Log demo_codec (Some 0) no_faults demo_entry w2 fs2 in
  e1 = None ∧ e3 = None ∧
  (∃ s, ReadScorecard demo_codec by_key "log" None fs3 = inr s ∧ Total s = 1).
Proof. vm_compute. split_and!; [done|done|]. eexists. split; reflexivity. Qed.

(** ** Witnesses *)

Lemma log_read_back_witness :
  ∃ w fs (ls : list string) j k, log_all demo_codec (replicate 5 (Some 0, demo_entry)) log1.1 log1.2 = (w, fs, []) ∧
    (length ls = 5)%nat ∧ (j ≤ k ≤ 5)%nat ∧ (j ≠ 0 → j < k)%nat.
Proof.
  destruct (log_read_back demo_codec _ _ demo_faithful by_key "log" [OMaxLogSize 8] no_files
    (replicate 5 (Some 0, demo_entry)) log1.1 log1.2) as (w & fs & ls & j & k & H1 & H2 & H3 & H4 & _).
  - apply no_files_ok.
  - done.
  - by vm_compute.
  - repeat (constructor; [by split|]). constructor.
  - intros e line He. assert (e = stamp (Some 0) demo_entry) as ->.
    { simpl in He. rewrite !elem_of_cons in He. set_solver. }
    assert (Marshal demo_codec (stamp (Some 0) demo_entry) = inr "{x}") as -> by done.
    intros [= <-]. unfold fits, MaxScanTokenSize. apply Nat.ltb_lt. by vm_compute.
  - exists w, fs, ls, j, k. split_and!; [exact H1|by rewrite <- (Forall2_length _ _ _ H2)|apply H3|apply H3|exact H4].
Defined.

Lemma failed_rotation_loses_log_witness :
  let F := mkFaults false None None (Some ErrNotExist) None None in
  let '(w1, fs1, _) := Log demo_codec (Some 0) F demo_entry (mkWriter (Some 0%nat) "log" 1 3)
    (mkFS {["log" := 0%nat]} {[0%nat := "{x}"]}) in
  let '(_, fs2, _) := Log demo_codec (Some 0) no_faults demo_entry w1 fs1 in
  read_file fs1 "log.1" = Some "{x}" ∧ read_file fs2 "log.1" = None.
Proof.
  intros F.
  pose proof (failed_rotation_loses_log demo_codec (mkWriter (Some 0%nat) "log" 1 3)
    (mkFS {["log" := 0%nat]} {[0%nat := "{x}"]}) "{x}" None F ErrNotExist (Some 0) demo_entry (Some 0) demo_entry) as H.
  destruct (Log demo_codec (Some 0) F demo_entry _ _) as [[w1 fs1] e1].
  destruct (Log demo_codec (Some 0) no_faults demo_entry w1 fs1) as [[w2 fs2] e2].
  destruct H as (_ & _ & H1 & _ & _ & _ & H2); [|done|done|done|done|done|by split].
  split; [|done|done|done|done].
  split; simpl; [intros p i [<- <-]%lookup_singleton_Some; by eexists|].
  intros p q i [<- _]%lookup_singleton_Some [<- _]%lookup_singleton_Some. done.
Defined.

End file.
