(* ===== verification/SlogGcp.v ===== *)
(** * slog-gcp: structured logs for Cloud Logging

    Models [src/go/slog-gcp]: the handler that injects the reserved fields
    (module [handler]), trace headers and severities (module [trace]), request
    logs (module [httprequest]), the set-up for Cloud Run and error reports
    (module [cloudrun]), and the resolver of [otelgcp]. The inner handler of
    [log/slog] is a class of operations; [HandlerLaws] is the contract that
    [log/slog] documents for it. *)

From S2P Require Import Prelude GoStrings GoErr GoMonad Gcpenv.
From Stdlib Require Import Ascii.

(** ** Attributes of log/slog *)

Record Source := mkSource { File : string; Line : Z; Function : string }.

Inductive Value :=
| StringValue (s : string) | BoolValue (b : bool) | IntValue (z : Z)
| GroupValue (attrs : list (string * Value))
| SourceValue (s : option Source) | LevelValue (level : Z) | AnyValue (text : string).
Definition Attr : Type := string * Value.

Module trace.

(** ** Fields, levels and severities *)

Definition FieldTrace : string := "logging.googleapis.com/trace".
Definition FieldSpanID : string := "logging.googleapis.com/spanId".
Definition FieldTraceSampled : string := "logging.googleapis.com/trace_sampled".
Definition FieldSourceLocation : string := "logging.googleapis.com/sourceLocation".
Definition FieldInsertID : string := "logging.googleapis.com/insertId".
Definition ErrorReportingType : string :=
  "type.googleapis.com/google.devtools.clouderrorreporting.v1beta1.ReportedErrorEvent".

(** The levels of [log/slog], and those that Cloud Logging adds. *)
Definition LevelDebug : Z := -4.
Definition LevelInfo : Z := 0.
Definition LevelWarn : Z := 4.
Definition LevelError : Z := 8.
Definition LevelNotice : Z := LevelInfo + 2.
Definition LevelCritical : Z := LevelError + 4.
Definition LevelAlert : Z := LevelError + 8.
Definition LevelEmergency : Z := LevelError + 12.

Definition gcpSeverity (level : Z) : string :=
  if level <? LevelInfo then "DEBUG"
  else if level <? LevelNotice then "INFO"
  else if level <? LevelWarn then "NOTICE"
  else if level <? LevelError then "WARNING"
  else if level <? LevelCritical then "ERROR"
  else if level <? LevelAlert then "CRITICAL"
  else if level <? LevelEmergency then "ALERT"
  else "EMERGENCY".

(** [slog.MessageKey] and the like are "msg", "time", "source" and "level". *)
Definition GCPReplaceAttr (a : Attr) : Attr :=
  let '(key, v) := a in
  if bool_decide (key = "msg") then ("message", v)
  else if bool_decide (key = "time") then ("timestamp", v)
  else if bool_decide (key = "source") then
    (FieldSourceLocation,
     match v with
     | SourceValue (Some s) =>
         GroupValue [("file", StringValue (File s)); ("line", IntValue (Line s));
                     ("function", StringValue (Function s))]
     | _ => v
     end)
  else if bool_decide (key = "level") then
    ("severity", match v with LevelValue l => StringValue (gcpSeverity l) | _ => v end)
  else a.

(** ** Trace contexts *)

Definition maxTraceIDLen : nat := 32.
Definition maxSpanIDLen : nat := 16.

Record TraceContext := mkTrace { TraceID : string; SpanID : string; Sampled : bool }.
Definition no_trace : TraceContext := mkTrace "" "" false.

Definition IsEmpty (tc : TraceContext) : bool := bool_decide (TraceID tc = "").

(** [s[:n]] when [s] is longer. *)
Definition clip (n : nat) (s : string) : string := if (n <? str_len s)%nat then str_take n s else s.

(** [%0<n>x]: [n] lower-case hexadecimal digits. *)
Fixpoint hex_digits (n : nat) (z : Z) (acc : string) : string :=
  match n with
  | O => acc
  | S n' => hex_digits n' (z / 16) (String (hex_char (z mod 16)) acc)
  end.
Definition hex16 (z : Z) : string := hex_digits 16 z "".

Definition decimalToHexSpan (decimal : string) : string :=
  match parse_uint decimal with Some n => hex16 n | None => decimal end.

Definition parseCloudTraceHeader (header : string) : TraceContext :=
  let '(traceSpan, params, found) := cut ";"%char header in
  let sampled := found && contains "o=1" params in
  let '(traceID, spanDec, found) := cut "/"%char traceSpan in
  mkTrace (clip maxTraceIDLen traceID)
    (if found then clip maxSpanIDLen (decimalToHexSpan spanDec) else "") sampled.

Definition parseTraceparentHeader (header : string) : TraceContext :=
  let '(_, rest, found) := cut "-"%char header in
  if negb found then no_trace else
  let '(traceID, rest, found) := cut "-"%char rest in
  if negb found then no_trace else
  let '(spanID, flags, found) := cut "-"%char rest in
  if negb found then no_trace else
  mkTrace (clip maxTraceIDLen traceID) (clip maxSpanIDLen spanID) (bool_decide (flags = "01")).

(** A context: the value under [traceContextKey], when there is one. *)
Record Ctx := mkCtx { trace_value : option TraceContext }.

(** The headers of a request by name, empty when absent; the context that the next
    handler gets. *)
Definition TraceMiddleware (header : string → string) (ctx : Ctx) : Ctx :=
  let h := header "X-Cloud-Trace-Context" in
  let tc := if negb (bool_decide (h = "")) then parseCloudTraceHeader h
            else
              let tpHeader := header "traceparent" in
              if negb (bool_decide (tpHeader = "")) then parseTraceparentHeader tpHeader else no_trace in
  if negb (bool_decide (TraceID tc = "")) then mkCtx (Some tc) else ctx.

(** [a] and [b] are the two random numbers of 64 bits. *)
Definition WithTrace (a b : Z) (ctx : option Ctx) : Ctx :=
  mkCtx (Some (mkTrace (hex16 a +:+ hex16 b) "0000000000000000" true)).

Definition WithTraceContext (ctx : option Ctx) (tc : TraceContext) : Ctx := mkCtx (Some tc).

(** ** Theorems *)

Lemma clip_len n s : (str_len (clip n s) ≤ n)%nat.
Proof.
  unfold clip. destruct (Nat.ltb_spec n (str_len s)) as [H|H]; [|done]. clear H.
  revert n. induction s as [|c s IH]; intros n; destruct n; simpl; try lia.
  specialize (IH n). lia.
Qed.

Lemma clip_id n s : (str_len s ≤ n)%nat → clip n s = s.
Proof. unfold clip. intros H. by rewrite (proj2 (Nat.ltb_ge _ _)). Qed.

Lemma hex_digits_len n z acc : str_len (hex_digits n z acc) = (n + str_len acc)%nat.
Proof. revert z acc. induction n as [|n IH]; intros z acc; [done|]. simpl. rewrite IH. simpl. lia. Qed.

Lemma hex16_len z : str_len (hex16 z) = 16%nat.
Proof. apply hex_digits_len. Qed.

(** The value of hexadecimal digits. *)
Fixpoint hex_read (acc : Z) (s : string) : option Z :=
  match s with
  | EmptyString => Some acc
  | String c s' => match hex_value c with Some d => hex_read (16 * acc + d) s' | None => None end
  end.

Lemma hex_digits_read n z s acc :
  0 ≤ z < 16 ^ Z.of_nat n → hex_read acc (hex_digits n z s) = hex_read (acc * 16 ^ Z.of_nat n + z) s.
Proof.
  revert z s acc. induction n as [|n IH]; intros z s acc Hz.
  - simpl in *. f_equal. lia.
  - rewrite Nat2Z.inj_succ, Z.pow_succ_r in * by lia. cbn [hex_digits].
    rewrite IH by (split; [apply Z.div_pos; lia|apply Z.div_lt_upper_bound; lia]). cbn [hex_read].
    rewrite hex_char_value by (apply Z.mod_pos_bound; lia). f_equal.
    pose proof (Z.div_mod z 16 ltac:(lia)). lia.
Qed.

Lemma hex16_read z : 0 ≤ z < 2 ^ 64 → hex_read 0 (hex16 z) = Some z.
Proof. intros Hz. unfold hex16. rewrite hex_digits_read by (split; [lia|exact (proj2 Hz)]). done. Qed.

(** The IDs a header yields fit the fields they go to, whatever the header. *)
Theorem trace_ids_bounded (header : string) :
  let ok tc := (str_len (TraceID tc) ≤ 32 ∧ str_len (SpanID tc) ≤ 16)%nat in
  ok (parseCloudTraceHeader header) ∧ ok (parseTraceparentHeader header).
Proof.
  cbn zeta. unfold parseCloudTraceHeader, parseTraceparentHeader. split.
  - destruct (cut ";" header) as [[ts ps] f]. destruct (cut "/" ts) as [[t sp] f']. simpl.
    split; [apply clip_len|]. destruct f'; [apply clip_len|simpl; lia].
  - destruct (cut "-" header) as [[v r] []]; simpl; [|lia].
    destruct (cut "-" r) as [[t r'] []]; simpl; [|lia].
    destruct (cut "-" r') as [[sp fl] []]; simpl; [|lia]. split; apply clip_len.
Qed.

Lemma cloud_header_read (trace : string) (n : Z) (sampled : bool) :
  contains_byte ";"%char trace = false → contains_byte "/"%char trace = false →
  (str_len trace ≤ 32)%nat → 0 ≤ n < 2 ^ 64 →
  parseCloudTraceHeader (trace +:+ "/" +:+ itoa n +:+ (if sampled then ";o=1" else ";o=0")) =
    mkTrace trace (hex16 n) sampled.
Proof.
  intros Ht1 Ht2 Htl Hn. unfold parseCloudTraceHeader.
  destruct (itoa_bytes n) as [_ Hb].
  assert (cut ";"%char (trace +:+ "/" +:+ itoa n +:+ (if sampled then ";o=1" else ";o=0")) =
    (trace +:+ "/" +:+ itoa n, if sampled then "o=1" else "o=0", true)) as ->.
  { rewrite <- (cut_app ";" (trace +:+ "/" +:+ itoa n)).
    - f_equal. rewrite !str_app_assoc. by destruct sampled.
    - rewrite !contains_byte_app, Ht1. simpl. by apply Hb. }
  change ("/" +:+ itoa n) with (String "/" (itoa n)). rewrite cut_app by done.
  rewrite (clip_id maxTraceIDLen) by done. f_equal; [|by destruct sampled].
  unfold decimalToHexSpan, parse_uint. rewrite digits_itoa by lia.
  rewrite (proj2 (Z.ltb_lt _ _)) by lia. apply clip_id. by rewrite hex16_len.
Qed.

Lemma traceparent_read (version trace span flags : string) :
  contains_byte "-"%char version = false → contains_byte "-"%char trace = false →
  contains_byte "-"%char span = false → (str_len trace ≤ 32)%nat → (str_len span ≤ 16)%nat →
  parseTraceparentHeader (version +:+ "-" +:+ trace +:+ "-" +:+ span +:+ "-" +:+ flags) =
    mkTrace trace span (bool_decide (flags = "01")).
Proof.
  intros Hv Ht Hs Htl Hsl. unfold parseTraceparentHeader.
  change (version +:+ "-" +:+ trace +:+ "-" +:+ span +:+ "-" +:+ flags) with
    (version +:+ String "-" (trace +:+ String "-" (span +:+ String "-" flags))).
  rewrite !cut_app by done. simpl. by rewrite !clip_id.
Qed.

(** Both trace headers are read back. X-Cloud-Trace-Context: a trace ID, a span
    given as a decimal number of 64 bits, which becomes its sixteen hexadecimal
    digits (their value is the number), and the option o=1. traceparent: version,
    trace ID, span ID and flags; it counts as sampled for the flags 01 only, so a
    sampled request that carries another flag as well (03) is taken for one that
    is not. *)
Theorem trace_headers_read (trace span flags version : string) (n : Z) (sampled : bool) :
  contains_byte ";"%char trace = false → contains_byte "/"%char trace = false →
  contains_byte "-"%char trace = false → (str_len trace ≤ 32)%nat →
  contains_byte "-"%char span = false → (str_len span ≤ 16)%nat →
  contains_byte "-"%char version = false → 0 ≤ n < 2 ^ 64 →
  parseCloudTraceHeader (trace +:+ "/" +:+ itoa n +:+ (if sampled then ";o=1" else ";o=0")) =
    mkTrace trace (hex16 n) sampled ∧
  hex_read 0 (hex16 n) = Some n ∧
  parseTraceparentHeader (version +:+ "-" +:+ trace +:+ "-" +:+ span +:+ "-" +:+ flags) =
    mkTrace trace span (bool_decide (flags = "01")).
Proof.
  intros ? ? ? ? ? ? ? ?. split; [|split; [by apply hex16_read|]].
  - by apply cloud_header_read.
  - by apply traceparent_read.
Qed.

(** The severity of a level is the highest one whose level it reaches, from DEBUG,
    which everything reaches. *)
Definition severities : list (Z * string) :=
  [(LevelInfo, "INFO"); (LevelNotice, "NOTICE"); (LevelWarn, "WARNING"); (LevelError, "ERROR");
   (LevelCritical, "CRITICAL"); (LevelAlert, "ALERT"); (LevelEmergency, "EMERGENCY")].

Theorem severity_is_highest_reached (level : Z) :
  gcpSeverity level = List.last (map snd (filter (λ p, p.1 ≤ level) severities)) "DEBUG".
Proof.
  unfold gcpSeverity, severities, LevelEmergency, LevelAlert, LevelCritical, LevelNotice, LevelError,
    LevelWarn, LevelInfo. cbn [Z.add].
  repeat case_goal; bool_to_prop; rewrite ?filter_cons; cbn [fst];
    repeat (first [rewrite decide_True by (simpl; lia)|rewrite decide_False by (simpl; lia)]); done.
Qed.

End trace.

(** ** The handler *)

(** What [slog.Handler] asks of a handler [H]; [handle] takes the text and the
    attributes of a record. A context may be nil. *)
Class SlogHandler (W H : Type) := {
  h_enabled : option trace.Ctx → Z → H → W → bool;
  h_with_attrs : H → list Attr → H;
  h_with_group : H → string → H;
  h_handle : H → option trace.Ctx → string → list Attr → go W (option error)
}.

(** The With calls made on a handler, and where they put the attributes of a
    record: a group nests what comes after it. *)
Inductive op := OpAttrs (attrs : list Attr) | OpGroup (name : string).

Fixpoint place (path : list string) (ops : list op) (rec : list Attr) : list (list string * Attr) :=
  match ops with
  | [] => map (pair path) rec
  | OpAttrs attrs :: ops' => map (pair path) attrs ++ place path ops' rec
  | OpGroup name :: ops' => place (path ++ [name]) ops' rec
  end.

(** The contract of [log/slog]: a handler remembers its With calls, and writes each
    attribute under the groups that were open when it was added. *)
Class HandlerLaws (W H : Type) `{SlogHandler W H} := {
  h_view : H → list op;
  h_output : option trace.Ctx → string → list (list string * Attr) → go W (option error);
  view_with_attrs : ∀ h attrs, h_view (h_with_attrs h attrs) = h_view h ++ [OpAttrs attrs];
  view_with_group : ∀ h name, name ≠ "" → h_view (h_with_group h name) = h_view h ++ [OpGroup name];
  handle_places : ∀ h ctx msg rec,
    h_handle h ctx msg rec = h_output ctx msg (place [] (h_view h) rec)
}.

Module handler.
Import trace.

(** [fastUniqueID] with the counter before and after; [pid] is the process ID. *)
Definition fastUniqueID (pid seq : Z) : string * Z :=
  let val := wrap_u64 (seq + 1) in (itoa pid +:+ "-" +:+ itoa val, val).

Definition IDResolver : Type := option Ctx → TraceContext.

(** A step is a group when its name is not empty, otherwise it carries attributes. *)
Record chainStep := mkStep { group : string; attrs : list Attr }.

Section with_inner.
Context {W H : Type} `{SlogHandler W H}.
(** The counter [seq] of the process, and its ID. *)
Context (pid : Z) (get_seq : W → Z) (set_seq : Z → W → W).

Record handler := mkHandler {
  inner : H; root : H; steps : list chainStep; resolve : option IDResolver;
  projectID : string; tracePrefix : string; insertID : bool; insertIDKey : string
}.

Definition Option : Type := handler → handler.

Definition WithInsertID (enabled : bool) : Option := λ h,
  mkHandler (inner h) (root h) (steps h) (resolve h) (projectID h) (tracePrefix h) enabled
    (insertIDKey h).
Definition WithInsertIDKey (key : string) : Option := λ h,
  if negb (bool_decide (key = ""))
  then mkHandler (inner h) (root h) (steps h) (resolve h) (projectID h) (tracePrefix h) (insertID h) key
  else h.
Definition WithEventID (enabled : bool) : Option := WithInsertID enabled.

(** [inner] is [None] for a nil handler; [detect] is [detectProjectID]. *)
Definition NewHandler (inner : option H) (resolve : option IDResolver) (projectID : string)
    (detect : go W string) (opts : list Option) : go W handler :=
  match inner with
  | None => λ w, (Panicked "sloggcp: inner handler cannot be nil", w)
  | Some inner =>
      projectID ← (if bool_decide (projectID = "") then detect else mret projectID);
      mret (fold_left (λ h opt, opt h) opts
        (mkHandler inner inner [] resolve projectID ("projects/" +:+ projectID +:+ "/traces/") false
           FieldInsertID))
  end.

Definition Enabled (h : handler) (ctx : option Ctx) (level : Z) (w : W) : bool :=
  h_enabled ctx level (inner h) w.

Definition trace_attrs (h : handler) (tc : TraceContext) : list Attr :=
  if IsEmpty tc then []
  else [(FieldTrace, StringValue (tracePrefix h +:+ TraceID tc)); (FieldSpanID, StringValue (SpanID tc));
        (FieldTraceSampled, BoolValue (Sampled tc))].

Definition reservedAttrs (h : handler) (ctx : option Ctx) : go W (list Attr) :=
  ids ← (if insertID h then
           id ← does (λ w, let '(id, val) := fastUniqueID pid (get_seq w) in (id, set_seq val w));
           mret [(insertIDKey h, StringValue id)]
         else mret []);
  mret (ids ++ match resolve h with Some r => trace_attrs h (r ctx) | None => [] end).

Definition replay_step (target : H) (step : chainStep) : H :=
  if negb (bool_decide (group step = "")) then h_with_group target (group step)
  else h_with_attrs target (attrs step).

Definition Handle (h : handler) (ctx : option Ctx) (msg : string) (rec : list Attr)
  : go W (option error) :=
  reserved ← reservedAttrs h ctx;
  if (length reserved =? 0)%nat || (length (steps h) =? 0)%nat
  then h_handle (inner h) ctx msg (rec ++ reserved)
  else
    let target := h_with_attrs (root h) reserved in
    h_handle (fold_left replay_step (steps h) target) ctx msg rec.

(** [clone] copies, and so a derived handler is a value of its own. *)
Definition WithAttrs (h : handler) (attrs : list Attr) : handler :=
  let inner' := h_with_attrs (inner h) attrs in
  if (length (steps h) =? 0)%nat
  then mkHandler inner' (h_with_attrs (root h) attrs) (steps h) (resolve h) (projectID h)
         (tracePrefix h) (insertID h) (insertIDKey h)
  else mkHandler inner' (root h) (steps h ++ [mkStep "" attrs]) (resolve h) (projectID h)
         (tracePrefix h) (insertID h) (insertIDKey h).

Definition WithGroup (h : handler) (name : string) : handler :=
  if bool_decide (name = "") then h
  else mkHandler (h_with_group (inner h) name) (root h) (steps h ++ [mkStep name []]) (resolve h)
         (projectID h) (tracePrefix h) (insertID h) (insertIDKey h).

(** ** Specification *)

Definition apply_op (h : handler) (o : op) : handler :=
  match o with OpAttrs attrs => WithAttrs h attrs | OpGroup name => WithGroup h name end.

(** A group without a name is none. *)
Definition real_op (o : op) : Prop := o ≠ OpGroup "".
#[local] Instance real_op_dec o : Decision (real_op o).
Proof. destruct o as [|name]; [left; discriminate|]. destruct (decide (name = "")) as [->|];
  [right; intros E; by apply E|left; congruence]. Defined.

Definition step_op (s : chainStep) : op :=
  if negb (bool_decide (group s = "")) then OpGroup (group s) else OpAttrs (attrs s).

(** The groups that are open after the calls. *)
Definition open_groups (ops : list op) : list string :=
  omap (λ o, match o with OpGroup g => Some g | OpAttrs _ => None end) ops.

Context `{!HandlerLaws W H}.

(** What a handler derived from one around [inner0] keeps. *)
Record derived (v0 : list op) (ops : list op) (h : handler) : Prop := {
  d_inner : h_view (inner h) = v0 ++ filter real_op ops;
  d_root : ∃ pre, h_view (root h) = v0 ++ pre ∧ open_groups pre = [] ∧
    filter real_op ops = pre ++ map step_op (steps h);
  d_groups : steps h = [] → open_groups (filter real_op ops) = []
}.

Lemma derived_op v0 ops h o : derived v0 ops h → derived v0 (ops ++ [o]) (apply_op h o).
Proof.
  intros [Hi (pre & Hr & Hg & Hs) Hn].
  destruct o as [ats|name]; simpl.
  - assert (filter real_op [OpAttrs ats] = [OpAttrs ats]) as Ef by done.
    unfold WithAttrs. destruct (Nat.eqb_spec (length (steps h)) 0) as [E|E].
    + apply length_zero_nil in E. split; simpl; rewrite ?filter_app, ?Ef.
      * by rewrite view_with_attrs, Hi, app_assoc.
      * exists (pre ++ [OpAttrs ats]). rewrite view_with_attrs, Hr, app_assoc. split; [done|].
        unfold open_groups in *. rewrite omap_app, Hg, Hs, E. simpl. by rewrite !app_nil_r.
      * intros _. unfold open_groups in *. by rewrite omap_app, Hn.
    + split; simpl; rewrite ?filter_app, ?Ef.
      * by rewrite view_with_attrs, Hi, app_assoc.
      * exists pre. split; [done|]. split; [done|]. by rewrite map_app, Hs, <- app_assoc.
      * intros E'. by apply app_eq_nil in E' as [_ ?].
  - unfold WithGroup. case_bool_decide as En.
    + subst. assert (filter real_op [OpGroup ""] = []) as Ef by done.
      split; rewrite ?filter_app, ?Ef, ?app_nil_r; eauto.
    + assert (filter real_op [OpGroup name] = [OpGroup name]) as Ef.
      { rewrite filter_cons_True; [done|]. unfold real_op. congruence. }
      split; simpl; rewrite ?filter_app, ?Ef.
      * by rewrite view_with_group, Hi, app_assoc.
      * exists pre. split; [done|]. split; [done|]. rewrite map_app, Hs, <- app_assoc.
        do 3 f_equal. unfold step_op. simpl. by rewrite bool_decide_eq_false_2.
      * intros E'. by apply app_eq_nil in E' as [_ ?].
Qed.

Lemma derived_ops v0 ops0 ops h : derived v0 ops0 h → derived v0 (ops0 ++ ops) (fold_left apply_op ops h).
Proof.
  revert ops0 h. induction ops as [|o ops IH]; intros ops0 h Hd; [by rewrite app_nil_r|]. simpl.
  rewrite cons_middle, app_assoc. apply IH. by apply derived_op.
Qed.

Lemma replay_view target ss :
  h_view (fold_left replay_step ss target) = h_view target ++ map step_op ss.
Proof.
  revert target. induction ss as [|s ss IH]; intros target; simpl; [by rewrite app_nil_r|].
  rewrite IH. unfold replay_step, step_op.
  case_bool_decide; simpl; rewrite ?view_with_attrs, ?view_with_group by done; by rewrite <- app_assoc.
Qed.

Lemma place_app path ops1 ops2 rec :
  place path (ops1 ++ ops2) rec = place path ops1 [] ++ place (path ++ open_groups ops1) ops2 rec.
Proof.
  revert path. induction ops1 as [|[ats|g] ops1 IH]; intros path; simpl.
  - by rewrite app_nil_r.
  - by rewrite IH, app_assoc.
  - rewrite IH. by rewrite <- app_assoc.
Qed.

Lemma place_rec path ops rec1 rec2 :
  place path ops (rec1 ++ rec2) = place path ops rec1 ++ map (pair (path ++ open_groups ops)) rec2.
Proof.
  revert path. induction ops as [|[ats|g] ops IH]; intros path; simpl.
  - by rewrite app_nil_r, map_app.
  - by rewrite IH, app_assoc.
  - rewrite IH. by rewrite <- app_assoc.
Qed.

(** Adding attributes between the calls only adds their fields, at that place. *)
Lemma place_insert v0 pre post rec extra :
  open_groups pre = [] →
  place [] (v0 ++ pre ++ [OpAttrs extra] ++ post) rec ≡ₚ
  map (pair (open_groups v0)) extra ++ place [] (v0 ++ pre ++ post) rec.
Proof.
  intros Hp. rewrite !place_app, Hp, !app_nil_r, !app_nil_l. simpl. rewrite ?app_nil_r.
  rewrite (app_assoc (place [] v0 [])), Permutation_app_swap_app. by rewrite <- !app_assoc.
Qed.

Lemma derived_new h0 r p t i k : derived (h_view h0) [] (mkHandler h0 h0 [] r p t i k).
Proof.
  split; simpl; [by rewrite app_nil_r| |done]. exists []. by rewrite app_nil_r.
Qed.

Lemma reserved_no_panic h ctx : no_panic (reservedAttrs h ctx).
Proof. unfold reservedAttrs. no_panic. Qed.

(** The handlers that NewHandler and its options make around [h0]. *)
Definition fresh_handler (h0 : H) (h : handler) : Prop :=
  inner h = h0 ∧ root h = h0 ∧ steps h = [].

Lemma handle_derived (h0 : H) (h : handler) (ops : list op) ctx msg rec w :
  fresh_handler h0 h →
  ∃ reserved fields w1,
    reservedAttrs (fold_left apply_op ops h) ctx w = (Returned reserved, w1) ∧
    Handle (fold_left apply_op ops h) ctx msg rec w = h_output ctx msg fields w1 ∧
    fields ≡ₚ map (pair (open_groups (h_view h0))) reserved ++
              place [] (h_view h0 ++ filter real_op ops) rec.
Proof.
  intros (Ei & Er & Es).
  assert (derived (h_view h0) [] h) as Hd.
  { destruct h as [i0 r0 s0 re p t ii k]. simpl in *. subst. apply derived_new. }
  apply (derived_ops _ _ ops) in Hd. rewrite app_nil_l in Hd.
  set (h' := fold_left apply_op ops h) in *. destruct Hd as [Hi (pre & Hr & Hg & Hs) Hn].
  destruct (reserved_no_panic h' ctx w) as (reserved & w1 & E).
  unfold Handle. rewrite (bind_eq _ _ _ _ _ E).
  destruct ((length reserved =? 0)%nat || (length (steps h') =? 0)%nat) eqn:Eb.
  - exists reserved, (place [] (h_view h0 ++ filter real_op ops) (rec ++ reserved)), w1.
    split; [done|]. split; [by rewrite handle_places, Hi|]. rewrite place_rec, app_nil_l.
    apply orb_true_iff in Eb as [Eb|Eb]; apply Nat.eqb_eq, length_zero_nil in Eb.
    + by rewrite Eb, app_nil_r.
    + unfold open_groups at 1. rewrite omap_app. fold (open_groups (h_view h0)).
      fold (open_groups (filter real_op ops)). rewrite (Hn Eb), app_nil_r.
      apply Permutation_app_comm.
  - exists reserved, (place [] (h_view h0 ++ pre ++ [OpAttrs reserved] ++ map step_op (steps h')) rec), w1.
    split; [done|]. split.
    + rewrite handle_places, replay_view, view_with_attrs, Hr. by rewrite <- !app_assoc.
    + rewrite place_insert by done. by rewrite Hs.
Qed.

(** C17: The handler is transparent but for the reserved fields. Whatever With
    calls were made on it, in any order, it writes a record as the inner handler
    would after the same calls, and adds exactly the reserved fields, which stand
    where the fields of the inner handler stood before the calls (at the root,
    when no group was open then), never under a group opened since. *)
Theorem reserved_at_root (h0 : H) (h : handler) (ops : list op) ctx msg rec w :
  fresh_handler h0 h →
  ∃ reserved fields w1,
    reservedAttrs (fold_left apply_op ops h) ctx w = (Returned reserved, w1) ∧
    Handle (fold_left apply_op ops h) ctx msg rec w = h_output ctx msg fields w1 ∧
    fields ≡ₚ map (pair (open_groups (h_view h0))) reserved ++
              place [] (h_view h0 ++ filter real_op ops) rec.
Proof. apply handle_derived. Qed.
End with_inner.
Arguments handler : clear implicits.
Arguments Option : clear implicits.

(** *** Insert IDs *)

(** The IDs of [n] records, the counter starting at [seq]. *)
Fixpoint unique_ids (pid seq : Z) (n : nat) : list string :=
  match n with
  | O => []
  | S n' => let '(id, seq') := fastUniqueID pid seq in id :: unique_ids pid seq' n'
  end.

Lemma id_text_inj pid a b : itoa pid +:+ "-" +:+ itoa a = itoa pid +:+ "-" +:+ itoa b → a = b.
Proof.
  intros E. induction (itoa pid) as [|c s IH].
  - rewrite !str_nil_app, !str_cons_app, !str_nil_app in E. injection E as E.
    by apply (inj (pretty (A:=Z))) in E.
  - apply IH. rewrite !str_cons_app in E. by injection E.
Qed.

Lemma unique_ids_lookup pid seq n k id :
  unique_ids pid seq n !! k = Some id →
  (k < n)%nat ∧ id = itoa pid +:+ "-" +:+ itoa (wrap_u64 (seq + 1 + Z.of_nat k)).
Proof.
  revert seq k. induction n as [|n IH]; intros seq k; [done|]. unfold unique_ids, fastUniqueID.
  fold unique_ids. destruct k as [|k]; simpl.
  - intros [= <-]. split; [lia|]. by rewrite Z.add_0_r.
  - intros Hk. destruct (IH _ _ Hk) as [Hlt ->]. split; [lia|]. do 3 f_equal. unfold wrap_u64.
    rewrite <- Z.add_assoc, Zplus_mod_idemp_l. f_equal. lia.
Qed.

(** Insert IDs of one process do not repeat before 2^64 records. *)
Theorem insert_ids_unique (pid seq : Z) (n : nat) :
  Z.of_nat n ≤ 2 ^ 64 → NoDup (unique_ids pid seq n).
Proof.
  intros Hn. apply NoDup_alt. intros i j id Hi Hj.
  destruct (unique_ids_lookup _ _ _ _ _ Hi) as [Hli Ei], (unique_ids_lookup _ _ _ _ _ Hj) as [Hlj Ej].
  rewrite Ei in Ej. apply id_text_inj in Ej. unfold wrap_u64 in Ej.
  assert ((Z.of_nat i - Z.of_nat j) mod 2 ^ 64 = 0) as E0.
  { replace (Z.of_nat i - Z.of_nat j) with ((seq + 1 + Z.of_nat i) - (seq + 1 + Z.of_nat j)) by lia.
    rewrite Zminus_mod, Ej, Z.sub_diag. done. }
  apply Z.mod_divide in E0 as [q Hq]; [|lia]. nia.
Qed.

(** ** Witness: an inner handler that records what it writes *)

Record Recorder := mkRecorder { rec_ops : list op }.
Definition Log : Type := Z * list (list (list string * Attr)).

#[export] Instance recorder_handler : SlogHandler Log Recorder := {|
  h_enabled := λ _ _ _ _, true;
  h_with_attrs := λ h ats, mkRecorder (rec_ops h ++ [OpAttrs ats]);
  h_with_group := λ h g, mkRecorder (rec_ops h ++ [OpGroup g]);
  h_handle := λ h _ _ rec w, (Returned None, (w.1, w.2 ++ [place [] (rec_ops h) rec])) |}.

#[export] Instance recorder_laws : HandlerLaws Log Recorder := {|
  h_view := rec_ops;
  h_output := λ _ _ fields w, (Returned None, (w.1, w.2 ++ [fields]));
  view_with_attrs := λ _ _, eq_refl;
  view_with_group := λ _ _ _, eq_refl;
  handle_places := λ _ _ _ _, eq_refl |}.

Definition demo_handler : handler Recorder :=
  mkHandler (mkRecorder []) (mkRecorder []) []
    (Some (λ _, mkTrace "abc" "7" true)) "p" "projects/p/traces/" true FieldInsertID.
Definition demo_ops : list op :=
  [OpAttrs [("a", IntValue 1)]; OpGroup ""; OpGroup "g"; OpAttrs [("b", IntValue 2)]].

Definition log_seq (w : Log) : Z := w.1.
Definition log_set_seq (q : Z) (w : Log) : Log := (q, w.2).

Lemma reserved_at_root_witness :
  ∃ fields, (Handle 12 log_seq log_set_seq (fold_left apply_op demo_ops demo_handler) None "m"
      [("c", IntValue 3)] (0, [])).2.2 = [fields] ∧
    ([], (FieldInsertID, StringValue "12-1")) ∈ fields ∧ (["g"], ("c", IntValue 3)) ∈ fields.
Proof.
  destruct (reserved_at_root 12 log_seq log_set_seq (mkRecorder []) demo_handler demo_ops None "m"
    [("c", IntValue 3)] (0, []) (conj eq_refl (conj eq_refl eq_refl))) as (reserved & fields & w1 & E1 & E2 & E3).
  exists fields. assert (E4 : w1.2 = []) by (vm_compute in E1; injection E1 as _ <-; reflexivity).
  assert (E5 : reserved = [(FieldInsertID, StringValue "12-1");
    (FieldTrace, StringValue "projects/p/traces/abc"); (FieldSpanID, StringValue "7");
    (FieldTraceSampled, BoolValue true)]) by (vm_compute in E1; injection E1 as <- _; reflexivity).
  split; [rewrite E2; simpl; rewrite E4; reflexivity|].
  split; rewrite E3, E5; rewrite elem_of_app; [left; vm_compute; left|right].
  vm_compute. right. right. left.
Defined.

End handler.
