(* ===== verification/SlogSetup.v ===== *)
(** * slog-gcp: request logs, set-up for Cloud Run, error reports

    Models [httprequest.go], [cloudrun.go], [errorreporting.go],
    [stacktrace.go], [project.go] and [otelgcp/otelgcp.go] of [src/go/slog-gcp],
    on top of the handler and the trace contexts of [SlogGcp.v]. *)

From S2P Require Import Prelude GoStrings GoErr GoMonad Gcpenv SlogGcp.
From Stdlib Require Import Ascii.

Module httprequest.

(** ** Request logs *)

Record HTTPRequest := mkHTTPRequest {
  Method : string; URL : string; Status : Z; Latency : Z; RemoteIP : string; UserAgent : string;
  RequestSize : Z; ResponseSize : Z
}.

(** [latency_text] is [fmt.Sprintf("%fs", d.Seconds())]; the zero [slog.Attr] has a
    nil value. *)
Definition HTTPRequestAttr (latency_text : Z → string) (req : option HTTPRequest) : Attr :=
  match req with
  | None => ("", AnyValue "<nil>")
  | Some req =>
      let attrs := [("requestMethod", StringValue (Method req)); ("requestUrl", StringValue (URL req));
                    ("status", IntValue (Status req));
                    ("latency", StringValue (latency_text (Latency req)))] in
      let attrs := if negb (bool_decide (RemoteIP req = ""))
                   then attrs ++ [("remoteIp", StringValue (RemoteIP req))] else attrs in
      let attrs := if negb (bool_decide (UserAgent req = ""))
                   then attrs ++ [("userAgent", StringValue (UserAgent req))] else attrs in
      let attrs := if 0 <? RequestSize req
                   then attrs ++ [("requestSize", IntValue (RequestSize req))] else attrs in
      let attrs := if 0 <? ResponseSize req
                   then attrs ++ [("responseSize", IntValue (ResponseSize req))] else attrs in
      ("httpRequest", GroupValue attrs)
  end.

Definition StatusOK : Z := 200.

Section recorder.
(** The [http.ResponseWriter] that is wrapped. *)
Context {W : Type} (Writer_WriteHeader : Z → W → W)
  (Writer_Write : string → W → (Z * option error) * W).

Record responseRecorder := mkRec { rec_Status : Z; Size : Z }.

Definition WriteHeader (r : responseRecorder) (status : Z) : go W responseRecorder :=
  _ ← does (λ w, (tt, Writer_WriteHeader status w));
  mret (mkRec status (Size r)).

Definition Write (r : responseRecorder) (b : string)
  : go W (Z * option error * responseRecorder) :=
  r ← (if rec_Status r =? 0 then WriteHeader r StatusOK else mret r);
  res ← does (Writer_Write b);
  mret (res.1, res.2, mkRec (rec_Status r) (wrap64 (Size r + res.1))).

(** A handler, as far as its writer can tell: what it does next may depend on what
    its writes returned, and it may panic. *)
Inductive program :=
| Return
| DoWriteHeader (status : Z) (k : program)
| DoWrite (b : string) (k : Z * option error → program)
| DoPanic (msg : string).

Fixpoint ServeHTTP (next : program) (r : responseRecorder) : go W responseRecorder :=
  match next with
  | Return => mret r
  | DoWriteHeader status k => r ← WriteHeader r status; ServeHTTP k r
  | DoWrite b k => '(res, r) ← Write r b; ServeHTTP (k res) r
  | DoPanic msg => λ w, (Panicked msg, w)
  end.

(** The wrapper has the optional interfaces of the writer. *)
Inductive wrapper := flushHijackRecorder | flushRecorder | hijackRecorder | plainRecorder.
Definition wrap (hasFlusher hasHijacker : bool) : wrapper :=
  if hasFlusher && hasHijacker then flushHijackRecorder
  else if hasFlusher then flushRecorder
  else if hasHijacker then hijackRecorder
  else plainRecorder.

Record Request := mkRequest {
  req_Method : string; req_URL : option string; req_UserAgent : string; RemoteAddr : string;
  ContentLength : Z
}.

(** [Now] is the clock. The result is the request that is logged. *)
Definition RequestLoggerMiddleware (Now : W → Z * W) (next : program) (r : Request)
  : go W HTTPRequest :=
  start ← does Now;
  rec ← ServeHTTP next (mkRec StatusOK 0);
  now ← does Now;
  mret (mkHTTPRequest (req_Method r) (default "" (req_URL r)) (rec_Status rec) (time_sub now start)
          (RemoteAddr r) (req_UserAgent r) (ContentLength r) (Size rec)).
End recorder.

(** ** What is logged against what is sent *)

(** The writer of [net/http]: the first status that is not informational is sent,
    the body makes it 200, later ones are ignored; [accepts] is how much of a write
    the connection takes. *)
Record Response := mkResponse { sent : option Z; body_size : Z }.

Definition net_WriteHeader (status : Z) (w : Response) : Response :=
  match sent w with
  | Some _ => w
  | None => if (100 <=? status) && (status <? 200) then w else mkResponse (Some status) (body_size w)
  end.

Section net.
Context (accepts : string → Response → nat).

Definition net_Write (b : string) (w : Response) : (Z * option error) * Response :=
  let n := Z.of_nat (Nat.min (accepts b w) (str_len b)) in
  ((n, None), mkResponse (Some (default StatusOK (sent w))) (body_size w + n)).

Abbreviation serve := (ServeHTTP net_WriteHeader net_Write).

(** A handler that at most begins with one final status. *)
Fixpoint only_writes (p : program) : Prop :=
  match p with
  | Return => True
  | DoWriteHeader _ _ => False
  | DoWrite _ k => ∀ res, only_writes (k res)
  | DoPanic _ => True
  end.
Definition one_status (p : program) : Prop :=
  match p with DoWriteHeader s k => 200 ≤ s ∧ only_writes k | _ => only_writes p end.

Lemma serve_writes p r w r' w' :
  only_writes p → rec_Status r ≠ 0 → serve p r w = (Returned r', w') →
  rec_Status r' = rec_Status r ∧
  (sent w' = sent w ∨ sent w = None ∧ sent w' = Some StatusOK) ∧
  wrap64 (Size r') = wrap64 (Size r + (body_size w' - body_size w)).
Proof.
  revert r w. induction p as [|s k IH|b k IH|msg]; intros r w Hp Hs E; simpl in Hp; [|done| |done].
  - cbv [ServeHTTP mret go_ret] in E. simplify_eq. split; [done|]. split; [by left|]. f_equal; lia.
  - cbn [ServeHTTP] in E. unfold Write in E. rewrite (proj2 (Z.eqb_neq _ _) Hs) in E. cbn in E.
    apply IH in E as (E1 & E2 & E3); [|done|done]. simpl in *. split; [done|]. split.
    + destruct (sent w); simpl in *; [left|right]; destruct E2 as [->|[? _]]; done.
    + rewrite E3, wrap64_add_l. f_equal. lia.
Qed.

(** What a request log says was sent. When the handler sets at most one status,
    first and final, the logged status is the one the client got, 200 when it set
    none, and the logged size is that of the body that was taken, as far as it
    fits 64 bits. *)
Theorem logged_as_sent (p : program) r' w' :
  one_status p → serve p (mkRec StatusOK 0) (mkResponse None 0) = (Returned r', w') →
  rec_Status r' = default StatusOK (sent w') ∧ wrap64 (Size r') = wrap64 (body_size w').
Proof.
  intros Hp E. assert (∀ q r w, only_writes q → rec_Status r = default StatusOK (sent w) →
    rec_Status r ≠ 0 → Size r = 0 → body_size w = 0 →
    serve q r w = (Returned r', w') →
    rec_Status r' = default StatusOK (sent w') ∧ wrap64 (Size r') = wrap64 (body_size w')) as H.
  { intros q r w Hq Hs Hn H0 Hb Eq. destruct (serve_writes q r w r' w' Hq Hn Eq) as (E1 & E2 & E3).
    rewrite E1, Hs, E3, H0, Hb. split; [destruct E2 as [->|[-> ->]]; done|]. f_equal. lia. }
  destruct p as [|s k|b k|msg]; simpl in Hp.
  - by eapply H in E.
  - destruct Hp as [Hs Hk].
    assert (net_WriteHeader s (mkResponse None 0) = mkResponse (Some s) 0) as Ew.
    { unfold net_WriteHeader. simpl. by rewrite (proj2 (Z.ltb_ge s 200)), andb_false_r by done. }
    cbn [ServeHTTP] in E. unfold WriteHeader, does in E. cbv [mbind go_bind mret go_ret] in E.
    rewrite Ew in E. eapply H in E; [exact E|done|done|simpl; lia|done|done].
  - by eapply H in E.
  - done.
Qed.

End net.

(** A status after the first is ignored by the server but logged; so is an
    informational one: a handler that sends early hints and then a body is logged
    with 103 where the client got 200. *)
Example logged_status_differs :
  let run p := ServeHTTP net_WriteHeader (net_Write (λ b _, str_len b)) p (mkRec StatusOK 0) (mkResponse None 0) in
  run (DoWriteHeader 103 (DoWrite "hello" (λ _, Return))) = (Returned (mkRec 103 5), mkResponse (Some 200) 5) ∧
  run (DoWriteHeader 404 (DoWriteHeader 500 Return)) = (Returned (mkRec 500 0), mkResponse (Some 404) 0).
Proof. by split. Qed.

Lemma logged_as_sent_witness :
  rec_Status (mkRec 404 5) = default StatusOK (sent (mkResponse (Some 404) 5)) ∧
  wrap64 5 = wrap64 5.
Proof.
  apply (logged_as_sent (λ b _, str_len b) (DoWriteHeader 404 (DoWrite "hello" (λ _, Return)))
    (mkRec 404 5) (mkResponse (Some 404) 5)); [|reflexivity].
  split; [vm_compute; discriminate|exact (λ _, I)].
Defined.

End httprequest.

Module cloudrun.
Import trace handler.

(** ** Set-up *)

(** [detectProjectID], with the process-wide resolver before and after. *)
Definition detectProjectID {W} (Do : string → go W gcpenv.reply) (getenv : string → string)
    (r : gcpenv.Resolver) : go W (string * gcpenv.Resolver) :=
  '(id, r) ← gcpenv.ProjectID Do getenv r;
  mret (if negb (bool_decide (id = "")) then id else "unknown-project", r).

(** [strings.EqualFold], and equality after [strings.ToUpper], for ASCII texts. *)
Definition to_upper_is (s upper : string) : bool := bool_decide (to_lower s = to_lower upper).

Section env.
Context (getenv : string → string).
Definition is_set (key : string) : bool := negb (bool_decide (getenv key = "")).

Definition runningOnGCP : bool :=
  is_set "K_SERVICE" || is_set "CLOUD_RUN_JOB" || is_set "KUBERNETES_SERVICE_HOST".

Definition parseLogLevel : Z :=
  let l := getenv "LOG_LEVEL" in
  if to_upper_is l "DEBUG" then LevelDebug
  else if to_upper_is l "INFO" then LevelInfo
  else if to_upper_is l "WARN" || to_upper_is l "WARNING" then LevelWarn
  else if to_upper_is l "ERROR" then LevelError
  else if runningOnGCP then LevelInfo else LevelDebug.

(** A level that is fixed, or a variable of the program, by its name. *)
Inductive Leveler := FixedLevel (level : Z) | LevelVar (name : string).

Record setupConfig := mkSetup {
  levelVar : option string; cfg_projectID : string; cfg_insertID : option bool;
  cfg_insertIDKey : string; cfg_resolver : option IDResolver; labels : list (string * string)
}.
Definition SetupOption : Type := setupConfig → setupConfig.

Definition WithLevelVar (lv : option string) : SetupOption := λ c,
  mkSetup lv (cfg_projectID c) (cfg_insertID c) (cfg_insertIDKey c) (cfg_resolver c) (labels c).
Definition WithProjectID (id : string) : SetupOption := λ c,
  mkSetup (levelVar c) id (cfg_insertID c) (cfg_insertIDKey c) (cfg_resolver c) (labels c).
Definition WithInsertIDEnabled (enabled : bool) : SetupOption := λ c,
  mkSetup (levelVar c) (cfg_projectID c) (Some enabled) (cfg_insertIDKey c) (cfg_resolver c) (labels c).
Definition WithCustomInsertIDKey (key : string) : SetupOption := λ c,
  mkSetup (levelVar c) (cfg_projectID c) (cfg_insertID c) key (cfg_resolver c) (labels c).
Definition WithEventIDEnabled (enabled : bool) : SetupOption := WithInsertIDEnabled enabled.
Definition WithTraceResolver (resolver : option IDResolver) : SetupOption := λ c,
  mkSetup (levelVar c) (cfg_projectID c) (cfg_insertID c) (cfg_insertIDKey c) resolver (labels c).
(** The map of labels, in the order its range takes. *)
Definition WithLabels (ls : list (string * string)) : SetupOption := λ c,
  mkSetup (levelVar c) (cfg_projectID c) (cfg_insertID c) (cfg_insertIDKey c) (cfg_resolver c) ls.

Definition context_resolver : IDResolver := λ ctx,
  match ctx with
  | None => no_trace
  | Some c => match trace_value c with Some tc => tc | None => no_trace end
  end.

Section init.
Context {W H : Type} `{SlogHandler W H} (newJSON : Leveler → H) (detect : go W string).

Inductive log_handler := TextHandler (level : Leveler) | CloudHandler (h : handler H).

Definition InitCloudRun (opts : list SetupOption) : go W log_handler :=
  let cfg := fold_left (λ c opt, opt c) opts (mkSetup None "" None "" None []) in
  let level := match levelVar cfg with Some lv => LevelVar lv | None => FixedLevel parseLogLevel end in
  let format := getenv "LOG_FORMAT" in
  if (negb runningOnGCP && negb (to_upper_is format "json")) || to_upper_is format "text"
  then mret (TextHandler level)
  else
    let resolver := match cfg_resolver cfg with Some r => r | None => context_resolver end in
    let inner := newJSON level in
    let handlerOpts :=
      match cfg_insertID cfg with Some b => [WithInsertID b] | None => [] end ++
      (if negb (bool_decide (cfg_insertIDKey cfg = "")) then [WithInsertIDKey (cfg_insertIDKey cfg)] else []) in
    h ← NewHandler (Some inner) (Some resolver) (cfg_projectID cfg) detect handlerOpts;
    mret (CloudHandler
      (match labels cfg with
       | [] => h
       | ls => WithAttrs h [("logging.googleapis.com/labels",
                             GroupValue (map (λ kv, (kv.1, StringValue kv.2)) ls))]
       end)).

(** The default logger is a part of the world. *)
Definition Setup (SetDefault : log_handler → W → unit * W) (opts : list SetupOption) : go W unit :=
  h ← InitCloudRun opts;
  does (SetDefault h).
End init.
Arguments log_handler : clear implicits.

(** ** Error reports *)

Record ServiceContext := mkServiceContext { Service : string; Version : string }.

Definition first_env (keys : list string) : string := gcpenv.FromEnv_loop getenv keys.

Definition ServiceContextFromEnv : ServiceContext :=
  mkServiceContext (first_env ["K_SERVICE"; "CLOUD_RUN_JOB"; "SERVICE_NAME"])
    (first_env ["K_REVISION"; "CLOUD_RUN_EXECUTION"; "HOSTNAME"]).
End env.
Arguments log_handler : clear implicits.

Record Frame := mkFrame { frame_Function : string; frame_File : string; frame_Line : Z }.

(** A call stack, the innermost frame first. [own] tells where a function of the
    package stands in its source. *)
Section stack.
Context (own : string → Frame).

(** [runtime.Callers(skip, pcs)] with 128 program counters: frame 0 is its own. *)
Definition callers (skip : nat) (stack : list Frame) : list Frame :=
  take 128 (drop skip (own "runtime.Callers" :: stack)).

Fixpoint stack_text (frames : list Frame) : string :=
  match frames with
  | [] => ""
  | f :: frames' =>
      if bool_decide (frame_Function f = "") then ""
      else frame_Function f +:+ "()" +:+ String (ascii_of_nat 10)
             (String (ascii_of_nat 9) (frame_File f +:+ ":" +:+ itoa (frame_Line f) +:+
                String (ascii_of_nat 10) (stack_text frames')))
  end.

Definition stackTrace (skip : nat) (stack : list Frame) : string :=
  stack_text (callers skip (own "sloggcp.stackTrace" :: stack)).

Definition service_group (sc : ServiceContext) : Attr :=
  ("serviceContext", GroupValue [("service", StringValue (Service sc)); ("version", StringValue (Version sc))]).

Definition ErrorAttrsWithSkip (stack : list Frame) (err : option error) (sc : ServiceContext) (skip : nat)
  : list Attr :=
  let stack := own "sloggcp.ErrorAttrsWithSkip" :: stack in
  [("@type", StringValue ErrorReportingType); service_group sc;
   ("stack_trace", StringValue (stackTrace skip stack))] ++
  match err with Some e => [("error", StringValue (error_text e))] | None => [] end.

Definition ErrorAttrs (stack : list Frame) (err : option error) (sc : ServiceContext) : list Attr :=
  ErrorAttrsWithSkip (own "sloggcp.ErrorAttrs" :: stack) err sc 3.

(** An argument of [slog]'s alternating API: a text or an attribute. *)
Inductive arg := ArgString (s : string) | ArgAttr (a : Attr).

Definition ErrorAttrsAnyWithSkip (stack : list Frame) (err : option error) (sc : ServiceContext)
    (skip : nat) : list arg :=
  let stack := own "sloggcp.ErrorAttrsAnyWithSkip" :: stack in
  [ArgString "@type"; ArgString ErrorReportingType; ArgAttr (service_group sc);
   ArgString "stack_trace"; ArgString (stackTrace skip stack)] ++
  match err with Some e => [ArgString "error"; ArgString (error_text e)] | None => [] end.

Definition ErrorAttrsAny (stack : list Frame) (err : option error) (sc : ServiceContext) : list arg :=
  ErrorAttrsAnyWithSkip (own "sloggcp.ErrorAttrsAny" :: stack) err sc 3.
End stack.

(** ** Theorems *)

(** How [slog] reads alternating arguments. *)
Fixpoint args_to_attrs (l : list arg) : list Attr :=
  match l with
  | ArgAttr a :: l' => a :: args_to_attrs l'
  | ArgString k :: ArgString v :: l' => (k, StringValue v) :: args_to_attrs l'
  | ArgString k :: ArgAttr a :: l' => (k, AnyValue "attr") :: args_to_attrs l'
  | [ArgString v] => [("!BADKEY", StringValue v)]
  | [] => []
  end.

(** Both forms of an error report say the same, but for the frame of the function
    itself; and the frame that comes first in the trace of [ErrorAttrs] is its
    own, not its caller's, although its skip count is said to be that of the
    caller: only [ErrorAttrsWithSkip], called directly, starts at the caller. *)
Theorem error_reports (own : string → Frame) (stack : list Frame) err sc skip :
  (let args := args_to_attrs (ErrorAttrsAnyWithSkip own stack err sc skip) in
   let attrs := ErrorAttrsWithSkip own stack err sc skip in
   map fst args = map fst attrs ∧ length args = length attrs ∧
   ((3 ≤ skip)%nat → args = attrs)) ∧
  (∀ caller rest, stack = caller :: rest →
     callers own 3 (own "sloggcp.stackTrace" :: own "sloggcp.ErrorAttrsWithSkip" :: stack) =
       take 128 (caller :: rest) ∧
     callers own 3 (own "sloggcp.stackTrace" :: own "sloggcp.ErrorAttrsWithSkip" ::
                    own "sloggcp.ErrorAttrs" :: stack) =
       take 128 (own "sloggcp.ErrorAttrs" :: caller :: rest)).
Proof.
  split.
  - cbn zeta. destruct err; simpl; (split; [done|]); (split; [done|]); intros Hs;
      unfold stackTrace, callers; destruct skip as [|[|[|skip]]]; try lia; done.
  - by intros caller rest ->.
Qed.

(** Derived handlers have the options of their handler. *)
Lemma derived_keeps {W H} `{SlogHandler W H} (ops : list op) (h : handler H) :
  insertID (fold_left apply_op ops h) = insertID h ∧
  resolve (fold_left apply_op ops h) = resolve h ∧
  tracePrefix (fold_left apply_op ops h) = tracePrefix h.
Proof.
  revert h. induction ops as [|o ops IH]; intros h; [done|]. simpl.
  destruct (IH (apply_op h o)) as (-> & -> & ->).
  destruct o as [ats|g]; simpl; unfold WithAttrs, WithGroup; by repeat case_match.
Qed.

Section end_to_end.
Context {W H : Type} `{HandlerLaws W H}.
Context (pid : Z) (get_seq : W → Z) (set_seq : Z → W → W).

(** A request that names a trace and a span, with either header. *)
Definition sends_trace (header : string → string) (trace span : string) (sampled : bool) : Prop :=
  trace ≠ "" ∧ (str_len trace ≤ 32)%nat ∧
  ((∃ n, 0 ≤ n < 2 ^ 64 ∧ contains_byte ";"%char trace = false ∧ contains_byte "/"%char trace = false ∧
      span = hex16 n ∧
      header "X-Cloud-Trace-Context" = trace +:+ "/" +:+ itoa n +:+ (if sampled then ";o=1" else ";o=0")) ∨
   (∃ version flags, contains_byte "-"%char version = false ∧ contains_byte "-"%char trace = false ∧
      contains_byte "-"%char span = false ∧ (str_len span ≤ 16)%nat ∧ sampled = bool_decide (flags = "01") ∧
      header "X-Cloud-Trace-Context" = "" ∧
      header "traceparent" = version +:+ "-" +:+ trace +:+ "-" +:+ span +:+ "-" +:+ flags)).

Lemma middleware_reads header trace span sampled ctx :
  sends_trace header trace span sampled →
  TraceMiddleware header ctx = mkCtx (Some (mkTrace trace span sampled)).
Proof.
  intros (Ht & Htl & [(n & Hn & Ht1 & Ht2 & -> & Hh)|(version & flags & Hv & Ht1 & Hs & Hsl & -> & Hh & Hp)]);
    unfold TraceMiddleware; rewrite Hh.
  - rewrite (bool_decide_eq_false_2 (trace +:+ _ = "")) by (intros [E _]%str_app_eq_nil; done).
    simpl. rewrite cloud_header_read by done. simpl. by rewrite bool_decide_eq_false_2.
  - rewrite (bool_decide_eq_true_2 ("" = "")) by done. simpl. rewrite Hp, traceparent_read by done.
    rewrite (bool_decide_eq_false_2 (version +:+ _ = "")) by (intros [_ [? _]%str_app_eq_nil]%str_app_eq_nil; done).
    simpl. by rewrite bool_decide_eq_false_2.
Qed.

(** C16: A request's trace reaches its logs. On Cloud Run, with a project given and
    the format left alone, whatever With calls a logger makes, a record written in
    the context that TraceMiddleware makes of a request with a trace, in either
    header, has the trace's resource name, the span and the sampling mark at the root
    of the entry. *)
Theorem trace_reaches_log (getenv header : string → string) (newJSON : Leveler → H)
    (detect : go W string) (project trace span : string) (sampled : bool) (ctx : Ctx) (ops : list op) msg rec w0 w :
  getenv "K_SERVICE" ≠ "" → getenv "LOG_FORMAT" = "" → project ≠ "" →
  (∀ l, open_groups (h_view (newJSON l)) = []) →
  sends_trace header trace span sampled →
  ∃ h fields w1,
    InitCloudRun getenv newJSON detect [WithProjectID project] w0 = (Returned (CloudHandler h), w0) ∧
    Handle pid get_seq set_seq (fold_left apply_op ops h) (Some (TraceMiddleware header ctx)) msg rec w =
      h_output (Some (TraceMiddleware header ctx)) msg fields w1 ∧
    ([], (FieldTrace, StringValue ("projects/" +:+ project +:+ "/traces/" +:+ trace))) ∈ fields ∧
    ([], (FieldSpanID, StringValue span)) ∈ fields ∧
    ([], (FieldTraceSampled, BoolValue sampled)) ∈ fields.
Proof.
  intros Hk Hf Hp Hv Hh. pose proof Hh as (Ht & _). apply (middleware_reads _ _ _ _ ctx) in Hh as Ec.
  set (level := FixedLevel (parseLogLevel getenv)).
  set (h := mkHandler (newJSON level) (newJSON level) [] (Some context_resolver) project
              ("projects/" +:+ project +:+ "/traces/") false FieldInsertID).
  destruct (handle_derived pid get_seq set_seq (newJSON level) h ops
    (Some (TraceMiddleware header ctx)) msg rec w) as (reserved & fields & w1 & E1 & E2 & E3);
    [done|].
  exists h, fields, w1. split.
  { unfold InitCloudRun. simpl. unfold runningOnGCP, is_set.
    rewrite (bool_decide_eq_false_2 (getenv "K_SERVICE" = "")), Hf by done. simpl.
    rewrite (bool_decide_eq_false_2 (project = "")) by done. done. }
  split; [exact E2|].
  rewrite Ec in E1. unfold reservedAttrs in E1.
  destruct (derived_keeps ops h) as (Ei & Er & Et). rewrite Ei, Er in E1.
  cbv [mbind go_bind mret go_ret] in E1. injection E1 as E1 _. simpl in E1.
  rewrite Hv in E3. unfold trace_attrs in E1. rewrite Et in E1.
  cbn [IsEmpty TraceID SpanID Sampled] in E1. unfold IsEmpty in E1. cbn [TraceID] in E1.
  rewrite (bool_decide_eq_false_2 (trace = "")) in E1 by done.
  split_and!; rewrite E3, elem_of_app; left; rewrite <- E1; simpl; rewrite ?str_app_assoc, !elem_of_cons; auto.
Qed.
End end_to_end.

Definition demo_getenv (k : string) : string := if bool_decide (k = "K_SERVICE") then "svc" else "".
Definition demo_header (k : string) : string :=
  if bool_decide (k = "X-Cloud-Trace-Context") then "105445aa7843bc8bf206b12000100000/1;o=1" else "".

Lemma trace_reaches_log_witness :
  ∃ h fields w1,
    InitCloudRun (W:=handler.Log) demo_getenv (λ _, mkRecorder []) (mret "none") [WithProjectID "p"] (0, []) =
      (Returned (CloudHandler h), (0, [])) ∧
    Handle 1 log_seq log_set_seq (fold_left apply_op demo_ops h)
      (Some (TraceMiddleware demo_header (mkCtx None))) "m" [] (0, []) =
      h_output (Some (TraceMiddleware demo_header (mkCtx None))) "m" fields w1 ∧
    ([], (FieldTrace, StringValue "projects/p/traces/105445aa7843bc8bf206b12000100000")) ∈ fields ∧
    ([], (FieldSpanID, StringValue "0000000000000001")) ∈ fields ∧
    ([], (FieldTraceSampled, BoolValue true)) ∈ fields.
Proof.
  apply (trace_reaches_log 1 log_seq log_set_seq demo_getenv demo_header (λ _, mkRecorder []) (mret "none")
    "p" "105445aa7843bc8bf206b12000100000" "0000000000000001" true (mkCtx None) demo_ops "m" [] (0, []) (0, []));
    try discriminate; try reflexivity.
  split; [discriminate|]. split; [apply (bool_decide_unpack _); vm_compute; exact I|]. left. exists 1.
  split; [lia|]. by vm_compute.
Defined.

End cloudrun.

Module otelgcp.
Import trace.

(** ** The resolver for OpenTelemetry *)

(** A span context: its IDs and the texts the library gives them. *)
Record SpanContext := mkSpan { sc_TraceID : Z; sc_SpanID : Z; IsSampled : bool; IsValid : bool }.

Section resolver.
Context (trace_text span_text : Z → string).

Record cache := mkCache {
  c_traceID : Z; c_spanID : Z; c_sampled : bool; c_traceContext : TraceContext
}.

(** One call: [last] is what the atomic load gave; the result, and what is stored,
    if anything. A nil context is [None]. *)
Definition resolver_call (last : option cache) (span : option SpanContext)
  : TraceContext * option cache :=
  match span with
  | None => (no_trace, None)
  | Some sc =>
      if negb (IsValid sc) then (no_trace, None)
      else
        let tc := mkTrace (trace_text (sc_TraceID sc)) (span_text (sc_SpanID sc)) (IsSampled sc) in
        let store := Some (mkCache (sc_TraceID sc) (sc_SpanID sc) (IsSampled sc) tc) in
        match last with
        | Some c =>
            if (c_traceID c =? sc_TraceID sc) && (c_spanID c =? sc_SpanID sc) &&
               bool_decide (c_sampled c = IsSampled sc)
            then (c_traceContext c, None) else (tc, store)
        | None => (tc, store)
        end
  end.

(** Concurrent calls: a load and a store are one step each; a call that is under way
    holds the span it was made with and what it loaded. *)
Record State := mkState {
  lastCache : option cache; pending : list (option SpanContext * option cache);
  answers : list (option SpanContext * TraceContext)
}.

Inductive step : State → State → Prop :=
| step_load s span :
    step s (mkState (lastCache s) ((span, lastCache s) :: pending s) (answers s))
| step_answer s before span last after :
    pending s = before ++ (span, last) :: after →
    step s (mkState (match (resolver_call last span).2 with Some c => Some c | None => lastCache s end)
              (before ++ after) ((span, (resolver_call last span).1) :: answers s)).

(** What a resolver without a cache answers. *)
Definition direct (span : option SpanContext) : TraceContext := (resolver_call None span).1.

Definition cache_ok (last : option cache) : Prop :=
  match last with
  | Some c => c_traceContext c = mkTrace (trace_text (c_traceID c)) (span_text (c_spanID c)) (c_sampled c)
  | None => True
  end.

Lemma call_ok last span :
  cache_ok last → (resolver_call last span).1 = direct span ∧ cache_ok (resolver_call last span).2.
Proof.
  unfold direct, resolver_call. intros Hl. destruct span as [sc|]; [|done].
  destruct (IsValid sc); simpl; [|done]. destruct last as [c|]; [|done].
  destruct (_ && _) eqn:E; [|done]. simpl in *. bool_to_prop. subst. split; [|done]. congruence.
Qed.

(** The cache changes no answer: whatever calls run at the same time, in any
    interleaving, each gets what a resolver without a cache would give. *)
Theorem cached_resolver_exact (s : State) :
  rtc step (mkState None [] []) s → Forall (λ a, a.2 = direct a.1) (answers s).
Proof.
  intros Hr. enough (cache_ok (lastCache s) ∧ Forall (λ p, cache_ok p.2) (pending s) ∧
    Forall (λ a, a.2 = direct a.1) (answers s)) as (_ & _ & ?) by done.
  apply (rtc_invariant step (λ s, cache_ok (lastCache s) ∧ Forall (λ p, cache_ok p.2) (pending s) ∧
    Forall (λ a, a.2 = direct a.1) (answers s)) (mkState None [] [])); [|by repeat split|done].
  intros s1 s2 (Hl & Hp & Ha) Hstep.
  destruct Hstep as [s1 span|s1 before span last after E]; simpl.
  - split; [done|]. split; [by constructor|done].
  - rewrite E in Hp. apply Forall_app in Hp as [Hb Hp]. inv_clear Hp.
    destruct (call_ok last span) as [E1 E2]; [done|]. split.
    + by destruct (resolver_call last span).2.
    + split; [by apply Forall_app|]. by constructor.
Qed.
End resolver.
End otelgcp.
