(* ===== verification/SlogTest.v ===== *)
(** * slog-gcp/sloggcptest: captured log output

    [src/go/slog-gcp/sloggcptest/sloggcptest.go]: a buffer that several loggers may
    write to, the entries that are read back from it, and the assertions on them. A
    method that holds the mutex is one step. An assertion is the message it reports,
    when it reports one; encoding/json is a parameter. *)

From S2P Require Import Prelude GoStrings GoMonad SlogGcp.
From Stdlib Require Import Ascii.

Module sloggcptest.

(** The bytes a buffer holds. *)
Definition SyncBuffer : Type := string.
Definition Write (p : string) (b : SyncBuffer) : Z * SyncBuffer := (Z.of_nat (str_len p), b +:+ p).
Definition Buffer_String (b : SyncBuffer) : string := b.
Definition Reset (b : SyncBuffer) : SyncBuffer := "".
Definition Bytes (b : SyncBuffer) : string := b.

Definition newline : ascii := ascii_of_nat 10.

(** [slog.New] around a handler without identifiers of its own, over the JSON handler
    [newJSON] that writes to the buffer with [GCPReplaceAttr]. *)
Definition NewTestLogger {W H : Type} (newJSON : (Attr → Attr) → H) (detect : go W string)
  : go W (handler.handler H) :=
  handler.NewHandler (Some (newJSON trace.GCPReplaceAttr)) None "test-project" detect [handler.WithEventID false].

Section entries.
(** The values of an object, and what [json.Unmarshal] makes of a line. *)
Context {V : Type} `{EqDecision V} (text_of : V → option string) (Unmarshal : string → option (gmap string V)).

Definition LogEntries (b : SyncBuffer) : list (gmap string V) :=
  omap (λ line, if bool_decide (line = "") then None else Unmarshal line) (split newline (trim_space b)).

Definition has_text (entries : list (gmap string V)) (key : string) (ok : string → bool) : bool :=
  existsb (λ entry, match entry !! key ≫= text_of with Some v => ok v | None => false end) entries.

Definition AssertLogContains (entries : list (gmap string V)) (key want : string) : option string :=
  if has_text entries key (λ v, bool_decide (v = want)) then None
  else Some ("no log entry with " +:+ key +:+ "=" +:+ quote want).
Definition AssertLogLevel (entries : list (gmap string V)) (want : string) : option string :=
  AssertLogContains entries "severity" want.
Definition AssertLogCount (entries : list (gmap string V)) (want : Z) : option string :=
  if bool_decide (Z.of_nat (length entries) = want) then None
  else Some ("got " +:+ itoa (Z.of_nat (length entries)) +:+ " log entries, want " +:+ itoa want).
Definition AssertLogContainsSubstring (entries : list (gmap string V)) (key want : string) : option string :=
  if has_text entries key (contains want) then None
  else Some ("no log entry with " +:+ key +:+ " containing " +:+ quote want).
(** [%v] of a value *)
Definition AssertLogField (verb : V → string) (entries : list (gmap string V)) (key : string) (want : V)
  : option string :=
  if existsb (λ entry, bool_decide (entry !! key = Some want)) entries then None
  else Some ("no log entry with " +:+ key +:+ "=" +:+ verb want).

(** ** Reading back *)

Context (Marshal : gmap string V → string).
(** The line of an object: braces around a text without newlines, that reads back. *)
Hypothesis marshal_line : ∀ e, ∃ body, Marshal e = "{" +:+ body +:+ "}" ∧ contains_byte newline (Marshal e) = false.
Hypothesis unmarshal_marshal : ∀ e, Unmarshal (Marshal e) = Some e.

(** What a logger writes: a line per entry. *)
Definition logged (entries : list (gmap string V)) : string :=
  foldr (λ e s, Marshal e +:+ String newline s) "" entries.

Ltac str_norm := repeat (rewrite str_app_assoc || rewrite str_cons_app || rewrite str_nil_app).

Lemma trim_right_end c s : is_space c = false → trim_right (s +:+ String c "") = s +:+ String c "".
Proof using Type.
  intros Hc. induction s as [|a s IH]; [by rewrite str_nil_app; simpl; rewrite Hc|].
  rewrite str_cons_app. simpl. rewrite IH. destruct s; done.
Qed.

Lemma trim_right_newline s : trim_right (s +:+ String newline "") = trim_right s.
Proof using Type. induction s as [|a s IH]; [done|]. rewrite str_cons_app. simpl. by rewrite IH. Qed.

Lemma logged_end e entries : ∃ s, logged (e :: entries) = "{" +:+ s +:+ "}" +:+ String newline "".
Proof using marshal_line.
  revert e. induction entries as [|e' entries IH]; intros e; simpl; destruct (marshal_line e) as (body & -> & _).
  - exists body. by str_norm.
  - destruct (IH e') as (s & E). simpl in E. rewrite E. exists (body +:+ "}" +:+ String newline ("{" +:+ s)).
    by str_norm.
Qed.

Lemma split_logged entries : ∀ s, logged entries = s +:+ String newline "" →
  split newline s = Marshal <$> entries.
Proof using marshal_line.
  induction entries as [|e entries IH]; intros s; simpl.
  - intros E. exfalso. by destruct s.
  - destruct (marshal_line e) as (_ & _ & Hn). destruct entries as [|e' entries].
    + simpl. intros E%str_app_inj_r. subst. by rewrite split_single.
    + intros E. destruct (logged_end e' entries) as (t & Et).
      assert (s = Marshal e +:+ String newline ("{" +:+ t +:+ "}")) as ->.
      { apply (str_app_inj_r s _ (String newline "")). rewrite <- E, Et. by str_norm. }
      rewrite split_app_sep, fmap_cons by done. f_equal. apply IH. rewrite Et. by str_norm.
Qed.

Lemma has_text_spec entries key ok :
  has_text entries key ok = true ↔
  ∃ e v t, e ∈ entries ∧ e !! key = Some v ∧ text_of v = Some t ∧ ok t = true.
Proof using Type.
  unfold has_text. rewrite existsb_exists. split.
  - intros (e & He%list_elem_of_In & Hv). destruct (e !! key) as [v|] eqn:Ek; [|done]. simpl in Hv.
    destruct (text_of v) as [t|] eqn:Et; [|done]. by exists e, v, t.
  - intros (e & v & t & He & Hk & Ht & Ho). exists e. split; [by apply list_elem_of_In|]. rewrite Hk. simpl. by rewrite Ht.
Qed.

(** What was logged is what is read back: after any writes of entries to a fresh or
    reset buffer, LogEntries gives exactly these, in order; so an assertion passes
    exactly when one of them has the field. *)
Theorem log_entries_exact (old : SyncBuffer) (entries : list (gmap string V)) :
  let b := fold_left (λ b e, (Write (Marshal e +:+ String newline "") b).2) entries (Reset old) in
  LogEntries b = entries ∧ AssertLogCount (LogEntries b) (Z.of_nat (length entries)) = None ∧
  (∀ key want, AssertLogContains (LogEntries b) key want = None ↔
     ∃ e v, e ∈ entries ∧ e !! key = Some v ∧ text_of v = Some want) ∧
  (∀ verb key want, AssertLogField verb (LogEntries b) key want = None ↔
     ∃ e, e ∈ entries ∧ e !! key = Some want).
Proof using marshal_line unmarshal_marshal.
  intros b.
  assert (b = logged entries) as ->.
  { subst b. unfold Reset. assert (∀ acc, fold_left (λ b e, (Write (Marshal e +:+ String newline "") b).2) entries acc
      = acc +:+ logged entries) as H; [|by rewrite H].
    induction entries as [|e entries IH]; intros acc; simpl; [by rewrite str_app_nil_r|].
    rewrite IH, !str_app_assoc. done. }
  assert (LogEntries (logged entries) = entries) as ->.
  { unfold LogEntries. destruct entries as [|e entries]; [done|]. destruct (logged_end e entries) as (s & E).
    assert (trim_space (logged (e :: entries)) = "{" +:+ s +:+ "}") as ->.
    { rewrite E. unfold trim_space. change (trim_left ("{" +:+ s +:+ "}" +:+ String newline "")) with
        ("{" +:+ s +:+ "}" +:+ String newline "").
      rewrite <- !str_app_assoc, trim_right_newline, !str_app_assoc.
      change ("{" +:+ s +:+ "}") with (String "{" s +:+ String "}" ""). by rewrite trim_right_end. }
    rewrite (split_logged (e :: entries)) by (rewrite E, !str_app_assoc; done).
    generalize (e :: entries). intros l. induction l as [|x l IH]; [done|]. csimpl.
    destruct (marshal_line x) as (body & Ex & _). rewrite bool_decide_eq_false_2 by (by rewrite Ex).
    by rewrite unmarshal_marshal, IH. }
  split; [done|]. split; [unfold AssertLogCount; by rewrite bool_decide_eq_true_2|]. split.
  - intros key want. unfold AssertLogContains.
    pose proof (has_text_spec entries key (λ v, bool_decide (v = want))) as Hs.
    destruct (has_text entries key _).
    + split; [intros _|done]. destruct (proj1 Hs eq_refl) as (e & v & t & He & Hk & Ht & ->%bool_decide_eq_true). by exists e, v.
    + split; [done|]. intros (e & v & He & Hk & Ht). assert (false = true); [|done]. apply Hs.
      exists e, v, want. by rewrite bool_decide_eq_true_2.
  - intros verb key want. unfold AssertLogField. destruct (existsb _ entries) eqn:Ex.
    + split; [intros _|done]. apply existsb_exists in Ex as (e & He%list_elem_of_In & Hv%bool_decide_eq_true). by exists e.
    + split; [done|]. intros (e & He & Hk). apply not_true_iff_false in Ex. destruct Ex. apply existsb_exists.
      exists e. split; [by apply list_elem_of_In|by apply bool_decide_eq_true].
Qed.
End entries.

(** ** Witness *)

(** An encoding with the two properties: the number of an object, in braces. *)
Definition Marshal0 (e : gmap string string) : string := "{" +:+ itoa (Zpos (encode e)) +:+ "}".
Definition Unmarshal0 (s : string) : option (gmap string string) :=
  let '(d, _, _) := cut "}" (str_drop 1 s) in
  match digits d with Some (Zpos p) => decode p | _ => None end.

Lemma marshal0_line e : ∃ body, Marshal0 e = "{" +:+ body +:+ "}" ∧ contains_byte newline (Marshal0 e) = false.
Proof.
  eexists. split; [reflexivity|]. unfold Marshal0.
  by rewrite !contains_byte_app, itoa_no_byte.
Qed.

Lemma unmarshal0_marshal0 e : Unmarshal0 (Marshal0 e) = Some e.
Proof.
  unfold Unmarshal0, Marshal0. change (str_drop 1 ("{" +:+ itoa (Zpos (encode e)) +:+ "}")) with
    (itoa (Zpos (encode e)) +:+ String "}" "").
  rewrite cut_app by (by apply itoa_no_byte). by rewrite digits_itoa, decode_encode.
Qed.

Lemma log_entries_exact_witness :
  let e : gmap string string := {["severity" := "INFO"]} in
  AssertLogContains Some (LogEntries Unmarshal0 (Write (Marshal0 e +:+ String newline "") "").2) "severity" "INFO" = None.
Proof.
  intros e. destruct (log_entries_exact Some Unmarshal0 Marshal0 marshal0_line unmarshal0_marshal0 "old" [e])
    as (_ & _ & H & _). refine (proj2 (H "severity" "INFO") _). exists e, "INFO". split; [by left|]. by split.
Defined.

End sloggcptest.
