(* ===== verification/SheetsCells.v ===== *)
(** * google/workspace/sheets: cells, tables and themes

    Models [types.go], [table.go] and [theme.go] of
    [src/go/google/workspace/sheets]. A Go value of type [any] is a [value], by
    the cases the code tells apart; what [fmt] and [time] make of floats and
    instants is the class [Formats]. What reflection tells of a type is a
    [gotype], of a field's value an [rvalue]. A nil map of columns is an empty
    one: the code tests for nil before it writes. *)

From S2P Require Import Prelude GoStrings GoFloat GoErr.
From Stdlib Require Import Ascii.

Module cells.

Definition DefaultSheetTitle : string := "Sheet1".
Definition colorMax : float64 := of_int 255.
Definition hexLen : nat := 6.

Definition ErrNilType : error :=
  ENew "sheets.ErrNilType" "sheets: nil type passed to FromStructs".
Definition ErrInvalidStructSlice : error :=
  ENew "sheets.ErrInvalidStructSlice"
    "sheets: FromStructs expects a slice of structs or struct pointers".

(** ** Values and cells *)

Inductive int_type := Int | Int8 | Int16 | Int32 | Int64.
Inductive uint_type := Uint | Uint8 | Uint16 | Uint32 | Uint64.
Inductive float_type := Float32 | Float64.

(** The dynamic value of an [any]. [VStringer str shown] is a value of another
    type with a [String] method, which answers [str]; [VOther shown] one of a type
    without. [shown] is its text under [fmt.Sprint]. *)
Inductive value :=
| VNil
| VInt (t : int_type) (z : Z)
| VUint (t : uint_type) (z : Z)
| VFloat (t : float_type) (f : float64)
| VBool (b : bool)
| VString (s : string)
| VTime (t : Z)
| VCell (c : Cell)
| VStringer (str shown : string)
| VOther (shown : string)
with Cell := mkCell (raw : value) (formula : bool) (url : string).

Definition RawVal (c : Cell) : value := let 'mkCell v _ _ := c in v.
Definition IsFormula (c : Cell) : bool := let 'mkCell _ f _ := c in f.
Definition LinkURL (c : Cell) : string := let 'mkCell _ _ u := c in u.

(** What [fmt.Sprint] writes for a float, [time.Time.Format] for a layout, and
    [time.Time.String]. *)
Class Formats := {
  float_text : float_type → float64 → string;
  time_format : Z → string → string;
  time_text : Z → string
}.

Definition RFC3339 : string := "2006-01-02T15:04:05Z07:00".

Section with_formats.
Context {F : Formats}.

(** [fmt.Sprint] of one operand. *)
Fixpoint Sprint (v : value) : string :=
  match v with
  | VNil => "<nil>"
  | VInt _ z | VUint _ z => itoa z
  | VFloat t f => float_text t f
  | VBool b => bool_text b
  | VString s => s
  | VTime t => time_text t
  | VCell (mkCell v f u) => "{" +:+ Sprint v +:+ " " +:+ bool_text f +:+ " " +:+ u +:+ "}"
  | VStringer _ shown | VOther shown => shown
  end.

Definition Text (v : value) : Cell :=
  match v with
  | VNil => mkCell (VString "") false ""
  | _ => mkCell (VString (Sprint v)) false ""
  end.

Definition Formula (f : string) : Cell := mkCell (VString f) true "".

Definition Hyperlink (url label : string) : Cell :=
  let label := if bool_decide (label = "") then url else label in
  mkCell (VString label) false url.

Definition Number (v : value) : Cell := mkCell v false "".
Definition Bool (b : bool) : Cell := mkCell (VBool b) false "".

Definition Time (t : Z) (layout : list string) : Cell :=
  let l := match layout with
           | l0 :: _ => if bool_decide (l0 = "") then RFC3339 else l0
           | [] => RFC3339
           end in
  mkCell (VString (time_format t l)) false "".

Definition numericToCell (val : value) : Cell * bool :=
  match val with
  | VInt _ z => (Number (VInt Int64 z), true)
  | VUint _ z => (Number (VUint Uint64 z), true)
  | VFloat _ f => (Number (VFloat Float64 f), true)
  | _ => (mkCell VNil false "", false)
  end.

Definition valueToCell (val : value) (forceFormula : bool) : Cell :=
  match val with
  | VNil => mkCell (VString "") false ""
  | VCell c => c
  | _ =>
      if forceFormula then Formula (Sprint val)
      else
        let '(numCell, ok) := numericToCell val in
        if ok then numCell
        else match val with
        | VString s => Text (VString s)
        | VBool b => Bool b
        | VTime t => Time t []
        | VStringer str _ => Text (VString str)
        | _ => Text (VString (Sprint val))
        end
  end.

(** A [reflect.Value]: invalid, a nil pointer or interface, one that refers to a
    value, or a value of another kind. *)
Inductive rvalue := RInvalid | RNil | RRef (v : rvalue) | RVal (v : value).

Fixpoint fieldValueToCell (v : rvalue) (forceFormula : bool) : Cell :=
  match v with
  | RInvalid | RNil => mkCell (VString "") false ""
  | RRef v' => fieldValueToCell v' forceFormula
  | RVal val => valueToCell val forceFormula
  end.

(** ** Tables *)

Record ColumnConstraint := mkConstraint { Width : Z; MinWidth : Z; MaxWidth : Z }.
Definition no_constraint : ColumnConstraint := mkConstraint 0 0 0.

Record Table := mkTable {
  Headers : list string;
  Rows : list (list Cell);
  ColumnWidths : gmap Z Z;
  ColumnConstraints : gmap Z ColumnConstraint
}.

Definition NewTable (headers : list string) : Table := mkTable headers [] ∅ ∅.

Definition AddRow (t : Table) (cells : list Cell) : Table :=
  mkTable (Headers t) (Rows t ++ [cells]) (ColumnWidths t) (ColumnConstraints t).

Definition AddRowValues (t : Table) (vals : list value) : Table :=
  AddRow t (map (λ v, valueToCell v false) vals).

(** An entry of a map that may be missing. *)
Definition constraint_at (m : gmap Z ColumnConstraint) (colIdx : Z) : ColumnConstraint :=
  default no_constraint (m !! colIdx).

Definition SetColumnWidth (t : Table) (colIdx pixelSize : Z) : Table :=
  let c := constraint_at (ColumnConstraints t) colIdx in
  mkTable (Headers t) (Rows t) (<[colIdx:=pixelSize]> (ColumnWidths t))
    (<[colIdx:=mkConstraint pixelSize (MinWidth c) (MaxWidth c)]> (ColumnConstraints t)).

Definition SetColumnBounds (t : Table) (colIdx minWidth maxWidth : Z) : Table :=
  let c := constraint_at (ColumnConstraints t) colIdx in
  let c := if 0 <? minWidth then mkConstraint (Width c) minWidth (MaxWidth c) else c in
  let c := if 0 <? maxWidth then mkConstraint (Width c) (MinWidth c) maxWidth else c in
  mkTable (Headers t) (Rows t) (ColumnWidths t) (<[colIdx:=c]> (ColumnConstraints t)).

(** [strings.EqualFold] *)
Definition EqualFold (s t : string) : bool := bool_decide (to_lower s = to_lower t).

(** The loop over the headers: the first that matches, from index [i] on. *)
Fixpoint header_index (header : string) (i : Z) (headers : list string) : option Z :=
  match headers with
  | [] => None
  | h :: headers' => if EqualFold h header then Some i else header_index header (i + 1) headers'
  end.

Definition SetColumnWidthByName (t : Table) (header : string) (pixelSize : Z) : Table :=
  match header_index header 0 (Headers t) with
  | Some i => SetColumnWidth t i pixelSize
  | None => t
  end.

Definition SetColumnBoundsByName (t : Table) (header : string) (minWidth maxWidth : Z) : Table :=
  match header_index header 0 (Headers t) with
  | Some i => SetColumnBounds t i minWidth maxWidth
  | None => t
  end.

Definition SetColumnMaxWidthByName (t : Table) (header : string) (maxWidth : Z) : Table :=
  SetColumnBoundsByName t header 0 maxWidth.
Definition SetColumnMinWidthByName (t : Table) (header : string) (minWidth : Z) : Table :=
  SetColumnBoundsByName t header minWidth 0.

Definition RowCount (t : Table) : nat := length (Rows t).

Definition ColCount (t : Table) : nat :=
  fold_left (λ maxCols r, if (maxCols <? length r)%nat then length r else maxCols)
    (Rows t) (length (Headers t)).

(** ** Tables from structs *)

Record structFieldSpec := mkFieldSpec {
  fieldIndex : nat; header : string; width : Z; minWidth : Z; maxWidth : Z; isFormula : bool
}.

(** [strings.CutPrefix] *)
Definition CutPrefix (s p : string) : option string :=
  if has_prefix p s then Some (str_drop (str_len p) s) else None.

Fixpoint cutAnyPrefix (s : string) (prefixes : list string) : option string :=
  match prefixes with
  | [] => None
  | p :: ps => match CutPrefix s p with Some rest => Some rest | None => cutAnyPrefix s ps end
  end.

Definition parseTagOption (spec : structFieldSpec) (opt : string) : structFieldSpec :=
  let 'mkFieldSpec i h w mn mx f := spec in
  if bool_decide (opt = "formula") then mkFieldSpec i h w mn mx true
  else match cutAnyPrefix opt ["width="] with
  | Some rest => match atoi rest with Some w' => mkFieldSpec i h w' mn mx f | None => spec end
  | None =>
      match cutAnyPrefix opt ["maxWidth="; "max="] with
      | Some rest => match atoi rest with Some w' => mkFieldSpec i h w mn w' f | None => spec end
      | None =>
          match cutAnyPrefix opt ["minWidth="; "min="] with
          | Some rest => match atoi rest with Some w' => mkFieldSpec i h w w' mx f | None => spec end
          | None => spec
          end
      end
  end.

Definition parseFieldTag (fieldIndex : nat) (defaultName tag : string) : structFieldSpec :=
  let spec := mkFieldSpec fieldIndex defaultName 0 0 0 false in
  if bool_decide (tag = "") then spec
  else match split ","%char tag with
  | [] => spec
  | p0 :: opts =>
      let spec := if bool_decide (p0 = "") then spec
                  else mkFieldSpec fieldIndex (trim_space p0) 0 0 0 false in
      fold_left (λ spec opt, parseTagOption spec (trim_space opt)) opts spec
  end.

(** [reflect.StructField]: its name, whether it is exported, its [sheets] tag. *)
Record StructField := mkField { Name : string; IsExported : bool; Tag : string }.

(** [reflect.Type]: nil, a struct with its fields, a pointer, another kind. *)
Inductive gotype :=
| NilType | TStruct (fields : list StructField) | TPointer (t : gotype) | TKind (kind : string).

Definition kind_of (t : gotype) : string :=
  match t with
  | NilType => "invalid" | TStruct _ => "struct" | TPointer _ => "ptr" | TKind k => k
  end.

Fixpoint parse_fields (i : nat) (fields : list StructField) : list structFieldSpec :=
  match fields with
  | [] => []
  | field :: fields' =>
      if negb (IsExported field) then parse_fields (S i) fields'
      else if bool_decide (Tag field = "-") then parse_fields (S i) fields'
      else parseFieldTag i (Name field) (Tag field) :: parse_fields (S i) fields'
  end.

Definition parseStructFields (fields : list StructField) : list structFieldSpec :=
  parse_fields 0 fields.

(** A turn of the loop over the specs: the maps of widths and constraints. *)
Definition size_step (m : gmap Z Z * gmap Z ColumnConstraint) (ispec : nat * structFieldSpec)
  : gmap Z Z * gmap Z ColumnConstraint :=
  let '(i, spec) := ispec in
  let c := mkConstraint (width spec) (minWidth spec) (maxWidth spec) in
  let constraints := if (0 <? Width c) || (0 <? MinWidth c) || (0 <? MaxWidth c)
                     then <[Z.of_nat i:=c]> m.2 else m.2 in
  let widths := if 0 <? width spec then <[Z.of_nat i:=width spec]> m.1 else m.1 in
  (widths, constraints).

(** An item of the slice: a struct with the values of all its fields, or a
    pointer to one, which may be nil. *)
Inductive item := IStruct (vals : list rvalue) | INil | IPtr (vals : list rvalue).

Definition struct_row (specs : list structFieldSpec) (vals : list rvalue) : list Cell :=
  map (λ spec, fieldValueToCell (default RInvalid (vals !! fieldIndex spec)) (isFormula spec)) specs.

Definition add_item (specs : list structFieldSpec) (tbl : Table) (it : item) : Table :=
  match it with
  | INil => tbl
  | IStruct vals | IPtr vals => AddRow tbl (struct_row specs vals)
  end.

(** [T] is the type of the items. *)
Definition FromStructs (T : gotype) (items : list item) : error + Table :=
  match T with
  | NilType => inl ErrNilType
  | _ =>
      let tType := match T with TPointer t => t | _ => T end in
      match tType with
      | TStruct fields =>
          let specs := parseStructFields fields in
          let '(widths, constraints) := fold_left size_step (imap pair specs) (∅, ∅) in
          let tbl := mkTable (map header specs) [] widths constraints in
          inr (fold_left (add_item specs) items tbl)
      | t => inl (EFmt (PWrap ErrInvalidStructSlice (PText (": got " +:+ kind_of t) PNil)))
      end
  end.

End with_formats.

(** ** Colours and themes *)

Record Color := mkColor { Red : float64; Green : float64; Blue : float64; Alpha : float64 }.

Definition one64 : float64 := of_int 1.

Definition RGBA (r g b : Z) (alpha : float64) : Color :=
  mkColor (fdiv (of_int r) colorMax) (fdiv (of_int g) colorMax) (fdiv (of_int b) colorMax) alpha.

Definition RGB (r g b : Z) : Color :=
  mkColor (fdiv (of_int r) colorMax) (fdiv (of_int g) colorMax) (fdiv (of_int b) colorMax) one64.

Definition hex_digit (c : ascii) : option Z :=
  let n := Z.of_nat (nat_of_ascii c) in
  if (48 <=? n) && (n <=? 57) then Some (n - 48)
  else if (65 <=? n) && (n <=? 70) then Some (n - 55)
  else if (97 <=? n) && (n <=? 102) then Some (n - 87)
  else None.

(** The spaces [fmt] skips before a verb; a line break is an error. *)
Fixpoint skip_space (s : string) : option string :=
  match s with
  | String c s' =>
      if bool_decide (c = ascii_of_nat 10) then None
      else if is_space c then skip_space s' else Some s
  | EmptyString => Some EmptyString
  end.

(** One [%02x] of [fmt.Sscanf] into a byte: one or two hexadecimal digits. *)
Definition scan_hex2 (s : string) : option (Z * string) :=
  match skip_space s with
  | Some (String a s1) =>
      match hex_digit a with
      | Some x =>
          match s1 with
          | String b s2 =>
              match hex_digit b with
              | Some y => Some (16 * x + y, s2)
              | None => Some (x, s1)
              end
          | EmptyString => Some (x, s1)
          end
      | None => None
      end
  | _ => None
  end.

(** [n] verbs in a row; what follows the first failure stays zero. *)
Fixpoint scan_hexes (n : nat) (s : string) : list Z :=
  match n with
  | O => []
  | S n' =>
      match scan_hex2 s with
      | Some (z, s') => z :: scan_hexes n' s'
      | None => 0 :: repeat 0 n'
      end
  end.

Definition Hex (h : string) : Color :=
  let h := match h with
           | String c h' => if bool_decide (c = "#"%char) then h' else h
           | EmptyString => h
           end in
  if negb (str_len h =? hexLen)%nat then mkColor zero64 zero64 zero64 one64
  else match scan_hexes 3 h with
  | [r; g; b] => RGB r g b
  | _ => RGB 0 0 0
  end.

Record Theme := mkTheme {
  HeaderBackground : Color; HeaderForeground : Color; HeaderBold : bool;
  EnableBanding : bool; ZebraFirstBand : Color; ZebraSecondBand : Color;
  AutoFitColumns : bool; MinColumnWidth : Z; MaxColumnWidth : Z;
  theme_ColumnWidths : gmap Z Z
}.

Definition no_color : Color := mkColor zero64 zero64 zero64 zero64.

Definition ThemeCorporateNavy : Theme :=
  mkTheme (Hex "#1C4E78") (Hex "#FFFFFF") true true (Hex "#FFFFFF") (Hex "#F0F4F8") true 0 0 ∅.
Definition ThemeCorporateNavyPlain : Theme :=
  mkTheme (Hex "#1C4E78") (Hex "#FFFFFF") true false no_color no_color true 0 0 ∅.
Definition ThemeModernSlate : Theme :=
  mkTheme (Hex "#334155") (Hex "#FFFFFF") true true (Hex "#FFFFFF") (Hex "#F8FAFC") true 0 0 ∅.
Definition ThemeEmeraldForest : Theme :=
  mkTheme (Hex "#065F46") (Hex "#FFFFFF") true true (Hex "#FFFFFF") (Hex "#F0FDF4") true 0 0 ∅.
Definition ThemeCleanMinimal : Theme :=
  mkTheme (Hex "#E2E8F0") (Hex "#0F172A") true false no_color no_color true 0 0 ∅.

(** ** Specifications of tabs and documents, and results *)

Record TabSpec := mkTabSpec {
  tab_Title : string; GID : Z; CreateIfMissing : bool; SkipFormatting : bool;
  FrozenRows : Z; FrozenCols : Z; tab_Theme : option Theme; Data : option Table
}.

Record DocumentSpec := mkDocumentSpec {
  doc_Title : string; Locale : string; FolderID : string; Tabs : list TabSpec; PruneTabs : bool
}.

Record TabResult := mkTabResult {
  SheetID : Z; res_Title : string; res_RowCount : Z; res_ColumnCount : Z; RowsWritten : Z
}.

Record DocumentResult := mkDocumentResult {
  SpreadsheetID : string; SpreadsheetURL : string; docres_Title : string;
  docres_Tabs : list TabResult
}.

(** ** Specification *)

(** The types a cell is sent with. *)
Definition sent_type (v : value) : Prop :=
  match v with
  | VString _ | VInt Int64 _ | VUint Uint64 _ | VFloat Float64 _ | VBool _ => True
  | _ => False
  end.

Section meaning.
Context {F : Formats}.

(** The value that a cell shows of a field: integers and floats at 64 bits,
    times as RFC 3339, a value with a String method by that. *)
Inductive shown : value → value → Prop :=
| shown_int t z : shown (VInt t z) (VInt Int64 z)
| shown_uint t z : shown (VUint t z) (VUint Uint64 z)
| shown_float t f : shown (VFloat t f) (VFloat Float64 f)
| shown_string s : shown (VString s) (VString s)
| shown_bool b : shown (VBool b) (VBool b)
| shown_time t : shown (VTime t) (VString (time_format t RFC3339))
| shown_stringer str text : shown (VStringer str text) (VString str)
| shown_other text : shown (VOther text) (VString text).

(** The text of a value that is taken for a formula. *)
Inductive printed : value → string → Prop :=
| printed_int t z : printed (VInt t z) (itoa z)
| printed_uint t z : printed (VUint t z) (itoa z)
| printed_float t f : printed (VFloat t f) (float_text t f)
| printed_string s : printed (VString s) s
| printed_true : printed (VBool true) "true"
| printed_false : printed (VBool false) "false"
| printed_time t : printed (VTime t) (time_text t)
| printed_stringer str text : printed (VStringer str text) text
| printed_other text : printed (VOther text) text.

(** The value that a field holds, through pointers and interfaces. *)
Fixpoint target (v : rvalue) : option value :=
  match v with RInvalid | RNil => None | RRef v' => target v' | RVal w => Some w end.

(** The cell of a field: empty when its value is missing, the cell itself when it
    holds one, and otherwise the value, without a link, and as the text of a
    formula when that was asked for. *)
Definition cell_for (formula : bool) (v : rvalue) (c : Cell) : Prop :=
  match target v with
  | None | Some VNil => c = mkCell (VString "") false ""
  | Some (VCell c') => c = c'
  | Some w =>
      LinkURL c = "" ∧ IsFormula c = formula ∧
      if formula then ∃ t, printed w t ∧ RawVal c = VString t else shown w (RawVal c)
  end.

End meaning.

(** What a tag says, read from its text: the name before the first comma, and the
    options, without white space around them. *)
Fixpoint before_comma (s : string) : string :=
  match s with
  | EmptyString => ""
  | String a s' => if bool_decide (a = ","%char) then "" else String a (before_comma s')
  end.
Definition tag_options (f : StructField) : list string := trim_space <$> tail (split ","%char (Tag f)).

Definition column_name (f : StructField) : string :=
  let n := before_comma (Tag f) in
  if bool_decide (n = "") then Name f else trim_space n.
Definition asks_formula (f : StructField) : bool := bool_decide ("formula" ∈ tag_options f).

(** The number of the last option that has one of the keys, or 0. *)
Definition numbered (keys : list string) (o : string) : option Z := cutAnyPrefix o keys ≫= atoi.
Definition asked (keys : list string) (f : StructField) : Z :=
  default 0 (last (omap (numbered keys) (tag_options f))).

(** The fields that have a column, with their index. *)
Definition columns (fields : list StructField) : list (nat * StructField) :=
  filter (λ x, IsExported x.2 = true ∧ Tag x.2 ≠ "-") (imap pair fields).

Definition item_values (it : item) : option (list rvalue) :=
  match it with IStruct vals | IPtr vals => Some vals | INil => None end.

(** The struct type that a slice's item type is, or points to. *)
Definition struct_fields (T : gotype) : option (list StructField) :=
  match T with TStruct fs | TPointer (TStruct fs) => Some fs | _ => None end.

(** ** Lemmas *)

Section facts.
Context {F : Formats}.

#[local] Hint Constructors shown printed : core.

Lemma field_cell v f : cell_for f v (fieldValueToCell v f).
Proof.
  unfold cell_for. induction v as [| |v IH|v]; simpl; [done..|exact IH|].
  destruct v as [| | | |b| | | | |], f; try destruct b; simpl; first [done|repeat apply conj; eauto].
Qed.

Lemma add_items_rows specs items t :
  fold_left (add_item specs) items t =
  mkTable (Headers t) (Rows t ++ map (struct_row specs) (omap item_values items))
    (ColumnWidths t) (ColumnConstraints t).
Proof.
  revert t. induction items as [|it items IH]; intros t.
  { destruct t; simpl. by rewrite app_nil_r. }
  simpl fold_left. rewrite IH. destruct it; simpl; try done; by rewrite <- app_assoc.
Qed.

(** The width and the constraint that the column of a spec gets. *)
Definition own_width (spec : structFieldSpec) : option Z :=
  if 0 <? width spec then Some (width spec) else None.
Definition own_constraint (spec : structFieldSpec) : option ColumnConstraint :=
  if (0 <? width spec) || (0 <? minWidth spec) || (0 <? maxWidth spec)
  then Some (mkConstraint (width spec) (minWidth spec) (maxWidth spec)) else None.

Definition column {A} (i : Z) (l : list A) : option A := if 0 <=? i then l !! Z.to_nat i else None.

Lemma size_step_lookup m k s i :
  (size_step m (k, s)).1 !! i = (if i =? Z.of_nat k then own_width s else None) ∪ (m.1 !! i) ∧
  (size_step m (k, s)).2 !! i = (if i =? Z.of_nat k then own_constraint s else None) ∪ (m.2 !! i).
Proof.
  unfold size_step, own_width, own_constraint. simpl.
  split; case_match; destruct (Z.eqb_spec i (Z.of_nat k)) as [->|Hi];
    rewrite ?lookup_insert_eq, ?lookup_insert_ne, ?(left_id_L None _) by congruence; try done;
    by destruct (_ !! _).
Qed.

Lemma sizes_lookup specs k m i :
  let r := fold_left size_step (imap (λ j s, ((k + j)%nat, s)) specs) m in
  r.1 !! i = (column (i - Z.of_nat k) specs ≫= own_width) ∪ (m.1 !! i) ∧
  r.2 !! i = (column (i - Z.of_nat k) specs ≫= own_constraint) ∪ (m.2 !! i).
Proof.
  revert k m. induction specs as [|s specs IH]; intros k m; cbn zeta.
  { simpl. unfold column. case_match; by destruct (m.1 !! i), (m.2 !! i). }
  rewrite imap_cons, Nat.add_0_r. cbn [fold_left].
  rewrite (imap_ext _ (λ j s, ((S k + j)%nat, s))) by (intros; simpl; by rewrite <- plus_n_Sm).
  destruct (IH (S k) (size_step m (k, s))) as [-> ->].
  destruct (size_step_lookup m k s i) as [-> ->].
  unfold column. destruct (Z.eqb_spec i (Z.of_nat k)) as [->|Hi].
  - rewrite Z.sub_diag. rewrite (proj2 (Z.leb_gt _ _)) by lia. simpl.
    by destruct (own_width s), (own_constraint s), (m.1 !! _), (m.2 !! _).
  - destruct (Z.leb_spec 0 (i - Z.of_nat (S k))).
    + rewrite (proj2 (Z.leb_le 0 (i - Z.of_nat k))) by lia.
      replace (Z.to_nat (i - Z.of_nat k)) with (S (Z.to_nat (i - Z.of_nat (S k)))) by lia.
      simpl. split; by rewrite (left_id_L None _).
    + rewrite (proj2 (Z.leb_gt 0 (i - Z.of_nat k))) by lia. simpl.
      split; by rewrite !(left_id_L None _).
Qed.

Lemma fieldIndex_tag i name tag : fieldIndex (parseFieldTag i name tag) = i.
Proof.
  unfold parseFieldTag. case_bool_decide; [done|]. destruct (split "," tag) as [|p opts]; [done|].
  apply (fold_left_ind (λ _ s, fieldIndex s = i)); [by case_bool_decide|].
  intros _ o [] Hi. unfold parseTagOption. repeat case_match; exact Hi.
Qed.

Lemma before_comma_split s : head (split ","%char s) = Some (before_comma s).
Proof.
  induction s as [|a s IH]; [done|]. cbn [before_comma split]. case_bool_decide; [done|].
  destruct (split ","%char s); [done|]. simpl in *. congruence.
Qed.

Lemma cut_some o p rest : CutPrefix o p = Some rest → o = p +:+ rest.
Proof.
  unfold CutPrefix. destruct (has_prefix p o) eqn:E; [|done].
  apply has_prefix_spec in E as [b ->]. rewrite str_drop_app. congruence.
Qed.

Lemma cut_any_some o ps rest : cutAnyPrefix o ps = Some rest → ∃ p, p ∈ ps ∧ o = p +:+ rest.
Proof.
  induction ps as [|p ps IH]; [done|]. cbn [cutAnyPrefix]. destruct (CutPrefix o p) eqn:E.
  - intros [= ->]. exists p. split; [set_solver|by apply cut_some].
  - intros (q & Hq & ->)%IH. exists q. split; [set_solver|done].
Qed.

(** An option sets the size whose key it has, and nothing else. *)
Lemma parse_option i h w mn mx f o :
  parseTagOption (mkFieldSpec i h w mn mx f) o =
  mkFieldSpec i h (default w (numbered ["width="] o)) (default mn (numbered ["minWidth="; "min="] o))
    (default mx (numbered ["maxWidth="; "max="] o)) (f || bool_decide (o = "formula")).
Proof.
  unfold parseTagOption, numbered. case_bool_decide as Ho; [subst o; by rewrite orb_true_r|]. rewrite orb_false_r.
  destruct (cutAnyPrefix o ["width="]) as [r|] eqn:E1.
  { apply cut_any_some in E1 as (p & ->%list_elem_of_singleton & ->). simpl. by destruct (atoi r). }
  destruct (cutAnyPrefix o ["maxWidth="; "max="]) as [r|] eqn:E2.
  { apply cut_any_some in E2 as (p & [->| ->%list_elem_of_singleton]%elem_of_cons & ->); simpl; by destruct (atoi r). }
  destruct (cutAnyPrefix o ["minWidth="; "min="]) as [r|]; simpl; [by destruct (atoi r)|done].
Qed.

Lemma parse_options_all opts i h w mn mx f :
  fold_left (λ spec opt, parseTagOption spec (trim_space opt)) opts (mkFieldSpec i h w mn mx f) =
  let os := trim_space <$> opts in
  mkFieldSpec i h (default w (last (omap (numbered ["width="]) os)))
    (default mn (last (omap (numbered ["minWidth="; "min="]) os)))
    (default mx (last (omap (numbered ["maxWidth="; "max="]) os))) (f || bool_decide ("formula" ∈ os)).
Proof.
  revert w mn mx f. induction opts as [|o opts IH]; intros w mn mx f.
  { simpl. by rewrite orb_false_r. }
  cbn [fold_left]. rewrite parse_option, IH. cbn zeta. rewrite fmap_cons. cbn [omap list_omap].
  set (o' := trim_space o). set (os := trim_space <$> opts).
  assert (∀ (g : string → option Z) (d : Z), default (default d (g o')) (last (omap g os)) =
    default d (last (match g o' with Some y => y :: omap g os | None => omap g os end))) as Hl.
  { intros g d. destruct (g o') as [z|]; [|done]. rewrite last_cons. by destruct (last (omap g os)). }
  rewrite !Hl. f_equal. rewrite <- orb_assoc. f_equal.
  rewrite <- bool_decide_or. apply bool_decide_ext. rewrite elem_of_cons. split; intros [?|?]; auto.
Qed.

(** What a tag means. *)
Lemma parse_tag i f :
  parseFieldTag i (Name f) (Tag f) =
  mkFieldSpec i (column_name f) (asked ["width="] f) (asked ["minWidth="; "min="] f)
    (asked ["maxWidth="; "max="] f) (asks_formula f).
Proof.
  unfold parseFieldTag, column_name, asked, asks_formula, tag_options. pose proof (before_comma_split (Tag f)) as Hb.
  case_bool_decide as Ht; [by rewrite Ht|]. destruct (split ","%char (Tag f)) as [|p opts]; [done|].
  simpl in Hb. injection Hb as <-. cbn [tail].
  case_bool_decide; by rewrite parse_options_all.
Qed.

Lemma parse_fields_columns k fields :
  parse_fields k fields = (λ x, parseFieldTag x.1 (Name x.2) (Tag x.2)) <$>
    filter (λ x, IsExported x.2 = true ∧ Tag x.2 ≠ "-") (imap (λ j f, ((k + j)%nat, f)) fields).
Proof.
  revert k. induction fields as [|f fields IH]; intros k; [done|]. cbn [parse_fields].
  rewrite imap_cons, IH, Nat.add_0_r.
  rewrite (imap_ext (_ ∘ S) (λ j f, ((S k + j)%nat, f))) by (intros; simpl; by rewrite <- plus_n_Sm).
  rewrite filter_cons. destruct (decide _) as [[He Ht]|Hn]; cbn [fst snd] in *.
  - by rewrite He, bool_decide_eq_false_2.
  - destruct (IsExported f); [|done]. simpl. case_bool_decide; [done|]. by destruct Hn.
Qed.

Lemma columns_elem fields k j f :
  columns fields !! k = Some (j, f) → fields !! j = Some f.
Proof.
  intros H%list_elem_of_lookup_2. unfold columns in H. apply list_elem_of_filter in H as [_ H].
  apply elem_of_lookup_imap in H as (i & g & [= -> ->] & H). done.
Qed.

Lemma specs_columns fields :
  parseStructFields fields =
  (λ x, mkFieldSpec x.1 (column_name x.2) (asked ["width="] x.2) (asked ["minWidth="; "min="] x.2)
    (asked ["maxWidth="; "max="] x.2) (asks_formula x.2)) <$> columns fields.
Proof.
  unfold parseStructFields. rewrite parse_fields_columns. apply list_fmap_ext. intros _ [j f] _. apply parse_tag.
Qed.


(** The tag that states a spec in full. *)
Definition render_tag (s : structFieldSpec) : string :=
  header s +:+ ",width=" +:+ itoa (width s) +:+ ",minWidth=" +:+ itoa (minWidth s) +:+
  ",max=" +:+ itoa (maxWidth s) +:+ (if isFormula s then ",formula" else "").

Lemma cut_prefix_app p s : CutPrefix (p +:+ s) p = Some s.
Proof. unfold CutPrefix. by rewrite has_prefix_app, str_drop_app. Qed.

(** An option of the form [key=number]. *)
Lemma split_option key n rest :
  contains_byte ","%char key = false →
  split ","%char (key +:+ itoa n +:+ String "," rest) = (key +:+ itoa n) :: split ","%char rest.
Proof.
  intros Hk. rewrite <- str_app_assoc. apply split_app_sep.
  rewrite contains_byte_app, Hk. by apply (proj2 (itoa_bytes n)).
Qed.

Lemma trim_option key n : no_space key = true → trim_space (key +:+ itoa n) = key +:+ itoa n.
Proof.
  intros Hk. apply trim_space_id. rewrite no_space_app, Hk. apply (proj1 (itoa_bytes n)).
Qed.

Lemma parse_options i h w mn mx f n :
  is_int64 n →
  let spec := mkFieldSpec i h w mn mx f in
  parseTagOption spec ("width=" +:+ itoa n) = mkFieldSpec i h n mn mx f ∧
  parseTagOption spec ("minWidth=" +:+ itoa n) = mkFieldSpec i h w n mx f ∧
  parseTagOption spec ("max=" +:+ itoa n) = mkFieldSpec i h w mn n f.
Proof.
  intros Hn. cbn zeta. unfold parseTagOption.
  rewrite !bool_decide_eq_false_2 by discriminate. cbn [cutAnyPrefix].
  change (CutPrefix ("minWidth=" +:+ itoa n) "width=") with (None (A:=string)).
  change (CutPrefix ("minWidth=" +:+ itoa n) "maxWidth=") with (None (A:=string)).
  change (CutPrefix ("minWidth=" +:+ itoa n) "max=") with (None (A:=string)).
  change (CutPrefix ("max=" +:+ itoa n) "width=") with (None (A:=string)).
  change (CutPrefix ("max=" +:+ itoa n) "maxWidth=") with (None (A:=string)).
  by rewrite !cut_prefix_app, !atoi_itoa by done.
Qed.

(** A struct tag is read back: the header (trimmed, without a comma), the three
    sizes and the formula mark that were written are those that are parsed. *)
Theorem tag_round_trip (s : structFieldSpec) (name : string) :
  header s ≠ "" → trim_space (header s) = header s → contains_byte ","%char (header s) = false →
  is_int64 (width s) → is_int64 (minWidth s) → is_int64 (maxWidth s) →
  parseFieldTag (fieldIndex s) name (render_tag s) = s.
Proof.
  destruct s as [i h w mn mx f]; simpl. intros Hh Ht Hc Hw Hmn Hmx. unfold parseFieldTag.
  assert (split ","%char (render_tag (mkFieldSpec i h w mn mx f)) =
    [h; "width=" +:+ itoa w; "minWidth=" +:+ itoa mn; "max=" +:+ itoa mx] ++
    (if f then ["formula"] else [])) as Es.
  { change (render_tag (mkFieldSpec i h w mn mx f)) with
      (h +:+ String "," ("width=" +:+ itoa w +:+ String "," ("minWidth=" +:+ itoa mn +:+
       String "," ("max=" +:+ itoa mx +:+ if f then String "," "formula" else "")))).
    cbn [app]. rewrite (split_app_sep ","%char h) by done. f_equal.
    rewrite (split_option "width=") by done. f_equal.
    rewrite (split_option "minWidth=") by done. f_equal.
    destruct f.
    - by rewrite (split_option "max=" mx "formula").
    - rewrite str_app_nil_r. apply split_single. rewrite contains_byte_app.
      by apply (proj2 (itoa_bytes mx)). }
  rewrite bool_decide_eq_false_2.
  2:{ unfold render_tag. simpl. by intros [-> _]%str_app_eq_nil. }
  rewrite Es. cbn [app]. rewrite bool_decide_eq_false_2, Ht by done.
  cbn [app fold_left]. rewrite !trim_option by done.
  rewrite (proj1 (parse_options _ _ _ _ _ _ _ Hw)).
  rewrite (proj1 (proj2 (parse_options _ _ _ _ _ _ _ Hmn))).
  rewrite (proj2 (proj2 (parse_options _ _ _ _ _ _ _ Hmx))).
  by destruct f.
Qed.

(** Sizes by name change the first column whose header matches, in upper or lower
    case, and nothing else. *)
Theorem by_name_first_match (t : Table) (name : string) (px : Z) :
  let t' := SetColumnWidthByName t name px in
  Headers t' = Headers t ∧ Rows t' = Rows t ∧
  ((∀ h, h ∈ Headers t → EqualFold h name = false) ∧ t' = t ∨
   ∃ k h, Headers t !! k = Some h ∧ EqualFold h name = true ∧
     (∀ j h', (j < k)%nat → Headers t !! j = Some h' → EqualFold h' name = false) ∧
     ∀ i, ColumnWidths t' !! i = if i =? Z.of_nat k then Some px else ColumnWidths t !! i).
Proof.
  assert (∀ l i, match header_index name i l with
    | None => ∀ h, h ∈ l → EqualFold h name = false
    | Some n => ∃ k h, n = i + Z.of_nat k ∧ l !! k = Some h ∧ EqualFold h name = true ∧
        ∀ j h', (j < k)%nat → l !! j = Some h' → EqualFold h' name = false
    end) as Hx.
  { induction l as [|h l IH]; intros i; simpl; [by intros h Hh%elem_of_nil|].
    destruct (EqualFold h name) eqn:E.
    - exists 0%nat, h. split; [lia|]. split; [done|]. split; [done|]. intros; lia.
    - specialize (IH (i + 1)). destruct (header_index name (i + 1) l) as [n|].
      + destruct IH as (k & h' & -> & Hk & He & Hb). exists (S k), h'.
        split; [lia|]. split; [done|]. split; [done|]. intros [|j] h'' Hj Hl; simplify_eq/=; [done|].
        apply (Hb j); [lia|done].
      + intros h' [->|Hh]%elem_of_cons; auto. }
  cbn zeta. unfold SetColumnWidthByName. specialize (Hx (Headers t) 0).
  destruct (header_index name 0 (Headers t)) as [n|]; [|by auto].
  do 2 (split; [done|]). right. destruct Hx as (k & h & -> & Hk & He & Hb).
  exists k, h. split; [done|]. split; [done|]. split; [done|].
  intros i. simpl. destruct (Z.eqb_spec i (Z.of_nat k)) as [->|Hi].
  - apply lookup_insert_eq.
  - apply lookup_insert_ne. lia.
Qed.
End facts.

(** The colours: two hexadecimal digits per channel. *)
Definition hex_char (d : Z) : ascii :=
  ascii_of_nat (Z.to_nat (if d <? 10 then 48 + d else 55 + d)).
Definition hex2 (z : Z) : string := String (hex_char (z / 16)) (String (hex_char (z mod 16)) "").

Lemma hex_digit_char d :
  0 <= d < 16 → hex_digit (hex_char d) = Some d ∧ is_space (hex_char d) = false ∧
    hex_char d ≠ ascii_of_nat 10.
Proof.
  intros Hd. assert (d ∈ map Z.of_nat (seq 0 16)) as Hin.
  { apply list_elem_of_In, in_map_iff. exists (Z.to_nat d). split; [lia|]. apply in_seq. lia. }
  simpl in Hin. rewrite !elem_of_cons in Hin.
  destruct_or! Hin; try (subst; by vm_compute). by apply elem_of_nil in Hin.
Qed.

Lemma scan_hex2_app z s : 0 <= z < 256 → scan_hex2 (hex2 z +:+ s) = Some (z, s).
Proof.
  intros Hz. unfold hex2. rewrite !str_cons_app, str_nil_app. unfold scan_hex2, skip_space.
  destruct (hex_digit_char (z / 16)) as (E1 & E2 & E3).
  { split; [apply Z.div_pos; lia|apply Z.div_lt_upper_bound; lia]. }
  destruct (hex_digit_char (z mod 16)) as (E4 & _ & _); [apply Z.mod_pos_bound; lia|].
  rewrite bool_decide_eq_false_2, E2, E1, E4 by done.
  f_equal. f_equal. pose proof (Z.div_mod z 16). lia.
Qed.

(** [Hex] reads a colour written with two digits per channel. *)
Theorem hex_round_trip (r g b : Z) :
  0 <= r < 256 → 0 <= g < 256 → 0 <= b < 256 →
  Hex ("#" +:+ hex2 r +:+ hex2 g +:+ hex2 b) = RGB r g b.
Proof.
  intros Hr Hg Hb. unfold Hex. rewrite str_cons_app, str_nil_app.
  rewrite bool_decide_eq_true_2 by done. cbn iota beta.
  rewrite <- (str_app_nil_r (hex2 b)).
  change (str_len (hex2 r +:+ hex2 g +:+ hex2 b +:+ "")) with 6%nat.
  cbn [scan_hexes]. rewrite !scan_hex2_app by done. done.
Qed.


(** ** Witnesses *)

#[local] Instance demo_formats : Formats := {|
  float_text := λ _ _, "1.5"; time_format := λ _ l, l; time_text := λ _, "now" |}.

Definition demo_type : gotype := TPointer (TStruct
  [mkField "ID" true "Employee ID,width=120"; mkField "secret" false "";
   mkField "Profile" true "Profile Link,formula, max=300"; mkField "Skip" true "-"]).
Definition demo_vals : list rvalue :=
  [RVal (VInt Int32 7); RVal (VString "x"); RRef (RVal (VString "=A1")); RVal VNil].


Lemma tag_round_trip_witness :
  parseFieldTag 3 "Name" (render_tag (mkFieldSpec 3 "Full Name" 120 0 (-5) true)) =
  mkFieldSpec 3 "Full Name" 120 0 (-5) true.
Proof.
  apply (tag_round_trip (mkFieldSpec 3 "Full Name" 120 0 (-5) true) "Name");
    solve [discriminate|reflexivity|split; vm_compute; discriminate].
Defined.

End cells.
