(* ===== verification/SheetsBatch.v ===== *)
(** * google/workspace/sheets: from a table to value updates

    Models [src/go/google/workspace/sheets/batch_writer.go]: column letters,
    quoted titles, and the partition of a table into updates that are written
    literally (RAW) or evaluated (USER_ENTERED). *)

From S2P Require Import Prelude GoStrings GoFloat GoErr SheetsCells.
From Stdlib Require Import Ascii.

Module batch.
Import cells.

Definition alphabetSize : Z := 26.
Definition InputOptionRaw : string := "RAW".
Definition InputOptionUserEntered : string := "USER_ENTERED".

Record valueUpdateBatch := mkBatch {
  Range : string; ValueInputOption : string; Values : list (list value)
}.

(** ['A'+rem] *)
Definition letter (rem : Z) : ascii := ascii_of_nat (Z.to_nat (65 + rem)).

Fixpoint a1_loop (fuel : nat) (colIdx : Z) (res : string) : string :=
  match fuel with
  | O => res
  | S fuel' =>
      let rem := Z.rem colIdx alphabetSize in
      let res := String (letter rem) res in
      let colIdx := Z.quot colIdx alphabetSize - 1 in
      if colIdx <? 0 then res else a1_loop fuel' colIdx res
  end.

(** Each turn divides by 26, so one turn per binary digit is enough. *)
Definition a1_fuel (colIdx : Z) : nat := S (N.size_nat (Z.to_N colIdx)).

Definition ColIndexToA1 (colIdx : Z) : string :=
  if colIdx <? 0 then "A" else a1_loop (a1_fuel colIdx) colIdx "".

Definition apostrophe : ascii := "'"%char.

(** [strings.ReplaceAll(title, "'", "''")] *)
Fixpoint double_apostrophes (s : string) : string :=
  match s with
  | EmptyString => EmptyString
  | String c s' =>
      if bool_decide (c = apostrophe)
      then String apostrophe (String apostrophe (double_apostrophes s'))
      else String c (double_apostrophes s')
  end.

Definition EscapeSheetTitle (title : string) : string :=
  "'" +:+ double_apostrophes title +:+ "'".

Definition checkTableHasFormulas (table : Table) : bool :=
  existsb (λ r, existsb IsFormula r) (Rows table).

Definition header_row (table : Table) : list value := map VString (Headers table).

Definition buildAllRawBatch (escapedTitle : string) (table : Table) : list valueUpdateBatch :=
  let allRows := match Headers table with [] => [] | _ => [header_row table] end in
  let allRows := allRows ++ map (map RawVal) (Rows table) in
  [mkBatch (escapedTitle +:+ "!A1") InputOptionRaw allRows].

(** A missing cell is not a formula; its value is the empty text. *)
Definition cellIsFormulaAt (row : list Cell) (colIdx : nat) : bool :=
  match row !! colIdx with Some c => IsFormula c | None => false end.
Definition cellValueAt (row : list Cell) (colIdx : nat) : value :=
  match row !! colIdx with Some c => RawVal c | None => VString "" end.

Inductive colKind := colRaw | colFormula | colMixed.
#[export] Instance colKind_eq_dec : EqDecision colKind.
Proof. solve_decision. Defined.

Record colSlice := mkSlice { startCol : nat; endCol : nat; kind : colKind }.

Definition count_cell (r : list Cell) (counts : list nat * list nat) (colIdx : nat)
  : list nat * list nat :=
  if cellIsFormulaAt r colIdx then (alter S colIdx counts.1, counts.2)
  else (counts.1, alter S colIdx counts.2).

Definition count_row (numCols : nat) (counts : list nat * list nat) (r : list Cell)
  : list nat * list nat :=
  fold_left (count_cell r) (seq 0 (Nat.min (length r) numCols)) counts.

Definition classifyColumns (table : Table) (numCols : nat) : list colKind :=
  let '(formulaCells, otherCells) :=
    fold_left (count_row numCols) (Rows table) (replicate numCols 0%nat, replicate numCols 0%nat) in
  map (λ c, if (nth c formulaCells 0 =? 0)%nat then colRaw
            else if (nth c otherCells 0 =? 0)%nat then colFormula
            else colMixed) (seq 0 numCols).

Definition kind_at (kinds : list colKind) (c : nat) : colKind := nth c kinds colRaw.

Definition partition_step (kinds : list colKind) (s : list colSlice * nat) (c : nat)
  : list colSlice * nat :=
  let '(slices, currStart) := s in
  if negb (bool_decide (kind_at kinds c = kind_at kinds currStart)) ||
     bool_decide (kind_at kinds c = colMixed)
  then (slices ++ [mkSlice currStart (c - 1) (kind_at kinds currStart)], c)
  else (slices, currStart).

Definition partitionColumns (table : Table) (numCols : nat) : list colSlice :=
  let kinds := classifyColumns table numCols in
  let '(slices, currStart) := fold_left (partition_step kinds) (seq 1 (numCols - 1)) ([], 0%nat) in
  slices ++ [mkSlice currStart (numCols - 1) (kind_at kinds currStart)].

Definition row_at (table : Table) (r : nat) : list Cell := nth r (Rows table) [].

(** A cell reference of a range. *)
Definition cell_ref (col : nat) (row : Z) : string := ColIndexToA1 (Z.of_nat col) +:+ itoa row.

(** The closure [flush] of [buildMixedColumnBatches]. *)
Definition flush (escapedTitle : string) (table : Table) (colIdx : nat) (startDataRow : Z)
    (runStart runEnd : nat) (isFormula : bool) : valueUpdateBatch :=
  let values := map (λ r, [cellValueAt (row_at table r) colIdx])
                    (seq runStart (runEnd + 1 - runStart)) in
  mkBatch (escapedTitle +:+ "!" +:+ cell_ref colIdx (startDataRow + Z.of_nat runStart) +:+ ":" +:+
           cell_ref colIdx (startDataRow + Z.of_nat runEnd))
    (if isFormula then InputOptionUserEntered else InputOptionRaw) values.

Definition mixed_step (escapedTitle : string) (table : Table) (colIdx : nat) (startDataRow : Z)
    (s : list valueUpdateBatch * nat * bool) (r : nat) : list valueUpdateBatch * nat * bool :=
  let '(batches, runStart, runFormula) := s in
  let f := cellIsFormulaAt (row_at table r) colIdx in
  if negb (bool_decide (f = runFormula))
  then (batches ++ [flush escapedTitle table colIdx startDataRow runStart (r - 1) runFormula], r, f)
  else s.

Definition buildMixedColumnBatches (escapedTitle : string) (table : Table) (colIdx : nat)
    (startDataRow : Z) : list valueUpdateBatch :=
  let '(batches, runStart, runFormula) :=
    fold_left (mixed_step escapedTitle table colIdx startDataRow)
      (seq 1 (length (Rows table) - 1))
      ([], 0%nat, cellIsFormulaAt (row_at table 0) colIdx) in
  batches ++ [flush escapedTitle table colIdx startDataRow runStart
                (length (Rows table) - 1) runFormula].

Definition extractSliceValues (table : Table) (s : colSlice) : list (list value) :=
  let width := (endCol s - startCol s + 1)%nat in
  map (λ r, map (λ offset, cellValueAt r (startCol s + offset)) (seq 0 width)) (Rows table).

Definition slice_batches (escapedTitle : string) (table : Table) (startDataRow : Z) (s : colSlice)
  : list valueUpdateBatch :=
  match kind s with
  | colMixed => buildMixedColumnBatches escapedTitle table (startCol s) startDataRow
  | k =>
      let endDataRow := startDataRow + Z.of_nat (length (Rows table)) - 1 in
      let opt := match k with colFormula => InputOptionUserEntered | _ => InputOptionRaw end in
      let startA1 := cell_ref (startCol s) startDataRow in
      let endA1 := cell_ref (endCol s) endDataRow in
      [mkBatch (escapedTitle +:+ "!" +:+ startA1 +:+ ":" +:+ endA1) opt (extractSliceValues table s)]
  end.

Definition buildMixedModeBatches (escapedTitle : string) (table : Table) (numCols : nat)
  : list valueUpdateBatch :=
  let '(batches, startDataRow) :=
    match Headers table with
    | [] => ([], 1)
    | _ => ([mkBatch (escapedTitle +:+ "!A1:" +:+
                      ColIndexToA1 (Z.of_nat (length (Headers table)) - 1) +:+ "1")
               InputOptionRaw [header_row table]], 2)
    end in
  match Rows table with
  | [] => batches
  | _ => fold_left (λ batches s, batches ++ slice_batches escapedTitle table startDataRow s)
           (partitionColumns table numCols) batches
  end.

(** [None] is the nil table. *)
Definition prepareValueUpdates (tabTitle : string) (table : option Table) : list valueUpdateBatch :=
  match table with
  | None => []
  | Some table =>
      if (length (Headers table) =? 0)%nat && (length (Rows table) =? 0)%nat then []
      else
        let escapedTitle := EscapeSheetTitle tabTitle in
        let numCols := ColCount table in
        if (numCols =? 0)%nat then []
        else if negb (checkTableHasFormulas table) then buildAllRawBatch escapedTitle table
        else buildMixedModeBatches escapedTitle table numCols
  end.

(** ** A1 notation, as the Sheets API documents it

    A column is a numeral of base 26 whose digits are A (1) to Z (26); a title
    stands between apostrophes, those inside it doubled. *)

Definition upper_digit (c : ascii) : option Z :=
  let n := Z.of_nat (nat_of_ascii c) in
  if (65 <=? n) && (n <=? 90) then Some (n - 64) else None.

Fixpoint letters_go (acc : Z) (s : string) : option Z :=
  match s with
  | EmptyString => Some acc
  | String c s' =>
      match upper_digit c with Some d => letters_go (26 * acc + d) s' | None => None end
  end.

(** The 0-based index of a column's letters. *)
Definition letters_index (s : string) : option Z :=
  match s with EmptyString => None | _ => z ← letters_go 0 s; Some (z - 1) end.

Fixpoint span_upper (s : string) : string * string :=
  match s with
  | String c s' =>
      match upper_digit c with
      | Some _ => let '(a, b) := span_upper s' in (String c a, b)
      | None => (EmptyString, s)
      end
  | EmptyString => (EmptyString, EmptyString)
  end.

Definition parse_cell (s : string) : option (Z * Z) :=
  let '(l, d) := span_upper s in
  col ← letters_index l; row ← digits d; Some (col, row).

(** The title up to its closing apostrophe, and what follows. *)
Fixpoint unquote (s : string) : option (string * string) :=
  match s with
  | EmptyString => None
  | String c s' =>
      if bool_decide (c = apostrophe) then
        match s' with
        | String c' s'' =>
            if bool_decide (c' = apostrophe)
            then '(t, r) ← unquote s''; Some (String apostrophe t, r)
            else Some (EmptyString, s')
        | EmptyString => Some (EmptyString, EmptyString)
        end
      else '(t, r) ← unquote s'; Some (String c t, r)
  end.

(** A range: the title, the first cell, and the last one when it is given. *)
Definition parse_range (s : string) : option (string * (Z * Z) * option (Z * Z)) :=
  match s with
  | String c s' =>
      if bool_decide (c = apostrophe) then
        '(title, r) ← unquote s';
        match r with
        | String b r' =>
            if bool_decide (b = "!"%char) then
              let '(x, y, ok) := cut ":"%char r' in
              p ← parse_cell x;
              if ok then q ← parse_cell y; Some (title, p, Some q) else Some (title, p, None)
            else None
        | EmptyString => None
        end
      else None
  | EmptyString => None
  end.

(** *** Columns *)

Lemma upper_digit_letter rem : 0 <= rem < 26 → upper_digit (letter rem) = Some (rem + 1).
Proof.
  intros H. unfold upper_digit, letter. rewrite nat_ascii_embedding by lia.
  rewrite Z2Nat.id by lia.
  rewrite (proj2 (Z.leb_le 65 (65 + rem))), (proj2 (Z.leb_le (65 + rem) 90)) by lia.
  simpl. f_equal. lia.
Qed.

Lemma letter_upper_digit c d : upper_digit c = Some d → 1 <= d <= 26 ∧ letter (d - 1) = c.
Proof.
  unfold upper_digit, letter. destruct (_ && _) eqn:E; [|done]. bool_to_prop. intros [= <-].
  split; [lia|]. rewrite <- (ascii_nat_embedding c) at 2. f_equal. lia.
Qed.

Lemma letters_go_app acc s t :
  letters_go acc (s +:+ t) = letters_go acc s ≫= λ a, letters_go a t.
Proof.
  revert acc. induction s as [|c s IH]; intros acc; [done|]. rewrite str_cons_app. simpl.
  destruct (upper_digit c); [apply IH|done].
Qed.

(** A turn of the loop: the last digit of [c + 1], and the digits before it. *)
Lemma a1_turn c :
  0 <= c → 0 <= Z.rem c 26 < 26 ∧ c + 1 = 26 * (Z.quot c 26 - 1 + 1) + (Z.rem c 26 + 1) ∧
    Z.quot c 26 - 1 < c.
Proof.
  intros Hc. rewrite Z.rem_mod_nonneg, Z.quot_div_nonneg by lia.
  pose proof (Z.mod_pos_bound c 26 ltac:(lia)). pose proof (Z.div_mod c 26 ltac:(lia)). lia.
Qed.

Lemma size_nat_bound p : Z.pos p < 2 ^ Z.of_nat (Pos.size_nat p).
Proof.
  induction p as [p IH|p IH|]; cbn [Pos.size_nat]; rewrite ?Nat2Z.inj_succ, ?Z.pow_succ_r by lia;
    [lia..|done].
Qed.

Lemma a1_loop_step f c res :
  a1_loop (S f) c res =
  if Z.quot c 26 - 1 <? 0 then String (letter (Z.rem c 26)) res
  else a1_loop f (Z.quot c 26 - 1) (String (letter (Z.rem c 26)) res).
Proof. done. Qed.

Lemma a1_loop_value n c res :
  0 <= c < 2 ^ Z.of_nat n →
  ∃ l, a1_loop (S n) c res = l +:+ res ∧ l ≠ "" ∧ letters_go 0 l = Some (c + 1).
Proof.
  revert c res. induction n as [|n IH]; intros c res Hc; rewrite a1_loop_step;
    destruct (a1_turn c) as (Hr & Ec & Hq); try lia.
  - assert (c = 0) as -> by (simpl in Hc; lia). exists "A". done.
  - destruct (Z.ltb_spec (Z.quot c 26 - 1) 0) as [Hn|Hn].
    + exists (String (letter (Z.rem c 26)) ""). split; [done|]. split; [done|]. simpl.
      rewrite upper_digit_letter by lia. f_equal. lia.
    + rewrite Nat2Z.inj_succ, Z.pow_succ_r in Hc by lia.
      destruct (IH (Z.quot c 26 - 1) (String (letter (Z.rem c 26)) res)) as (l & -> & Hl & E);
        [lia|].
      exists (l +:+ String (letter (Z.rem c 26)) ""). split.
      { by rewrite str_app_assoc, str_cons_app, str_nil_app. }
      split; [by intros [? _]%str_app_eq_nil|].
      rewrite letters_go_app, E. simpl. rewrite upper_digit_letter by lia. f_equal. lia.
Qed.

Lemma a1_value c :
  0 <= c → ∃ l, ColIndexToA1 c = l ∧ l ≠ "" ∧ letters_go 0 l = Some (c + 1).
Proof.
  intros Hc. unfold ColIndexToA1, a1_fuel. rewrite (proj2 (Z.ltb_ge c 0)) by lia.
  destruct (a1_loop_value (N.size_nat (Z.to_N c)) c "") as (l & E & Hl & Ev).
  - split; [done|]. destruct c as [|p|p]; [done|apply size_nat_bound|lia].
  - exists l. by rewrite E, str_app_nil_r.
Qed.

Lemma str_snoc_ind (P : string → Prop) :
  P "" → (∀ s c, P s → P (s +:+ String c "")) → ∀ s, P s.
Proof.
  intros H0 Hs s. assert (∀ t p, P p → P (p +:+ t)) as H.
  { induction t as [|c t IH]; intros p Hp; [by rewrite str_app_nil_r|].
    change (String c t) with (String c "" +:+ t). rewrite <- str_app_assoc. auto. }
  rewrite <- (str_nil_app s). auto.
Qed.

Lemma letters_go_nonneg s z : letters_go 0 s = Some z → 0 <= z ∧ (s ≠ "" → 0 < z).
Proof.
  revert z. induction s as [|s c IH] using str_snoc_ind; intros z; [intros [= <-]; done|].
  rewrite letters_go_app. destruct (letters_go 0 s) as [a|]; [|done]. simpl.
  destruct (upper_digit c) as [d|] eqn:Ed; [|done]. intros [= <-].
  destruct (IH a eq_refl) as [Ha _]. destruct (letter_upper_digit _ _ Ed). lia.
Qed.

Lemma letters_go_inj s t z : letters_go 0 s = Some z → letters_go 0 t = Some z → s = t.
Proof.
  revert t z. induction s as [|s c IH] using str_snoc_ind; intros t z.
  { intros [= <-] Ht. destruct (decide (t = "")) as [->|Hn]; [done|].
    apply letters_go_nonneg in Ht as [_ Ht]. specialize (Ht Hn). lia. }
  intros Hs. destruct (letters_go_nonneg _ _ Hs) as [_ Hz].
  assert (0 < z) as Hpos by (apply Hz; by intros [_ ?]%str_app_eq_nil). clear Hz.
  destruct t as [|t c' _] using str_snoc_ind; [intros [= <-]; lia|].
  revert Hs. rewrite !letters_go_app.
  destruct (letters_go 0 s) as [a|] eqn:Ea, (letters_go 0 t) as [b|] eqn:Eb; simpl; try done;
    destruct (upper_digit c) as [d|] eqn:Ed; try done;
    destruct (upper_digit c') as [e|] eqn:Ee; try done.
  intros [= <-] [= E]. destruct (letter_upper_digit _ _ Ed) as [? <-].
  destruct (letter_upper_digit _ _ Ee) as [? <-].
  assert (a = b ∧ d = e) as [<- <-] by lia. by rewrite (IH t a eq_refl Eb).
Qed.

(** Column letters are a bijection: the letters of every index from 0 read
    back as that index in the spreadsheet's base-26 numerals, and every non-empty
    run of capital letters is the letters of the index it denotes. *)
Theorem a1_round_trip :
  (∀ c, 0 <= c → letters_index (ColIndexToA1 c) = Some c) ∧
  (∀ s c, letters_index s = Some c → 0 <= c ∧ ColIndexToA1 c = s) ∧
  (∀ c d, 0 <= c → 0 <= d → ColIndexToA1 c = ColIndexToA1 d → c = d).
Proof.
  assert (∀ c, 0 <= c → letters_index (ColIndexToA1 c) = Some c) as H.
  { intros c Hc. destruct (a1_value c Hc) as (l & -> & Hl & E). unfold letters_index.
    destruct l; [done|]. rewrite E. simpl. f_equal. lia. }
  split; [exact H|]. split.
  - intros s c Hs. destruct s as [|a s]; [done|]. unfold letters_index in Hs.
    destruct (letters_go 0 (String a s)) as [z|] eqn:E; [|done]. injection Hs as <-.
    destruct (letters_go_nonneg _ _ E) as [_ Hz]. specialize (Hz ltac:(done)).
    split; [lia|]. destruct (a1_value (z - 1)) as (l & -> & _ & El); [lia|].
    rewrite Z.sub_add in El. by eapply letters_go_inj.
  - intros c d Hc Hd E. pose proof (H c Hc) as H1. rewrite E, H in H1 by done. by simplify_eq.
Qed.

(** *** Cells, titles and ranges *)

Lemma letters_span acc l z d :
  letters_go acc l = Some z →
  match d with String c _ => upper_digit c = None | EmptyString => True end →
  span_upper (l +:+ d) = (l, d).
Proof.
  intros Hl Hd. revert acc Hl. induction l as [|c l IH]; intros acc Hl.
  - rewrite str_nil_app. destruct d as [|c d]; [done|]. simpl. by rewrite Hd.
  - rewrite str_cons_app. simpl in *. destruct (upper_digit c); [|done]. by rewrite (IH _ Hl).
Qed.

Lemma letters_no_byte acc l z b : letters_go acc l = Some z → upper_digit b = None →
  contains_byte b l = false.
Proof.
  intros Hl Hb. revert acc Hl. induction l as [|c l IH]; intros acc Hl; [done|]. simpl in *.
  destruct (upper_digit c) eqn:E; [|done]. rewrite (IH _ Hl), orb_false_r.
  apply bool_decide_eq_false. congruence.
Qed.

Lemma digit_not_upper c d : digit c = Some d → upper_digit c = None.
Proof.
  unfold digit, upper_digit. destruct (_ && _) eqn:E; [|done]. intros _. bool_to_prop.
  destruct (Z.leb_spec 65 (Z.of_nat (nat_of_ascii c))); [lia|done].
Qed.

Lemma parse_cell_ref c n :
  0 <= n → parse_cell (cell_ref c n) = Some (Z.of_nat c, n) ∧
    contains_byte ":"%char (cell_ref c n) = false.
Proof.
  intros Hn. unfold cell_ref. destruct (a1_value (Z.of_nat c) ltac:(lia)) as (l & -> & Hl & E).
  pose proof (digits_itoa n Hn) as Ed. split.
  - unfold parse_cell. rewrite (letters_span 0 l (Z.of_nat c + 1)); [|done|].
    + rewrite Ed. unfold letters_index. destruct l; [done|]. rewrite E. simpl.
      f_equal. f_equal. lia.
    + destruct (itoa n) as [|a t]; [done|]. apply digits_head in Ed.
      destruct (digit a) as [d|] eqn:Ea; [|done]. by eapply digit_not_upper.
  - rewrite contains_byte_app, (letters_no_byte 0 l (Z.of_nat c + 1)) by done.
    by apply (proj2 (itoa_bytes n)).
Qed.

Lemma unquote_title t r :
  match r with String c _ => c ≠ apostrophe | EmptyString => True end →
  unquote (double_apostrophes t +:+ String apostrophe r) = Some (t, r).
Proof.
  intros Hr. induction t as [|c t IH].
  - rewrite str_nil_app. destruct r as [|c r]; [done|]. simpl.
    by rewrite bool_decide_eq_false_2.
  - cbn [double_apostrophes]. case_bool_decide as Hc; rewrite !str_cons_app; cbn [unquote].
    + rewrite !bool_decide_eq_true_2 by done. rewrite IH. by subst.
    + rewrite bool_decide_eq_false_2 by done. by rewrite IH.
Qed.

Lemma escape_title t r : EscapeSheetTitle t +:+ r =
  String apostrophe (double_apostrophes t +:+ String apostrophe r).
Proof. unfold EscapeSheetTitle. rewrite !str_app_assoc. done. Qed.

Lemma parse_range_title t r :
  parse_range (EscapeSheetTitle t +:+ "!" +:+ r) =
  let '(x, y, ok) := cut ":"%char r in
  p ← parse_cell x;
  if ok then q ← parse_cell y; Some (t, p, Some q) else Some (t, p, None).
Proof.
  rewrite escape_title. unfold parse_range. rewrite bool_decide_eq_true_2 by done.
  change ("!" +:+ r) with (String "!" r). by rewrite unquote_title.
Qed.

Lemma parse_range_two t c n c' n' :
  0 <= n → 0 <= n' →
  parse_range (EscapeSheetTitle t +:+ "!" +:+ cell_ref c n +:+ ":" +:+ cell_ref c' n') =
  Some (t, (Z.of_nat c, n), Some (Z.of_nat c', n')).
Proof.
  intros Hn Hn'. rewrite parse_range_title. destruct (parse_cell_ref c n Hn) as [E1 E2].
  change (":" +:+ cell_ref c' n') with (String ":" (cell_ref c' n')).
  rewrite cut_app by done. by rewrite E1, (proj1 (parse_cell_ref c' n' Hn')).
Qed.

Lemma parse_range_one t c n :
  0 <= n → parse_range (EscapeSheetTitle t +:+ "!" +:+ cell_ref c n) = Some (t, (Z.of_nat c, n), None).
Proof.
  intros Hn. rewrite parse_range_title. destruct (parse_cell_ref c n Hn) as [E1 E2].
  rewrite cut_none by done. by rewrite E1.
Qed.

(** ** Columns and their kinds *)

Lemma colcount_bound t :
  (length (Headers t) ≤ ColCount t)%nat ∧ ∀ r, r ∈ Rows t → (length r ≤ ColCount t)%nat.
Proof.
  unfold ColCount. apply (fold_left_ind (λ done m, (length (Headers t) ≤ m)%nat ∧
    ∀ r, r ∈ done → (length r ≤ m)%nat)).
  - split; [done|]. by intros r Hr%elem_of_nil.
  - intros done x acc [H1 H2]. case_match eqn:E; [apply Nat.ltb_lt in E|apply Nat.ltb_ge in E];
      (split; [lia|]); intros r [Hr|Hr]%elem_of_app;
      try (apply list_elem_of_singleton in Hr as ->; lia); specialize (H2 r Hr); lia.
Qed.

Definition formula_at (r : list Cell) (c : nat) (b : bool) : Prop :=
  ∃ cell, r !! c = Some cell ∧ IsFormula cell = b.

Lemma count_cell_at r k cell counts :
  r !! k = Some cell →
  count_cell r counts k = if IsFormula cell then (alter S k counts.1, counts.2)
                          else (counts.1, alter S k counts.2).
Proof. unfold count_cell, cellIsFormulaAt. by intros ->. Qed.

Lemma count_row_lookup numCols counts r c n m :
  counts.1 !! c = Some n → counts.2 !! c = Some m → (c < numCols)%nat →
  let res := count_row numCols counts r in
  ∃ n' m', res.1 !! c = Some n' ∧ res.2 !! c = Some m' ∧
    (n' = 0 ↔ n = 0 ∧ ¬ formula_at r c true)%nat ∧ (m' = 0 ↔ m = 0 ∧ ¬ formula_at r c false)%nat.
Proof.
  intros Hn Hm Hc. cbn zeta. unfold count_row.
  assert (∀ k, (k ≤ length r)%nat →
    let res := fold_left (count_cell r) (seq 0 k) counts in
    ∃ n' m', res.1 !! c = Some n' ∧ res.2 !! c = Some m' ∧
      (n' = 0 ↔ n = 0 ∧ ¬ (c < k ∧ formula_at r c true))%nat ∧
      (m' = 0 ↔ m = 0 ∧ ¬ (c < k ∧ formula_at r c false))%nat) as H.
  { induction k as [|k IH]; intros Hk; cbn zeta.
    - exists n, m. repeat split; try done; try tauto; lia.
    - destruct IH as (n1 & m1 & E1 & E2 & H1 & H2); [lia|].
      destruct (lookup_lt_is_Some_2 r k) as [cell Hcell]; [lia|].
      rewrite seq_S, fold_left_snoc, Nat.add_0_l, (count_cell_at r k cell) by done.
      destruct (decide (c = k)) as [->|Hck].
      + assert (∀ b, formula_at r k b ↔ IsFormula cell = b) as Hf.
        { intros b. unfold formula_at. rewrite Hcell. naive_solver. }
        destruct (IsFormula cell) eqn:Ef; simpl; rewrite list_lookup_alter_eq, ?E1, ?E2; simpl;
          [exists (S n1), m1|exists n1, (S m1)];
          (split; [done|]); (split; [done|]); rewrite !Hf; split.
        -- split; [done|]. intros [_ Hx]. exfalso. apply Hx. split; [lia|done].
        -- rewrite H2. split; intros [? _]; (split; [done|]); intros [? ?]; [done|lia].
        -- rewrite H1. split; intros [? _]; (split; [done|]); intros [? ?]; [done|lia].
        -- split; [done|]. intros [_ Hx]. exfalso. apply Hx. split; [lia|done].
      + exists n1, m1. assert (c < S k ↔ c < k)%nat as -> by lia.
        destruct (IsFormula cell); simpl; rewrite list_lookup_alter_ne by done; auto. }
  destruct (H (Nat.min (length r) numCols) ltac:(lia)) as (n' & m' & E1 & E2 & H1 & H2).
  exists n', m'. split; [done|]. split; [done|].
  assert (∀ b, formula_at r c b → c < Nat.min (length r) numCols)%nat as Hb.
  { intros b (cell & E & _). apply lookup_lt_Some in E. lia. }
  split; [rewrite H1|rewrite H2]; split; intros [? Hx]; (split; [done|]); firstorder.
Qed.

Lemma classify_spec t numCols c :
  (c < numCols)%nat →
  match kind_at (classifyColumns t numCols) c with
  | colRaw => ∀ r, r ∈ Rows t → ¬ formula_at r c true
  | colFormula => ∀ r, r ∈ Rows t → ¬ formula_at r c false
  | colMixed => True
  end.
Proof.
  intros Hc. unfold kind_at, classifyColumns.
  assert (∃ n m, (fold_left (count_row numCols) (Rows t) (replicate numCols 0%nat, replicate numCols 0%nat)).1 !! c = Some n ∧
    (fold_left (count_row numCols) (Rows t) (replicate numCols 0%nat, replicate numCols 0%nat)).2 !! c = Some m ∧
    (n = 0%nat ↔ ∀ r, r ∈ Rows t → ¬ formula_at r c true) ∧
    (m = 0%nat ↔ ∀ r, r ∈ Rows t → ¬ formula_at r c false)) as (n & m & En & Em & Hn & Hm).
  { apply (fold_left_ind (λ done acc, ∃ n m, acc.1 !! c = Some n ∧ acc.2 !! c = Some m ∧
      (n = 0%nat ↔ ∀ r, r ∈ done → ¬ formula_at r c true) ∧
      (m = 0%nat ↔ ∀ r, r ∈ done → ¬ formula_at r c false))).
    - exists 0%nat, 0%nat. simpl. rewrite !lookup_replicate_2 by done.
      do 2 (split; [done|]). split; (split; [|done]); by intros _ r Hr%elem_of_nil.
    - intros done r acc (n & m & E1 & E2 & H1 & H2).
      destruct (count_row_lookup numCols acc r c n m E1 E2 Hc) as (n' & m' & E1' & E2' & H1' & H2').
      exists n', m'. do 2 (split; [done|]). rewrite H1', H2', H1, H2.
      setoid_rewrite elem_of_app. setoid_rewrite list_elem_of_singleton.
      split; (split; [intros [Ha Hb] r' [Hr| ->]; auto|intros Ha; split; [intros r' Hr|]; apply Ha; auto]). }
  destruct (fold_left (count_row numCols) (Rows t) _) as [fc oc]. simpl in *.
  rewrite (nth_indep _ colRaw (if (nth 0 fc 0 =? 0)%nat then colRaw
            else if (nth 0 oc 0 =? 0)%nat then colFormula else colMixed)) by
    (by rewrite length_map, length_seq).
  rewrite (map_nth (λ c, if (nth c fc 0 =? 0)%nat then colRaw
            else if (nth c oc 0 =? 0)%nat then colFormula else colMixed)), seq_nth by done. simpl.
  rewrite (nth_lookup_Some fc c 0%nat n En), (nth_lookup_Some oc c 0%nat m Em).
  destruct (Nat.eqb_spec n 0); [by apply Hn|]. destruct (Nat.eqb_spec m 0); [by apply Hm|done].
Qed.

(** ** Blocks

    Every update of the data rows is a block: columns [b_c0 .. b_c1] of the rows
    [b_r0 .. b_r1], evaluated or not. *)

Record block := mkBlock { b_c0 : nat; b_c1 : nat; b_r0 : nat; b_r1 : nat; b_formula : bool }.

Definition covers (b : block) (p : nat * nat) : Prop :=
  (b_c0 b ≤ p.1 ≤ b_c1 b)%nat ∧ (b_r0 b ≤ p.2 ≤ b_r1 b)%nat.

Definition option_of (formula : bool) : string :=
  if formula then InputOptionUserEntered else InputOptionRaw.

Definition block_batch (title : string) (t : Table) (start : Z) (b : block) : valueUpdateBatch :=
  mkBatch (EscapeSheetTitle title +:+ "!" +:+ cell_ref (b_c0 b) (start + Z.of_nat (b_r0 b)) +:+ ":" +:+
           cell_ref (b_c1 b) (start + Z.of_nat (b_r1 b)))
    (option_of (b_formula b))
    (map (λ r, map (cellValueAt (row_at t r)) (seq (b_c0 b) (b_c1 b + 1 - b_c0 b)))
       (seq (b_r0 b) (b_r1 b + 1 - b_r0 b))).

Section blocks.
Context (title : string) (t : Table) (start : Z).
Local Abbreviation numCols := (ColCount t).
Local Abbreviation numRows := (length (Rows t)).

Definition column_cut (c currStart : nat) : bool :=
  let kinds := classifyColumns t numCols in
  negb (bool_decide (kind_at kinds c = kind_at kinds currStart)) ||
  bool_decide (kind_at kinds c = colMixed).

Definition row_formula (col r : nat) : bool := cellIsFormulaAt (row_at t r) col.
Definition row_cut (col r runStart : nat) : bool :=
  negb (bool_decide (row_formula col r = row_formula col runStart)).

Definition slice_of (ab : nat * nat) : colSlice :=
  mkSlice ab.1 ab.2 (kind_at (classifyColumns t numCols) ab.1).

Definition slice_blocks (s : colSlice) : list block :=
  match kind s with
  | colMixed => map (λ ab, mkBlock (startCol s) (startCol s) ab.1 ab.2 (row_formula (startCol s) ab.1))
                  (runs (row_cut (startCol s)) numRows)
  | k => [mkBlock (startCol s) (endCol s) 0 (numRows - 1) (bool_decide (k = colFormula))]
  end.

Definition data_blocks : list block :=
  flat_map slice_blocks (map slice_of (runs column_cut numCols)).

Lemma partition_runs : partitionColumns t numCols = map slice_of (runs column_cut numCols).
Proof.
  unfold partitionColumns. etrans; [|apply (runs_map column_cut (λ a b, slice_of (a, b)))].
  cbn zeta.
  assert (∀ s c, partition_step (classifyColumns t numCols) s c =
    run_emit column_cut (λ a b, slice_of (a, b)) s c) as E.
  { intros [slices a] c. unfold partition_step, run_emit, column_cut, slice_of. simpl.
    by destruct (_ || _). }
  assert (∀ l s, fold_left (partition_step (classifyColumns t numCols)) l s =
    fold_left (run_emit column_cut (λ a b, slice_of (a, b))) l s) as ->.
  { induction l as [|c l IH]; intros s; [done|]. cbn [fold_left]. by rewrite E. }
  destruct (fold_left _ _ _) as [slices a]. done.
Qed.

Lemma flush_block col a b f :
  flush (EscapeSheetTitle title) t col start a b f =
  block_batch title t start (mkBlock col col a b f).
Proof.
  unfold flush, block_batch. simpl. f_equal.
  apply map_ext. intros r. by replace (col + 1 - col)%nat with 1%nat by lia.
Qed.

Lemma mixed_runs col :
  buildMixedColumnBatches (EscapeSheetTitle title) t col start =
  map (block_batch title t start)
    (map (λ ab, mkBlock col col ab.1 ab.2 (row_formula col ab.1)) (runs (row_cut col) numRows)).
Proof.
  rewrite map_map. unfold buildMixedColumnBatches.
  set (emit := λ a b, block_batch title t start (mkBlock col col a b (row_formula col a))).
  etrans; [|apply (runs_map (row_cut col) emit)]. cbn zeta.
  assert (∀ l acc a, fold_left (mixed_step (EscapeSheetTitle title) t col start) l
      (acc, a, row_formula col a) =
    let s := fold_left (run_emit (row_cut col) emit) l (acc, a) in (s.1, s.2, row_formula col s.2)) as E.
  { induction l as [|r l IH]; intros acc a; [done|]. cbn [fold_left].
    change (mixed_step (EscapeSheetTitle title) t col start (acc, a, row_formula col a) r) with
      (if row_cut col r a
       then (acc ++ [flush (EscapeSheetTitle title) t col start a (r - 1) (row_formula col a)], r,
             row_formula col r) else (acc, a, row_formula col a)).
    change (run_emit (row_cut col) emit (acc, a) r) with
      (if row_cut col r a then (acc ++ [emit a (r - 1)%nat], r) else (acc, a)).
    destruct (row_cut col r a); rewrite IH; by rewrite ?flush_block. }
  change (cellIsFormulaAt (row_at t 0) col) with (row_formula col 0). rewrite E. cbn zeta.
  destruct (fold_left _ _ _) as [acc a]. simpl. by rewrite flush_block.
Qed.

Lemma slice_batches_blocks s :
  (0 < numRows)%nat → (startCol s ≤ endCol s)%nat →
  slice_batches (EscapeSheetTitle title) t start s = map (block_batch title t start) (slice_blocks s).
Proof.
  intros Hr Hs. unfold slice_batches, slice_blocks.
  assert (∀ f, mkBatch (EscapeSheetTitle title +:+ "!" +:+ cell_ref (startCol s) start +:+ ":" +:+
      cell_ref (endCol s) (start + Z.of_nat numRows - 1)) (option_of f) (extractSliceValues t s) =
    block_batch title t start (mkBlock (startCol s) (endCol s) 0 (numRows - 1) f)) as E.
  { intros f. unfold block_batch, extractSliceValues. simpl b_c0. simpl b_c1. simpl b_r0. simpl b_r1.
    simpl b_formula. rewrite Z.add_0_r.
    replace (start + Z.of_nat (numRows - 1)) with (start + Z.of_nat numRows - 1) by lia.
    replace (numRows - 1 + 1 - 0)%nat with numRows by lia.
    replace (endCol s + 1 - startCol s)%nat with (endCol s - startCol s + 1)%nat by lia.
    f_equal. apply list_eq. intros i. rewrite !list_lookup_fmap.
    destruct (decide (i < numRows)%nat) as [Hi|Hi].
    - destruct (lookup_lt_is_Some_2 (Rows t) i Hi) as [r Er]. rewrite Er.
      rewrite lookup_seq_lt by done. simpl. f_equal. unfold row_at.
      rewrite (nth_lookup_Some _ _ _ _ Er).
      apply list_eq. intros j. rewrite !list_lookup_fmap.
      destruct (decide (j < endCol s - startCol s + 1)%nat).
      + by rewrite !lookup_seq_lt by done.
      + by rewrite !lookup_seq_ge by lia.
    - rewrite (lookup_ge_None_2 (Rows t)), lookup_seq_ge by lia. done. }
  destruct (kind s); [exact (f_equal (λ x, [x]) (E false))|exact (f_equal (λ x, [x]) (E true))|].
  apply mixed_runs.
Qed.

Lemma fold_app_flat_map {A B} (f : A → list B) l acc :
  fold_left (λ acc x, acc ++ f x) l acc = acc ++ flat_map f l.
Proof.
  revert acc. induction l as [|x l IH]; intros acc; simpl; [by rewrite app_nil_r|].
  by rewrite IH, <- app_assoc.
Qed.

Lemma data_batches acc :
  (0 < numRows)%nat → (0 < numCols)%nat →
  fold_left (λ batches s, batches ++ slice_batches (EscapeSheetTitle title) t start s)
    (partitionColumns t numCols) acc = acc ++ map (block_batch title t start) data_blocks.
Proof.
  intros Hr Hc. rewrite fold_app_flat_map, partition_runs. f_equal. unfold data_blocks.
  destruct (runs_tile column_cut numCols Hc) as [Hab _].
  induction (runs column_cut numCols) as [|ab l IH]; [done|]. simpl. rewrite map_app. f_equal.
  - apply slice_batches_blocks; [done|]. simpl. destruct (Hab ab); [by left|lia].
  - apply IH. intros ab' H'. apply Hab. by right.
Qed.
End blocks.

Section tiling.
#[local] Set Default Proof Using "All".
Context (t : Table).
Local Abbreviation numCols := (ColCount t).
Local Abbreviation numRows := (length (Rows t)).
Hypothesis Hrows : (0 < numRows)%nat.
Hypothesis Hcols : (0 < numCols)%nat.


(** A run of columns: one kind, and a mixed column on its own. *)
Lemma slice_facts ab :
  ab ∈ runs (column_cut t) numCols →
  let s := slice_of t ab in
  (startCol s ≤ endCol s < numCols)%nat ∧ (kind s = colMixed → endCol s = startCol s) ∧
  ∀ c, within ab c → kind_at (classifyColumns t numCols) c = kind s.
Proof.
  intros Hab. destruct (runs_tile (column_cut t) numCols Hcols) as [Hr _].
  destruct (Hr ab Hab) as [Hlt Hcut]. cbn zeta. unfold slice_of; simpl.
  assert (∀ c, (ab.1 < c ≤ ab.2)%nat → kind_at (classifyColumns t numCols) c =
    kind_at (classifyColumns t numCols) ab.1 ∧ kind_at (classifyColumns t numCols) c ≠ colMixed) as Hk.
  { intros c Hc. specialize (Hcut c Hc). unfold column_cut in Hcut. bool_to_prop. done. }
  split; [done|]. split.
  - intros Hm. destruct (decide (ab.1 = ab.2)) as [|Hn]; [done|].
    destruct (Hk (S ab.1)) as [E1 E2]; [lia|]. congruence.
  - intros c [H1 H2]. destruct (decide (c = ab.1)) as [->|]; [done|]. apply Hk. lia.
Qed.

Lemma slice_block_facts s b :
  b ∈ slice_blocks t s → (startCol s ≤ endCol s)%nat → (kind s = colMixed → endCol s = startCol s) →
  b_c0 b = startCol s ∧ b_c1 b = endCol s ∧ (b_r0 b ≤ b_r1 b < numRows)%nat ∧
  match kind s with
  | colMixed => ∀ i, within (b_r0 b, b_r1 b) i → row_formula t (startCol s) i = b_formula b
  | k => b_formula b = bool_decide (k = colFormula)
  end.
Proof.
  unfold slice_blocks. intros Hb Hs Hm. destruct (kind s) eqn:Ek.
  1,2: apply list_elem_of_singleton in Hb as ->; simpl; repeat split; lia.
  apply list_elem_of_In, in_map_iff in Hb as (ab & <- & Hab). simpl.
  apply list_elem_of_In in Hab.
  destruct (runs_tile (row_cut t (startCol s)) numRows Hrows) as [Hr _].
  destruct (Hr ab Hab) as [Hlt Hcut]. rewrite Hm by done. repeat split; try lia.
  intros i [H1 H2]. simpl in *. destruct (decide (i = ab.1)) as [->|]; [done|].
  specialize (Hcut i ltac:(lia)). unfold row_cut in Hcut. by bool_to_prop.
Qed.

Lemma data_block_slice b :
  b ∈ data_blocks t ↔ ∃ ab, ab ∈ runs (column_cut t) numCols ∧ b ∈ slice_blocks t (slice_of t ab).
Proof.
  unfold data_blocks. rewrite list_elem_of_In, in_flat_map. setoid_rewrite in_map_iff.
  setoid_rewrite list_elem_of_In. naive_solver.
Qed.

(** A block is inside the table, and evaluated exactly when the cells it covers
    are formulas. *)
Lemma data_block_facts b :
  b ∈ data_blocks t →
  (b_c0 b ≤ b_c1 b < numCols)%nat ∧ (b_r0 b ≤ b_r1 b < numRows)%nat ∧
  ∀ j i cell, covers b (j, i) → row_at t i !! j = Some cell → IsFormula cell = b_formula b.
Proof.
  intros (ab & Hab & Hb)%data_block_slice.
  destruct (slice_facts ab Hab) as (Hs & Hm & Hk). cbn zeta in *.
  destruct (slice_block_facts _ _ Hb) as (E0 & E1 & Hr & Hf); [lia|done|].
  split; [lia|]. split; [done|]. intros j i cell [Hj Hi] Hcell. simpl in *.
  assert (j < numCols)%nat as Hjc by lia.
  pose proof (Hk j ltac:(unfold within; lia)) as Ekind.
  pose proof (classify_spec t numCols j Hjc) as Hcl. rewrite Ekind in Hcl.
  assert (row_at t i ∈ Rows t) as Hrow.
  { unfold row_at. apply list_elem_of_In, nth_In. lia. }
  simpl in Ekind, Hcl, Hf, Hm.
  destruct (kind_at (classifyColumns t numCols) ab.1) eqn:E.
  - rewrite Hf. apply not_true_is_false. intros Hx. apply (Hcl _ Hrow). by exists cell.
  - rewrite Hf. apply not_false_is_true. intros Hx. apply (Hcl _ Hrow). by exists cell.
  - specialize (Hf i ltac:(unfold within; simpl; lia)). unfold row_formula, cellIsFormulaAt in Hf.
    assert (j = ab.1) as -> by (specialize (Hm eq_refl); lia). by rewrite Hcell in Hf.
Qed.

Lemma data_blocks_cover j i :
  (j < numCols)%nat → (i < numRows)%nat → ∃ b, b ∈ data_blocks t ∧ covers b (j, i).
Proof.
  intros Hj Hi. destruct (runs_tile (column_cut t) numCols Hcols) as (_ & Hcov & _).
  destruct (Hcov j Hj) as (ab & Hab & Hw). setoid_rewrite data_block_slice.
  destruct (slice_facts ab Hab) as (Hs & Hm & _). cbn zeta in *.
  unfold slice_blocks, covers. simpl in *.
  destruct (kind_at (classifyColumns t numCols) ab.1) eqn:E.
  1,2: eexists; (split; [exists ab; split; [done|]; simpl; rewrite E; by apply list_elem_of_singleton|]);
    unfold within in Hw; simpl; lia.
  destruct (runs_tile (row_cut t ab.1) numRows Hrows) as (_ & Hrc & _).
  destruct (Hrc i Hi) as (rr & Hrr & Hwr).
  exists (mkBlock ab.1 ab.1 rr.1 rr.2 (row_formula t ab.1 rr.1)). split.
  - exists ab. split; [done|]. simpl. rewrite E. apply list_elem_of_In, in_map_iff.
    exists rr. split; [done|]. by apply list_elem_of_In.
  - specialize (Hm eq_refl). unfold within in *. simpl. lia.
Qed.

Lemma data_blocks_exclusive : exclusive covers (data_blocks t).
Proof.
  destruct (runs_tile (column_cut t) numCols Hcols) as (_ & _ & Hex). unfold data_blocks.
  rewrite flat_map_concat_map, map_map, <- flat_map_concat_map.
  apply (exclusive_flat_map _ within _ fst); [done|..].
  - intros ab Hab. unfold slice_blocks. destruct (kind (slice_of t ab)); try apply exclusive_single.
    apply exclusive_map. simpl. intros k1 k2 x y p H1 H2 [_ Hx] [_ Hy].
    destruct (runs_tile (row_cut t ab.1) numRows Hrows) as (_ & _ & Hrex).
    exact (Hrex k1 k2 x y p.2 H1 H2 Hx Hy).
  - intros ab b p Hab Hb [Hp _].
    destruct (slice_facts ab Hab) as (Hs & Hm & _). cbn zeta in *.
    destruct (slice_block_facts _ _ Hb) as (E0 & E1 & _); [lia|done|].
    unfold within. rewrite E0, E1 in Hp. done.
Qed.
End tiling.

(** ** What the updates write *)

(** The API fills a range row by row from its first cell. *)
Definition writes_to (b : valueUpdateBatch) (pos : Z * Z) (v : value) : Prop :=
  ∃ title c0 r0 q i j vals, parse_range (Range b) = Some (title, (c0, r0), q) ∧
    Values b !! i = Some vals ∧ vals !! j = Some v ∧ pos = (c0 + Z.of_nat j, r0 + Z.of_nat i).

(** A range of this sheet; when it names its last cell, the values have its shape. *)
Definition fits (title : string) (b : valueUpdateBatch) : Prop :=
  ∃ c0 r0 q, parse_range (Range b) = Some (title, (c0, r0), q) ∧
    match q with
    | Some (c1, r1) => Z.of_nat (length (Values b)) = r1 - r0 + 1 ∧
        Forall (λ vals : list value, Z.of_nat (length vals) = c1 - c0 + 1) (Values b)
    | None => True
    end.

Definition data_start (t : Table) : Z := match Headers t with [] => 1 | _ => 2 end.

(** What the table says of a position (column from 0, row from 1): how it is to be
    written, and its value. *)
Definition expected (t : Table) (pos : Z * Z) : option (string * value) :=
  let '(col, row) := pos in
  if (row <? data_start t) then
    if row =? 1 then h ← column col (Headers t); Some (InputOptionRaw, VString h) else None
  else
    r ← column (row - data_start t) (Rows t);
    c ← column col r;
    Some (option_of (IsFormula c), RawVal c).

(** A position of the data rows that a short row leaves without a cell. *)
Definition gap (t : Table) (pos : Z * Z) : Prop :=
  expected t pos = None ∧ data_start t ≤ pos.2 < data_start t + Z.of_nat (length (Rows t)) ∧
  0 ≤ pos.1 < Z.of_nat (ColCount t).

Lemma column_nat {A} (l : list A) n : column (Z.of_nat n) l = l !! n.
Proof. unfold column. rewrite (proj2 (Z.leb_le _ _)) by lia. by rewrite Nat2Z.id. Qed.

Lemma column_Some {A} (l : list A) z x :
  column z l = Some x ↔ ∃ n, z = Z.of_nat n ∧ l !! n = Some x.
Proof.
  unfold column. split.
  - destruct (Z.leb_spec 0 z); [|done]. intros H1. exists (Z.to_nat z). split; [lia|done].
  - intros (n & -> & H). rewrite (proj2 (Z.leb_le _ _)) by lia. by rewrite Nat2Z.id.
Qed.

Lemma row_at_lookup t i r : Rows t !! i = Some r → row_at t i = r.
Proof. apply nth_lookup_Some. Qed.

Lemma expected_data t j i :
  (i < length (Rows t))%nat →
  expected t (Z.of_nat j, data_start t + Z.of_nat i) =
  c ← row_at t i !! j; Some (option_of (IsFormula c), RawVal c).
Proof.
  intros Hi. unfold expected. rewrite (proj2 (Z.ltb_ge _ _)) by lia.
  replace (data_start t + Z.of_nat i - data_start t) with (Z.of_nat i) by lia.
  rewrite column_nat. destruct (lookup_lt_is_Some_2 (Rows t) i Hi) as [r Hr].
  rewrite Hr. simpl. by rewrite column_nat, (row_at_lookup t i r Hr).
Qed.

Lemma expected_header t j h :
  Headers t !! j = Some h → expected t (Z.of_nat j, 1) = Some (InputOptionRaw, VString h) ∧
    data_start t = 2.
Proof.
  intros H. unfold expected, data_start. destruct (Headers t) eqn:E; [done|]. simpl.
  by rewrite column_nat, H.
Qed.

(** What [expected] says comes from a header or from a cell. *)
Lemma expected_Some t pos ov :
  expected t pos = Some ov →
  (∃ j h, pos = (Z.of_nat j, 1) ∧ Headers t !! j = Some h ∧ ov = (InputOptionRaw, VString h)) ∨
  (∃ j i r c, pos = (Z.of_nat j, data_start t + Z.of_nat i) ∧ Rows t !! i = Some r ∧
     r !! j = Some c ∧ ov = (option_of (IsFormula c), RawVal c)).
Proof.
  destruct pos as [col row]. unfold expected.
  destruct (Z.ltb_spec row (data_start t)).
  - destruct (Z.eqb_spec row 1) as [->|]; [|done]. intros (h & Hh & [= <-])%bind_Some.
    apply column_Some in Hh as (j & -> & Hh). left. by exists j, h.
  - intros (r & Hr & (c & Hc & [= <-])%bind_Some)%bind_Some.
    apply column_Some in Hr as (i & Hi & Hr), Hc as (j & -> & Hc).
    right. exists j, i, r, c. split; [f_equal; lia|done].
Qed.

(** The update of the headers. *)
Definition header_batch (title : string) (t : Table) : valueUpdateBatch :=
  mkBatch (EscapeSheetTitle title +:+ "!" +:+ cell_ref 0 1 +:+ ":" +:+ cell_ref (length (Headers t) - 1) 1)
    InputOptionRaw [header_row t].

Lemma header_batch_writes title t pos v :
  Headers t ≠ [] →
  fits title (header_batch title t) ∧
  (writes_to (header_batch title t) pos v ↔
   ∃ j h, pos = (Z.of_nat j, 1) ∧ Headers t !! j = Some h ∧ v = VString h).
Proof.
  intros Hh. assert (0 < length (Headers t))%nat by (destruct (Headers t); [done|simpl; lia]).
  pose proof (parse_range_two title 0 1 (length (Headers t) - 1) 1 ltac:(lia) ltac:(lia)) as E. split.
  - exists 0, 1, (Some (Z.of_nat (length (Headers t) - 1), 1)). split; [exact E|].
    split; [done|]. apply Forall_singleton. unfold header_row. rewrite length_map. lia.
  - unfold writes_to. simpl Range. rewrite E. simpl Values. split.
    + intros (? & ? & ? & ? & i & j & vals & [= <- <- <- <-] & Hi & Hj & ->).
      apply list_lookup_singleton_Some in Hi as [-> <-]. unfold header_row in Hj.
      apply list_lookup_fmap_Some in Hj as (h & -> & Hj). by exists j, h.
    + intros (j & h & -> & Hj & ->). do 4 eexists. exists 0%nat, j, (header_row t).
      split; [done|]. split; [done|]. unfold header_row. split; [|f_equal; lia].
      by rewrite list_lookup_fmap, Hj.
Qed.

Lemma block_batch_writes title t start b pos v :
  0 ≤ start → (b_c0 b ≤ b_c1 b)%nat → (b_r0 b ≤ b_r1 b)%nat →
  fits title (block_batch title t start b) ∧
  (writes_to (block_batch title t start b) pos v ↔
   ∃ j i, covers b (j, i) ∧ pos = (Z.of_nat j, start + Z.of_nat i) ∧ v = cellValueAt (row_at t i) j).
Proof.
  intros Hs Hc Hr.
  pose proof (parse_range_two title (b_c0 b) (start + Z.of_nat (b_r0 b)) (b_c1 b)
    (start + Z.of_nat (b_r1 b)) ltac:(lia) ltac:(lia)) as E. split.
  - do 3 eexists. split; [exact E|]. simpl. rewrite length_map, length_seq. split; [lia|].
    apply Forall_forall. intros vals Hv. apply list_elem_of_In, in_map_iff in Hv as (r & <- & _).
    rewrite length_map, length_seq. lia.
  - unfold writes_to. change (Range (block_batch title t start b)) with
      (EscapeSheetTitle title +:+ "!" +:+ cell_ref (b_c0 b) (start + Z.of_nat (b_r0 b)) +:+ ":" +:+
           cell_ref (b_c1 b) (start + Z.of_nat (b_r1 b))).
    rewrite E. simpl Values. unfold covers. simpl. split.
    + intros (? & ? & ? & ? & i & j & vals & [= <- <- <- <-] & Hi & Hj & ->).
      apply list_lookup_fmap_Some in Hi as (r & -> & [-> Hi]%lookup_seq).
      apply list_lookup_fmap_Some in Hj as (c & -> & [-> Hj]%lookup_seq).
      exists (b_c0 b + j)%nat, (b_r0 b + i)%nat. split; [lia|]. split; [f_equal; lia|done].
    + intros (j & i & [Hj Hi] & -> & ->). do 4 eexists. exists (i - b_r0 b)%nat, (j - b_c0 b)%nat.
      eexists. split; [done|]. rewrite list_lookup_fmap, lookup_seq_lt by lia. split; [done|].
      rewrite list_lookup_fmap, lookup_seq_lt by lia. simpl. split; [|f_equal; lia].
      by replace (b_r0 b + (i - b_r0 b))%nat with i by lia;
        replace (b_c0 b + (j - b_c0 b))%nat with j by lia.
Qed.

Lemma no_formula_cell t i j r c :
  checkTableHasFormulas t = false → Rows t !! i = Some r → r !! j = Some c → IsFormula c = false.
Proof.
  unfold checkTableHasFormulas. intros H Hr Hc. apply not_true_is_false. intros Hf.
  assert (existsb (λ r, existsb IsFormula r) (Rows t) = true) as E; [|congruence].
  apply existsb_exists. exists r. split; [by eapply list_elem_of_In, list_elem_of_lookup_2|].
  apply existsb_exists. exists c. split; [by eapply list_elem_of_In, list_elem_of_lookup_2|done].
Qed.

Lemma raw_batch_writes title t b pos v :
  b ∈ buildAllRawBatch (EscapeSheetTitle title) t → checkTableHasFormulas t = false →
  ValueInputOption b = InputOptionRaw ∧ fits title b ∧
  (writes_to b pos v ↔ expected t pos = Some (InputOptionRaw, v)).
Proof.
  intros Hb Hf. unfold buildAllRawBatch in Hb. apply list_elem_of_singleton in Hb as ->.
  pose proof (parse_range_one title 0 1 ltac:(lia)) as E.
  change (EscapeSheetTitle title +:+ "!" +:+ cell_ref 0 1) with (EscapeSheetTitle title +:+ "!A1") in E.
  split; [done|]. split; [by exists 0, 1, None|]. unfold writes_to. simpl Range. rewrite E. simpl Values.
  set (hd := match Headers t with [] => [] | _ => [header_row t] end).
  assert (data_start t = 1 + Z.of_nat (length hd)) as Es.
  { unfold data_start, hd. by destruct (Headers t). }
  split.
  - intros (? & ? & ? & ? & i & j & vals & [= <- <- <- <-] & Hi & Hj & ->).
    apply lookup_app_Some in Hi as [Hi|[Hlen Hi]].
    + unfold hd in Hi. destruct (Headers t) eqn:Eh; [done|].
      apply list_lookup_singleton_Some in Hi as [-> <-]. unfold header_row in Hj.
      apply list_lookup_fmap_Some in Hj as (h & -> & Hj). simpl.
      by apply (expected_header t j h).
    + apply list_lookup_fmap_Some in Hi as (r & -> & Hi).
      apply list_lookup_fmap_Some in Hj as (c & -> & Hj).
      replace (Z.of_nat 0 + Z.of_nat j, 1 + Z.of_nat i) with
        (Z.of_nat j, data_start t + Z.of_nat (i - length hd)) by (f_equal; lia).
      rewrite expected_data by (by eapply lookup_lt_Some). rewrite (row_at_lookup _ _ _ Hi), Hj.
      simpl. by rewrite (no_formula_cell t _ j r c Hf Hi Hj).
  - intros [(j & h & -> & Hh & [= ->])|(j & i & r & c & -> & Hr & Hc & [= _ ->])]%expected_Some.
    + do 4 eexists. exists 0%nat, j, (header_row t). split; [done|].
      unfold hd, header_row. destruct (Headers t) eqn:Eh; [done|]. split; [done|].
      rewrite list_lookup_fmap, Hh. split; [done|f_equal; lia].
    + do 4 eexists. exists (length hd + i)%nat, j, (map RawVal r). split; [done|].
      rewrite lookup_app_r, Nat.add_comm, Nat.add_sub by lia. rewrite list_lookup_fmap, Hr.
      split; [done|]. rewrite list_lookup_fmap, Hc. split; [done|f_equal; lia].
Qed.

Definition header_part (title : string) (t : Table) : list valueUpdateBatch :=
  match Headers t with [] => [] | _ => [header_batch title t] end.

Lemma prepare_cases title t :
  let bs := prepareValueUpdates title (Some t) in
  (bs = [] ∧ ColCount t = 0%nat) ∨
  (checkTableHasFormulas t = false ∧ bs = buildAllRawBatch (EscapeSheetTitle title) t) ∨
  ((0 < length (Rows t))%nat ∧ (0 < ColCount t)%nat ∧
   bs = header_part title t ++ map (block_batch title t (data_start t)) (data_blocks t)).
Proof.
  cbn zeta. unfold prepareValueUpdates.
  destruct ((length (Headers t) =? 0)%nat && (length (Rows t) =? 0)%nat) eqn:E0.
  { left. split; [done|]. apply andb_true_iff in E0 as [H1 H2]. unfold ColCount.
    apply Nat.eqb_eq, length_zero_nil in H1, H2. by rewrite H1, H2. }
  destruct (Nat.eqb_spec (ColCount t) 0) as [|Hc]; [by left|]. right.
  destruct (checkTableHasFormulas t) eqn:Ef; [right|by left]. simpl.
  assert (0 < length (Rows t))%nat as Hr.
  { unfold checkTableHasFormulas in Ef. destruct (Rows t); [done|simpl; lia]. }
  split; [done|]. split; [lia|]. unfold buildMixedModeBatches, header_part, data_start.
  assert (∀ start acc, match Rows t with
    | [] => acc
    | _ => fold_left (λ batches s, batches ++ slice_batches (EscapeSheetTitle title) t start s)
             (partitionColumns t (ColCount t)) acc
    end = acc ++ map (block_batch title t start) (data_blocks t)) as Hd.
  { intros start acc. pose proof (data_batches title t start acc Hr ltac:(lia)) as E. rewrite <- E.
    destruct (Rows t); [simpl in Hr; lia|done]. }
  destruct (Headers t) as [|h hs] eqn:Eh; [apply Hd|]. rewrite Hd. f_equal. f_equal.
  unfold header_batch. rewrite Eh. simpl length. f_equal. f_equal.
  assert (Z.of_nat (S (length hs)) - 1 = Z.of_nat (S (length hs) - 1)) as -> by lia.
  unfold cell_ref. done.
Qed.

(** *** The parts of the theorem *)

Lemma prepare_fits title t b :
  b ∈ prepareValueUpdates title (Some t) → fits title b.
Proof.
  destruct (prepare_cases title t) as [[-> _]|[[Hf ->]|(Hr & Hc & ->)]].
  - by intros Hb%elem_of_nil.
  - intros Hb. by apply (raw_batch_writes title t b (0, 0) VNil).
  - intros [Hb|Hb]%elem_of_app.
    + unfold header_part in Hb. destruct (Headers t) as [|h hs] eqn:E; [by apply elem_of_nil in Hb|].
      apply list_elem_of_singleton in Hb as ->.
      apply (header_batch_writes title t (0, 0) VNil). by rewrite E.
    + apply list_elem_of_In, in_map_iff in Hb as (bl & <- & Hbl). apply list_elem_of_In in Hbl.
      destruct (data_block_facts t Hr Hc bl Hbl) as (? & ? & _).
      apply (block_batch_writes title t (data_start t) bl (0, 0) VNil); [|lia..].
      unfold data_start. by destruct (Headers t).
Qed.

Lemma block_writes_sound title t bl pos v :
  (0 < length (Rows t))%nat → (0 < ColCount t)%nat → bl ∈ data_blocks t →
  writes_to (block_batch title t (data_start t) bl) pos v →
  expected t pos = Some (option_of (b_formula bl), v) ∨ gap t pos ∧ v = VString "".
Proof.
  intros Hr Hc Hbl Hw. destruct (data_block_facts t Hr Hc bl Hbl) as (Hcs & Hrs & Hf).
  apply block_batch_writes in Hw as (j & i & Hcov & -> & ->);
    [|by unfold data_start; destruct (Headers t)|lia..].
  pose proof Hcov as [Hj Hi]. simpl in Hj, Hi.
  pose proof (expected_data t j i ltac:(lia)) as E. unfold gap. rewrite E.
  unfold cellValueAt. destruct (row_at t i !! j) as [c|] eqn:Ec.
  - left. simpl. by rewrite (Hf j i c Hcov Ec).
  - right. simpl. repeat split; lia.
Qed.

Lemma prepare_sound title t b pos v :
  b ∈ prepareValueUpdates title (Some t) → writes_to b pos v →
  expected t pos = Some (ValueInputOption b, v) ∨ gap t pos ∧ v = VString "".
Proof.
  destruct (prepare_cases title t) as [[-> _]|[[Hf ->]|(Hr & Hc & ->)]].
  - by intros Hb%elem_of_nil.
  - intros Hb Hw. left. destruct (raw_batch_writes title t b pos v Hb Hf) as (-> & _ & H).
    by apply H.
  - intros [Hb|Hb]%elem_of_app Hw.
    + left. unfold header_part in Hb.
      destruct (Headers t) as [|h hs] eqn:E; [by apply elem_of_nil in Hb|].
      apply list_elem_of_singleton in Hb as ->.
      apply header_batch_writes in Hw as (j & h' & -> & Hh & ->); [|by rewrite E].
      by apply expected_header.
    + apply list_elem_of_In, in_map_iff in Hb as (bl & <- & Hbl). apply list_elem_of_In in Hbl.
      by apply (block_writes_sound title).
Qed.

Lemma prepare_complete title t pos opt v :
  expected t pos = Some (opt, v) →
  ∃ b, b ∈ prepareValueUpdates title (Some t) ∧ ValueInputOption b = opt ∧ writes_to b pos v.
Proof.
  intros He. destruct (prepare_cases title t) as [[_ H0]|[[Hf ->]|(Hr & Hc & ->)]].
  - exfalso. destruct (colcount_bound t) as [Hh Hrs]. rewrite H0 in Hh, Hrs.
    apply expected_Some in He as [(j & h & _ & Hl & _)|(j & i & r & c & _ & Hl & Hl' & _)].
    + apply lookup_lt_Some in Hl. lia.
    + specialize (Hrs r (list_elem_of_lookup_2 _ _ _ Hl)). apply lookup_lt_Some in Hl'. lia.
  - pose proof He as Hopt. apply expected_Some in Hopt.
    assert (opt = InputOptionRaw) as ->.
    { destruct Hopt as [(? & ? & _ & _ & [= -> _])|(j & i & r & c & _ & Hi & Hj & [= -> _])]; [done|].
      by rewrite (no_formula_cell t i j r c Hf Hi Hj). }
    eexists. split; [by apply list_elem_of_singleton|]. split; [done|].
    by apply (raw_batch_writes title t); [apply list_elem_of_singleton|..].
  - pose proof He as Hcase.
    apply expected_Some in Hcase as [(j & h & -> & Hh & [= -> ->])|(j & i & r & c & -> & Hi & Hj & [= -> ->])].
    + exists (header_batch title t). assert (Headers t ≠ []) as Hn by (by intros E; rewrite E in Hh).
      split; [|split; [done|]].
      * apply elem_of_app. left. unfold header_part. destruct (Headers t); [done|].
        by apply list_elem_of_singleton.
      * apply header_batch_writes; [done|]. by exists j, h.
    + assert (i < length (Rows t))%nat as Hil by (by eapply lookup_lt_Some).
      assert (j < ColCount t)%nat as Hjl.
      { destruct (colcount_bound t) as [_ Hrs].
        specialize (Hrs r (list_elem_of_lookup_2 _ _ _ Hi)). apply lookup_lt_Some in Hj. lia. }
      destruct (data_blocks_cover t Hr Hc j i Hjl Hil) as (bl & Hbl & Hcov).
      destruct (data_block_facts t Hr Hc bl Hbl) as (Hcs & Hrs & Hf).
      rewrite <- (row_at_lookup t i r Hi) in Hj.
      exists (block_batch title t (data_start t) bl). split; [|split].
      * apply elem_of_app. right. apply list_elem_of_In, in_map, list_elem_of_In. done.
      * simpl. by rewrite (Hf j i c Hcov Hj).
      * apply block_batch_writes; [by unfold data_start; destruct (Headers t)|lia..|].
        exists j, i. split; [done|]. split; [done|]. unfold cellValueAt. by rewrite Hj.
Qed.

Lemma prepare_exclusive title t :
  exclusive (λ b pos, ∃ v, writes_to b pos v) (prepareValueUpdates title (Some t)).
Proof.
  destruct (prepare_cases title t) as [[-> _]|[[Hf ->]|(Hr & Hc & ->)]].
  - apply exclusive_nil.
  - apply exclusive_single.
  - assert (0 ≤ data_start t) as Hs by (by unfold data_start; destruct (Headers t)).
    apply exclusive_app.
    + unfold header_part. destruct (Headers t); [apply exclusive_nil|apply exclusive_single].
    + apply exclusive_map. intros k1 k2 x y p Hx Hy [v Hv] [w Hw].
      destruct (data_block_facts t Hr Hc x (list_elem_of_lookup_2 _ _ _ Hx)) as (? & ? & _).
      destruct (data_block_facts t Hr Hc y (list_elem_of_lookup_2 _ _ _ Hy)) as (? & ? & _).
      apply block_batch_writes in Hv as (j & i & Hcx & -> & _); [|lia..].
      apply block_batch_writes in Hw as (j' & i' & Hcy & [= Ej Ei] & _); [|lia..].
      assert (j' = j ∧ i' = i) as [-> ->] by lia.
      exact (data_blocks_exclusive t Hr Hc k1 k2 x y (j, i) Hx Hy Hcx Hcy).
    + intros x y p Hx Hy [v Hv] [w Hw]. unfold header_part, data_start in *.
      destruct (Headers t) as [|h hs] eqn:E; [by apply elem_of_nil in Hx|].
      apply list_elem_of_singleton in Hx as ->.
      apply header_batch_writes in Hv as (j & h' & -> & _); [|by rewrite E].
      apply list_elem_of_In, in_map_iff in Hy as (bl & <- & Hbl). apply list_elem_of_In in Hbl.
      destruct (data_block_facts t Hr Hc bl Hbl) as (? & ? & _).
      apply block_batch_writes in Hw as (j' & i' & _ & [= _ Ei] & _); lia.
Qed.

(** C12: the updates of a table write it exactly. Every header is written, as
    literal text, and every cell, with its value, evaluated (USER_ENTERED) when it
    is a formula and literally (RAW) when it is not. The only other positions
    written are gaps that short rows leave, with the empty text. No position is
    written twice, every range names the sheet, quoted, and every range with two
    corners has the shape of its values. *)
Theorem prepare_exact (title : string) (t : Table) :
  let bs := prepareValueUpdates title (Some t) in
  Forall (fits title) bs ∧ exclusive (λ b pos, ∃ v, writes_to b pos v) bs ∧
  (∀ pos opt v, expected t pos = Some (opt, v) →
     ∃ b, b ∈ bs ∧ ValueInputOption b = opt ∧ writes_to b pos v) ∧
  (∀ b pos v, b ∈ bs → writes_to b pos v →
     expected t pos = Some (ValueInputOption b, v) ∨ gap t pos ∧ v = VString "").
Proof.
  cbn zeta. split; [apply Forall_forall; intros b; apply prepare_fits|].
  split; [apply prepare_exclusive|]. split; [apply prepare_complete|apply prepare_sound].
Qed.

(** C13: no injection: whatever text the headers and the ordinary cells hold, an
    update that the spreadsheet evaluates writes only formula cells of the table
    and the empty text. *)
Theorem no_injection (title : string) (t : option Table) b pos v :
  b ∈ prepareValueUpdates title t → ValueInputOption b ≠ InputOptionRaw → writes_to b pos v →
  ∃ tbl, t = Some tbl ∧
    (v = VString "" ∧ gap tbl pos ∨
     ∃ i j r c, pos = (Z.of_nat j, data_start tbl + Z.of_nat i) ∧ Rows tbl !! i = Some r ∧
       r !! j = Some c ∧ IsFormula c = true ∧ RawVal c = v).
Proof.
  destruct t as [tbl|]; [|by intros Hb%elem_of_nil]. intros Hb Ho Hw. exists tbl. split; [done|].
  destruct (prepare_sound title tbl b pos v Hb Hw) as [He|[? ->]]; [|by left]. right.
  apply expected_Some in He as [(j & h & _ & _ & [= E _])|(j & i & r & c & -> & Hi & Hj & [= E ->])].
  - done.
  - exists i, j, r, c. repeat split; try done. destruct (IsFormula c); [done|]. done.
Qed.

(** ** Witnesses *)

Definition demo_table : Table :=
  mkTable ["Name"; "Link"]
    [[mkCell (VString "=EVIL()") false ""; mkCell (VString "=A1") true ""];
     [mkCell (VString "b") false ""; mkCell (VString "=text") false ""]; []] ∅ ∅.

Lemma no_injection_witness :
  ∃ b, b ∈ prepareValueUpdates "it's" (Some demo_table) ∧
    Range b = "'it''s'!B2:B2" ∧ writes_to b (1, 2) (VString "=A1") ∧
    ∃ i j r c, Rows demo_table !! i = Some r ∧ r !! j = Some c ∧ IsFormula c = true.
Proof.
  set (b := mkBatch "'it''s'!B2:B2" InputOptionUserEntered [[VString "=A1"]]).
  assert (Hb : b ∈ prepareValueUpdates "it's" (Some demo_table)).
  { apply list_elem_of_lookup. exists 2%nat. vm_compute. reflexivity. }
  assert (Hw : writes_to b (1, 2) (VString "=A1")).
  { exists "it's", 1, 2, (Some (1, 2)), 0%nat, 0%nat, [VString "=A1"].
    split; [vm_compute; reflexivity|]. repeat split. }
  exists b. split; [exact Hb|]. split; [reflexivity|]. split; [exact Hw|].
  destruct (no_injection "it's" (Some demo_table) b (1, 2) (VString "=A1") Hb ltac:(discriminate) Hw)
    as (tbl & [= <-] & [[H _]|(i & j & r & c & _ & Hi & Hj & Hf & _)]); [discriminate|].
  exists i, j, r, c. split; [exact Hi|]. split; [exact Hj|exact Hf].
Defined.
End batch.
