(* ===== verification/SheetsFormat.v ===== *)
(** * google/workspace/sheets: formatting requests

    Models [src/go/google/workspace/sheets/formatter.go]: the batch of requests
    that styles a tab, the widths of its columns, and its rich links. A request
    of the Sheets API has the fields the code sets; a bound of a range that is
    zero is not sent, which the API takes for no bound. *)

From S2P Require Import Prelude GoStrings GoFloat GoErr SheetsCells SheetsBatch.
From Stdlib Require Import Ascii.

Module format.
Import cells.

Record GridRange := mkRange {
  SheetId : Z; StartRowIndex : Z; EndRowIndex : Z; StartColumnIndex : Z; EndColumnIndex : Z
}.

(** The format of a cell: its background, and whether its text is bold and in
    which colour. *)
Record CellFormat := mkCellFormat { BackgroundColor : Color; Bold : bool; ForegroundColor : Color }.

Record GridProperties := mkGrid {
  grid_RowCount : Z; grid_ColumnCount : Z; FrozenRowCount : Z; FrozenColumnCount : Z
}.

Inductive Request :=
| DeleteBanding (BandedRangeId : Z)
| UpdateSheetProperties (sheetId : Z) (grid : GridProperties) (Fields : string)
| RepeatCell (range : GridRange) (UserEnteredFormat : option CellFormat) (Fields : string)
| AddBanding (range : GridRange) (FirstBandColor SecondBandColor : Color)
| AutoResizeDimensions (sheetId : Z) (Dimension : string) (StartIndex EndIndex : Z)
| UpdateDimensionProperties (sheetId : Z) (Dimension : string) (StartIndex EndIndex PixelSize : Z)
    (Fields : string)
| UpdateCells (range : GridRange) (Uri : string) (Fields : string)
| AddSheet (Title : string)
| DeleteSheet (sheetId : Z).

Definition fieldMaskTextFormatRuns : string := "textFormatRuns".

Section with_formats.
Context {F : Formats}.

(** ** Rich links *)

Definition link_request (sheetID : Z) (headerOffset : Z) (rIdx cIdx : nat) (cell : Cell)
  : list Request :=
  if bool_decide (LinkURL cell = "") then []
  else
    let r := Z.of_nat rIdx + headerOffset in
    [UpdateCells (mkRange sheetID r (r + 1) (Z.of_nat cIdx) (Z.of_nat cIdx + 1)) (LinkURL cell)
       fieldMaskTextFormatRuns].

Definition buildRichLinkRequests (sheetID : Z) (table : option Table) : list Request :=
  match table with
  | None => []
  | Some table =>
      let headerOffset := match Headers table with [] => 0 | _ => 1 end in
      concat (imap (λ rIdx row, concat (imap (link_request sheetID headerOffset rIdx) row))
                (Rows table))
  end.

(** ** Frozen rows, header, bands *)

Definition buildFreezeAndClearRequests (sheetID frozenRows frozenCols totalRows : Z) : list Request :=
  UpdateSheetProperties sheetID (mkGrid 0 0 frozenRows frozenCols)
    "gridProperties.frozenRowCount,gridProperties.frozenColumnCount" ::
  (if frozenRows <? totalRows
   then [RepeatCell (mkRange sheetID frozenRows 0 0 0) None "userEnteredFormat"] else []).

Definition buildHeaderFormatRequest (sheetID frozenRows : Z) (theme : Theme) : option Request :=
  if frozenRows <=? 0 then None
  else Some (RepeatCell (mkRange sheetID 0 frozenRows 0 0)
    (Some (mkCellFormat (HeaderBackground theme) (HeaderBold theme) (HeaderForeground theme)))
    "userEnteredFormat(backgroundColor,textFormat)").

Definition buildBandingRequest (sheetID frozenRows totalRows totalCols : Z) (theme : Theme)
  : option Request :=
  if negb (EnableBanding theme) || (totalRows <=? frozenRows) || (totalCols <=? 0) then None
  else Some (AddBanding (mkRange sheetID frozenRows totalRows 0 totalCols)
    (ZebraFirstBand theme) (ZebraSecondBand theme)).

(** ** Column widths *)

Definition defaultEstWidth : Z := 100.
Definition minEstWidth : Z := 60.
Definition charPixelEstimate : Z := 8.
Definition cellPaddingEstimate : Z := 30.

Definition width_at (m : gmap Z Z) (colIdx : Z) : Z := default 0 (m !! colIdx).

Definition resolveColumnConstraint (colIdx : Z) (data : option Table) (theme : option Theme)
  : ColumnConstraint :=
  let constraint := match data with
                    | Some d => constraint_at (ColumnConstraints d) colIdx
                    | None => no_constraint
                    end in
  let '(mkConstraint w mn mx) := constraint in
  let w := match data with
           | Some d => if w =? 0 then width_at (ColumnWidths d) colIdx else w
           | None => w
           end in
  let w := match theme with
           | Some th => if w =? 0 then width_at (theme_ColumnWidths th) colIdx else w
           | None => w
           end in
  let mn := match theme with
            | Some th => if mn <=? 0 then MinColumnWidth th else mn
            | None => mn
            end in
  let mx := match theme with
            | Some th => if mx <=? 0 then MaxColumnWidth th else mx
            | None => mx
            end in
  mkConstraint w mn mx.

Definition clampWidth (w minW maxW : Z) : Z :=
  let w := if 0 <? minW then Z.max w minW else w in
  if 0 <? maxW then Z.min w maxW else w.

Definition estimateColumnContentWidth (data : option Table) (colIdx : nat) : Z :=
  match data with
  | None => defaultEstWidth
  | Some d =>
      let maxChars := match Headers d !! colIdx with Some h => str_len h | None => 0%nat end in
      let maxChars := fold_left (λ maxChars row,
        match row !! colIdx with
        | None => maxChars
        | Some c =>
            let s := Sprint (RawVal c) in
            if (maxChars <? str_len s)%nat then str_len s else maxChars
        end) (Rows d) maxChars in
      let estimated := wrap64 (wrap64 (Z.of_nat maxChars * charPixelEstimate) + cellPaddingEstimate) in
      Z.max estimated minEstWidth
  end.

Definition computeColumnWidth (colIdx : nat) (data : option Table) (theme : option Theme) : Z :=
  let c := resolveColumnConstraint (Z.of_nat colIdx) data theme in
  if 0 <? Width c then clampWidth (Width c) (MinWidth c) (MaxWidth c)
  else if (0 <? MinWidth c) || (0 <? MaxWidth c) then
    let estimated := estimateColumnContentWidth data colIdx in
    clampWidth estimated (MinWidth c) (MaxWidth c)
  else 0.

Definition resolve_step (data : option Table) (theme : option Theme) (resolved : gmap Z Z)
    (colIdx : nat) : gmap Z Z :=
  let w := computeColumnWidth colIdx data theme in
  if 0 <? w then <[Z.of_nat colIdx:=w]> resolved else resolved.

Definition resolveFinalColumnWidths (totalCols : Z) (data : option Table) (theme : option Theme)
  : gmap Z Z :=
  match data, theme with
  | None, None => ∅
  | _, _ => fold_left (resolve_step data theme) (seq 0 (Z.to_nat totalCols)) ∅
  end.

Definition width_request (sheetID : Z) (widths : gmap Z Z) (c : nat) : list Request :=
  match widths !! Z.of_nat c with
  | None => []
  | Some width =>
      if width <=? 0 then []
      else [UpdateDimensionProperties sheetID "COLUMNS" (Z.of_nat c) (Z.of_nat c + 1) width "pixelSize"]
  end.

Definition buildColumnDimensionRequests (sheetID totalCols : Z) (spec : TabSpec) (theme : Theme)
  : list Request :=
  let reqs := if AutoFitColumns theme && (0 <? totalCols)
              then [AutoResizeDimensions sheetID "COLUMNS" 0 totalCols] else [] in
  let widths := resolveFinalColumnWidths totalCols (Data spec) (Some theme) in
  reqs ++ flat_map (width_request sheetID widths) (seq 0 (Z.to_nat totalCols)).

(** ** All requests of a tab *)

Definition option_list {A} (o : option A) : list A := match o with Some x => [x] | None => [] end.

(** The rows frozen when the spec does not say: the header's. *)
Definition frozen_rows (spec : TabSpec) : Z :=
  if (FrozenRows spec =? 0) &&
     match Data spec with Some d => (0 <? length (Headers d))%nat | None => false end
  then 1 else FrozenRows spec.

Definition buildFormatRequests (sheetID : Z) (existingBandedRangeIDs : list Z) (spec : TabSpec)
    (totalRows totalCols : Z) : list Request :=
  if SkipFormatting spec then []
  else
    let theme := default ThemeCorporateNavy (tab_Theme spec) in
    let reqs := if EnableBanding theme then map DeleteBanding existingBandedRangeIDs else [] in
    let frozenRows := frozen_rows spec in
    reqs ++ buildFreezeAndClearRequests sheetID frozenRows (FrozenCols spec) totalRows ++
    option_list (buildHeaderFormatRequest sheetID frozenRows theme) ++
    option_list (buildBandingRequest sheetID frozenRows totalRows totalCols theme) ++
    buildColumnDimensionRequests sheetID totalCols spec theme.

End with_formats.


(** ** Specification *)

Section facts.
Context {F : Formats}.

Lemma estimate_min data c : minEstWidth ≤ estimateColumnContentWidth data c.
Proof. unfold estimateColumnContentWidth, defaultEstWidth, minEstWidth. destruct data; lia. Qed.

Lemma clamp_bounds w mn mx :
  0 < w → 0 < clampWidth w mn mx ∧ (0 < mx → clampWidth w mn mx ≤ mx) ∧
  (0 < mn → mx ≤ 0 ∨ mn ≤ mx → mn ≤ clampWidth w mn mx) ∧
  ((0 < mn → mn ≤ w) → (0 < mx → w ≤ mx) → clampWidth w mn mx = w).
Proof. unfold clampWidth. destruct (Z.ltb_spec 0 mn), (Z.ltb_spec 0 mx); lia. Qed.

(** The first of three widths that is set. *)
Definition first_set (l : list Z) : Z :=
  match filter (λ w, w ≠ 0) l with w :: _ => w | [] => 0 end.

(** The width of a column. Where it comes from: an exact width from the
    table's constraint, else from its widths, else from the theme; bounds from the
    table, else from the theme. It is positive exactly when one of them is; it
    never exceeds a positive maximum, is at least a positive minimum that the
    maximum allows, and is the exact width when that lies within the bounds: the
    bounds win over an exact width, which ColumnConstraint documents the other
    way round. *)
Theorem column_width_spec (col : nat) (data : option Table) (theme : option Theme) :
  let c := resolveColumnConstraint (Z.of_nat col) data theme in
  let w := computeColumnWidth col data theme in
  let own := match data with
             | Some d => constraint_at (ColumnConstraints d) (Z.of_nat col)
             | None => no_constraint
             end in
  Width c = first_set
    [Width own; match data with Some d => width_at (ColumnWidths d) (Z.of_nat col) | None => 0 end;
     match theme with Some th => width_at (theme_ColumnWidths th) (Z.of_nat col) | None => 0 end] ∧
  MinWidth c = (if 0 <? MinWidth own then MinWidth own
                else match theme with Some th => MinColumnWidth th | None => MinWidth own end) ∧
  MaxWidth c = (if 0 <? MaxWidth own then MaxWidth own
                else match theme with Some th => MaxColumnWidth th | None => MaxWidth own end) ∧
  0 ≤ w ∧ (0 < w ↔ 0 < Width c ∨ 0 < MinWidth c ∨ 0 < MaxWidth c) ∧
  (0 < MaxWidth c → w ≤ MaxWidth c) ∧
  (0 < MinWidth c → MaxWidth c ≤ 0 ∨ MinWidth c ≤ MaxWidth c → MinWidth c ≤ w) ∧
  (0 < Width c → (0 < MinWidth c → MinWidth c ≤ Width c) → (0 < MaxWidth c → Width c ≤ MaxWidth c) →
   w = Width c).
Proof.
  cbn zeta. set (c := resolveColumnConstraint _ _ _).
  assert (∀ x y z, first_set [x; y; z] =
    let v := if x =? 0 then y else x in if v =? 0 then z else v) as Hf.
  { intros x y z. unfold first_set. cbn [filter list_filter].
    cbn zeta. repeat destruct (decide _); destruct (Z.eqb_spec x 0); try destruct (Z.eqb_spec y 0);
      try destruct (Z.eqb_spec x 0); subst; try done; lia. }
  split; [|split; [|split]].
  1: unfold c, resolveColumnConstraint; destruct data as [d|], theme as [th|]; simpl;
    try destruct (constraint_at _ _) as [w mn mx]; simpl; rewrite ?Hf; cbn zeta; simpl;
    repeat case_goal; bool_to_prop; congruence.
  1,2: unfold c, resolveColumnConstraint; destruct data as [d|], theme as [th|]; simpl;
    try destruct (constraint_at _ _) as [w mn mx]; simpl; try done;
    repeat case_goal; bool_to_prop; done || lia.
  unfold computeColumnWidth. fold c. pose proof (estimate_min data col) as He. unfold minEstWidth in He.
  destruct (Z.ltb_spec 0 (Width c)).
  { pose proof (clamp_bounds (Width c) (MinWidth c) (MaxWidth c)). intuition lia. }
  pose proof (clamp_bounds (estimateColumnContentWidth data col) (MinWidth c) (MaxWidth c)).
  destruct (Z.ltb_spec 0 (MinWidth c)), (Z.ltb_spec 0 (MaxWidth c)); simpl; intuition lia.
Qed.

(** An exact width gives way to a maximum. *)
Example exact_width_is_clamped :
  computeColumnWidth 0
    (Some (SetColumnBounds (SetColumnWidth (NewTable ["A"]) 0 500) 0 0 400)) None = 400.
Proof. reflexivity. Qed.

Lemma link_requests_mask sheetID table r :
  r ∈ buildRichLinkRequests sheetID table → ∃ rg uri, r = UpdateCells rg uri "textFormatRuns".
Proof.
  destruct table as [t|]; [|by intros Hr%elem_of_nil]. unfold buildRichLinkRequests.
  rewrite elem_of_concat_imap. setoid_rewrite elem_of_concat_imap.
  intros (i & row & _ & j & c & _ & Hr). unfold link_request in Hr.
  case_bool_decide; [by apply elem_of_nil in Hr|].
  apply list_elem_of_singleton in Hr as ->. by eexists _, _.
Qed.

(** Rich links. There is one request per cell with a link, it names the row
    and column of exactly that cell, and that is the position where the value
    updates of the same table write the cell's text. *)
Theorem rich_links_exact (sheetID : Z) (title : string) (t : Table) (r : Request) :
  r ∈ buildRichLinkRequests sheetID (Some t) ↔
  ∃ i j row c, Rows t !! i = Some row ∧ row !! j = Some c ∧ LinkURL c ≠ "" ∧
    let pos := (Z.of_nat j, batch.data_start t + Z.of_nat i) in
    r = UpdateCells (mkRange sheetID (pos.2 - 1) pos.2 pos.1 (pos.1 + 1)) (LinkURL c)
          "textFormatRuns" ∧
    ∃ b, b ∈ batch.prepareValueUpdates title (Some t) ∧ batch.writes_to b pos (RawVal c).
Proof.
  unfold buildRichLinkRequests. rewrite elem_of_concat_imap. setoid_rewrite elem_of_concat_imap.
  assert (∀ i, Z.of_nat i + match Headers t with [] => 0 | _ => 1 end =
    batch.data_start t + Z.of_nat i - 1) as Ho.
  { intros i. unfold batch.data_start. destruct (Headers t); lia. }
  split.
  - intros (i & row & Hi & j & c & Hj & Hr). exists i, j, row, c. do 2 (split; [done|]).
    unfold link_request in Hr. rewrite Ho in Hr. case_bool_decide as Hl; [by apply elem_of_nil in Hr|].
    apply list_elem_of_singleton in Hr as ->. split; [done|]. cbn zeta. simpl.
    rewrite Z.sub_add. split; [done|].
    destruct (batch.prepare_complete title t (Z.of_nat j, batch.data_start t + Z.of_nat i)
      (batch.option_of (IsFormula c)) (RawVal c)) as (b & Hb & _ & Hw); [|by exists b].
    rewrite batch.expected_data by (by eapply lookup_lt_Some).
    by rewrite (batch.row_at_lookup t i row Hi), Hj.
  - intros (i & j & row & c & Hi & Hj & Hl & -> & _). exists i, row. split; [done|].
    exists j, c. split; [done|]. unfold link_request. rewrite bool_decide_eq_false_2 by done.
    apply list_elem_of_singleton. rewrite Ho. simpl. by rewrite Z.sub_add.
Qed.

(** What a formatting request may do: [frozen], [rows] and [cols] are the numbers
    of frozen rows, of rows and of columns. *)
Definition request_ok (sheetID : Z) (bands : list Z) (spec : TabSpec) (rows cols : Z) (r : Request)
  : Prop :=
  let theme := default ThemeCorporateNavy (tab_Theme spec) in
  let frozen := frozen_rows spec in
  match r with
  | DeleteBanding id => id ∈ bands ∧ EnableBanding theme = true
  | UpdateSheetProperties i g mask => i = sheetID ∧ g = mkGrid 0 0 frozen (FrozenCols spec) ∧
      mask = "gridProperties.frozenRowCount,gridProperties.frozenColumnCount"
  | RepeatCell rg (Some f) mask => rg = mkRange sheetID 0 frozen 0 0 ∧ 0 < frozen ∧
      f = mkCellFormat (HeaderBackground theme) (HeaderBold theme) (HeaderForeground theme) ∧
      mask = "userEnteredFormat(backgroundColor,textFormat)"
  | RepeatCell rg None mask => rg = mkRange sheetID frozen 0 0 0 ∧ frozen < rows ∧
      mask = "userEnteredFormat"
  | AddBanding rg c1 c2 => rg = mkRange sheetID frozen rows 0 cols ∧ frozen < rows ∧ 0 < cols ∧
      EnableBanding theme = true
  | AutoResizeDimensions i _ a b => i = sheetID ∧ a = 0 ∧ b = cols ∧ 0 < cols ∧
      AutoFitColumns theme = true
  | UpdateDimensionProperties i _ a b px _ => i = sheetID ∧ 0 ≤ a < cols ∧ b = a + 1 ∧ 0 < px ∧
      px = computeColumnWidth (Z.to_nat a) (Data spec) (Some theme)
  | UpdateCells _ _ _ | AddSheet _ | DeleteSheet _ => False
  end.

Lemma resolved_widths cols data theme c :
  resolveFinalColumnWidths cols data (Some theme) !! Z.of_nat c =
  let w := computeColumnWidth c data (Some theme) in
  if (0 <? w) && (c <? Z.to_nat cols)%nat then Some w else None.
Proof.
  assert (resolveFinalColumnWidths cols data (Some theme) =
    fold_left (resolve_step data (Some theme)) (seq 0 (Z.to_nat cols)) ∅) as ->.
  { by destruct data. }
  cbn zeta. induction (Z.to_nat cols) as [|n IH]; [simpl; by rewrite andb_false_r|].
  rewrite seq_S, fold_left_snoc. unfold resolve_step at 1. simpl (0 + n)%nat.
  destruct (decide (c = n)) as [->|Hn].
  - rewrite (proj2 (Nat.ltb_lt n (S n))), andb_true_r by lia.
    destruct (0 <? computeColumnWidth n data (Some theme)) eqn:E; [by rewrite lookup_insert_eq|].
    rewrite IH, (proj2 (Nat.ltb_ge n n)) by lia. by rewrite andb_false_r.
  - assert ((c <? S n)%nat = (c <? n)%nat) as ->.
    { destruct (Nat.ltb_spec c n); [apply Nat.ltb_lt|apply Nat.ltb_ge]; lia. }
    destruct (0 <? computeColumnWidth n data (Some theme)); [rewrite lookup_insert_ne by lia|]; done.
Qed.

Lemma elem_of_option_list {A} (o : option A) x : x ∈ option_list o ↔ o = Some x.
Proof.
  destruct o; simpl; [rewrite list_elem_of_singleton|rewrite elem_of_nil]; naive_solver.
Qed.

Lemma width_request_spec sheetID cols data theme c r :
  r ∈ width_request sheetID (resolveFinalColumnWidths cols data (Some theme)) c ↔
  let w := computeColumnWidth c data (Some theme) in
  0 < w ∧ (c < Z.to_nat cols)%nat ∧
  r = UpdateDimensionProperties sheetID "COLUMNS" (Z.of_nat c) (Z.of_nat c + 1) w "pixelSize".
Proof.
  unfold width_request. rewrite resolved_widths. cbn zeta.
  destruct (Z.ltb_spec 0 (computeColumnWidth c data (Some theme)));
    destruct (Nat.ltb_spec c (Z.to_nat cols)); simpl; rewrite ?elem_of_nil; try (split; [done|lia]).
  rewrite (proj2 (Z.leb_gt _ _)), list_elem_of_singleton by done. tauto.
Qed.

Lemma format_requests_ok (sheetID : Z) (bands : list Z) (spec : TabSpec) (rows cols : Z) :
  Forall (request_ok sheetID bands spec rows cols) (buildFormatRequests sheetID bands spec rows cols).
Proof.
  unfold buildFormatRequests, request_ok.
  set (theme := default ThemeCorporateNavy (tab_Theme spec)). destruct (SkipFormatting spec); [done|].
  apply Forall_forall. intros r. rewrite !elem_of_app, !elem_of_option_list.
  unfold buildColumnDimensionRequests. rewrite elem_of_app, elem_of_flat_map.
  setoid_rewrite width_request_spec. intros [Hr|[Hr|[Hr|[Hr|[Hr|Hr]]]]].
  - destruct (EnableBanding theme) eqn:E; [|by apply elem_of_nil in Hr].
    apply list_elem_of_In, in_map_iff in Hr as (id & <- & Hid). by apply list_elem_of_In in Hid.
  - apply elem_of_cons in Hr as [->|Hr]; [done|].
    destruct (Z.ltb_spec (frozen_rows spec) rows); [|by apply elem_of_nil in Hr].
    by apply list_elem_of_singleton in Hr as ->.
  - unfold buildHeaderFormatRequest in Hr.
    destruct (Z.leb_spec (frozen_rows spec) 0); simplify_eq. done.
  - unfold buildBandingRequest in Hr. destruct (_ || _) eqn:E; simplify_eq. by bool_to_prop.
  - destruct (AutoFitColumns theme && (0 <? cols)) eqn:E; [|by apply elem_of_nil in Hr].
    apply list_elem_of_singleton in Hr as ->. bool_to_prop. done.
  - destruct Hr as (c & Hc & Hw & Hlt & ->). rewrite Nat2Z.id. repeat split; try done; lia.
Qed.

(** Formatting. A tab that skips formatting gets no request. Otherwise every
    request stays on the tab and within its rows and columns: the header style
    covers the frozen rows, the bands exactly the rows below them, prior bands are
    deleted only when new ones are added, no content is written; and every column
    whose width is determined gets exactly that width. *)
Theorem format_requests_spec (sheetID : Z) (bands : list Z) (spec : TabSpec) (rows cols : Z) :
  let reqs := buildFormatRequests sheetID bands spec rows cols in
  let theme := default ThemeCorporateNavy (tab_Theme spec) in
  (SkipFormatting spec = true → reqs = []) ∧
  Forall (request_ok sheetID bands spec rows cols) reqs ∧
  (SkipFormatting spec = false → ∀ c, Z.of_nat c < cols →
     let w := computeColumnWidth c (Data spec) (Some theme) in 0 < w →
     UpdateDimensionProperties sheetID "COLUMNS" (Z.of_nat c) (Z.of_nat c + 1) w "pixelSize" ∈ reqs).
Proof.
  cbn zeta. split; [unfold buildFormatRequests; by intros ->|].
  split; [apply format_requests_ok|]. intros Hs c Hc Hw. unfold buildFormatRequests. rewrite Hs.
  rewrite !elem_of_app. do 4 right. unfold buildColumnDimensionRequests.
  apply elem_of_app. right. apply elem_of_flat_map. exists c.
  split; [apply list_elem_of_In, in_seq; lia|]. apply width_request_spec. split; [done|].
  split; [lia|done].
Qed.
End facts.
End format.
