(* ===== verification/SheetsService.v ===== *)
(** * google/workspace/sheets: the service

    Models [src/go/google/workspace/sheets/service.go]: finding or creating a tab,
    sizing, clearing, writing and formatting it; creating and synchronizing whole
    documents. The clients of the Sheets and Drive APIs are records of operations
    on a world; a pointer of their answers that may be nil is an [option]. *)

From S2P Require Import Prelude GoStrings GoFloat GoErr GoMonad Gcp Calls.
From S2P Require Import SheetsCells SheetsBatch SheetsFormat.
From Stdlib Require Import Ascii.

Module service.
Import cells format.

Definition defaultMinRows : Z := 10.
Definition defaultMinCols : Z := 10.
Definition extraRowsBuffer : Z := 5.
Definition extraColsBuffer : Z := 2.

Definition ErrMissingSpreadsheetID : error :=
  ENew "sheets.ErrMissingSpreadsheetID" "sheets: spreadsheetID is required".
Definition ErrMissingTabTitleOrGID : error :=
  ENew "sheets.ErrMissingTabTitleOrGID" "sheets: tab Title or GID is required".
Definition ErrMissingTabs : error :=
  ENew "sheets.ErrMissingTabs" "sheets: at least one tab is required in DocumentSpec".
Definition ErrTabNotFound : error := ENew "sheets.ErrTabNotFound" "sheets: tab not found".

(** ** The API's answers *)

Record SheetProperties := mkProps {
  props_SheetId : Z; props_Title : string; props_Grid : option GridProperties
}.
Record Sheet := mkSheet { Properties : option SheetProperties; BandedRanges : list (option Z) }.
Record Spreadsheet := mkSpreadsheet {
  SpreadsheetId : string; SpreadsheetUrl : string; sp_Title : option string; Sheets : list Sheet
}.
Definition no_spreadsheet : Spreadsheet := mkSpreadsheet "" "" None [].

Record SheetsAPI (W : Type) := mkSheetsAPI {
  api_Create : string → string → list Sheet → W → (error + Spreadsheet) * W;
  api_Get : string → string → W → (error + Spreadsheet) * W;
  (** A reply holds the properties of the sheet its request added, if any. *)
  api_BatchUpdate : string → list Request → W → (error + list (option (option SheetProperties))) * W;
  api_Clear : string → string → W → option error * W;
  api_Update : string → string → list (list value) → string → W → option error * W
}.
Arguments mkSheetsAPI {W}.
Arguments api_Create {W}.
Arguments api_Get {W}.
Arguments api_BatchUpdate {W}.
Arguments api_Clear {W}.
Arguments api_Update {W}.

(** The one call of the Drive API: add a parent folder and remove the root. *)
Definition DriveAPI (W : Type) : Type := string → string → W → option error * W.

Record Service (W : Type) := mkService { sheets : SheetsAPI W; drive : option (DriveAPI W) }.
Arguments mkService {W}.
Arguments sheets {W}.
Arguments drive {W}.

(** What the constructors of the clients return. *)
Definition New {W} (newSheets : error + SheetsAPI W) (newDrive : error + DriveAPI W)
  : error + Service W :=
  match newSheets with
  | inl err => inl (wrap_pre "sheets: create sheets service: " err)
  | inr ss => inr (mkService ss (match newDrive with inr ds => Some ds | inl _ => None end))
  end.

Definition NewWithClients {W} (sheetsSvc : SheetsAPI W) (driveSvc : option (DriveAPI W)) : Service W :=
  mkService sheetsSvc driveSvc.

(** ** Decisions without effects *)

Definition matches_spec (spec : TabSpec) (p : SheetProperties) : bool :=
  (negb (bool_decide (tab_Title spec = "")) && bool_decide (props_Title p = tab_Title spec)) ||
  (bool_decide (tab_Title spec = "") && (0 <=? GID spec) && (props_SheetId p =? GID spec)) ||
  ((0 <? GID spec) && (props_SheetId p =? GID spec)).

Fixpoint findMatchingSheet (existingSheets : list Sheet) (spec : TabSpec) : option Sheet :=
  match existingSheets with
  | [] => None
  | sheet :: rest =>
      match Properties sheet with
      | None => findMatchingSheet rest spec
      | Some p => if matches_spec spec p then Some sheet else findMatchingSheet rest spec
      end
  end.

Definition calculateTargetGridDimensions (tab : option SheetProperties) (data : option Table)
  : Z * Z * Z * Z :=
  let '(rowsCount, colsCount) :=
    match data with
    | Some d => (Z.of_nat (RowCount d) + 1, Z.of_nat (ColCount d))
    | None => (defaultMinRows, defaultMinCols)
    end in
  let rowsCount := if rowsCount <? defaultMinRows then defaultMinRows else rowsCount in
  let colsCount := if colsCount <? defaultMinCols then defaultMinCols else colsCount in
  let targetRowCount := rowsCount + extraRowsBuffer in
  let targetColCount := colsCount + extraColsBuffer in
  match tab ≫= props_Grid with
  | Some g =>
      (rowsCount, colsCount,
       if targetRowCount <? grid_RowCount g then grid_RowCount g else targetRowCount,
       if targetColCount <? grid_ColumnCount g then grid_ColumnCount g else targetColCount)
  | None => (rowsCount, colsCount, targetRowCount, targetColCount)
  end.

Definition initial_sheet (t : TabSpec) : Sheet :=
  let '(frozenRows, frozenCols) :=
    if SkipFormatting t then (0, 0) else (frozen_rows t, FrozenCols t) in
  mkSheet (Some (mkProps 0 (tab_Title t) (Some (mkGrid 0 0 frozenRows frozenCols)))) [].

Definition buildInitialSheets (tabs : list TabSpec) : list Sheet := map initial_sheet tabs.

(** The deletions of [pruneStaleTabs]. *)
Definition stale_requests (currentSheets : list Sheet) (desiredTabs : list TabSpec)
    (syncedTabs : list TabResult) : list Request :=
  let keepTitle := map tab_Title desiredTabs in
  let keepID := map SheetID syncedTabs in
  flat_map (λ sh,
    match Properties sh with
    | None => []
    | Some p =>
        if bool_decide (props_Title p ∈ keepTitle) || bool_decide (props_SheetId p ∈ keepID)
        then [] else [DeleteSheet (props_SheetId p)]
    end) currentSheets.

Definition banded_ids (tab : Sheet) : list Z :=
  flat_map (λ br, match br with Some id => if id =? 0 then [] else [id] | None => [] end)
    (BandedRanges tab).

(** ** Operations *)

Section with_world.
Context {W : Type} {F : Formats} (env : Env W) (s : Service W).

Definition batch_update (msg : string) (spreadsheetID : string) (reqs : list Request)
  : go W (option error) :=
  run env (api_err msg (λ w, let '(r, w') := api_BatchUpdate (sheets s) spreadsheetID reqs w in
                             (match r with inl e => Some e | inr _ => None end, w'))).

Definition createNewTab (spreadsheetID title : string) : go W (error + option Sheet) :=
  let title := if bool_decide (title = "") then DefaultSheetTitle else title in
  r ← run_val env [] (api_val [] "sheets: batch update add sheet: "
        (api_BatchUpdate (sheets s) spreadsheetID [AddSheet title]));
  match r.2 with
  | Some err => mret (inl (wrap_pre ("sheets: add tab " +:+ quote title +:+ ": ") err))
  | None =>
      mret (inr match r.1 with Some props :: _ => Some (mkSheet props []) | _ => None end)
  end.

Definition get_spreadsheet (spreadsheetID fields : string) : go W (error + Spreadsheet) :=
  r ← run_val env no_spreadsheet
        (api_val no_spreadsheet "sheets api get: " (api_Get (sheets s) spreadsheetID fields));
  match r.2 with
  | Some err => mret (inl (wrap_pre ("sheets: get spreadsheet " +:+ spreadsheetID +:+ ": ") err))
  | None => mret (inr r.1)
  end.

Definition resolveOrCreateTab (spreadsheetID : string) (spec : TabSpec)
  : go W (error + option Sheet) :=
  sp ←? get_spreadsheet spreadsheetID "properties.title,sheets.properties,sheets.bandedRanges";
  match findMatchingSheet (Sheets sp) spec with
  | Some tab => mret (inr (Some tab))
  | None =>
      if negb (CreateIfMissing spec) then
        title ← deref (sp_Title sp);
        mret (inl (wrap_post ErrTabNotFound
          (": " +:+ quote (tab_Title spec) +:+ " (gid=" +:+ itoa (GID spec) +:+ ") in spreadsheet " +:+
           quote title)))
      else createNewTab spreadsheetID (tab_Title spec)
  end.

Definition resizeTabGridOnly (spreadsheetID : string) (tab : option SheetProperties)
    (rowsCount colsCount targetRowCount targetColCount : Z) : go W (error + (Z * Z)) :=
  let resize :=
    let '(sheetID, title) := match tab with
                             | Some p => (props_SheetId p, props_Title p)
                             | None => (0, "")
                             end in
    retryErr ← batch_update "sheets api resize: " spreadsheetID
      [UpdateSheetProperties sheetID (mkGrid targetRowCount targetColCount 0 0)
         "gridProperties.rowCount,gridProperties.columnCount"];
    match retryErr with
    | Some e => mret (inl (wrap_pre ("sheets: resize tab " +:+ quote title +:+ ": ") e))
    | None => mret (inr (targetRowCount, targetColCount))
    end in
  match tab ≫= props_Grid with
  | Some g =>
      if (rowsCount <=? grid_RowCount g) && (colsCount <=? grid_ColumnCount g)
      then mret (inr (grid_RowCount g, grid_ColumnCount g)) else resize
  | None => resize
  end.

Definition resizeTab (spreadsheetID : string) (tab : option SheetProperties) (spec : TabSpec)
  : go W (error + (Z * Z)) :=
  let '(rowsCount, colsCount, targetRowCount, targetColCount) :=
    calculateTargetGridDimensions tab (Data spec) in
  if SkipFormatting spec
  then resizeTabGridOnly spreadsheetID tab rowsCount colsCount targetRowCount targetColCount
  else
    p ← deref tab;
    retryErr ← batch_update "sheets api resize: " spreadsheetID
      [UpdateSheetProperties (props_SheetId p)
         (mkGrid targetRowCount targetColCount (frozen_rows spec) (FrozenCols spec))
         "gridProperties.rowCount,gridProperties.columnCount,gridProperties.frozenRowCount,gridProperties.frozenColumnCount"];
    match retryErr with
    | Some e =>
        mret (inl (wrap_pre ("sheets: resize/freeze tab " +:+ quote (props_Title p) +:+ ": ") e))
    | None => mret (inr (targetRowCount, targetColCount))
    end.

Definition clearTab (spreadsheetID tabTitle : string) : go W (option error) :=
  err ← run env (api_err "sheets api clear: "
          (api_Clear (sheets s) spreadsheetID (batch.EscapeSheetTitle tabTitle)));
  mret (wrap_pre ("sheets: clear tab " +:+ quote tabTitle +:+ ": ") <$> err).

Definition write_batch (spreadsheetID : string) (b : batch.valueUpdateBatch) : go W (option error) :=
  run env (api_err "sheets api update values: "
    (api_Update (sheets s) spreadsheetID (batch.Range b) (batch.Values b) (batch.ValueInputOption b))).

Fixpoint write_batches (spreadsheetID : string) (batches : list batch.valueUpdateBatch)
  : go W (option error) :=
  match batches with
  | [] => mret None
  | b :: batches' =>
      err ← write_batch spreadsheetID b;
      match err with
      | Some e =>
          mret (Some (wrap_pre ("sheets: write range " +:+ batch.Range b +:+ " (opt=" +:+
            batch.ValueInputOption b +:+ "): ") e))
      | None => write_batches spreadsheetID batches'
      end
  end.

Definition writeTabBatches (spreadsheetID tabTitle : string) (data : option Table)
  : go W (error + Z) :=
  match data with
  | None => mret (inr 0)
  | Some d =>
      check write_batches spreadsheetID (batch.prepareValueUpdates tabTitle data);
      mret (inr (Z.of_nat (RowCount d)))
  end.

Definition applyRichLinks (spreadsheetID : string) (sheetID : Z) (table : option Table)
  : go W (option error) :=
  let linkReqs := buildRichLinkRequests sheetID table in
  match linkReqs with
  | [] => mret None
  | _ =>
      err ← batch_update "sheets api update rich links: " spreadsheetID linkReqs;
      mret (wrap_pre ("sheets: apply rich links on sheet " +:+ itoa sheetID +:+ ": ") <$> err)
  end.

Definition applyTabFormatting (spreadsheetID : string) (sheetID : Z) (bandedIDs : list Z)
    (spec : TabSpec) : go W (option error) :=
  let '(totalDataRows, colsCount) :=
    match Data spec with
    | Some d => (Z.of_nat (RowCount d) + 1, Z.of_nat (ColCount d))
    | None => (1, 0)
    end in
  match buildFormatRequests sheetID bandedIDs spec totalDataRows colsCount with
  | [] => mret None
  | formatReqs =>
      err ← batch_update "sheets api batch update format: " spreadsheetID formatReqs;
      mret (wrap_pre ("sheets: apply tab formatting on sheet " +:+ itoa sheetID +:+ ": ") <$> err)
  end.

Definition ReplaceTab (spreadsheetID : string) (spec : TabSpec) : go W (error + TabResult) :=
  if bool_decide (spreadsheetID = "") then mret (inl ErrMissingSpreadsheetID)
  else if bool_decide (tab_Title spec = "") && (GID spec <? 0)
  then mret (inl ErrMissingTabTitleOrGID)
  else
    tab ←? resolveOrCreateTab spreadsheetID spec;
    tab ← deref tab;
    target ←? resizeTab spreadsheetID (Properties tab) spec;
    props ← deref (Properties tab);
    check clearTab spreadsheetID (props_Title props);
    rowsWritten ←? writeTabBatches spreadsheetID (props_Title props) (Data spec);
    check (if SkipFormatting spec then mret None
           else applyTabFormatting spreadsheetID (props_SheetId props) (banded_ids tab) spec);
    check applyRichLinks spreadsheetID (props_SheetId props) (Data spec);
    mret (inr (mkTabResult (props_SheetId props) (props_Title props) target.1 target.2 rowsWritten)).

Definition with_gid (spec : TabSpec) (gid : Z) : TabSpec :=
  mkTabSpec (tab_Title spec) gid (CreateIfMissing spec) (SkipFormatting spec) (FrozenRows spec)
    (FrozenCols spec) (tab_Theme spec) (Data spec).
Definition creating (spec : TabSpec) : TabSpec :=
  mkTabSpec (tab_Title spec) (GID spec) true (SkipFormatting spec) (FrozenRows spec)
    (FrozenCols spec) (tab_Theme spec) (Data spec).

(** [i] is the index of the first of [tabs]. *)
Fixpoint populate_tabs (created : Spreadsheet) (i : nat) (tabs : list TabSpec)
  : go W (error + list TabResult) :=
  match tabs with
  | [] => mret (inr [])
  | tabSpec :: tabs' =>
      let gid := match Sheets created !! i ≫= Properties with
                 | Some p => props_SheetId p
                 | None => -1
                 end in
      r ← ReplaceTab (SpreadsheetId created) (with_gid tabSpec gid);
      match r with
      | inl err => mret (inl (wrap_pre ("sheets: populate tab " +:+ quote (tab_Title tabSpec) +:+ ": ") err))
      | inr res =>
          rest ←? populate_tabs created (S i) tabs';
          mret (inr (res :: rest))
      end
  end.

Definition populateCreatedTabs (created : Spreadsheet) (tabs : list TabSpec)
  : go W (error + list TabResult) := populate_tabs created 0 tabs.

(** A failure is only logged. *)
Definition relocateToFolder (spreadsheetID folderID : string) : go W unit :=
  if bool_decide (folderID = "") then mret tt
  else match drive s with
  | None => mret tt
  | Some d => _ ← run env (api_err "drive api update: " (d spreadsheetID folderID)); mret tt
  end.

Definition spreadsheet_url (id : string) : string := "https://docs.google.com/spreadsheets/d/" +:+ id.

Definition CreateSpreadsheet (spec : DocumentSpec) : go W (error + DocumentResult) :=
  match Tabs spec with
  | [] => mret (inl ErrMissingTabs)
  | _ =>
      let title := if bool_decide (doc_Title spec = "") then "Export" else doc_Title spec in
      let locale := if bool_decide (Locale spec = "") then "nl_NL" else Locale spec in
      r ← run_val env no_spreadsheet (api_val no_spreadsheet "sheets api create: "
            (api_Create (sheets s) title locale (buildInitialSheets (Tabs spec))));
      match r.2 with
      | Some err => mret (inl (wrap_pre ("sheets: create spreadsheet " +:+ quote title +:+ ": ") err))
      | None =>
          let created := r.1 in
          tabResults ←? populateCreatedTabs created (Tabs spec);
          _ ← relocateToFolder (SpreadsheetId created) (FolderID spec);
          let sheetURL := if bool_decide (SpreadsheetUrl created = "")
                          then spreadsheet_url (SpreadsheetId created)
                          else SpreadsheetUrl created in
          mret (inr (mkDocumentResult (SpreadsheetId created) sheetURL title tabResults))
      end
  end.

Fixpoint sync_tabs (spreadsheetID : string) (tabs : list TabSpec) : go W (error + list TabResult) :=
  match tabs with
  | [] => mret (inr [])
  | tabSpec :: tabs' =>
      res ←? ReplaceTab spreadsheetID (creating tabSpec);
      rest ←? sync_tabs spreadsheetID tabs';
      mret (inr (res :: rest))
  end.

Definition pruneStaleTabs (spreadsheetID : string) (currentSheets : list Sheet)
    (desiredTabs : list TabSpec) (syncedTabs : list TabResult) : go W (option error) :=
  match stale_requests currentSheets desiredTabs syncedTabs with
  | [] => mret None
  | deleteReqs =>
      err ← batch_update "sheets api batch update delete: " spreadsheetID deleteReqs;
      mret (wrap_pre ("sheets: prune stale tabs in spreadsheet " +:+ spreadsheetID +:+ ": ") <$> err)
  end.

Definition SyncDocument (spreadsheetID : string) (spec : DocumentSpec)
  : go W (error + DocumentResult) :=
  if bool_decide (spreadsheetID = "") then CreateSpreadsheet spec
  else
    sp ←? get_spreadsheet spreadsheetID "spreadsheetId,properties.title,sheets.properties";
    tabResults ←? sync_tabs spreadsheetID (Tabs spec);
    check (if PruneTabs spec
           then pruneStaleTabs spreadsheetID (Sheets sp) (Tabs spec) tabResults else mret None);
    title ← deref (sp_Title sp);
    mret (inr (mkDocumentResult spreadsheetID (spreadsheet_url spreadsheetID) title tabResults)).

End with_world.


(** ** Specification *)

(** *** Which tab a spec means *)

(** A spec with a title means the tab of that title, or of a positive GID; one
    without a title the tab of a GID that is not negative. *)
Definition means (spec : TabSpec) (p : SheetProperties) : Prop :=
  (tab_Title spec ≠ "" ∧ props_Title p = tab_Title spec) ∨
  (tab_Title spec = "" ∧ 0 ≤ GID spec ∧ props_SheetId p = GID spec) ∨
  (0 < GID spec ∧ props_SheetId p = GID spec).

Lemma matches_spec_means spec p : matches_spec spec p = true ↔ means spec p.
Proof.
  unfold matches_spec, means.
  rewrite !orb_true_iff, !andb_true_iff, negb_true_iff, bool_decide_eq_false, !bool_decide_eq_true,
    Z.leb_le, Z.ltb_lt, !Z.eqb_eq. tauto.
Qed.

(** The tab found is the first in the document's order that the spec means, by
    title or by GID: whichever tab comes first wins, and a GID of 0 beside a title
    counts for nothing, where TabSpec documents that a GID from 0 up is matched
    first. A tab without properties is passed over. *)
Theorem find_matching_first (sheets : list Sheet) (spec : TabSpec) :
  match findMatchingSheet sheets spec with
  | Some tab => ∃ k p, sheets !! k = Some tab ∧ Properties tab = Some p ∧ means spec p ∧
      ∀ j tab' p', (j < k)%nat → sheets !! j = Some tab' → Properties tab' = Some p' → ¬ means spec p'
  | None => ∀ tab p, tab ∈ sheets → Properties tab = Some p → ¬ means spec p
  end.
Proof.
  induction sheets as [|sh sheets IH]; simpl; [by intros tab p Htab%elem_of_nil|].
  assert ((∀ p, Properties sh = Some p → ¬ means spec p) →
    match findMatchingSheet sheets spec with
    | Some tab => ∃ k p, (sh :: sheets) !! k = Some tab ∧ Properties tab = Some p ∧ means spec p ∧
        ∀ j tab' p', (j < k)%nat → (sh :: sheets) !! j = Some tab' → Properties tab' = Some p' →
          ¬ means spec p'
    | None => ∀ tab p, tab ∈ sh :: sheets → Properties tab = Some p → ¬ means spec p
    end) as Hskip.
  { intros Hno. destruct (findMatchingSheet sheets spec) as [tab|].
    - destruct IH as (k & p & Hk & Hp & Hm & Hb). exists (S k), p. repeat split; try done.
      intros [|j] tab' p' Hj Hl; simplify_eq/=; [apply Hno|]. apply (Hb j); [lia|done].
    - intros tab p [->|Ht]%elem_of_cons; [apply Hno|by apply IH]. }
  destruct (Properties sh) as [p|] eqn:Ep; [|by apply Hskip].
  destruct (matches_spec spec p) eqn:Em.
  - apply matches_spec_means in Em. exists 0%nat, p. repeat split; try done. lia.
  - apply Hskip. intros p' [= <-] Hm%matches_spec_means. congruence.
Qed.

Definition demo_sheet (id : Z) (title : string) : Sheet := mkSheet (Some (mkProps id title None)) [].
Definition plain_spec (title : string) (gid : Z) : TabSpec :=
  mkTabSpec title gid false true 0 0 None None.

(** A GID of 0 does not count beside a title, and an earlier tab of the title wins
    over the tab of the GID. *)
Example gid_is_not_matched_first :
  findMatchingSheet [demo_sheet 0 "Data"] (plain_spec "New" 0) = None ∧
  findMatchingSheet [demo_sheet 3 "Data"; demo_sheet 7 "Old"] (plain_spec "Data" 7) =
    Some (demo_sheet 3 "Data").
Proof. by split. Qed.

(** *** Sizes *)

(** The grid a tab is resized to holds the table, its header and a margin of
    five rows and two columns, is at least 15 rows by 12 columns, and never
    smaller than the grid the tab has. *)
Theorem target_grid_fits (tab : option SheetProperties) (data : option Table) :
  let '(rows, cols, targetRows, targetCols) := calculateTargetGridDimensions tab data in
  10 ≤ rows ∧ 10 ≤ cols ∧ rows + 5 ≤ targetRows ∧ cols + 2 ≤ targetCols ∧
  (∀ d, data = Some d → Z.of_nat (length (Rows d)) + 1 ≤ rows ∧
     Z.of_nat (length (Headers d)) ≤ cols ∧ ∀ r, r ∈ Rows d → Z.of_nat (length r) ≤ cols) ∧
  (∀ g, tab ≫= props_Grid = Some g → grid_RowCount g ≤ targetRows ∧ grid_ColumnCount g ≤ targetCols) ∧
  (targetRows = rows + 5 ∨ ∃ g, tab ≫= props_Grid = Some g ∧ targetRows = grid_RowCount g) ∧
  (targetCols = cols + 2 ∨ ∃ g, tab ≫= props_Grid = Some g ∧ targetCols = grid_ColumnCount g).
Proof.
  unfold calculateTargetGridDimensions, defaultMinRows, defaultMinCols, extraRowsBuffer, extraColsBuffer.
  set (need := match data with Some d => _ | None => _ end).
  assert (∀ d, data = Some d → need = (Z.of_nat (RowCount d) + 1, Z.of_nat (ColCount d))) as Hd
    by (by intros d ->).
  destruct need as [nr nc]. set (r := if nr <? 10 then 10 else nr). set (c := if nc <? 10 then 10 else nc).
  assert (nr ≤ r ∧ 10 ≤ r) as Hr by (unfold r; destruct (Z.ltb_spec nr 10); lia).
  assert (nc ≤ c ∧ 10 ≤ c) as Hc by (unfold c; destruct (Z.ltb_spec nc 10); lia).
  assert (∀ d, data = Some d → Z.of_nat (length (Rows d)) + 1 ≤ r ∧
     Z.of_nat (length (Headers d)) ≤ c ∧ ∀ row, row ∈ Rows d → Z.of_nat (length row) ≤ c) as Hneed.
  { intros d E. specialize (Hd d E) as [= E1 E2]. unfold RowCount in E1.
    destruct (batch.colcount_bound d) as [Hh Hrows]. split; [lia|]. split; [lia|].
    intros row Hrow. specialize (Hrows row Hrow). lia. }
  destruct (tab ≫= props_Grid) as [g|].
  - destruct (Z.ltb_spec (r + 5) (grid_RowCount g)), (Z.ltb_spec (c + 2) (grid_ColumnCount g));
      repeat (split; [lia|]); (split; [exact Hneed|]);
      (split; [intros g' [= <-]; lia|]); split; eauto.
  - repeat (split; [lia|]). split; [exact Hneed|]. split; [done|]. split; by left.
Qed.

(** *** Pruning *)

(** Pruning deletes exactly the tabs of the document, as it was read before
    the sync, that have neither the title of a spec nor the ID of a tab that this
    call synced; a tab that a spec addressed by its GID survives whatever its
    title. *)
Theorem prune_spares_synced (current : list Sheet) (desired : list TabSpec)
    (synced : list TabResult) (r : Request) :
  (r ∈ stale_requests current desired synced ↔
   ∃ sh p, sh ∈ current ∧ Properties sh = Some p ∧ r = DeleteSheet (props_SheetId p) ∧
     (∀ spec, spec ∈ desired → tab_Title spec ≠ props_Title p) ∧
     (∀ res, res ∈ synced → SheetID res ≠ props_SheetId p)) ∧
  (∀ res, res ∈ synced → r ∈ stale_requests current desired synced → r ≠ DeleteSheet (SheetID res)).
Proof.
  assert (r ∈ stale_requests current desired synced ↔
   ∃ sh p, sh ∈ current ∧ Properties sh = Some p ∧ r = DeleteSheet (props_SheetId p) ∧
     (∀ spec, spec ∈ desired → tab_Title spec ≠ props_Title p) ∧
     (∀ res, res ∈ synced → SheetID res ≠ props_SheetId p)) as H.
  { unfold stale_requests. rewrite elem_of_flat_map.
    assert (∀ p, (bool_decide (props_Title p ∈ map tab_Title desired) ||
      bool_decide (props_SheetId p ∈ map SheetID synced)) = false ↔
      (∀ spec, spec ∈ desired → tab_Title spec ≠ props_Title p) ∧
      (∀ res, res ∈ synced → SheetID res ≠ props_SheetId p)) as Hk.
    { intros p. rewrite orb_false_iff, !bool_decide_eq_false, !list_elem_of_fmap. naive_solver. }
    split.
    - intros (sh & Hsh & Hr). destruct (Properties sh) as [p|] eqn:Ep; [|by apply elem_of_nil in Hr].
      destruct (_ || _) eqn:E; [by apply elem_of_nil in Hr|].
      apply Hk in E. apply list_elem_of_singleton in Hr as ->. exists sh, p. tauto.
    - intros (sh & p & Hsh & Ep & -> & HH). exists sh. split; [done|]. rewrite Ep.
      apply Hk in HH as ->. by apply list_elem_of_singleton. }
  split; [exact H|]. intros res Hres (sh & p & _ & _ & -> & _ & Hid)%H [= E]. by apply (Hid res).
Qed.

(** *** What a tab holds after a synchronization *)

(** The requests that leave the values of every tab as they are: their field masks
    name formats, links, frozen panes or sizes of columns. *)
Definition keeps_cells (r : Request) : Prop :=
  match r with
  | UpdateSheetProperties _ _ mask =>
      mask = "gridProperties.frozenRowCount,gridProperties.frozenColumnCount"
  | RepeatCell _ _ mask => has_prefix "userEnteredFormat" mask = true
  | UpdateCells _ _ mask => mask = "textFormatRuns"
  | DeleteBanding _ | AddBanding _ _ _ | AutoResizeDimensions _ _ _ _
  | UpdateDimensionProperties _ _ _ _ _ _ => True
  | AddSheet _ | DeleteSheet _ => False
  end.

Section content.
Context {W : Type} {F : Formats} (env : Env W) (s : Service W).
(** The last value written to a position of a tab, with its input option, since the
    tab was cleared. *)
Context (content : W → string → string → Z * Z → option (string * value)).

(** What the documentation of the Sheets API says of the calls used, for one tab
    that nobody else writes: a successful clear empties it; an update that
    succeeds fills its range, one that fails may have filled a part of it; styling
    requests keep the values; waiting does too. *)
Record server_laws (sid title : string) : Prop := {
  law_batch : ∀ reqs w, Forall keeps_cells reqs →
    content (api_BatchUpdate (sheets s) sid reqs w).2 sid title = content w sid title;
  law_clear : ∀ w, (api_Clear (sheets s) sid (batch.EscapeSheetTitle title) w).1 = None →
    ∀ pos, content (api_Clear (sheets s) sid (batch.EscapeSheetTitle title) w).2 sid title pos = None;
  law_update_any : ∀ b w pos, batch.fits title b →
    let w' := (api_Update (sheets s) sid (batch.Range b) (batch.Values b) (batch.ValueInputOption b) w).2 in
    content w' sid title pos = content w sid title pos ∨
    ∃ v, batch.writes_to b pos v ∧ content w' sid title pos = Some (batch.ValueInputOption b, v);
  law_update_ok : ∀ b w pos v, batch.fits title b →
    let r := api_Update (sheets s) sid (batch.Range b) (batch.Values b) (batch.ValueInputOption b) w in
    r.1 = None → batch.writes_to b pos v →
    content r.2 sid title pos = Some (batch.ValueInputOption b, v);
  law_retry : (∀ n w, content (env_Rand env n w).2 sid title = content w sid title) ∧
    (∀ d w, content (env_Wait env d w).2 sid title = content w sid title) ∧
    (∀ w, content (env_Now env w).2 sid title = content w sid title)
}.

(** What the tab holds when exactly [data] was written to it after a clear. *)
Definition holds (sid title : string) (data : option Table) (w : W) : Prop :=
  ∀ pos, match data with
  | None => content w sid title pos = None
  | Some t =>
      match batch.expected t pos with
      | Some ov => content w sid title pos = Some ov
      | None => content w sid title pos = None ∨
          batch.gap t pos ∧ ∃ opt, content w sid title pos = Some (opt, VString "")
      end
  end.

Lemma triple_true {A} P (m : go W A) : triple P m (λ _ _, True).
Proof. by intros w a w'. Qed.

Section laws.
Context (sid title : string) (Hlaws : server_laws sid title).
#[local] Set Default Proof Using "All".

Lemma content_retry (φ : (Z * Z → option (string * value)) → Prop) :
  retry_keeps env (λ w, φ (content w sid title)).
Proof.
  destruct (law_retry _ _ Hlaws) as (H1 & H2 & H3).
  split; intros; by rewrite ?H1, ?H2, ?H3.
Qed.

Lemma batch_update_keeps φ msg reqs :
  Forall keeps_cells reqs →
  triple (λ w, φ (content w sid title)) (batch_update env s msg sid reqs)
    (λ _ w, φ (content w sid title)).
Proof.
  intros Hk. unfold batch_update. eapply triple_conseq.
  - apply (run_triple env _ _ (λ w, φ (content w sid title)) (content_retry φ)).
    apply api_err_triple. intros w Hw. pose proof (law_batch _ _ Hlaws reqs w Hk) as E.
    destruct (api_BatchUpdate (sheets s) sid reqs w) as [[e|r] w']; simpl in *; by rewrite E.
  - done.
  - by intros [].
Qed.

Lemma clear_empties :
  triple (λ _, True) (clearTab env s sid title)
    (λ oe w, oe = None → ∀ pos, content w sid title pos = None).
Proof.
  unfold clearTab. eapply triple_bind.
  - apply (run_triple env _ (λ _, True) (λ w, ∀ pos, content w sid title pos = None)).
    { apply (content_retry (λ _, True)). }
    apply api_err_triple. intros w _. pose proof (law_clear _ _ Hlaws w) as E.
    destruct (api_Clear _ _ _ w) as [[e|] w']; simpl in *; auto.
  - intros [e|]; apply triple_ret; auto. done.
Qed.

(** One update, whatever happened to the attempts before the last. *)
Lemma write_batch_content b (before : Z * Z → option (string * value)) :
  batch.fits title b →
  triple (λ w, content w sid title = before) (write_batch env s sid b)
    (λ oe w, oe = None →
       (∀ pos v, batch.writes_to b pos v →
          content w sid title pos = Some (batch.ValueInputOption b, v)) ∧
       (∀ pos, content w sid title pos = before pos ∨ ∃ v, batch.writes_to b pos v)).
Proof.
  intros Hb. unfold write_batch.
  set (φ := λ c : Z * Z → option (string * value), ∀ pos, c pos = before pos ∨
    ∃ v, batch.writes_to b pos v ∧ c pos = Some (batch.ValueInputOption b, v)).
  eapply triple_conseq.
  - apply (run_triple env _ (λ w, φ (content w sid title))
      (λ w, φ (content w sid title) ∧ ∀ pos v, batch.writes_to b pos v →
          content w sid title pos = Some (batch.ValueInputOption b, v)) (content_retry φ)).
    apply api_err_triple. intros w Hw.
    assert (φ (content (api_Update (sheets s) sid (batch.Range b) (batch.Values b)
      (batch.ValueInputOption b) w).2 sid title)) as Hφ.
    { intros pos. destruct (law_update_any _ _ Hlaws b w pos Hb) as [->|?]; [apply Hw|by right]. }
    pose proof (law_update_ok _ _ Hlaws b w) as Hok. cbn zeta in Hok.
    destruct (api_Update _ _ _ _ _ w) as [[e|] w']; simpl in *; [done|]. split; [done|]. intros; by apply Hok.
  - intros w <- pos. by left.
  - intros [e|] w Hw; [done|]. destruct Hw as [Hφ Hw]. intros _. split; [done|].
    intros pos. destruct (Hφ pos) as [?|(v & Hv & _)]; [by left|]. right. by exists v.
Qed.

(** The content after the updates [done] on an empty tab. *)
Definition written (bs : list batch.valueUpdateBatch) (c : Z * Z → option (string * value)) : Prop :=
  (∀ b pos v, b ∈ bs → batch.writes_to b pos v → c pos = Some (batch.ValueInputOption b, v)) ∧
  (∀ pos, c pos = None ∨ ∃ b v, b ∈ bs ∧ batch.writes_to b pos v).

Lemma write_batches_content bs before :
  Forall (batch.fits title) (before ++ bs) →
  exclusive (λ b pos, ∃ v, batch.writes_to b pos v) (before ++ bs) →
  triple (λ w, written before (content w sid title)) (write_batches env s sid bs)
    (λ oe w, oe = None → written (before ++ bs) (content w sid title)).
Proof.
  revert before. induction bs as [|b bs IH]; intros before Hf Hx; cbn [write_batches].
  { apply triple_ret. intros w Hw _. by rewrite app_nil_r. }
  rewrite cons_middle, app_assoc in Hf, Hx |- *.
  eapply (triple_bind _ _ _ (λ oe w, oe = None → written (before ++ [b]) (content w sid title))).
  - intros w oe w' [Hw1 Hw2] E ->.
    assert (batch.fits title b) as Hb.
    { rewrite Forall_forall in Hf. apply Hf. rewrite !elem_of_app, list_elem_of_singleton. auto. }
    destruct (write_batch_content b _ Hb w None w' eq_refl E eq_refl) as [Hnew Hold]. split.
    + intros b' pos v [Hb'|Hb']%elem_of_app Hv; [|apply list_elem_of_singleton in Hb' as ->; by apply Hnew].
      destruct (Hold pos) as [->|[v' Hv']]; [by apply Hw1|]. exfalso.
      apply list_elem_of_lookup in Hb' as [k Hk].
      assert (((before ++ [b]) ++ bs) !! k = Some b') as Hk1.
      { rewrite <- app_assoc. by apply lookup_app_l_Some. }
      assert (((before ++ [b]) ++ bs) !! length before = Some b) as Hk2.
      { rewrite <- app_assoc. by apply list_lookup_middle. }
      pose proof (Hx _ _ _ _ pos Hk1 Hk2 ltac:(by exists v) ltac:(by exists v')).
      apply lookup_lt_Some in Hk. lia.
    + intros pos. setoid_rewrite elem_of_app. setoid_rewrite list_elem_of_singleton.
      destruct (Hold pos) as [->|[v Hv]]; [|right; by exists b, v; auto].
      destruct (Hw2 pos) as [?|(b' & v & Hb' & Hv)]; [by left|right]. exists b', v. auto.
  - intros [e|]; [by apply triple_ret|]. eapply triple_conseq; [by apply IH| |done].
    intros w Hw. by apply Hw.
Qed.

Lemma written_holds t c :
  written (batch.prepareValueUpdates title (Some t)) c →
  ∀ pos, match batch.expected t pos with
  | Some ov => c pos = Some ov
  | None => c pos = None ∨ batch.gap t pos ∧ ∃ opt, c pos = Some (opt, VString "")
  end.
Proof.
  intros [Hw1 Hw2] pos. destruct (batch.expected t pos) as [[opt v]|] eqn:E.
  - destruct (batch.prepare_complete title t pos opt v E) as (b & Hb & <- & Hv). by apply Hw1.
  - destruct (Hw2 pos) as [?|(b & v & Hb & Hv)]; [by left|right].
    destruct (batch.prepare_sound title t b pos v Hb Hv) as [?|[Hg ->]]; [congruence|].
    split; [done|]. exists (batch.ValueInputOption b). by apply Hw1.
Qed.

Lemma tab_written t :
  triple (λ w, ∀ pos, content w sid title pos = None) (writeTabBatches env s sid title t)
    (λ r w, ∀ n, r = inr n → holds sid title t w ∧
       n = match t with Some d => Z.of_nat (RowCount d) | None => 0 end).
Proof.
  unfold writeTabBatches. destruct t as [d|].
  2:{ apply triple_ret. intros w Hw n [= <-]. by split. }
  eapply triple_bind.
  - eapply triple_conseq; [apply (write_batches_content _ [])|..].
    + apply Forall_forall. intros b. apply batch.prepare_fits.
    + apply batch.prepare_exclusive.
    + intros w Hw. split; [by intros b pos v Hb%elem_of_nil|]. intros pos. by left.
    + intros a w H. exact H.
  - intros [e|]; apply triple_ret; [done|]. intros w Hw n [= <-]. split; [|done].
    intros pos. by apply written_holds, Hw.
Qed.

Lemma styling_keeps φ spec id bands :
  triple (λ w, φ (content w sid title))
    (if SkipFormatting spec then mret None else applyTabFormatting env s sid id bands spec)
    (λ _ w, φ (content w sid title)).
Proof.
  destruct (SkipFormatting spec); [by apply triple_ret|]. unfold applyTabFormatting.
  destruct (match Data spec with Some d => _ | None => _ end) as [rows cols].
  pose proof (format_requests_ok id bands spec rows cols) as Hok.
  assert (Forall keeps_cells (buildFormatRequests id bands spec rows cols)) as Hk.
  { eapply Forall_impl; [exact Hok|]. intros [] Hr; try done; simpl in *; [naive_solver|].
    destruct UserEnteredFormat; destruct_and! Hr; by subst. }
  destruct (buildFormatRequests id bands spec rows cols) as [|r reqs]; [by apply triple_ret|].
  eapply triple_bind; [by apply batch_update_keeps|]. intros e. by apply triple_ret.
Qed.

Lemma links_keep φ t id :
  triple (λ w, φ (content w sid title)) (applyRichLinks env s sid id t)
    (λ _ w, φ (content w sid title)).
Proof.
  unfold applyRichLinks.
  assert (Forall keeps_cells (buildRichLinkRequests id t)) as Hk.
  { apply Forall_forall. by intros r (rg & uri & ->)%link_requests_mask. }
  destruct (buildRichLinkRequests id t) as [|r reqs]; [by apply triple_ret|].
  eapply triple_bind; [by apply batch_update_keeps|]. intros e. by apply triple_ret.
Qed.
End laws.

(** C11: after ReplaceTab returns a result, the tab it names holds exactly the data
    of the spec: every header as literal text, every cell with its value, evaluated
    exactly when it is a formula, and nothing else of what the tab held before,
    except that gaps of short rows may hold an empty text. This holds whatever
    attempts failed on the way, for a server that does what the documentation of
    the Sheets API says and a tab that nobody else writes meanwhile. The result
    counts the data rows. *)
Theorem replace_tab_content (sid : string) (spec : TabSpec) (w : W) res w' :
  (∀ title, server_laws sid title) →
  ReplaceTab env s sid spec w = (Returned (inr res), w') →
  holds sid (res_Title res) (Data spec) w' ∧
  RowsWritten res = match Data spec with Some d => Z.of_nat (length (Rows d)) | None => 0 end.
Proof.
  intros Hlaws E. set (Q := λ (r : error + TabResult) w, ∀ res, r = inr res →
    holds sid (res_Title res) (Data spec) w ∧
    RowsWritten res = match Data spec with Some d => Z.of_nat (length (Rows d)) | None => 0 end).
  enough (triple (λ _, True) (ReplaceTab env s sid spec) Q) as H by (by eapply (H w _ w' I E)).
  clear E. unfold ReplaceTab. case_bool_decide; [by apply triple_ret|].
  case_match; [by apply triple_ret|].
  eapply triple_bind; [apply triple_true|]. intros [e|tab]; [by apply triple_ret|].
  eapply triple_bind; [apply triple_true|]. intros tab'.
  eapply triple_bind; [apply triple_true|]. intros [e|target]; [by apply triple_ret|].
  eapply triple_bind; [apply triple_true|]. intros props.
  eapply triple_bind.
  { eapply triple_conseq; [apply (clear_empties sid _ (Hlaws (props_Title props)))|done|].
    intros a w0 H1. exact H1. }
  intros [e|]; [by apply triple_ret|]. eapply triple_bind.
  { eapply triple_conseq; [apply (tab_written sid _ (Hlaws (props_Title props)))| |].
    - intros w0 Hw0. exact (Hw0 eq_refl).
    - intros a w0 H1. exact H1. }
  intros [e|n]; [by apply triple_ret|].
  set (φ := λ c : Z * Z → option (string * value), ∀ pos, match Data spec with
  | None => c pos = None
  | Some t =>
      match batch.expected t pos with
      | Some ov => c pos = Some ov
      | None => c pos = None ∨ batch.gap t pos ∧ ∃ opt, c pos = Some (opt, VString "")
      end
  end).
  set (n_ok := n = match Data spec with Some d => Z.of_nat (RowCount d) | None => 0 end).
  eapply (triple_bind _ _ _ (λ _ w, (φ (content w sid (props_Title props)) ∧ n_ok))).
  { eapply triple_conseq; [apply (styling_keeps sid _ (Hlaws (props_Title props)) (λ c, φ c ∧ n_ok))| |done].
    intros w0 Hw0. exact (Hw0 n eq_refl). }
  intros [e|]; [by apply triple_ret|].
  eapply (triple_bind _ _ _ (λ _ w, (φ (content w sid (props_Title props)) ∧ n_ok))).
  { apply (links_keep sid _ (Hlaws (props_Title props)) (λ c, φ c ∧ n_ok)). }
  intros [e|]; apply triple_ret; [done|]. intros w0 [H1 H2] res0 [= <-]. by split.
Qed.
End content.

(** *** It returns *)

Section returns.
Context {W : Type} {F : Formats} (env : Env W) (s : Service W) (sid : string).

(** What the code takes for granted: a reply to the addition of a sheet has the
    sheet's properties, and a spreadsheet read with its title has properties. *)
Definition adds_reply : Prop := ∀ title w r w',
  api_BatchUpdate (sheets s) sid [AddSheet title] w = (inr r, w') →
  ∃ p rest, r = Some (Some p) :: rest.
Definition gets_title : Prop := ∀ fields w sp w',
  api_Get (sheets s) sid fields w = (inr sp, w') → sp_Title sp ≠ None.

(** A result that can be used without following a nil pointer. *)
Definition usable (r : error + option Sheet) : Prop :=
  match r with
  | inl _ => True
  | inr tab => ∃ t p, tab = Some t ∧ Properties t = Some p
  end.

Lemma no_panic_bind_triple {A B} (m : go W A) (f : A → go W B) (R : A → Prop) :
  no_panic m → triple (λ _, True) m (λ a _, R a) → (∀ a, R a → no_panic (f a)) →
  no_panic (m ≫= f).
Proof.
  intros Hm Ht Hf w. destruct (Hm w) as (a & w1 & E). rewrite (bind_eq _ _ _ _ _ E).
  by apply Hf, (Ht w a w1 I).
Qed.

Lemma no_panic_deref {A B} (a : A) (f : A → go W B) :
  no_panic (f a) → no_panic (deref (Some a) ≫= f).
Proof. intros H w. exact (H w). Qed.

Lemma retry_keeps_true : retry_keeps env (λ _, True).
Proof. done. Qed.

Lemma get_usable fields : gets_title →
  triple (λ _, True) (get_spreadsheet env s sid fields)
    (λ r _, match r with inl _ => True | inr sp => sp_Title sp ≠ None end).
Proof.
  intros Hg. unfold get_spreadsheet. eapply triple_bind.
  - apply (run_val_triple env no_spreadsheet _ (λ _, True) (λ sp _, sp_Title sp ≠ None)
      retry_keeps_true).
    apply (api_val_triple _ _ _ (λ _, True) (λ sp _, sp_Title sp ≠ None)). intros w _.
    destruct (api_Get (sheets s) sid fields w) as [[e|sp] w'] eqn:E; [done|]. by eapply Hg.
  - intros [sp [e|]]; apply triple_ret; [done|]. intros w Hw. exact Hw.
Qed.

Lemma created_usable title : adds_reply →
  triple (λ _, True) (createNewTab env s sid title) (λ r _, usable r).
Proof.
  intros Ha. unfold createNewTab. set (t := if bool_decide (title = "") then _ else _).
  eapply triple_bind.
  - apply (run_val_triple env [] _ (λ _, True) (λ r _, ∃ p rest, r = Some (Some p) :: rest)
      retry_keeps_true).
    apply (api_val_triple _ _ _ (λ _, True) (λ r _, ∃ p rest, r = Some (Some p) :: rest)). intros w _.
    destruct (api_BatchUpdate (sheets s) sid [AddSheet t] w) as [[e|r] w'] eqn:E; [done|].
    by eapply Ha.
  - intros [r [e|]]; apply triple_ret; [done|]. intros w (p & rest & Hr). simpl in Hr. subst.
    simpl. by eexists _, _.
Qed.

Lemma resolved_usable spec : adds_reply → gets_title →
  triple (λ _, True) (resolveOrCreateTab env s sid spec) (λ r _, usable r) ∧
  no_panic (resolveOrCreateTab env s sid spec).
Proof.
  intros Ha Hg. assert (∀ sheets0 tab, findMatchingSheet sheets0 spec = Some tab →
    ∃ p, Properties tab = Some p) as Hfind.
  { induction sheets0 as [|sh l IH]; intros tab; simpl; [done|].
    destruct (Properties sh) as [p|] eqn:E; [|apply IH]. case_match; [|apply IH].
    intros [= <-]. by exists p. }
  unfold resolveOrCreateTab. split.
  - eapply triple_bind; [by apply get_usable|]. intros [e|sp]; [by apply triple_ret|].
    destruct (findMatchingSheet (Sheets sp) spec) as [tab|] eqn:E.
    { apply triple_ret. intros w _. destruct (Hfind _ _ E) as [p Hp]. by exists tab, p. }
    destruct (negb (CreateIfMissing spec)).
    + eapply triple_bind; [apply triple_true|]. intros title. by apply triple_ret.
    + eapply triple_conseq; [by apply created_usable|done|done].
  - eapply (no_panic_bind_triple _ _ _); [|by apply get_usable|].
    { unfold get_spreadsheet. no_panic. }
    intros [e|sp] Hsp; [no_panic|]. destruct (findMatchingSheet (Sheets sp) spec); [no_panic|].
    destruct (negb (CreateIfMissing spec)).
    + destruct (sp_Title sp); [|done]. simpl deref. no_panic.
    + unfold createNewTab. no_panic.
Qed.

Lemma no_panic_batch_update msg reqs : no_panic (batch_update env s msg sid reqs).
Proof. unfold batch_update. no_panic. Qed.

Lemma no_panic_write_batches bs : no_panic (write_batches env s sid bs).
Proof.
  induction bs as [|b bs IH]; cbn [write_batches]; [no_panic|].
  apply no_panic_bind; [unfold write_batch; no_panic|]. intros [e|]; [no_panic|done].
Qed.

Hint Resolve no_panic_batch_update no_panic_write_batches : go.

Lemma no_panic_resize p spec : no_panic (resizeTab env s sid (Some p) spec).
Proof.
  unfold resizeTab, resizeTabGridOnly.
  destruct (calculateTargetGridDimensions (Some p) (Data spec)) as [[[r c] tr] tc].
  simpl deref. no_panic.
Qed.

(** C15: ReplaceTab always returns, with a result or an error, for every sequence
    of successes and failures of the API, when a successful addition of a sheet is
    answered with the sheet's properties and a spreadsheet has its own. *)
Theorem replace_tab_returns (spec : TabSpec) :
  adds_reply → gets_title → no_panic (ReplaceTab env s sid spec).
Proof.
  intros Ha Hg. destruct (resolved_usable spec Ha Hg) as [Hu Hn].
  unfold ReplaceTab. do 2 (case_match; [no_panic|]).
  eapply (no_panic_bind_triple _ _ _ Hn Hu). intros [e|tab]; [no_panic|].
  intros (t & p & -> & Hp). apply no_panic_deref. rewrite Hp.
  apply no_panic_bind; [apply no_panic_resize|]. intros [e|target]; [no_panic|].
  apply no_panic_deref.
  apply no_panic_bind; [unfold clearTab; no_panic|]. intros [e|]; [no_panic|].
  apply no_panic_bind; [unfold writeTabBatches; no_panic|]. intros [e|n]; [no_panic|].
  apply no_panic_bind; [unfold applyTabFormatting; no_panic|]. intros [e|]; [no_panic|].
  apply no_panic_bind; [unfold applyRichLinks; no_panic|]. intros [e|]; no_panic.
Qed.

(** What is wrong with the arguments is said before anything is asked of the API. *)
Theorem replace_tab_checks (spec : TabSpec) (w : W) :
  (sid = "" → ReplaceTab env s sid spec w = (Returned (inl ErrMissingSpreadsheetID), w)) ∧
  (sid ≠ "" → tab_Title spec = "" → GID spec < 0 →
   ReplaceTab env s sid spec w = (Returned (inl ErrMissingTabTitleOrGID), w)).
Proof.
  unfold ReplaceTab. split.
  - intros ->. done.
  - intros Hs Ht Hg. rewrite bool_decide_eq_false_2, bool_decide_eq_true_2 by done.
    by rewrite (proj2 (Z.ltb_lt _ _) Hg).
Qed.
End returns.

(** ** Witnesses: a server *)

(** Tabs, and the cells of each by title. *)
Record Server := mkServer {
  srv_tabs : list Sheet; srv_cells : string → Z * Z → option (string * value)
}.

Definition set_cells (title : string) (f : (Z * Z → option (string * value)) → Z * Z → option (string * value))
    (w : Server) : Server :=
  mkServer (srv_tabs w) (λ t, if bool_decide (t = title) then f (srv_cells w t) else srv_cells w t).

Definition fill (range opt : string) (vals : list (list value))
    (c : Z * Z → option (string * value)) (pos : Z * Z) : option (string * value) :=
  match batch.parse_range range with
  | Some (_, (c0, r0), _) =>
      match column (pos.2 - r0) vals ≫= column (pos.1 - c0) with
      | Some v => Some (opt, v)
      | None => c pos
      end
  | None => c pos
  end.

Definition demo_api : SheetsAPI Server := {|
  api_Create := λ _ _ _ w, (inr (mkSpreadsheet "new" "" (Some "Doc") (srv_tabs w)), w);
  api_Get := λ id _ w, (inr (mkSpreadsheet id "" (Some "Doc") (srv_tabs w)), w);
  api_BatchUpdate := λ _ reqs w,
    match reqs with
    | [AddSheet title] =>
        let p := mkProps 42 title None in
        (inr [Some (Some p)], mkServer (srv_tabs w ++ [mkSheet (Some p) []]) (srv_cells w))
    | _ => (inr [], w)
    end;
  api_Clear := λ _ range w,
    match range with
    | String _ s => match batch.unquote s with
                    | Some (t, _) => (None, set_cells t (λ _ _, None) w)
                    | None => (Some (ENew "400" "bad range"), w)
                    end
    | EmptyString => (Some (ENew "400" "bad range"), w)
    end;
  api_Update := λ _ range vals opt w,
    match batch.parse_range range with
    | Some (t, _, _) => (None, set_cells t (fill range opt vals) w)
    | None => (Some (ENew "400" "bad range"), w)
    end
|}.
Definition demo_service : Service Server := mkService demo_api None.
Definition demo_env : Env Server :=
  mkEnv gcp.demo_views (λ _, None) (λ _ w, (0, w)) (λ _ w, (None, w)) (λ w, (0, w)) (λ _, None).
Definition demo_content (w : Server) (_ title : string) : Z * Z → option (string * value) :=
  srv_cells w title.

Lemma fill_writes b title q c pos v :
  batch.parse_range (batch.Range b) = Some (title, q.1, q.2) →
  (batch.writes_to b pos v →
   fill (batch.Range b) (batch.ValueInputOption b) (batch.Values b) c pos =
     Some (batch.ValueInputOption b, v)) ∧
  (fill (batch.Range b) (batch.ValueInputOption b) (batch.Values b) c pos = c pos ∨
   ∃ v, batch.writes_to b pos v ∧
     fill (batch.Range b) (batch.ValueInputOption b) (batch.Values b) c pos =
       Some (batch.ValueInputOption b, v)).
Proof.
  destruct q as [[c0 r0] q]. cbn [fst snd]. intros E. unfold fill. rewrite E. split.
  - intros (t & c1 & r1 & q1 & i & j & vals & E1 & Hi & Hj & ->). rewrite E1 in E. simplify_eq. cbn [fst snd].
    replace (r0 + Z.of_nat i - r0) with (Z.of_nat i) by lia.
    replace (c0 + Z.of_nat j - c0) with (Z.of_nat j) by lia.
    rewrite batch.column_nat, Hi. cbn. by rewrite batch.column_nat, Hj.
  - destruct (column (pos.2 - r0) (batch.Values b) ≫= column (pos.1 - c0)) as [v'|] eqn:Ev; [right|by left].
    apply bind_Some in Ev as (vals & Hi & Hj).
    apply batch.column_Some in Hi as (i & Ei & Hi), Hj as (j & Ej & Hj).
    exists v'. split; [|done]. exists title, c0, r0, q, i, j, vals. split; [done|].
    split; [done|]. split; [done|]. destruct pos; simpl in *. f_equal; lia.
Qed.

Lemma demo_laws sid title : server_laws demo_env demo_service demo_content sid title.
Proof.
  split.
  - intros reqs w Hk. unfold demo_content. simpl.
    by destruct reqs as [|[] [|]].
  - intros w _ pos.
    change (batch.EscapeSheetTitle title) with
      (String batch.apostrophe (batch.double_apostrophes title +:+ String batch.apostrophe "")).
    cbn [api_Clear sheets demo_service demo_api]. rewrite batch.unquote_title by done.
    unfold demo_content, set_cells. simpl. by rewrite bool_decide_eq_true_2.
  - intros b w pos (c0 & r0 & q & E & _). simpl. rewrite E. unfold demo_content, set_cells. simpl.
    rewrite bool_decide_eq_true_2 by done.
    by apply (fill_writes b title ((c0, r0), q) (srv_cells w title) pos VNil).
  - intros b w pos v (c0 & r0 & q & E & _). simpl. rewrite E. intros _ Hv.
    unfold demo_content, set_cells. simpl. rewrite bool_decide_eq_true_2 by done.
    by apply (fill_writes b title ((c0, r0), q) (srv_cells w title) pos v).
  - done.
Qed.

#[local] Existing Instance demo_formats.

Definition demo_start : Server :=
  mkServer [demo_sheet 3 "Data"] (λ _ _, Some ("RAW", VString "old")).
Definition demo_spec : TabSpec :=
  mkTabSpec "New" (-1) true false 0 0 None (Some batch.demo_table).

Lemma replace_tab_content_witness :
  let run := ReplaceTab demo_env demo_service "id" demo_spec demo_start in
  run.1 = Returned (inr (mkTabResult 42 "New" 15 12 3)) ∧
  srv_cells run.2 "New" (1, 2) = Some ("USER_ENTERED", VString "=A1") ∧
  srv_cells run.2 "New" (7, 7) = None.
Proof.
  cbv zeta. set (r := ReplaceTab demo_env demo_service "id" demo_spec demo_start).
  assert (E : r.1 = Returned (inr (mkTabResult 42 "New" 15 12 3))) by (vm_compute; reflexivity).
  pose proof (replace_tab_content demo_env demo_service demo_content "id" demo_spec demo_start
    (mkTabResult 42 "New" 15 12 3) r.2 (demo_laws "id")
    (eq_trans (surjective_pairing r) (f_equal (λ a, (a, r.2)) E))) as [H _].
  split; [exact E|]. split.
  - pose proof (H (1, 2)) as H1. vm_compute in H1. exact H1.
  - pose proof (H (7, 7)) as H7. unfold demo_spec in H7. simpl in H7.
    destruct H7 as [H7|[[_ [[_ Hg] _]] _]]; [exact H7|]. exfalso. revert Hg. vm_compute. discriminate.
Defined.

Lemma replace_tab_returns_witness :
  no_panic (ReplaceTab demo_env demo_service "id" demo_spec).
Proof.
  apply (replace_tab_returns demo_env demo_service "id" demo_spec).
  - intros title w r w' E. cbn in E. injection E as <- _. eexists _, _. reflexivity.
  - intros fields w sp w' E. cbn in E. injection E as <- _. discriminate.
Defined.

(** A server that answers the addition of a sheet without its properties: the nil
    tab is followed, and ReplaceTab panics. *)
Definition silent_api : SheetsAPI Server := {|
  api_Create := api_Create demo_api; api_Get := api_Get demo_api;
  api_BatchUpdate := λ _ _ w, (inr [], w);
  api_Clear := api_Clear demo_api; api_Update := api_Update demo_api |}.

Example missing_reply_panics :
  ∃ w', ReplaceTab demo_env (mkService silent_api None) "id" demo_spec demo_start =
    (Panicked "invalid memory address or nil pointer dereference", w').
Proof. eexists. vm_compute. reflexivity. Qed.
End service.
