(* ===== verification/DriveAdmin.v ===== *)
(** * google/workspace/drive: files, folders, shared drives

    Models [service.go] and [admin.go] of [src/go/google/workspace/drive]. The
    client of the Drive API is a record of operations on a world, each with what
    the code sets on its call; a pointer in an answer may be nil, which is [None].
    Module [paging] is the loop that reads a listing to its end, and the interface
    of a server that pages ([Paged]). *)

From S2P Require Import Prelude GoStrings GoErr GoMonad Calls.
From Stdlib Require Import Ascii.

Module paging.

(** ** Reading a listing to its end *)

Section loop.
Context {W T : Type} (fetch : string → W → (error + list T * string) * W) (msg : string).

(** [for { res, err := call.Do() ... }]: [None] when the fuel is spent. *)
Fixpoint list_all (fuel : nat) (pageToken : string) (out : list T) : go W (option (error + list T)) :=
  match fuel with
  | O => mret None
  | S fuel =>
      res ← does (fetch pageToken);
      match res with
      | inl err => mret (Some (inl (wrap_pre msg err)))
      | inr (items, next) =>
          let out := out ++ items in
          if bool_decide (next = "") then mret (Some (inr out)) else list_all fuel next out
      end
  end.
End loop.

(** A server that pages: what is left to read from a token, page by page (a page
    may be empty), and that reading changes none of it. *)
Class Paged {W T : Type} (fetch : string → W → (error + list T * string) * W) := {
  pages : string → W → list (list T);
  paged_fetch tok w page next w' : fetch tok w = (inr (page, next), w') →
    ∃ rest, pages tok w = page :: rest ∧ (if decide (next = "") then rest = [] else pages next w = rest);
  paged_keeps tok w t : pages t (fetch tok w).2 = pages t w
}.

Section paged.
Context {W T : Type} (fetch : string → W → (error + list T * string) * W) (msg : string) `{!Paged fetch}.

(** The loop ends, after at most as many calls as there are pages, with all of
    them in order or with the error of a call; either way the listing is the same
    after it. *)
Lemma list_all_exact fuel tok out w :
  (length (pages tok w) < fuel)%nat →
  ∃ r w', list_all fetch msg fuel tok out w = (Returned (Some r), w') ∧
    (∀ t, pages t w' = pages t w) ∧
    match r with
    | inr l => l = out ++ concat (pages tok w)
    | inl e => ∃ e', e = wrap_pre msg e'
    end.
Proof.
  revert tok out w. induction fuel as [|fuel IH]; intros tok out w Hf; [lia|].
  cbn [list_all]. unfold does at 1. cbv [mbind go_bind].
  pose proof (paged_keeps tok w) as Hk.
  destruct (fetch tok w) as [[e|[page next]] w1] eqn:E; simpl in Hk.
  { eexists _, _. split; [reflexivity|]. eauto. }
  destruct (paged_fetch _ _ _ _ _ E) as (rest & Ep & Hr). rewrite Ep in *. simpl in *.
  case_bool_decide as Hn.
  { rewrite decide_True in Hr by done. subst rest. eexists _, _. split; [reflexivity|].
    split; [done|]. simpl. by rewrite app_nil_r. }
  rewrite decide_False in Hr by done.
  destruct (IH next (out ++ page) w1) as (r & w' & -> & Hw & Hres); [rewrite Hk, Hr; lia|].
  exists r, w'. split; [done|]. split; [intros t; by rewrite Hw, Hk|].
  destruct r; [done|]. by rewrite Hres, Hk, Hr, <- app_assoc.
Qed.
End paged.

End paging.

Module drive.
Import paging.

(** ** The API *)

(** The API's [drive.File], as far as it is used. *)
Record gFile := mkgFile {
  Id : string; Name : string; MimeType : string; DriveId : string; Parents : list string;
  Properties : list (string * string); AppProperties : list (string * string); Trashed : bool
}.
Definition no_file : gFile := mkgFile "" "" "" "" [] [] [] false.

(** [R] is the type of [drive.DriveRestrictions]. *)
Record gDrive (R : Type) := mkDrive { dr_Id : string; dr_Name : string; Restrictions : option R }.
Arguments mkDrive {R}.
Arguments dr_Id {R}.
Arguments dr_Name {R}.
Arguments Restrictions {R}.

Record Permission := mkPerm { p_Id : string; p_Type : string; p_Role : string; EmailAddress : string }.

(** What a listing call was built with; an empty text or zero is a setter that was
    not called. *)
Record ListCall := mkList {
  Q : string; Fields : string; PageSize : Z; PageToken : string; UseDomainAdminAccess : bool;
  SupportsAllDrives : bool; IncludeItemsFromAllDrives : bool; Corpora : string; call_DriveId : string
}.

Record UpdateCall := mkUpdate {
  up_File : option gFile; AddParents : string; RemoveParents : string; up_Fields : string
}.

Record DriveAPI (W R : Type) := mkAPI {
  Body : Type;
  Files_Export : string → string → W → (error + Body) * W;
  Files_Download : string → W → (error + Body) * W;
  ReadAll : Body → W → (string * option error) * W;
  Body_Close : Body → W → W;
  (** The file, its content if any, the fields asked for. *)
  Files_Create : gFile → option string → string → W → (error + gFile) * W;
  Files_Get : string → string → W → (error + gFile) * W;
  Files_Update : string → UpdateCall → W → (error + gFile) * W;
  Files_List : ListCall → W → (error + list (option gFile) * string) * W;
  Drives_Create : string → gDrive R → W → (error + gDrive R) * W;
  Drives_Get : string → string → W → (error + gDrive R) * W;
  Drives_List : ListCall → W → (error + list (option (gDrive R)) * string) * W;
  Permissions_List : string → ListCall → W → (error + list (option Permission) * string) * W;
  Permissions_Create : string → Permission → W → option error * W;
  Permissions_Update : string → string → string → W → option error * W;
  (** The last argument is domain admin access. *)
  Permissions_Delete : string → string → bool → W → option error * W
}.
Arguments mkAPI {W R}.
Arguments Body {W R}.
Arguments Files_Export {W R}.
Arguments Files_Download {W R}.
Arguments ReadAll {W R}.
Arguments Body_Close {W R}.
Arguments Files_Create {W R}.
Arguments Files_Get {W R}.
Arguments Files_Update {W R}.
Arguments Files_List {W R}.
Arguments Drives_Create {W R}.
Arguments Drives_Get {W R}.
Arguments Drives_List {W R}.
Arguments Permissions_List {W R}.
Arguments Permissions_Create {W R}.
Arguments Permissions_Update {W R}.
Arguments Permissions_Delete {W R}.

(** ** Queries *)

(** [strings.ReplaceAll] of one byte. *)
Fixpoint replace_byte (c : ascii) (new s : string) : string :=
  match s with
  | EmptyString => EmptyString
  | String d s' => if Ascii.eqb d c then new +:+ replace_byte c new s' else String d (replace_byte c new s')
  end.

Definition EscapeQueryValue (s : string) : string :=
  replace_byte "'" "\'" (replace_byte "\" "\\" s).

Definition drive_name_query (name : string) : string := "name = '" +:+ EscapeQueryValue name +:+ "'".

Definition folder_query (parentID name : string) : string :=
  "name = '" +:+ EscapeQueryValue name +:+
  "' and mimeType = 'application/vnd.google-apps.folder' and '" +:+ EscapeQueryValue parentID +:+
  "' in parents and trashed = false".

Definition property_query (key value : string) : string :=
  "appProperties has { key='" +:+ EscapeQueryValue key +:+ "' and value='" +:+ EscapeQueryValue value +:+
  "' } and mimeType = 'application/vnd.google-apps.folder' and trashed = false".

(** ** The service *)

Definition defaultAdminPageSize : Z := 100.
Definition searchPageSize : Z := 50.
Definition queryPageSize : Z := 10.

Definition ErrNotFound : error := ENew "drive.ErrNotFound" "drive: resource not found".

(** The package's own [File]. *)
Record File := mkFile { file_ID : string; file_Name : string; file_MimeType : string; file_DriveID : string }.
Definition simplified (f : gFile) : File := mkFile (Id f) (Name f) (MimeType f) (DriveId f).

Record Service (W R : Type) := mkService { service_drive : DriveAPI W R }.
Arguments mkService {W R}.
Arguments service_drive {W R}.

Definition RawService {W R} (s : Service W R) : DriveAPI W R := service_drive s.

(** [newService] is what the client's constructor returned. *)
Definition New {W R} (newService : error + DriveAPI W R) : error + Service W R :=
  match newService with
  | inl err => inl (wrap_pre "drive: create service: " err)
  | inr svc => inr (mkService svc)
  end.

Definition sharedDriveConfig (R : Type) : Type := option R.
Definition SharedDriveOption (R : Type) : Type := sharedDriveConfig R → sharedDriveConfig R.
Definition WithDriveRestrictions {R} (r : option R) : SharedDriveOption R := λ _, r.

Section with_service.
Context {W R : Type} (s : Service W R).
Abbreviation api := (service_drive s).

(** The answer of a call, its error under a message. *)
Definition call {A} (msg : string) (f : W → (error + A) * W) : go W (error + A) :=
  r ← does f; mret (match r with inl err => inl (wrap_pre msg err) | inr a => inr a end).

Definition FetchFile (id sourceMimeType targetMimeType : string) : go W (error + string) :=
  resp ←? call "drive: fetch file: "
    (if has_prefix "application/vnd.google-apps." sourceMimeType
     then Files_Export api id (if bool_decide (targetMimeType = "") then "application/pdf" else targetMimeType)
     else Files_Download api id);
  res ← does (ReadAll api resp);
  _ ← does (λ w, (tt, Body_Close api resp w));
  mret (match res.2 with
        | Some err => inl (wrap_pre "drive: read body: " err)
        | None => inr res.1
        end).

Definition in_folder (folderID : string) : list string :=
  if negb (bool_decide (folderID = "")) then [folderID] else [].

Definition Upload (name folderID : string) (properties : list (string * string)) (content : string)
  : go W (error + File) :=
  created ←? call "drive: upload: "
    (Files_Create api (mkgFile "" name "" "" (in_folder folderID) properties [] false) (Some content) "");
  mret (inr (simplified created)).

Definition CreateSharedDrive (name requestID : string) (opts : list (SharedDriveOption R))
  : go W (error + gDrive R) :=
  let cfg := fold_left (λ c opt, opt c) opts None in
  call ("drive: create shared drive " +:+ quote name +:+ " (request_id=" +:+ requestID +:+ "): ")
    (Drives_Create api requestID (mkDrive "" name cfg)).

(** The first drive of the answer with the name. *)
Fixpoint pick_drive (name : string) (drives : list (option (gDrive R))) : go W (option (gDrive R)) :=
  match drives with
  | [] => mret None
  | d :: rest =>
      d ← deref d; if bool_decide (dr_Name d = name) then mret (Some d) else pick_drive name rest
  end.

Definition FindSharedDriveByName (name : string) : go W (error + gDrive R) :=
  list ←? call ("drive: find shared drive by name " +:+ quote name +:+ ": ")
    (Drives_List api (mkList (drive_name_query name) "drives(id,name,restrictions,hidden)" searchPageSize ""
       true false false "" ""));
  d ← pick_drive name list.1;
  mret (match d with
        | Some d => inr d
        | None => inl (wrap_post ErrNotFound (": shared drive " +:+ quote name))
        end).

Definition GetSharedDrive (driveID : string) : go W (error + gDrive R) :=
  call ("drive: get shared drive " +:+ driveID +:+ ": ")
    (Drives_Get api driveID "id,name,restrictions,hidden").

Definition drives_page (pageSize : Z) (tok : string) : W → (error + list (option (gDrive R)) * string) * W :=
  Drives_List api (mkList "" "nextPageToken,drives(id,name,restrictions,hidden)" pageSize tok
    true false false "" "").

Definition ListSharedDrives (fuel : nat) (pageSize : Z) : go W (option (error + list (option (gDrive R)))) :=
  let pageSize := if pageSize <=? 0 then defaultAdminPageSize else pageSize in
  list_all (drives_page pageSize) "drive: list shared drives: " fuel "" [].

Definition CreateFolder (parentID name : string) (appProperties : list (string * string))
  : go W (error + File) :=
  created ←? call ("drive: create folder " +:+ quote name +:+ ": ")
    (Files_Create api
       (mkgFile "" name "application/vnd.google-apps.folder" "" (in_folder parentID) [] appProperties false)
       None "id,name,mimeType,driveId");
  mret (inr (simplified created)).

Definition find_first (msg q : string) : go W (error + string) :=
  res ←? call msg (Files_List api (mkList q "files(id,name)" queryPageSize "" false true true "" ""));
  match res.1 with
  | [] => mret (inr "")
  | f :: _ => f ← deref f; mret (inr (Id f))
  end.

Definition FindFolder (parentID name : string) : go W (error + string) :=
  find_first ("drive: find folder " +:+ quote name +:+ " in " +:+ parentID +:+ ": ")
    (folder_query parentID name).

Definition FindFolderByProperty (key value : string) : go W (error + string) :=
  find_first ("drive: find folder by property " +:+ key +:+ "=" +:+ value +:+ ": ")
    (property_query key value).

Definition MoveFile (fileID oldParentID newParentID : string) : go W (error + gFile) :=
  removeParents ←?
    (if bool_decide (oldParentID = "")
     then
       existing ←? call ("drive: move file " +:+ fileID +:+ ": discover existing parents: ")
         (Files_Get api fileID "id,parents");
       mret (inr (join "," (Parents existing)))
     else mret (inr oldParentID));
  call ("drive: move file " +:+ fileID +:+ " to " +:+ newParentID +:+ " (removing " +:+ removeParents +:+ "): ")
    (Files_Update api fileID (mkUpdate None newParentID removeParents "id,name,parents,driveId")).

Definition SetAppProperties (fileID : string) (props : list (string * string)) : go W (option error) :=
  r ← call ("drive: set app properties for " +:+ fileID +:+ ": ")
    (Files_Update api fileID (mkUpdate (Some (mkgFile "" "" "" "" [] [] props false)) "" "" "id"));
  mret (match r with inl err => Some err | inr _ => None end).

Definition TrashFile (fileID : string) : go W (error + bool) :=
  res ←? call ("drive: trash file " +:+ fileID +:+ ": ")
    (Files_Update api fileID (mkUpdate (Some (mkgFile "" "" "" "" [] [] [] true)) "" "" "id,trashed"));
  mret (inr (Trashed res)).
End with_service.

(** ** A query means what was asked for *)

(** How the server reads a query: text outside quotes, and literals, in which a
    backslash takes the next byte as it is. *)
Inductive piece := Text (s : string) | Literal (s : string).

Fixpoint read_literal (s : string) : option (string * string) :=
  match s with
  | EmptyString => None
  | String c s' =>
      if Ascii.eqb c "'" then Some ("", s')
      else if Ascii.eqb c "\" then
        match s' with
        | EmptyString => None
        | String d s'' => '(l, rest) ← read_literal s''; Some (String d l, rest)
        end
      else '(l, rest) ← read_literal s'; Some (String c l, rest)
  end.

Fixpoint read_query (fuel : nat) (s : string) : option (list piece) :=
  match fuel with
  | O => None
  | S fuel =>
      match cut "'" s with
      | (text, rest, true) =>
          '(l, rest) ← read_literal rest; ps ← read_query fuel rest; Some (Text text :: Literal l :: ps)
      | (text, _, false) => Some [Text text]
      end
  end.

Lemma escape_cons c s :
  EscapeQueryValue (String c s) =
    (if Ascii.eqb c "\" then "\\" else if Ascii.eqb c "'" then "\'" else String c "") +:+ EscapeQueryValue s.
Proof.
  unfold EscapeQueryValue. cbn [replace_byte]. destruct (Ascii.eqb_spec c "\") as [->|H1].
  { reflexivity. }
  cbn [replace_byte]. by destruct (Ascii.eqb_spec c "'") as [->|H2].
Qed.

(** Whatever the value, the literal ends where it was meant to, and reads as it. *)
Lemma read_escaped v rest : read_literal (EscapeQueryValue v +:+ String "'" rest) = Some (v, rest).
Proof.
  induction v as [|c v IH]; [reflexivity|]. rewrite escape_cons, str_app_assoc.
  destruct (Ascii.eqb_spec c "\") as [->|H1]; [|destruct (Ascii.eqb_spec c "'") as [->|H2]].
  - change ("\\" +:+ ?t) with (String "\" (String "\" t)). cbn. by rewrite IH.
  - change ("\'" +:+ ?t) with (String "\" (String "'" t)). cbn. by rewrite IH.
  - rewrite str_cons_app, str_nil_app. cbn [read_literal].
    rewrite (proj2 (Ascii.eqb_neq _ _) H1), (proj2 (Ascii.eqb_neq _ _) H2). by rewrite IH.
Qed.

Lemma read_segment fuel text v rest ps :
  contains_byte "'" text = false → read_query fuel rest = Some ps →
  read_query (S fuel) (text +:+ String "'" (EscapeQueryValue v +:+ String "'" rest)) =
    Some (Text text :: Literal v :: ps).
Proof. intros Ht Hr. cbn [read_query]. rewrite cut_app by done. rewrite read_escaped. simpl. by rewrite Hr. Qed.

Lemma read_word fuel text w rest ps :
  contains_byte "'" text = false → EscapeQueryValue w = w → read_query fuel rest = Some ps →
  read_query (S fuel) (text +:+ String "'" (w +:+ String "'" rest)) = Some (Text text :: Literal w :: ps).
Proof. intros Ht Hw Hr. rewrite <- Hw at 1. by apply read_segment. Qed.

(** C18: No name, parent, key or value can break out of its place in a query: the
    server reads each of the three queries with exactly the literals that were
    asked for, quotes and backslashes included, and the rest as written. *)
Theorem queries_mean_what_they_say (name parentID key value : string) :
  read_query 5 (drive_name_query name) = Some [Text "name = "; Literal name; Text ""] ∧
  read_query 5 (folder_query parentID name) =
    Some [Text "name = "; Literal name; Text " and mimeType = ";
          Literal "application/vnd.google-apps.folder"; Text " and "; Literal parentID;
          Text " in parents and trashed = false"] ∧
  read_query 5 (property_query key value) =
    Some [Text "appProperties has { key="; Literal key; Text " and value="; Literal value;
          Text " } and mimeType = "; Literal "application/vnd.google-apps.folder";
          Text " and trashed = false"].
Proof.
  split; [|split].
  - by apply (read_segment 4 "name = " name "" [Text ""]).
  - apply (read_segment 4 "name = " name
      (" and mimeType = 'application/vnd.google-apps.folder' and '" +:+ EscapeQueryValue parentID +:+
       "' in parents and trashed = false")); [done|].
    apply (read_word 3 " and mimeType = " "application/vnd.google-apps.folder"
      (" and '" +:+ EscapeQueryValue parentID +:+ "' in parents and trashed = false")); [done|done|].
    by apply (read_segment 2 " and " parentID " in parents and trashed = false"
      [Text " in parents and trashed = false"]).
  - apply (read_segment 4 "appProperties has { key=" key
      (" and value='" +:+ EscapeQueryValue value +:+
       "' } and mimeType = 'application/vnd.google-apps.folder' and trashed = false")); [done|].
    apply (read_segment 3 " and value=" value
      " } and mimeType = 'application/vnd.google-apps.folder' and trashed = false"); [done|].
    by apply (read_word 2 " } and mimeType = " "application/vnd.google-apps.folder"
      " and trashed = false" [Text " and trashed = false"]).
Qed.

(** ** Moving a file *)

(** What the documentation of the API says of a file's parents: an update removes
    the folders it names and adds one the file is not in; reading leaves them. *)
Class ParentServer {W R : Type} (api : DriveAPI W R) := {
  parents_of : string → W → list string;
  get_parents id fields w f w' : Files_Get api id fields w = (inr f, w') →
    Parents f = parents_of id w ∧ parents_of id w' = parents_of id w;
  update_parents id u w f w' :
    AddParents u ∉ parents_of id w → Files_Update api id u w = (inr f, w') →
    parents_of id w' = filter (.∉ split "," (RemoveParents u)) (parents_of id w) ++ [AddParents u]
}.

Section move.
Context {W R : Type} (s : Service W R) `{!ParentServer (service_drive s)}.

Lemma call_inv {A} msg (f : W → (error + A) * W) w a w' :
  call msg f w = (Returned (inr a), w') → f w = (inr a, w').
Proof. unfold call, does. cbv [mbind go_bind mret go_ret]. destruct (f w) as [[e|a0] w1]; intros; by simplify_eq. Qed.

(** A moved file is in the new folder only. When the old parent is not named
    all its parents are looked up and removed; when it is, exactly that one is. *)
Theorem move_file_parents (fileID oldParentID newParentID : string) w f w' :
  Forall (λ p, contains_byte "," p = false) (parents_of fileID w) →
  newParentID ∉ parents_of fileID w → contains_byte "," oldParentID = false →
  MoveFile s fileID oldParentID newParentID w = (Returned (inr f), w') →
  parents_of fileID w' =
    (if decide (oldParentID = "") then [] else filter (.≠ oldParentID) (parents_of fileID w)) ++ [newParentID].
Proof.
  intros Hc Hn Ho E. unfold MoveFile in E. case_bool_decide as Hb.
  - rewrite decide_True by done. apply bind_returned in E as ([e|rp] & w1 & E1 & E2); [done|].
    apply bind_returned in E1 as ([e|ex] & w2 & E0 & E1); [done|].
    cbv [mret go_ret] in E1. simplify_eq. apply call_inv in E0. apply call_inv in E2.
    apply get_parents in E0 as [Ep Ew]. apply update_parents in E2; [|by rewrite Ew]. rewrite E2. simpl.
    rewrite Ep, Ew. destruct (decide (parents_of fileID w = [])) as [->|Hne]; [done|].
    rewrite split_join by done. rewrite filter_none; [done|]. apply Forall_forall. intros p Hp Hnp. by apply Hnp.
  - rewrite decide_False by done. apply bind_returned in E as ([e|rp] & w1 & E1 & E2); [done|].
    cbv [mret go_ret] in E1. simplify_eq. apply call_inv in E2. apply update_parents in E2; [|done].
    rewrite E2. simpl. rewrite split_single by done. f_equal.
    apply list_filter_iff. intros p. set_solver.
Qed.
End move.

(** ** A Drive in memory *)

(** Files by their id with their parents; nothing else answers. *)
Abbreviation demo_world := (gmap string (list string)).
Definition unanswered {A : Type} (w : demo_world) : (error + A) * demo_world := (inl ErrNotFound, w).
Definition demo_api : DriveAPI demo_world unit :=
  let file id ps := mkgFile id "" "" "" ps [] [] false in
  mkAPI unit (λ _ _, unanswered) (λ _, unanswered) (λ _ w, ("", None, w)) (λ _ w, w) (λ _ _ _, unanswered)
    (λ id _ w, (inr (file id (default [] (w !! id))), w))
    (λ id u w,
       let ps := filter (.∉ split "," (RemoveParents u)) (default [] (w !! id)) ++ [AddParents u] in
       (inr (file id ps), <[id := ps]> w))
    (λ _, unanswered) (λ _ _, unanswered) (λ _ _, unanswered) (λ _, unanswered) (λ _ _, unanswered)
    (λ _ _ w, (None, w)) (λ _ _ _ w, (None, w)) (λ _ _ _ w, (None, w)).

#[local] Instance demo_parents : ParentServer demo_api.
Proof.
  refine {| parents_of := λ id (w : demo_world), default [] (w !! id) |}.
  - intros id fields w f w' E. simpl in E. by simplify_eq.
  - intros id u w f w' _ E. simpl in E. simplify_eq. by rewrite lookup_insert_eq.
Defined.

Lemma move_file_parents_witness :
  parents_of "f" (<["f" := ["c"]]> ({["f" := ["a"; "b"]]} : demo_world)) = ["c"].
Proof.
  apply (move_file_parents (mkService demo_api) "f" "" "c" {["f" := ["a"; "b"]]}
    (mkgFile "f" "" "" "" ["c"] [] [] false) (<["f" := ["c"]]> {["f" := ["a"; "b"]]})).
  - repeat constructor.
  - vm_compute. intros H. inversion H as [|? ? ? H1]; subst. inversion H1 as [|? ? ? H2]; subst. inversion H2.
  - reflexivity.
  - reflexivity.
Defined.

(** Moving a file into the folder it is in asks the server to add and to remove that
    folder. *)
Example move_in_place :
  let u := mkUpdate None "a" "a" "id,name,parents,driveId" in
  MoveFile (mkService demo_api) "f" "" "a" {["f" := ["a"]]} =
    (Returned (Files_Update demo_api "f" u {["f" := ["a"]]}).1, (Files_Update demo_api "f" u {["f" := ["a"]]}).2).
Proof. reflexivity. Qed.

(** ** Listings *)

(** All Shared Drives are listed: with a server that pages, the loop returns
    every page's drives in order, after one call per page, or the error of a
    call; a page size that is not positive is 100. *)
Theorem shared_drives_listed {W R} (s : Service W R) (pageSize : Z) fuel w
    `{!Paged (drives_page s (if pageSize <=? 0 then 100 else pageSize))} :
  (length (pages "" w) < fuel)%nat →
  ∃ r w', ListSharedDrives s fuel pageSize w = (Returned (Some r), w') ∧
    match r with
    | inr l => l = concat (pages "" w)
    | inl e => ∃ e', e = wrap_pre "drive: list shared drives: " e'
    end.
Proof.
  intros Hf. unfold ListSharedDrives, defaultAdminPageSize.
  destruct (list_all_exact _ "drive: list shared drives: " fuel "" [] w Hf) as (r & w' & E & _ & Hr).
  by exists r, w'.
Qed.

End drive.
