(* ===== verification/DriveMembers.v ===== *)
(** * google/workspace/drive: membership and scanning

    Models [membership.go] and [scanner.go] of [src/go/google/workspace/drive], on
    the API and the paging of [DriveAdmin.v]. *)

From S2P Require Import Prelude GoStrings GoErr GoMonad Calls DriveAdmin.

Module membership.
Import paging drive.

(** ** Roles *)

Definition RoleReader : string := "reader".
Definition RoleCommenter : string := "commenter".
Definition RoleWriter : string := "writer".
Definition RoleFileOrganizer : string := "fileOrganizer".
Definition RoleOrganizer : string := "organizer".

Definition RoleRank (role : string) : Z :=
  if bool_decide (role = RoleReader) then 10
  else if bool_decide (role = RoleCommenter) then 20
  else if bool_decide (role = RoleWriter) then 30
  else if bool_decide (role = RoleFileOrganizer) then 40
  else if bool_decide (role = RoleOrganizer) then 50
  else 0.

Definition ErrEmptyMemberEmail : error := ENew "drive.ErrEmptyMemberEmail" "drive: empty member email".
Definition ErrUnknownRole : error := ENew "drive.ErrUnknownRole" "drive: unknown role".

Inductive MembershipAction :=
| MembershipActionCreated | MembershipActionUpgraded | MembershipActionUnchanged.
#[export] Instance MembershipAction_eq_dec : EqDecision MembershipAction.
Proof. solve_decision. Defined.

Record MembershipResult := mkResult {
  res_DriveID : string; Member : string; Role : string; PreviousRole : string;
  Action : MembershipAction; DryRun : bool
}.

(** [strings.EqualFold], for ASCII. *)
Definition EqualFold (a b : string) : bool := bool_decide (to_lower a = to_lower b).

Section with_service.
Context {W R : Type} (s : Service W R).
Abbreviation api := (service_drive s).

Definition permission_fields : string :=
  "nextPageToken,permissions(id,type,role,emailAddress,domain)".

Definition members_page (driveID tok : string) : W → (error + list (option Permission) * string) * W :=
  Permissions_List api driveID
    (mkList "" permission_fields defaultAdminPageSize tok true true false "" "").

Definition ListDriveMembers (fuel : nat) (driveID : string)
  : go W (option (error + list (option Permission))) :=
  list_all (members_page driveID) ("drive: list permissions for drive " +:+ driveID +:+ ": ") fuel "" [].

Definition file_permissions_page (fileID tok : string)
  : W → (error + list (option Permission) * string) * W :=
  Permissions_List api fileID
    (mkList "" permission_fields defaultAdminPageSize tok false true false "" "").

Definition ListFilePermissions (fuel : nat) (fileID : string)
  : go W (option (error + list (option Permission))) :=
  list_all (file_permissions_page fileID) ("drive: list permissions for file " +:+ fileID +:+ ": ") fuel "" [].

Definition DeleteDriveMember (driveID permissionID : string) : go W (option error) :=
  api_err ("drive: delete permission " +:+ permissionID +:+ " on drive " +:+ driveID +:+ ": ")
    (Permissions_Delete api driveID permissionID true).

Definition DeleteFilePermission (fileID permissionID : string) : go W (option error) :=
  api_err ("drive: delete permission " +:+ permissionID +:+ " on file " +:+ fileID +:+ ": ")
    (Permissions_Delete api fileID permissionID false).

(** The member's permission with the highest role, the first of them. *)
Fixpoint pick_current (memberEmail : string) (perms : list (option Permission)) (current : option Permission)
  : go W (option Permission) :=
  match perms with
  | [] => mret current
  | p :: perms =>
      p ← deref p;
      pick_current memberEmail perms
        (if EqualFold (EmailAddress p) memberEmail
         then match current with
              | None => Some p
              | Some c => if RoleRank (p_Role c) <? RoleRank (p_Role p) then Some p else Some c
              end
         else current)
  end.

Definition EnsureDriveMembership (fuel : nat) (driveID memberEmail role : string) (dryRun : bool)
  : go W (option (error + MembershipResult)) :=
  let memberEmail := to_lower (trim_space memberEmail) in
  if bool_decide (memberEmail = "")
  then mret (Some (inl (wrap_post ErrEmptyMemberEmail (" for drive " +:+ driveID))))
  else
    let targetRank := RoleRank role in
    if targetRank =? 0
    then mret (Some (inl (wrap_post ErrUnknownRole (" " +:+ quote role +:+ " (valid: " +:+
           join ", " [RoleReader; RoleCommenter; RoleWriter; RoleFileOrganizer; RoleOrganizer] +:+ ")"))))
    else
      perms ← ListDriveMembers fuel driveID;
      match perms with
      | None => mret None
      | Some (inl err) =>
          mret (Some (inl (wrap_pre ("drive: list members for drive " +:+ driveID +:+ ": ") err)))
      | Some (inr perms) =>
          current ← pick_current memberEmail perms None;
          match current with
          | Some current =>
              if targetRank <=? RoleRank (p_Role current)
              then mret (Some (inr (mkResult driveID memberEmail (p_Role current) (p_Role current)
                                      MembershipActionUnchanged dryRun)))
              else
                let res := mkResult driveID memberEmail role (p_Role current)
                             MembershipActionUpgraded dryRun in
                if dryRun then mret (Some (inr res))
                else
                  err ← does (Permissions_Update api driveID (p_Id current) role);
                  match err with
                  | Some err => mret (Some (inl (wrap_pre ("drive: upgrade member " +:+ memberEmail +:+
                      " on drive " +:+ driveID +:+ " to " +:+ role +:+ ": ") err)))
                  | None => mret (Some (inr res))
                  end
          | None =>
              let res := mkResult driveID memberEmail role "" MembershipActionCreated dryRun in
              if dryRun then mret (Some (inr res))
              else
                err ← does (Permissions_Create api driveID (mkPerm "" "user" role memberEmail));
                match err with
                | Some err => mret (Some (inl (wrap_pre ("drive: create member " +:+ memberEmail +:+
                    " on drive " +:+ driveID +:+ " (" +:+ role +:+ "): ") err)))
                | None => mret (Some (inr res))
                end
          end
      end.
End with_service.

(** ** What a server of permissions promises *)

Definition with_role (role : string) (p : Permission) : Permission :=
  mkPerm (p_Id p) (p_Type p) role (EmailAddress p).

(** The permissions of a drive, each with its own id; they are listed page by page,
    an update sets a role, a creation adds a permission with a new id. *)
Class MemberServer {W R : Type} (s : Service W R) (d : string) := {
  members_of : W → list Permission;
  members_paged :: Paged (members_page s d);
  members_pages w : concat (pages "" w) = map Some (members_of w);
  members_ids w : NoDup (p_Id <$> members_of w);
  members_update id role w w' : Permissions_Update (service_drive s) d id role w = (None, w') →
    members_of w' = map (λ p, if decide (p_Id p = id) then with_role role p else p) (members_of w);
  members_create p w w' : Permissions_Create (service_drive s) d p w = (None, w') →
    ∃ id, members_of w' ≡ₚ mkPerm id (p_Type p) (p_Role p) (EmailAddress p) :: members_of w
}.

Definition is_member (m : string) (p : Permission) : Prop := EqualFold (EmailAddress p) m = true.
#[export] Instance is_member_dec m p : Decision (is_member m p).
Proof. unfold is_member. apply _. Defined.

(** The rank a member has: that of its highest role, 0 without one. *)
Definition held (m : string) (l : list Permission) : Z :=
  foldr Z.max 0 (map (λ p, RoleRank (p_Role p)) (filter (is_member m) l)).

Lemma rank_nonneg role : 0 ≤ RoleRank role.
Proof. unfold RoleRank. repeat case_bool_decide; lia. Qed.

Lemma held_ge m l p : p ∈ l → is_member m p → RoleRank (p_Role p) ≤ held m l.
Proof.
  intros Hp Hm. unfold held. assert (p ∈ filter (is_member m) l) as H by by apply list_elem_of_filter.
  revert H. generalize (filter (is_member m) l). clear. induction l as [|q l IH]; simpl; [by intros ?%elem_of_nil|].
  intros [->|H]%elem_of_cons; [lia|]. specialize (IH H). lia.
Qed.

Lemma held_le m l n : (∀ p, p ∈ l → is_member m p → RoleRank (p_Role p) ≤ n) → 0 ≤ n → held m l ≤ n.
Proof.
  intros H Hn. unfold held. assert (∀ p, p ∈ filter (is_member m) l → RoleRank (p_Role p) ≤ n) as H'.
  { intros p [Hm Hp]%list_elem_of_filter. by apply H. }
  revert H'. generalize (filter (is_member m) l). clear -Hn. induction l as [|q l IH]; simpl; [done|].
  intros H. apply Z.max_lub; [apply H; left|apply IH; intros p Hp; apply H; by right].
Qed.

(** The choice is that of the highest role. *)
Lemma pick_current_exact {W} m l c0 w :
  (∀ c, c0 = Some c → is_member m c) →
  ∃ c, pick_current (W:=W) m (map Some l) c0 w = (Returned c, w) ∧
    match c with
    | Some p => is_member m p ∧ (p ∈ l ∨ c0 = Some p) ∧
        (∀ q, q ∈ l ∨ c0 = Some q → is_member m q → RoleRank (p_Role q) ≤ RoleRank (p_Role p))
    | None => c0 = None ∧ ∀ q, q ∈ l → ¬ is_member m q
    end.
Proof.
  revert c0. induction l as [|p l IH]; intros c0 H0; simpl.
  { exists c0. split; [done|]. destruct c0 as [c|].
    - split; [by apply H0|]. split; [by right|]. intros q [?%elem_of_nil|?] _; [done|]. by simplify_eq.
    - split; [done|]. intros q ?%elem_of_nil. done. }
  cbv [mbind go_bind mret go_ret].
  match goal with |- context [pick_current m (map Some l) ?c1 w] => set (c := c1) end.
  destruct (IH c) as (r & -> & Hr).
  { intros c1 Hc1. subst c. destruct (EqualFold (EmailAddress p) m) eqn:E; [|by apply H0].
    destruct c0 as [c0|]; [|by simplify_eq]. case_match; simplify_eq; [done|by apply H0]. }
  exists r. split; [done|]. destruct r as [b|].
  - destruct Hr as (Hb & Hin & Hmax). subst c. split; [done|].
    destruct (EqualFold (EmailAddress p) m) eqn:E.
    + destruct c0 as [c0|].
      * destruct (Z.ltb_spec (RoleRank (p_Role c0)) (RoleRank (p_Role p))) as [Hl|Hl].
        -- split; [destruct Hin as [?|?]; [left; by right|simplify_eq; left; left]|].
           intros q [[->|Hq]%elem_of_cons|Hq] Hm; [apply Hmax; auto|apply Hmax; auto|].
           simplify_eq. trans (RoleRank (p_Role p)); [lia|]. apply Hmax; auto.
        -- split; [destruct Hin as [?|?]; [left; by right|by right]|].
           intros q [[->|Hq]%elem_of_cons|Hq] Hm; [|apply Hmax; auto|apply Hmax; auto].
           trans (RoleRank (p_Role c0)); [lia|]. apply Hmax; [by right|by apply H0].
      * split; [destruct Hin as [?|?]; [left; by right|simplify_eq; left; left]|].
        intros q [[->|Hq]%elem_of_cons|Hq] Hm; [apply Hmax; auto|apply Hmax; auto|done].
    + split; [destruct Hin as [?|?]; [left; by right|by right]|].
      intros q [[->|Hq]%elem_of_cons|Hq] Hm; [|apply Hmax; auto|apply Hmax; auto].
      unfold is_member in Hm. congruence.
  - destruct Hr as [Hc Hnone]. subst c. destruct (EqualFold (EmailAddress p) m) eqn:E.
    + exfalso. destruct c0; [case_match|]; done.
    + split; [done|]. intros q [->|Hq]%elem_of_cons; [unfold is_member; congruence|by apply Hnone].
Qed.

Lemma held_best m l p :
  p ∈ l → is_member m p → (∀ q, q ∈ l → is_member m q → RoleRank (p_Role q) ≤ RoleRank (p_Role p)) →
  held m l = RoleRank (p_Role p).
Proof.
  intros Hp Hm Hmax. apply Z.le_antisymm; [apply held_le; [done|apply rank_nonneg]|by apply held_ge].
Qed.

Lemma held_none m l : (∀ q, q ∈ l → ¬ is_member m q) → held m l = 0.
Proof.
  intros H. apply Z.le_antisymm; [apply held_le; [|done]; intros q Hq Hm; by destruct (H q)|].
  unfold held. induction (map _ _); simpl; lia.
Qed.

Lemma held_perm m l l' : l ≡ₚ l' → held m l = held m l'.
Proof.
  intros H. apply Z.le_antisymm; apply held_le; try (unfold held; induction (map _ _); simpl; lia);
    intros q Hq Hm; apply held_ge; [by rewrite <- H|done|by rewrite H|done].
Qed.

(** What an update of the member's best permission to a higher role does. *)
Lemma upgrade_members m role p l :
  NoDup (p_Id <$> l) → p ∈ l → is_member m p → RoleRank (p_Role p) < RoleRank role →
  (∀ q, q ∈ l → is_member m q → RoleRank (p_Role q) ≤ RoleRank (p_Role p)) →
  let l' := map (λ q, if decide (p_Id q = p_Id p) then with_role role q else q) l in
  held m l' = RoleRank role ∧ filter (λ q, ¬ is_member m q) l' = filter (λ q, ¬ is_member m q) l.
Proof.
  intros Hnd Hp Hm Hlt Hmax l'. split.
  - apply Z.le_antisymm.
    + apply held_le; [|apply rank_nonneg]. intros q' (q & -> & Hq)%list_elem_of_fmap_1 Hq'.
      case_decide; [done|]. specialize (Hmax q Hq Hq'). lia.
    + apply (held_ge m l' (with_role role p)); [|done]. apply list_elem_of_In, in_map_iff. exists p.
      rewrite decide_True by done. split; [done|by apply list_elem_of_In].
  - assert (∀ q, q ∈ l → p_Id q = p_Id p → is_member m q) as Hq.
    { intros q Hq E. apply list_elem_of_lookup in Hq as [i Hi]. apply list_elem_of_lookup in Hp as [j Hj].
      assert (i = j) as ->.
      { apply (NoDup_lookup (p_Id <$> l) i j (p_Id p)); [done| |]; rewrite list_lookup_fmap.
        - by rewrite Hi, <- E.
        - by rewrite Hj. }
      by simplify_eq. }
    subst l'. clear Hnd Hp Hmax. induction l as [|q l IH]; [done|]. simpl. rewrite !filter_cons.
    assert (filter (λ q, ¬ is_member m q) (map (λ q, if decide (p_Id q = p_Id p) then with_role role q else q) l) =
      filter (λ q, ¬ is_member m q) l) as ->.
    { apply IH. intros q' Hq'. apply Hq. by right. }
    destruct (decide (p_Id q = p_Id p)) as [E|E]; [|done].
    assert (is_member m q) as Hqm by (apply Hq; [left|done]).
    rewrite (decide_False (P:=¬ is_member m (with_role role q))) by (intros Hn; by apply Hn).
    rewrite decide_False by (intros Hn; by apply Hn). done.
Qed.

Section ensure.
Context {W R : Type} (s : Service W R) (d : string) `{!MemberServer s d}.
#[local] Existing Instance members_paged.

Lemma members_same w w' : (∀ t, pages t w' = pages t w) → members_of w' = members_of w.
Proof. intros H. apply (inj (map Some)). by rewrite <- !members_pages, H. Qed.

(** What a role request should come to. *)
Definition expected_action (m role : string) (l : list Permission) : MembershipAction :=
  if decide (Exists (is_member m) l)
  then if RoleRank role <=? held m l then MembershipActionUnchanged else MembershipActionUpgraded
  else MembershipActionCreated.

Lemma ensure_spec fuel memberEmail role dryRun w :
  (length (pages "" w) < fuel)%nat →
  let m := to_lower (trim_space memberEmail) in
  ∃ r w', EnsureDriveMembership s fuel d memberEmail role dryRun w = (Returned (Some r), w') ∧
    (m = "" → (∃ e, r = inl e ∧ is_err "drive.ErrEmptyMemberEmail" e = true) ∧ w' = w) ∧
    (m ≠ "" → RoleRank role = 0 → (∃ e, r = inl e ∧ is_err "drive.ErrUnknownRole" e = true) ∧ w' = w) ∧
    (dryRun = true → members_of w' = members_of w) ∧
    match r with
    | inl e => True
    | inr res =>
        m ≠ "" ∧ 0 < RoleRank role ∧ Action res = expected_action m role (members_of w) ∧
        (dryRun = false →
          held m (members_of w') = Z.max (held m (members_of w)) (RoleRank role) ∧
          filter (λ p, ¬ is_member m p) (members_of w') ≡ₚ filter (λ p, ¬ is_member m p) (members_of w))
    end.
Proof.
  intros Hf m. unfold EnsureDriveMembership. fold m. case_bool_decide as Hm.
  { eexists _, _. split; [reflexivity|]. split_and!; [|done..]. intros _. split; [by eexists|done]. }
  destruct (Z.eqb_spec (RoleRank role) 0) as [Hr|Hr].
  { eexists _, _. split; [reflexivity|]. split_and!; [done| |done..]. intros _ _. split; [by eexists|done]. }
  pose proof (rank_nonneg role) as Hr0. unfold ListDriveMembers.
  destruct (list_all_exact (members_page s d) ("drive: list permissions for drive " +:+ d +:+ ": ")
    fuel "" [] w Hf) as (r & w1 & E & Hw & Hres).
  rewrite (bind_eq _ _ _ _ _ E). apply members_same in Hw. destruct r as [e|l].
  { eexists _, _. split; [reflexivity|]. by split_and!. }
  simpl in Hres. rewrite members_pages in Hres. subst l.
  destruct (pick_current_exact m (members_of w) None w1) as (c & Ec & Hc); [done|].
  rewrite (bind_eq _ _ _ _ _ Ec). unfold expected_action. destruct c as [p|].
  - destruct Hc as (Hpm & [Hp|?] & Hmax); [|done].
    assert (held m (members_of w) = RoleRank (p_Role p)) as Hh by (apply held_best; auto).
    rewrite decide_True by (apply Exists_exists; eauto). rewrite Hh.
    destruct (Z.leb_spec (RoleRank role) (RoleRank (p_Role p))) as [Hle|Hlt].
    { eexists _, _. split; [reflexivity|]. rewrite Hw, Hh. split_and!; try done; try lia.
      intros _. split; [lia|done]. }
    destruct dryRun.
    { eexists _, _. split; [reflexivity|]. split_and!; try done; lia. }
    unfold does. cbv [mbind go_bind mret go_ret].
    destruct (Permissions_Update _ d (p_Id p) role w1) as [[e|] w2] eqn:Eu.
    { eexists _, _. split; [reflexivity|]. by split_and!. }
    apply members_update in Eu. rewrite Hw in Eu.
    eexists _, _. split; [reflexivity|]. split_and!; [done..|lia|done|].
    intros _. rewrite Eu. destruct (upgrade_members m role p (members_of w)) as [-> ->];
      [apply members_ids|done|done|lia|by intros q ?; apply Hmax; left|]. split; [lia|done].
  - destruct Hc as [_ Hnone]. pose proof (held_none m (members_of w) Hnone) as Hh.
    rewrite decide_False by (intros (q & Hq & Hqm)%Exists_exists; by destruct (Hnone q Hq)).
    destruct dryRun.
    { eexists _, _. split; [reflexivity|]. split_and!; try done; lia. }
    unfold does. cbv [mbind go_bind mret go_ret].
    destruct (Permissions_Create _ d _ w1) as [[e|] w2] eqn:Eu.
    { eexists _, _. split; [reflexivity|]. by split_and!. }
    apply members_create in Eu as (id & Eu). rewrite Hw in Eu. simpl in Eu.
    eexists _, _. split; [reflexivity|]. split_and!; [done..|lia|done|].
    intros _. assert (is_member m (mkPerm id "user" role m)) as Hnew by by apply bool_decide_eq_true_2.
    rewrite Hh, (held_perm _ _ _ Eu), Eu. rewrite filter_cons_False by (intros Hn; by apply Hn).
    split; [|done]. rewrite (held_best m _ (mkPerm id "user" role m)); [simpl; lia|left|done|].
    intros q [->|Hq]%elem_of_cons Hqm; [done|]. by destruct (Hnone q Hq).
Qed.

(** C19: The member ends up with the role, and nothing else changes. With a server
    of permissions, EnsureDriveMembership returns. An empty address and an
    unknown role are refused, with their errors, before any call. Otherwise, when
    it reports success, the member's rank is the higher of the one before and the
    one asked for (never lower), the permissions of everybody else are the same,
    and the action says what was needed; a second call finds nothing to do. A
    dry run returns too, changes nothing whatever it returns, and when both
    report success names the same action. *)
Theorem ensure_membership fuel memberEmail role w :
  (length (pages "" w) < fuel)%nat →
  let m := to_lower (trim_space memberEmail) in
  ∃ r w', EnsureDriveMembership s fuel d memberEmail role false w = (Returned (Some r), w') ∧
    (m = "" → (∃ e, r = inl e ∧ is_err "drive.ErrEmptyMemberEmail" e = true) ∧ w' = w) ∧
    (m ≠ "" → RoleRank role = 0 → (∃ e, r = inl e ∧ is_err "drive.ErrUnknownRole" e = true) ∧ w' = w) ∧
    (∃ r2 w2, EnsureDriveMembership s fuel d memberEmail role true w = (Returned (Some r2), w2) ∧
       members_of w2 = members_of w ∧
       ∀ res res2, r = inr res → r2 = inr res2 → Action res2 = Action res) ∧
    ∀ res, r = inr res →
      m ≠ "" ∧ 0 < RoleRank role ∧
      Action res = expected_action m role (members_of w) ∧
      held m (members_of w') = Z.max (held m (members_of w)) (RoleRank role) ∧
      filter (λ p, ¬ is_member m p) (members_of w') ≡ₚ filter (λ p, ¬ is_member m p) (members_of w) ∧
      (∀ fuel2 res2 w2, (length (pages "" w') < fuel2)%nat →
         EnsureDriveMembership s fuel2 d memberEmail role false w' = (Returned (Some (inr res2)), w2) →
         Action res2 = MembershipActionUnchanged ∧
         held m (members_of w2) = held m (members_of w')).
Proof.
  intros Hf m. destruct (ensure_spec fuel memberEmail role false w Hf) as (r & w' & E & He1 & He2 & _ & Hr).
  destruct (ensure_spec fuel memberEmail role true w Hf) as (r2 & w2 & E2 & _ & _ & Hdry & Hr2).
  exists r, w'. fold m in Hr, Hr2. split; [done|]. split; [done|]. split; [done|]. split.
  { exists r2, w2. split; [done|]. split; [by apply Hdry|]. intros res res2 -> ->.
    destruct Hr as (_ & _ & -> & _), Hr2 as (_ & _ & -> & _). done. }
  intros res ->. destruct Hr as (Hm & Hrank & Ha & Hreal). destruct (Hreal eq_refl) as [Hh Ho].
  split_and!; [done..|]. intros fuel2 res2 w3 Hf2 E3.
  destruct (ensure_spec fuel2 memberEmail role false w' Hf2) as (r & w4 & E4 & _ & _ & _ & H4).
  rewrite E3 in E4. simplify_eq. destruct H4 as (_ & _ & Ha2 & Hreal2). fold m in Ha2.
  destruct (Hreal2 eq_refl) as [Hh2 _]. fold m in Hh2. split; [|lia].
  rewrite Ha2. unfold expected_action. destruct (decide (Exists (is_member m) (members_of w'))) as [He|He].
  - rewrite (proj2 (Z.leb_le _ _)) by lia. done.
  - exfalso. rewrite (held_none m (members_of w')) in Hh; [lia|].
    intros q Hq Hqm. apply He, Exists_exists. eauto.
Qed.
End ensure.


(** ** A drive of permissions in memory *)

(** Types, roles and addresses, each with its place as its id. *)
Abbreviation demo_world := (list (string * (string * string))).
Definition demo_members (w : demo_world) : list Permission :=
  imap (λ i re, mkPerm (itoa (Z.of_nat i)) re.1 re.2.1 re.2.2) w.
Definition nothing {A : Type} (w : demo_world) : (error + A) * demo_world := (inl ErrNotFound, w).
Definition demo_api : DriveAPI demo_world unit :=
  mkAPI unit (λ _ _, nothing) (λ _, nothing) (λ _ w, ("", None, w)) (λ _ w, w) (λ _ _ _, nothing)
    (λ _ _, nothing) (λ _ _, nothing) (λ _, nothing) (λ _ _, nothing) (λ _ _, nothing) (λ _, nothing)
    (λ _ _ w, (inr (map Some (demo_members w), ""), w))
    (λ _ p w, (None, w ++ [(p_Type p, (p_Role p, EmailAddress p))]))
    (λ _ id role w, (None, imap (λ i re, if decide (itoa (Z.of_nat i) = id) then (re.1, (role, re.2.2)) else re) w))
    (λ _ _ _ w, (None, w)).
Definition demo_service : Service demo_world unit := mkService demo_api.

#[local] Instance demo_paged d : Paged (members_page demo_service d).
Proof.
  refine {| pages := λ tok (w : demo_world), [map Some (demo_members w)] |}.
  - intros tok w page next w' E. cbn in E. simplify_eq. exists []. split; [done|].
    by rewrite decide_True.
  - done.
Defined.

#[local] Instance demo_server d : MemberServer demo_service d.
Proof.
  refine {| members_of := demo_members; members_paged := demo_paged d |}.
  - intros w. cbn. by rewrite app_nil_r.
  - intros w. unfold demo_members. apply NoDup_alt. intros i j x Hi Hj.
    rewrite list_lookup_fmap, list_lookup_imap in Hi, Hj.
    destruct (w !! i), (w !! j); by simplify_eq/=.
  - intros id role w w' E. cbn in E. simplify_eq. unfold demo_members.
    apply list_eq. intros i. change (map ?f ?l) with (f <$> l). rewrite list_lookup_fmap, !list_lookup_imap.
    destruct (w !! i) as [[ty [r e]]|]; simpl; [|done]. by case_decide.
  - intros p w w' E. cbn in E. simplify_eq. exists (itoa (Z.of_nat (length w))). unfold demo_members.
    rewrite imap_app. simpl. rewrite Nat.add_0_r. by rewrite <- Permutation_cons_append.
Defined.

(** A reader becomes an organizer. *)
Lemma ensure_membership_witness :
  held "ann@example.org" (demo_members [("user", ("reader", "Ann@example.org")); ("user", ("writer", "bob@example.org"))]) = 10 ∧
  ∃ r w', EnsureDriveMembership demo_service 2 "d" " ann@Example.org " "organizer" false
      [("user", ("reader", "Ann@example.org")); ("user", ("writer", "bob@example.org"))] = (Returned (Some r), w').
Proof.
  split; [reflexivity|].
  destruct (ensure_membership demo_service "d" 2 " ann@Example.org " "organizer"
    [("user", ("reader", "Ann@example.org")); ("user", ("writer", "bob@example.org"))]) as (r & w' & E & _); [simpl; lia|].
  by exists r, w'.
Defined.

Example ensure_upgrades :
  EnsureDriveMembership demo_service 2 "d" " ann@Example.org " "organizer" false
    [("user", ("reader", "Ann@example.org")); ("user", ("writer", "bob@example.org"))] =
  (Returned (Some (inr (mkResult "d" "ann@example.org" "organizer" "reader" MembershipActionUpgraded false))),
   [("user", ("organizer", "Ann@example.org")); ("user", ("writer", "bob@example.org"))]).
Proof. reflexivity. Qed.

End membership.

Module scanner.
Import paging drive.

(** ** Scanning *)

Definition defaultPageSize : Z := 1000.
Definition defaultMaxPages : Z := 10000.

Definition ErrNilService : error :=
  ENew "drive.ErrNilService" "google drive service must not be nil".

Record Scanner := mkScanner {
  pageSize : Z; maxPages : Z; query : string; fields : string; corpora : string; driveID : string
}.
Definition ScannerOption : Type := Scanner → Scanner.

Definition WithPageSize (size : Z) : ScannerOption := λ s,
  if 0 <? size then mkScanner size (maxPages s) (query s) (fields s) (corpora s) (driveID s) else s.
Definition WithMaxPages (limit : Z) : ScannerOption := λ s,
  mkScanner (pageSize s) limit (query s) (fields s) (corpora s) (driveID s).
Definition WithQuery (q : string) : ScannerOption := λ s,
  mkScanner (pageSize s) (maxPages s) q (fields s) (corpora s) (driveID s).
Definition WithFields (fs : string) : ScannerOption := λ s,
  if negb (bool_decide (fs = ""))
  then mkScanner (pageSize s) (maxPages s) (query s) fs (corpora s) (driveID s) else s.
Definition WithCorpora (c : string) : ScannerOption := λ s,
  mkScanner (pageSize s) (maxPages s) (query s) (fields s) c (driveID s).
Definition WithDriveID (id : string) : ScannerOption := λ s,
  mkScanner (pageSize s) (maxPages s) (query s) (fields s) (corpora s) id.

Definition NewScanner (opts : list ScannerOption) : Scanner :=
  fold_left (λ s opt, opt s) opts
    (mkScanner defaultPageSize defaultMaxPages ""
       "nextPageToken, files(id, name, mimeType, parents, size, createdTime, driveId)" "" "").

Definition buildListCall (s : Scanner) (pageToken : string) : ListCall :=
  mkList (query s) (fields s) (pageSize s) pageToken false true true
    (if negb (bool_decide (corpora s = "")) then corpora s else "allDrives") (driveID s).

Section scan.
Context {W R : Type} (CtxErr : W → option error) (s : Scanner)
  (onFile : gFile → go W (option error)).

(** The files of a page; a nil file is skipped. *)
Fixpoint each_file (files : list (option gFile)) : go W (option error) :=
  match files with
  | [] => mret None
  | None :: files => each_file files
  | Some file :: files =>
      err ← onFile file;
      match err with
      | Some err => mret (Some (wrap_pre ("processing callback failed for file " +:+ Id file +:+ ": ") err))
      | None => each_file files
      end
  end.

Definition scan_page (srv : DriveAPI W R) (tok : string)
  : W → (error + list (option gFile) * string) * W := Files_List srv (buildListCall s tok).

Fixpoint scan_loop (srv : DriveAPI W R) (fuel : nat) (pageToken : string) (pageCount : Z)
  : go W (option (option error)) :=
  match fuel with
  | O => mret None
  | S fuel =>
      ctxErr ← reads CtxErr;
      match ctxErr with
      | Some err => mret (Some (Some err))
      | None =>
          res ← does (scan_page srv pageToken);
          match res with
          | inl err => mret (Some (Some (wrap_pre ("google drive API request failed at page " +:+
                                             itoa (pageCount + 1) +:+ ": ") err)))
          | inr (files, next) =>
              err ← each_file files;
              match err with
              | Some err => mret (Some (Some err))
              | None =>
                  let pageCount := pageCount + 1 in
                  if bool_decide (next = "") then mret (Some None)
                  else if (0 <? maxPages s) && (maxPages s <=? pageCount) then mret (Some None)
                  else scan_loop srv fuel next pageCount
              end
          end
      end
  end.

Definition Scan (srv : option (DriveAPI W R)) (fuel : nat) : go W (option (option error)) :=
  match srv with
  | None => mret (Some (Some ErrNilService))
  | Some srv => scan_loop srv fuel "" 0
  end.

(** ** Theorems *)

Lemma each_file_no_panic files : (∀ f, no_panic (onFile f)) → no_panic (each_file files).
Proof. intros H. induction files as [|[f|] files IH]; simpl; no_panic. Qed.

(** A scan with a ceiling ends after at most that many calls, whatever the
    server answers, even one whose tokens go round in circles. *)
Theorem scan_bounded (srv : option (DriveAPI W R)) fuel :
  0 < maxPages s → maxPages s ≤ Z.of_nat fuel → (∀ f, no_panic (onFile f)) →
  ∀ w, ∃ r w', Scan srv fuel w = (Returned (Some r), w').
Proof.
  intros H0 Hf Hp. destruct srv as [srv|]; [|intros w; by eexists _, _].
  assert (∀ fuel tok n, 0 ≤ n < maxPages s → maxPages s - n ≤ Z.of_nat fuel →
    ∀ w, ∃ r w', scan_loop srv fuel tok n w = (Returned (Some r), w')) as H.
  2:{ intros w. simpl. apply H; lia. }
  clear Hf fuel. induction fuel as [|fuel IH]; intros tok n Hn Hf w; [lia|]. cbn [scan_loop].
  unfold reads at 1, does at 1. cbv [mbind go_bind mret go_ret]. destruct (CtxErr w); [by eexists _, _|].
  destruct (scan_page srv tok w) as [[e|[files next]] w1]; [by eexists _, _|].
  destruct (each_file_no_panic files Hp w1) as ([e|] & w2 & ->); [by eexists _, _|].
  case_bool_decide; [by eexists _, _|].
  destruct (Z.ltb_spec 0 (maxPages s)); [|lia].
  destruct (Z.leb_spec (maxPages s) (n + 1)); simpl; [by eexists _, _|]. apply IH; lia.
Qed.

(** What a scan is to deliver: the pages under the ceiling, without nil files. *)
Definition under_ceiling (pageCount : Z) {A} (ps : list A) : list A :=
  if 0 <? maxPages s then take (Z.to_nat (maxPages s - pageCount)) ps else ps.
Definition expected_files (pageCount : Z) (ps : list (list (option gFile))) : list gFile :=
  omap id (concat (under_ceiling pageCount ps)).

Lemma under_ceiling_cons n {A} (p : A) ps :
  (0 < maxPages s → n < maxPages s) → under_ceiling n (p :: ps) = p :: under_ceiling (n + 1) ps.
Proof.
  intros H. unfold under_ceiling. destruct (Z.ltb_spec 0 (maxPages s)); [|done].
  by replace (Z.to_nat (maxPages s - n)) with (S (Z.to_nat (maxPages s - (n + 1)))) by lia.
Qed.

(** A callback that keeps a record of the files it took, and does not touch what is
    listed. *)
Context (srv : DriveAPI W R) `{!Paged (scan_page srv)} (seen : W → list gFile).
Record recorder : Prop := {
  rec_fetch tok w : seen (scan_page srv tok w).2 = seen w;
  rec_call f w : ∃ r w', onFile f w = (Returned r, w') ∧ (∀ t, pages t w' = pages t w) ∧
    seen w' = match r with None => seen w ++ [f] | Some _ => seen w end
}.

Lemma each_file_exact files w :
  recorder →
  ∃ r w', each_file files w = (Returned r, w') ∧ (∀ t, pages t w' = pages t w) ∧
    match r with
    | None => seen w' = seen w ++ omap id files
    | Some _ => ∃ done, seen w' = seen w ++ done ∧ done `prefix_of` omap id files
    end.
Proof.
  intros Hr. revert w. induction files as [|[f|] files IH]; intros w; simpl.
  - exists None, w. split; [done|]. split; [done|]. by rewrite app_nil_r.
  - destruct (rec_call Hr f w) as (r & w1 & E & Hp & Hs). rewrite (bind_eq _ _ _ _ _ E). destruct r as [e|].
    + eexists _, _. split; [reflexivity|]. split; [done|]. exists []. rewrite app_nil_r.
      split; [done|apply prefix_nil].
    + destruct (IH w1) as (r & w' & -> & Hp' & Hr'). exists r, w'. split; [done|].
      split; [intros t; by rewrite Hp', Hp|]. destruct r as [e|].
      * destruct Hr' as (dn & -> & Hd). exists (f :: dn). rewrite Hs, <- app_assoc.
        split; [done|by apply prefix_cons].
      * by rewrite Hr', Hs, <- app_assoc.
  - apply IH.
Qed.

Lemma scan_loop_exact fuel tok n w :
  recorder → (length (pages tok w) < fuel)%nat → (0 < maxPages s → n < maxPages s) →
  ∃ r w', scan_loop srv fuel tok n w = (Returned (Some r), w') ∧
    match r with
    | None => seen w' = seen w ++ expected_files n (pages tok w)
    | Some _ => ∃ done, seen w' = seen w ++ done ∧ done `prefix_of` expected_files n (pages tok w)
    end.
Proof.
  intros Hrec. revert tok n w. induction fuel as [|fuel IH]; intros tok n w Hf Hn; [lia|]. cbn [scan_loop].
  unfold reads at 1, does at 1. cbv [mbind go_bind mret go_ret].
  assert (∀ w1 (P : list gFile), seen w1 = seen w → ∃ done, seen w1 = seen w ++ done ∧ done `prefix_of` P) as Hnil.
  { intros w1 P E. exists []. rewrite app_nil_r. split; [done|apply prefix_nil]. }
  destruct (CtxErr w); [eexists _, _; split; [reflexivity|by apply Hnil]|].
  pose proof (paged_keeps tok w) as Hk. pose proof (rec_fetch Hrec tok w) as Hs.
  destruct (scan_page srv tok w) as [[e|[files next]] w1] eqn:E; simpl in *.
  { eexists _, _. split; [reflexivity|by apply Hnil]. }
  destruct (paged_fetch _ _ _ _ _ E) as (rest & Ep & Hr). rewrite Ep in *.
  destruct (each_file_exact files w1 Hrec) as (r & w2 & -> & Hp & Hseen).
  assert (expected_files n (files :: rest) = omap id files ++ expected_files (n + 1) rest) as Hex.
  { unfold expected_files. rewrite under_ceiling_cons by done. simpl. by rewrite omap_app. }
  rewrite Hex. destruct r as [e|].
  { eexists _, _. split; [reflexivity|]. destruct Hseen as (dn & -> & Hd). exists dn. rewrite Hs.
    split; [done|by apply prefix_app_r]. }
  assert (∀ ps : list (list (option gFile)), expected_files (n + 1) ps = [] →
    ∃ r w', (Returned (Some (None : option error)), w2) = (Returned (Some r), w') ∧
    match r with
    | None => seen w' = seen w ++ omap id files ++ expected_files (n + 1) ps
    | Some _ => ∃ done, seen w' = seen w ++ done ∧ done `prefix_of` omap id files ++ expected_files (n + 1) ps
    end) as Hstop.
  { intros ps ->. exists None, w2. split; [done|]. by rewrite app_nil_r, Hseen, Hs. }
  case_bool_decide as Hnext.
  { rewrite decide_True in Hr by done. subst rest. apply Hstop.
    unfold expected_files, under_ceiling. case_match; [by rewrite take_nil|done]. }
  rewrite decide_False in Hr by done. destruct (_ && _) eqn:Eb.
  { bool_to_prop. apply Hstop. unfold expected_files, under_ceiling.
    rewrite (proj2 (Z.ltb_lt _ _)) by lia. by replace (Z.to_nat (maxPages s - (n + 1))) with 0%nat by lia. }
  destruct (IH next (n + 1) w2) as (r & w' & -> & Hres).
  { rewrite Hp, Hk, Hr. simpl in Hf. lia. }
  { intros H0. rewrite (proj2 (Z.ltb_lt _ _) H0) in Eb. simpl in Eb. apply Z.leb_gt in Eb. lia. }
  exists r, w'. split; [done|]. rewrite Hp, Hk, Hr, Hseen, Hs in Hres. destruct r as [e|].
  - destruct Hres as (dn & -> & Hd). exists (omap id files ++ dn). rewrite app_assoc.
    split; [done|by apply prefix_app].
  - by rewrite Hres, app_assoc.
Qed.

(** C20: A scan delivers each file once, in the server's order. When it reports
    success the callback has had exactly the files of the pages under the
    ceiling, nil ones left out; when it fails, those up to the failure. *)
Theorem scan_exact fuel w :
  recorder → (length (pages "" w) < fuel)%nat →
  ∃ r w', Scan (Some srv) fuel w = (Returned (Some r), w') ∧
    match r with
    | None => seen w' = seen w ++ expected_files 0 (pages "" w)
    | Some _ => ∃ done, seen w' = seen w ++ done ∧ done `prefix_of` expected_files 0 (pages "" w)
    end.
Proof. intros Hr Hf. apply scan_loop_exact; [done|done|lia]. Qed.
End scan.

(** ** Three pages in memory *)

Definition demo_file (id : string) : gFile := mkgFile id "" "" "" [] [] [] false.
Abbreviation demo_world := (list gFile).
Definition nothing {A : Type} (w : demo_world) : (error + A) * demo_world := (inl ErrNotFound, w).
Definition demo_pages : list (string * (list (option gFile) * string)) :=
  [("", ([Some (demo_file "a"); None], "1")); ("1", ([], "2")); ("2", ([Some (demo_file "b")], ""))].
Definition demo_list (tok : string) : option (list (option gFile) * string) :=
  snd <$> find (λ p, bool_decide (p.1 = tok)) demo_pages.
Definition demo_api : DriveAPI demo_world unit :=
  mkAPI unit (λ _ _, nothing) (λ _, nothing) (λ _ w, ("", None, w)) (λ _ w, w) (λ _ _ _, nothing)
    (λ _ _, nothing) (λ _ _, nothing)
    (λ call w, (match demo_list (PageToken call) with Some r => inr r | None => inl ErrNotFound end, w))
    (λ _ _, nothing) (λ _ _, nothing) (λ _, nothing) (λ _ _, nothing)
    (λ _ _ w, (None, w)) (λ _ _ _ w, (None, w)) (λ _ _ _ w, (None, w)).

#[local] Instance demo_paged s : Paged (scan_page s demo_api).
Proof.
  refine {| pages := λ tok (_ : demo_world),
    if decide (tok = "") then [[Some (demo_file "a"); None]; []; [Some (demo_file "b")]]
    else if decide (tok = "1") then [[]; [Some (demo_file "b")]]
    else if decide (tok = "2") then [[Some (demo_file "b")]] else [] |}.
  - intros tok w page next w' E. unfold scan_page in E. cbn in E. unfold demo_list in E. simpl in E.
    repeat case_bool_decide; simplify_eq/=; eexists; split; reflexivity.
  - done.
Defined.

Definition demo_take (f : gFile) : go demo_world (option error) := λ w, (Returned None, w ++ [f]).

Lemma demo_recorder s : recorder s demo_take demo_api (λ w, w).
Proof. split; [done|]. intros f w. by exists None, (w ++ [f]). Qed.

Definition demo_left : list (list (option gFile)) :=
  pages (Paged:=demo_paged (NewScanner [WithMaxPages 2])) "" ([] : demo_world).

Lemma scan_exact_witness :
  ∃ r w', Scan (λ _, None) (NewScanner [WithMaxPages 2]) demo_take (Some demo_api) 4 [] =
      (Returned (Some r), w') ∧
    match r with
    | None => w' = [] ++ expected_files (NewScanner [WithMaxPages 2]) 0 demo_left
    | Some _ => ∃ done, w' = [] ++ done ∧ done `prefix_of` expected_files (NewScanner [WithMaxPages 2]) 0 demo_left
    end.
Proof.
  apply (scan_exact (λ _, None) (NewScanner [WithMaxPages 2]) demo_take demo_api (λ w, w) 4 []).
  - apply demo_recorder.
  - vm_compute. lia.
Defined.

Lemma scan_bounded_witness :
  ∃ r w', Scan (λ _, None) (NewScanner [WithMaxPages 2]) demo_take (Some demo_api) 2 [] =
      (Returned (Some r), w').
Proof.
  apply (scan_bounded (λ _, None) (NewScanner [WithMaxPages 2]) demo_take (Some demo_api) 2).
  - reflexivity.
  - vm_compute. discriminate.
  - intros f w. by exists None, (w ++ [f]).
Defined.

End scanner.
