(* ===== verification/CloudProjects.v ===== *)
(** * google/resourcemanager and google/serviceusage

    Models [service.go] of [src/go/google/resourcemanager] and of
    [src/go/google/serviceusage]: projects, billing and the APIs of a project. Each
    client of an API is a record of operations on a world. Both services start an
    operation and then poll, in a loop that [poll] states once. *)

From S2P Require Import Prelude GoStrings GoErr GoMonad Calls.

Module polling.

Section poll.
Context {W : Type} (Wait : Z → W → option error * W).

(** [for range n { select { case <-ctx.Done(): return interrupted; case <-time.After(d): };
    attempt }; return timeout]; an attempt returns from the function, or not. *)
Fixpoint poll {A} (d : Z) (interrupted : error → A) (attempt : go W (option A)) (timeout : A) (n : nat)
  : go W A :=
  match n with
  | O => mret timeout
  | S n =>
      ctxErr ← does (Wait d);
      match ctxErr with
      | Some err => mret (interrupted err)
      | None =>
          r ← attempt;
          match r with Some a => mret a | None => poll d interrupted attempt timeout n end
      end
  end.

Lemma poll_no_panic {A} d (interrupted : error → A) attempt timeout n :
  no_panic attempt → no_panic (poll d interrupted attempt timeout n).
Proof. intros H. induction n as [|n IH]; simpl; no_panic. Qed.
End poll.

(** A clock that only waiting moves, in a context that is not cancelled. *)
Class Clock {W : Type} (Wait : Z → W → option error * W) := {
  clock : W → Z;
  clock_wait d w : ∃ w', Wait d w = (None, w') ∧ clock w' = clock w + d
}.

Section timed.
Context {W A : Type} (Wait : Z → W → option error * W) `{!Clock Wait}.
Context (d : Z) (interrupted : error → A) (attempt : go W (option A)) (timeout : A) (T : Z) (done : A)
  (ok : W → Prop).
(** From the time [T] on an attempt is final. *)
Context (Hattempt : ∀ w, ok w → ∃ w', attempt w = (Returned (if T <=? clock w then Some done else None), w') ∧
    clock w' = clock w ∧ ok w')
  (Hwait : ∀ w, ok w → ok (Wait d w).2).

(** The polls come at [d, 2 * d, ...]; the first at or after [T] ends the loop. *)
Lemma poll_timed n w :
  0 < d → clock w < T → ok w →
  ∃ w', poll Wait d interrupted attempt timeout n w =
      (Returned (if T <=? clock w + Z.of_nat n * d then done else timeout), w') ∧ ok w' ∧
    clock w' < Z.max (clock w + 1) (T + d).
Proof using Hattempt Hwait.
  intros Hd. revert w. induction n as [|n IH]; intros w Hw Ho; cbn [poll].
  { exists w. rewrite (proj2 (Z.leb_gt _ _)) by lia. split; [done|]. split; [done|lia]. }
  unfold does at 1. cbv [mbind go_bind mret go_ret].
  destruct (clock_wait d w) as (w1 & E1 & Hc1). pose proof (Hwait w Ho) as Ho1. rewrite E1 in *. simpl in Ho1.
  destruct (Hattempt w1 Ho1) as (w2 & E2 & Hc2 & Ho2). rewrite E2, Hc1.
  destruct (Z.leb_spec T (clock w + d)) as [Hle|Hgt].
  - exists w2. rewrite (proj2 (Z.leb_le _ _)) by lia. split; [done|]. split; [done|lia].
  - destruct (IH w2) as (w' & -> & Ho' & Hc'); [lia|done|]. exists w'.
    rewrite Hc2, Hc1 in *. replace (clock w + d + Z.of_nat n * d) with (clock w + Z.of_nat (S n) * d) by lia.
    split; [done|]. split; [done|lia].
Qed.
End timed.

End polling.

Module resourcemanager.
Import polling.

Definition defaultPollInterval : Z := 2 * Second.
Definition defaultMaxAttempts : Z := 30.

Definition ErrEmptyProjectID : error :=
  ENew "resourcemanager.ErrEmptyProjectID" "project ID cannot be empty".
Definition ErrEmptyBillingAccountID : error :=
  ENew "resourcemanager.ErrEmptyBillingAccountID" "billing account ID cannot be empty".
Definition ErrProjectCreationTimeout : error :=
  ENew "resourcemanager.ErrProjectCreationTimeout" "timeout waiting for project to become active".

Record ProjectRequest := mkRequest {
  ProjectID : string; req_Name : string; FolderID : string; OrgID : string;
  req_Labels : list (string * string)
}.

Record ResourceId := mkResourceId { Id : string; Type_ : string }.
Record Project := mkProject {
  ProjectId : string; Name : string; Labels : list (string * string); Parent : option ResourceId
}.
Record BillingInfo := mkBilling { BillingEnabled : bool; BillingAccountName : string }.

(** Of a project that is fetched the code uses nothing. *)
Record ProjectsAPI (W : Type) := mkAPI {
  Projects_Get : string → W → option error * W;
  Projects_Create : Project → W → option error * W;
  GetBillingInfo : string → W → (error + BillingInfo) * W;
  UpdateBillingInfo : string → string → W → option error * W
}.
Arguments mkAPI {W}.
Arguments Projects_Get {W}.
Arguments Projects_Create {W}.
Arguments GetBillingInfo {W}.
Arguments UpdateBillingInfo {W}.

Record Config := mkConfig { PollInterval : Z; MaxAttempts : Z }.
Record Service (W : Type) := mkService { api : ProjectsAPI W; pollInterval : Z; maxAttempts : Z }.
Arguments mkService {W}.
Arguments api {W}.
Arguments pollInterval {W}.
Arguments maxAttempts {W}.

(** [newCRM] and [newBilling] are what the constructors of the two clients return;
    the clients together are [svc]. *)
Definition New {W} (cfg : Config) (newCRM newBilling : option error) (svc : ProjectsAPI W)
  : error + Service W :=
  let pollInterval := if PollInterval cfg <=? 0 then defaultPollInterval else PollInterval cfg in
  let maxAttempts := if MaxAttempts cfg <=? 0 then defaultMaxAttempts else MaxAttempts cfg in
  match newCRM with
  | Some err => inl (wrap_pre "resourcemanager: create CRM client: " err)
  | None =>
      match newBilling with
      | Some err => inl (wrap_pre "resourcemanager: create billing client: " err)
      | None => inr (mkService svc pollInterval maxAttempts)
      end
  end.

Section with_service.
(** [googleapi_code] is [errors.As] for [*googleapi.Error], and its code. *)
Context {W : Type} (googleapi_code : error → option Z) (Wait : Z → W → option error * W) (s : Service W).

Definition isNotFound (err : error) : bool :=
  match googleapi_code err with Some code => code =? 404 | None => false end.

Definition is_blank (id : string) : bool := bool_decide (trim_space id = "").

Definition CheckProjectExists (projectID : string) : go W (error + bool) :=
  if is_blank projectID then mret (inl ErrEmptyProjectID)
  else
    err ← does (Projects_Get (api s) projectID);
    mret (match err with
          | Some err =>
              if isNotFound err then inr false
              else inl (wrap_pre ("resourcemanager: get project " +:+ projectID +:+ ": ") err)
          | None => inr true
          end).

(** The project that is asked for. *)
Definition project_of (req : ProjectRequest) : Project :=
  mkProject (ProjectID req) (if bool_decide (req_Name req = "") then ProjectID req else req_Name req)
    (req_Labels req)
    (if negb (bool_decide (FolderID req = "")) then Some (mkResourceId (FolderID req) "folder")
     else if negb (bool_decide (OrgID req = "")) then Some (mkResourceId (OrgID req) "organization")
     else None).

Definition timeout_error (req : ProjectRequest) : error :=
  wrap_post ErrProjectCreationTimeout
    (": project " +:+ ProjectID req +:+ " after " +:+ itoa (maxAttempts s) +:+ " attempts").

Definition poll_project (req : ProjectRequest) : go W (option (option error)) :=
  r ← CheckProjectExists (ProjectID req);
  mret (match r with inr true => Some None | _ => None end).

Definition CreateProject (req : ProjectRequest) : go W (option error) :=
  if is_blank (ProjectID req) then mret (Some ErrEmptyProjectID)
  else
    err ← does (Projects_Create (api s) (project_of req));
    match err with
    | Some err => mret (Some (wrap_pre ("resourcemanager: create project " +:+ ProjectID req +:+ ": ") err))
    | None =>
        poll Wait (pollInterval s)
          (λ err, Some (wrap_pre "resourcemanager: project creation interrupted: " err))
          (poll_project req) (Some (timeout_error req)) (Z.to_nat (maxAttempts s))
    end.

Definition CheckBillingLinked (projectID billingAccountID : string) : go W (error + bool) :=
  if is_blank projectID then mret (inl ErrEmptyProjectID)
  else if is_blank billingAccountID then mret (inl ErrEmptyBillingAccountID)
  else
    info ← does (GetBillingInfo (api s) ("projects/" +:+ projectID));
    mret (match info with
          | inl err => inl (wrap_pre ("resourcemanager: query billing info for " +:+ projectID +:+ ": ") err)
          | inr info =>
              inr (BillingEnabled info &&
                   bool_decide (BillingAccountName info = "billingAccounts/" +:+ billingAccountID))
          end).

Definition LinkBilling (projectID billingAccountID : string) : go W (option error) :=
  if is_blank projectID then mret (Some ErrEmptyProjectID)
  else if is_blank billingAccountID then mret (Some ErrEmptyBillingAccountID)
  else
    err ← does (UpdateBillingInfo (api s) ("projects/" +:+ projectID) ("billingAccounts/" +:+ billingAccountID));
    mret (match err with
          | Some err => Some (wrap_pre ("resourcemanager: link billing " +:+ billingAccountID +:+ " to " +:+
                                 projectID +:+ ": ") err)
          | None => None
          end).

(** ** Theorems *)

Lemma check_no_panic id : no_panic (CheckProjectExists id).
Proof. unfold CheckProjectExists. no_panic. Qed.

(** Creation returns whatever the API does: after one create call and at most
    [maxAttempts] polls. *)
Lemma create_returns req : no_panic (CreateProject req).
Proof.
  unfold CreateProject. case_match; [no_panic|]. apply no_panic_bind; [no_panic|]. intros [e|]; [no_panic|].
  apply poll_no_panic. unfold poll_project. apply no_panic_bind; [apply check_no_panic|intros; no_panic].
Qed.
End with_service.

(** A server that makes a project visible [delay] after its creation: until then a
    get fails, from then on it succeeds. *)
Class ProjectServer {W : Type} (Wait : Z → W → option error * W) `{!Clock Wait} (svc : ProjectsAPI W) := {
  visible_at : string → W → option Z;
  delay : Z;
  delay_pos : 0 < delay;
  server_create p w : ∃ w', Projects_Create svc p w = (None, w') ∧ clock w' = clock w ∧
    visible_at (ProjectId p) w' = Some (clock w + delay);
  server_get id t w : visible_at id w = Some t →
    (∃ r w', Projects_Get svc id w = (r, w') ∧ clock w' = clock w ∧ visible_at id w' = Some t ∧
      (r = None ↔ t ≤ clock w));
  server_wait d id w : visible_at id (Wait d w).2 = visible_at id w
}.

(** Creation waits long enough and not longer. With a server on which the
    project appears some time after its creation, CreateProject succeeds exactly
    when that time is within the attempts times the interval, and gives the
    timeout error otherwise; it ends less than an interval after the project
    appears. Errors of the checks in between do not end it. *)
Theorem create_project_waits {W} (googleapi_code : error → option Z) (Wait : Z → W → option error * W)
    `{!Clock Wait} (s : Service W) `{!ProjectServer Wait (api s)} (req : ProjectRequest) w :
  is_blank (ProjectID req) = false → 0 < pollInterval s → 0 ≤ maxAttempts s →
  ∃ w', CreateProject googleapi_code Wait s req w =
      (Returned (if delay <=? maxAttempts s * pollInterval s then None else Some (timeout_error s req)), w') ∧
    clock w' < clock w + delay + pollInterval s.
Proof.
  intros Hb Hp Hm. unfold CreateProject. rewrite Hb. unfold does at 1. cbv [mbind go_bind].
  destruct (server_create (project_of req) w) as (w1 & -> & Hc & Hv). cbn [ProjectId project_of] in Hv.
  pose proof delay_pos as Hd.
  destruct (poll_timed Wait (pollInterval s)
    (λ err, Some (wrap_pre "resourcemanager: project creation interrupted: " err))
    (poll_project googleapi_code s req) (Some (timeout_error s req)) (clock w + delay) None
    (λ w, visible_at (ProjectID req) w = Some (clock w1 + delay)))
    with (n := Z.to_nat (maxAttempts s)) (w := w1) as (w' & -> & _ & Hc').
  - intros w2 Hv2. unfold poll_project, CheckProjectExists. rewrite Hb.
    destruct (server_get _ _ w2 Hv2) as (r & w3 & E & Hc3 & Hv3 & Hr).
    unfold does. cbv [mbind go_bind mret go_ret]. rewrite E. exists w3. split; [|done].
    rewrite Hc in Hr. destruct (Z.leb_spec (clock w + delay) (clock w2)) as [Hle|Hgt].
    + rewrite (proj2 Hr) by done. done.
    + destruct r as [e|]; [by destruct (isNotFound googleapi_code e)|]. exfalso.
      assert (clock w + delay ≤ clock w2) by by apply Hr. lia.
  - intros w2 Hv2. by rewrite server_wait.
  - done.
  - lia.
  - by rewrite Hc.
  - exists w'. rewrite Hc, Z2Nat.id by done. split; [|lia].
    destruct (Z.leb_spec (clock w + delay) (clock w + maxAttempts s * pollInterval s)),
      (Z.leb_spec delay (maxAttempts s * pollInterval s)); (done || lia).
Qed.

(** A server of billing accounts: linking sets the account and enables billing. *)
Class BillingServer {W : Type} (svc : ProjectsAPI W) := {
  billing_update name account w w' : UpdateBillingInfo svc name account w = (None, w') →
    ∃ w'', GetBillingInfo svc name w' = (inr (mkBilling true account), w'')
}.

(** What is linked is found linked, and to nothing else: after LinkBilling
    succeeds, CheckBillingLinked says so for exactly that account. *)
Theorem billing_round_trip {W} (s : Service W) `{!BillingServer (api s)} (projectID account other : string) w w1 :
  is_blank other = false →
  LinkBilling s projectID account w = (Returned None, w1) →
  ∃ w2, CheckBillingLinked s projectID other w1 = (Returned (inr (bool_decide (other = account))), w2).
Proof.
  intros Ho E. unfold LinkBilling, does in E. cbv [mbind go_bind mret go_ret] in E.
  destruct (is_blank projectID) eqn:Ep; [done|]. destruct (is_blank account) eqn:Ea; [done|].
  destruct (UpdateBillingInfo (api s) _ _ w) as [[e|] w1'] eqn:Eu; simplify_eq.
  destruct (billing_update _ _ _ _ Eu) as (w2 & Eg). exists w2.
  unfold CheckBillingLinked, does. cbv [mbind go_bind mret go_ret]. rewrite Ep, Ho, Eg.
  cbn [BillingEnabled BillingAccountName andb]. do 3 f_equal. apply bool_decide_ext. split; [|by intros ->].
  intros H. by apply (inj (String.append "billingAccounts/")) in H.
Qed.

(** ** Projects in memory *)

(** A clock in seconds, when projects appear, the account of each. *)
Record World := mkWorld {
  now : Z; appears : gmap string Z; accounts : gmap string string
}.
Definition demo_wait (d : Z) (w : World) : option error * World :=
  (None, mkWorld (now w + d) (appears w) (accounts w)).
Definition demo_missing : error := ENew "googleapi.404" "not found".
Definition demo_svc : ProjectsAPI World :=
  mkAPI
    (λ id w, (match appears w !! id with
              | Some t => if t <=? now w then None else Some demo_missing
              | None => Some demo_missing
              end, w))
    (λ p w, (None, mkWorld (now w) (<[ProjectId p := now w + 5]> (appears w)) (accounts w)))
    (λ name w, (match accounts w !! name with
                | Some a => inr (mkBilling true a)
                | None => inr (mkBilling false "")
                end, w))
    (λ name a w, (None, mkWorld (now w) (appears w) (<[name := a]> (accounts w)))).

#[local] Instance demo_clock : Clock demo_wait.
Proof. refine {| clock := now |}. intros d w. by eexists. Defined.

#[local] Instance demo_projects : ProjectServer demo_wait demo_svc.
Proof.
  refine {| visible_at := λ id w, appears w !! id; delay := 5 |}.
  - done.
  - intros p w. eexists. split; [reflexivity|]. split; [done|]. apply lookup_insert_eq.
  - intros id t w Hv. simpl. rewrite Hv. eexists _, _. split; [reflexivity|]. split; [done|].
    split; [done|]. destruct (Z.leb_spec t (now w)); split; intros; (done || lia).
  - done.
Defined.

#[local] Instance demo_billing : BillingServer demo_svc.
Proof.
  split. intros name account w w' E. simpl in *. simplify_eq/=. rewrite lookup_insert_eq. by eexists.
Defined.

Definition demo_service (attempts : Z) : Service World := mkService demo_svc 2 attempts.
Definition demo_request : ProjectRequest := mkRequest "p" "" "f" "" [].

(** Two attempts at 2 and 4 seconds are too few for a project that takes 5. *)
Lemma create_project_waits_witness :
  ∃ w', CreateProject (λ _, Some 404) demo_wait (demo_service 2) demo_request (mkWorld 0 ∅ ∅) =
      (Returned (if 5 <=? 2 * 2 then None else Some (timeout_error (demo_service 2) demo_request)), w') ∧
    now w' < 0 + 5 + 2.
Proof.
  apply (@create_project_waits World (λ _, Some 404) demo_wait demo_clock (demo_service 2) demo_projects demo_request (mkWorld 0 ∅ ∅));
    [reflexivity|simpl; lia|simpl; lia].
Defined.

Lemma billing_round_trip_witness :
  ∃ w2, CheckBillingLinked (demo_service 2) "p" "A-1"
      (mkWorld 0 ∅ (<["projects/p" := "billingAccounts/A-1"]> ∅)) = (Returned (inr (bool_decide ("A-1" = "A-1"))), w2).
Proof.
  apply (@billing_round_trip World (demo_service 2) demo_billing "p" "A-1" "A-1" (mkWorld 0 ∅ ∅)); reflexivity.
Defined.

End resourcemanager.

Module serviceusage.
Import polling.

Definition defaultPollInterval : Z := 2 * Second.
Definition defaultMaxAttempts : Z := 60.

Definition ErrEmptyProjectID : error :=
  ENew "serviceusage.ErrEmptyProjectID" "project ID cannot be empty".
Definition ErrAPIEnablementTimeout : error :=
  ENew "serviceusage.ErrAPIEnablementTimeout" "timeout waiting for API enablement to complete".
Definition ErrAPIEnablementFailed : error :=
  ENew "serviceusage.ErrAPIEnablementFailed" "api enablement failed".

(** [op_Error] is the message of the operation's error, if it has one. *)
Record Operation := mkOperation { op_Name : string; Done : bool; op_Error : option string }.

(** A service of a listing is a pointer; it has a configuration, perhaps, with a
    name. [Services_Pages] gives the pages the library read and the error that
    ended it, if any: the callback itself never fails. *)
Record UsageAPI (W : Type) := mkAPI {
  Services_Pages : string → string → W → (list (list (option (option string))) * option error) * W;
  BatchEnable : string → list string → W → (error + Operation) * W;
  Operations_Get : string → W → (error + Operation) * W
}.
Arguments mkAPI {W}.
Arguments Services_Pages {W}.
Arguments BatchEnable {W}.
Arguments Operations_Get {W}.

Record Config := mkConfig { PollInterval : Z; MaxAttempts : Z }.
Record Service (W : Type) := mkService { usage : UsageAPI W; pollInterval : Z; maxAttempts : Z }.
Arguments mkService {W}.
Arguments usage {W}.
Arguments pollInterval {W}.
Arguments maxAttempts {W}.

Definition New {W} (cfg : Config) (newService : error + UsageAPI W) : error + Service W :=
  let pollInterval := if PollInterval cfg <=? 0 then defaultPollInterval else PollInterval cfg in
  let maxAttempts := if MaxAttempts cfg <=? 0 then defaultMaxAttempts else MaxAttempts cfg in
  match newService with
  | inl err => inl (wrap_pre "serviceusage: create client: " err)
  | inr svc => inr (mkService svc pollInterval maxAttempts)
  end.

Section with_service.
Context {W : Type} (Wait : Z → W → option error * W) (s : Service W).

(** The callback on the services of a page; a nil service is dereferenced. *)
Fixpoint note_services (services : list (option (option string))) (enabledMap : gset string)
  : go W (gset string) :=
  match services with
  | [] => mret enabledMap
  | svc :: services =>
      svc ← deref svc;
      note_services services
        (match svc with
         | Some name => if negb (bool_decide (name = "")) then {[name]} ∪ enabledMap else enabledMap
         | None => enabledMap
         end)
  end.

Definition CheckAPIsStatus (projectID : string) (targetAPIs : list string)
  : go W (error + gmap string bool) :=
  if bool_decide (trim_space projectID = "") then mret (inl ErrEmptyProjectID)
  else
    res ← does (Services_Pages (usage s) ("projects/" +:+ projectID) "state:ENABLED");
    enabledMap ← note_services (concat res.1) ∅;
    mret (match res.2 with
          | Some err => inl (wrap_pre ("serviceusage: list enabled services for " +:+ projectID +:+ ": ") err)
          | None =>
              inr (fold_left (λ statusMap api, <[api := bool_decide (api ∈ enabledMap)]> statusMap)
                     targetAPIs ∅)
          end).

Definition enable_timeout (name : string) : error :=
  wrap_post ErrAPIEnablementTimeout
    (": operation " +:+ name +:+ " after " +:+ itoa (maxAttempts s) +:+ " attempts").

Definition poll_operation (name : string) : go W (option (option error)) :=
  r ← does (Operations_Get (usage s) name);
  mret (match r with
        | inl err => Some (Some (wrap_pre ("serviceusage: query operation status " +:+ name +:+ ": ") err))
        | inr op =>
            if Done op
            then Some (match op_Error op with
                       | Some msg => Some (wrap_post ErrAPIEnablementFailed (": " +:+ msg))
                       | None => None
                       end)
            else None
        end).

Definition BatchEnableAPIs (projectID : string) (apis : list string) : go W (option error) :=
  if bool_decide (trim_space projectID = "") then mret (Some ErrEmptyProjectID)
  else if (length apis =? 0)%nat then mret None
  else
    op ← does (BatchEnable (usage s) ("projects/" +:+ projectID) apis);
    match op with
    | inl err =>
        mret (Some (wrap_pre ("serviceusage: batch enable APIs for " +:+ projectID +:+ ": ") err))
    | inr op =>
        poll Wait (pollInterval s)
          (λ err, Some (wrap_pre "serviceusage: API enablement interrupted: " err))
          (poll_operation (op_Name op)) (Some (enable_timeout (op_Name op))) (Z.to_nat (maxAttempts s))
    end.

(** ** Theorems *)

Lemma batch_enable_returns projectID apis : no_panic (BatchEnableAPIs projectID apis).
Proof.
  unfold BatchEnableAPIs. do 2 (case_match; [no_panic|]). apply no_panic_bind; [no_panic|].
  intros [e|op]; [no_panic|]. apply poll_no_panic. unfold poll_operation.
  apply no_panic_bind; [no_panic|intros; no_panic].
Qed.

Lemma note_services_exact l acc w :
  note_services (map Some l) acc w = (Returned (list_to_set (filter (.≠ "") (omap id l)) ∪ acc), w).
Proof.
  revert acc. induction l as [|[name|] l IH]; intros acc; cbn [note_services map].
  - cbv [mret go_ret]. simpl. by rewrite (left_id_L ∅ (∪)).
  - cbv [mbind go_bind deref mret go_ret] in *. rewrite IH. do 2 f_equal. simpl.
    rewrite filter_cons. case_bool_decide as Hn; simpl.
    + by rewrite decide_False by (by intros []).
    + rewrite decide_True by done. simpl. set_solver.
  - cbv [mbind go_bind deref mret go_ret] in *. by rewrite IH.
Qed.

Lemma status_map_lookup (apis : list string) (f : string → bool) (m : gmap string bool) api :
  fold_left (λ m api, <[api := f api]> m) apis m !! api =
    if decide (api ∈ apis) then Some (f api) else m !! api.
Proof.
  revert m. induction apis as [|a apis IH]; intros m; cbn [fold_left].
  { by rewrite decide_False by by intros ?%elem_of_nil. }
  rewrite IH. destruct (decide (api ∈ apis)) as [Hi|Hi].
  { by rewrite decide_True by by right. }
  destruct (decide (a = api)) as [->|Hne].
  - rewrite decide_True by left. by rewrite lookup_insert_eq.
  - rewrite decide_False by (intros [?|?]%elem_of_cons; congruence). by rewrite lookup_insert_ne.
Qed.

(** The status of an API is whether some page of the listing has it: when all
    pages were read, the map has exactly the APIs that were asked for, each true
    when a service of that name is listed as enabled. A service without a name
    enables nothing; in particular the API with the empty name is false. *)
Theorem api_status_exact projectID targetAPIs services w w' :
  trim_space projectID ≠ "" →
  Services_Pages (usage s) ("projects/" +:+ projectID) "state:ENABLED" w = (map (map Some) services, None, w') →
  ∃ m, CheckAPIsStatus projectID targetAPIs w = (Returned (inr m), w') ∧
    ∀ api, m !! api =
      if decide (api ∈ targetAPIs)
      then Some (bool_decide (Some api ∈ concat services ∧ api ≠ "")) else None.
Proof.
  intros Hp E. unfold CheckAPIsStatus. rewrite bool_decide_eq_false_2 by done.
  unfold does. cbv [mbind go_bind]. rewrite E. cbn [fst snd].
  rewrite <- concat_map, note_services_exact. cbv [mret go_ret]. eexists. split; [reflexivity|].
  intros api. rewrite status_map_lookup. case_decide; [|apply lookup_empty]. f_equal.
  apply bool_decide_ext. rewrite (right_id_L ∅ (∪)), elem_of_list_to_set, list_elem_of_filter, list_elem_of_omap.
  split; [intros [? (o & ? & Ho)]; simpl in Ho; by subst|intros [? ?]; split; [done|by exists (Some api)]].
Qed.
End with_service.

(** A server whose operations are done some time after they began. *)
Class OperationServer {W : Type} (Wait : Z → W → option error * W) `{!Clock Wait} (svc : UsageAPI W) := {
  done_at : string → W → option (Z * option string);
  duration : Z;
  duration_pos : 0 < duration;
  op_result : list string → option string;
  server_enable parent apis w : ∃ name w', BatchEnable svc parent apis w = (inr (mkOperation name false None), w') ∧
    clock w' = clock w ∧ done_at name w' = Some (clock w + duration, op_result apis);
  server_operation name t r w : done_at name w = Some (t, r) →
    ∃ op w', Operations_Get svc name w = (inr op, w') ∧ clock w' = clock w ∧ done_at name w' = Some (t, r) ∧
      Done op = (t <=? clock w) ∧ (Done op = true → op_Error op = r);
  server_op_wait d name w : done_at name (Wait d w).2 = done_at name w
}.

(** Enablement is waited for: BatchEnableAPIs returns nil, or the operation's
    own error, exactly when the operation is done within the attempts times the
    interval, and the timeout error otherwise. *)
Theorem batch_enable_waits {W} (Wait : Z → W → option error * W) `{!Clock Wait} (s : Service W)
    `{!OperationServer Wait (usage s)} projectID apis w :
  trim_space projectID ≠ "" → apis ≠ [] → 0 < pollInterval s → 0 ≤ maxAttempts s →
  ∃ r w', BatchEnableAPIs Wait s projectID apis w = (Returned r, w') ∧
    if duration <=? maxAttempts s * pollInterval s
    then r = (λ msg, wrap_post ErrAPIEnablementFailed (": " +:+ msg)) <$> op_result apis
    else errors_is "serviceusage.ErrAPIEnablementTimeout" r = true.
Proof.
  intros Hb Ha Hp Hm. unfold BatchEnableAPIs. rewrite bool_decide_eq_false_2 by done.
  rewrite (proj2 (Nat.eqb_neq _ _)) by (by intros ?%length_zero_nil). unfold does at 1. cbv [mbind go_bind].
  destruct (server_enable ("projects/" +:+ projectID) apis w) as (name & w1 & -> & Hc & Hv). cbn [op_Name].
  pose proof duration_pos as Hd.
  set (r := (λ msg, wrap_post ErrAPIEnablementFailed (": " +:+ msg)) <$> op_result apis).
  destruct (poll_timed Wait (pollInterval s)
    (λ err, Some (wrap_pre "serviceusage: API enablement interrupted: " err))
    (poll_operation s name) (Some (enable_timeout s name)) (clock w + duration) r
    (λ w, done_at name w = Some (clock w1 + duration, op_result apis)))
    with (n := Z.to_nat (maxAttempts s)) (w := w1) as (w' & -> & _ & _).
  - intros w2 Hv2. unfold poll_operation.
    destruct (server_operation _ _ _ w2 Hv2) as (op & w3 & E & Hc3 & Hv3 & Hdone & Herr).
    unfold does. cbv [mbind go_bind mret go_ret]. rewrite E. exists w3. split; [|done].
    rewrite Hc in Hdone. rewrite <- Hdone. destruct (Done op); [|done].
    rewrite Herr by done. unfold r. by destruct (op_result apis).
  - intros w2 Hv2. by rewrite server_op_wait.
  - done.
  - lia.
  - by rewrite Hc.
  - rewrite Hc, Z2Nat.id by done. eexists _, w'. split; [reflexivity|].
    destruct (Z.leb_spec duration (maxAttempts s * pollInterval s)).
    + by rewrite (proj2 (Z.leb_le _ _)) by lia.
    + by rewrite (proj2 (Z.leb_gt _ _)) by lia.
Qed.

(** ** Operations in memory *)

Record World := mkWorld { now : Z; started : option (Z * bool) }.
Definition demo_wait (d : Z) (w : World) : option error * World := (None, mkWorld (now w + d) (started w)).
(** Every operation takes three seconds; enabling "bad" fails. *)
Definition demo_result (bad : bool) : option string := if bad then Some "denied" else None.
Definition demo_svc : UsageAPI World :=
  mkAPI
    (λ _ _ w, ([[Some (Some "a"); Some None]; [Some (Some "b")]], None, w))
    (λ _ apis w, (inr (mkOperation "op" false None),
       mkWorld (now w) (Some (now w, bool_decide ("bad" ∈ apis)))))
    (λ _ w, (match started w with
             | Some (t, bad) =>
                 let fin := t + 3 <=? now w in
                 inr (mkOperation "op" fin (if fin then demo_result bad else None))
             | None => inl (ENew "none" "none")
             end, w)).

#[local] Instance demo_clock : Clock demo_wait.
Proof. refine {| clock := now |}. intros d w. by eexists. Defined.

#[local] Instance demo_operations : OperationServer demo_wait demo_svc.
Proof.
  refine {| done_at := λ name w, tb ← started w; Some (tb.1 + 3, demo_result tb.2); duration := 3;
            op_result := λ apis, demo_result (bool_decide ("bad" ∈ apis)) |}.
  - done.
  - intros parent apis w. by eexists _, _.
  - intros name t r w Hd. simpl in *. destruct (started w) as [[t0 bad]|] eqn:Es; simplify_eq/=.
    eexists _, _. split; [reflexivity|]. split; [done|]. split; [by rewrite Es|]. split; [done|]. simpl.
    by intros ->.
  - done.
Defined.

Definition demo_service : Service World := mkService demo_svc 2 5.

Lemma batch_enable_waits_witness :
  ∃ r w', BatchEnableAPIs demo_wait demo_service "p" ["a"; "bad"] (mkWorld 0 None) = (Returned r, w') ∧
    if 3 <=? 5 * 2
    then r = (λ msg, wrap_post ErrAPIEnablementFailed (": " +:+ msg)) <$> Some "denied"
    else errors_is "serviceusage.ErrAPIEnablementTimeout" r = true.
Proof.
  apply (@batch_enable_waits World demo_wait demo_clock demo_service demo_operations "p" ["a"; "bad"] (mkWorld 0 None));
    [discriminate|discriminate|simpl; lia|simpl; lia].
Defined.

Lemma api_status_exact_witness :
  ∃ m, CheckAPIsStatus demo_service "p" ["b"; "c"] (mkWorld 0 None) = (Returned (inr m), mkWorld 0 None) ∧
    ∀ api, m !! api =
      if decide (api ∈ ["b"; "c"])
      then Some (bool_decide (Some api ∈ concat [[Some "a"; None]; [Some "b"]] ∧ api ≠ "")) else None.
Proof.
  apply (api_status_exact demo_service "p" ["b"; "c"] [[Some "a"; None]; [Some "b"]] (mkWorld 0 None));
    [discriminate|reflexivity].
Defined.

End serviceusage.
