(* ===== verification/Auth.v ===== *)
(** * google/auth

    Models [src/go/google/auth/auth.go].
    Module [auth]: the options, the choice of an identity and the transport every
    choice goes through, and the check of a delegated identity. Module [consent]:
    the interactive flow; its callback handler and what may call it are a step
    relation. What the libraries make (credentials, transports, clients) is
    described by what it was made of. *)

From S2P Require Import Prelude GoStrings GoErr GoMonad Gcp Calls Transport.
From Stdlib Require Import Ascii.

Module auth.

Definition defaultRetryAttempts : Z := 4.

Definition ErrNilValidator : error := ENew "auth.ErrNilValidator" "validator or service is nil".
Definition ErrUnsafeURL : error :=
  ENew "auth.ErrUnsafeURL" "refusing to open URL: unsafe scheme or protocol".
Definition ErrInvalidPassKey : error :=
  ENew "auth.ErrInvalidPassKey" "invalid pass key: cannot start with a hyphen".
Definition ErrNoImpersonationAccount : error :=
  ENew "auth.ErrNoImpersonationAccount" "GOOGLE_IMPERSONATE_SERVICE_ACCOUNT environment variable is not set".
Definition ErrNoSubjectEmail : error :=
  ENew "auth.ErrNoSubjectEmail" "subjectEmail must not be empty for Domain-Wide Delegation".
Definition ErrInvalidServiceAccount : error :=
  ENew "auth.ErrInvalidServiceAccount" "invalid service account email: must follow a standard email address formatting".
Definition ErrInvalidSubjectEmail : error :=
  ENew "auth.ErrInvalidSubjectEmail" "invalid subject email: must resemble a correct email pattern".
Definition ErrSubjectMismatch : error := ENew "auth.ErrSubjectMismatch" "delegated subject mismatch".
Definition ErrEmptyUserInfo : error :=
  ENew "auth.ErrEmptyUserInfo" "about.get returned empty user information".

(** ** What the libraries make *)

Record CredentialsOptions := mkCreds {
  TargetPrincipal : string; cred_Scopes : list string; Subject : string
}.
Inductive authOption := WithScopes_ (scopes : list string) | WithAuthCredentials (creds : CredentialsOptions).

(** The OAuth configuration: the text it was parsed from and the scopes. *)
Record OAuthConfig := mkOAuth { client_json : string; oauth_scopes : list string; RedirectURL : string }.
Definition Token : Type := string.

(** A transport of the caller, the default one, [bodyAwareRetryTransport] over a
    base, one that authenticates over a base, and that of an OAuth client. *)
Inductive transport :=
| CustomTransport (id : nat)
| DefaultTransport
| BodyAwareRetry (attempts : Z) (base : transport)
| Authenticated (base : transport) (auth : authOption)
| OAuthTransport (cfg : OAuthConfig) (tok : Token).

(** An [http.Client]; [others] stands for its other fields. *)
Record client := mkClient { client_Transport : option transport; others : nat }.

Inductive ClientOption := WithHTTPClient_ (c : client) | AuthOption (a : authOption).

(** ** Configuration *)

Record config := mkConfig {
  targetSA : string; subjectEmail : string; isDWD : bool; passKey : string; tokenPath : string;
  scopes : list string; httpClient : option client; isInteractive : bool; retryDisabled : bool;
  retryAttempts : Z
}.
Definition Option : Type := config → config.
Definition no_config : config := mkConfig "" "" false "" "" [] None false false 0.

Definition with_target (sa : string) (c : config) : config :=
  mkConfig sa (subjectEmail c) (isDWD c) (passKey c) (tokenPath c) (scopes c) (httpClient c)
    (isInteractive c) (retryDisabled c) (retryAttempts c).

Definition WithServiceAccountImpersonation (sa : string) : Option := with_target sa.
Definition WithDomainWideDelegation (sa subject : string) : Option := λ c,
  mkConfig sa subject true (passKey c) (tokenPath c) (scopes c) (httpClient c)
    (isInteractive c) (retryDisabled c) (retryAttempts c).
Definition WithInteractiveConsent (key path : string) : Option := λ c,
  mkConfig (targetSA c) (subjectEmail c) (isDWD c) key path (scopes c) (httpClient c)
    true (retryDisabled c) (retryAttempts c).
Definition WithScopes (ss : list string) : Option := λ c,
  mkConfig (targetSA c) (subjectEmail c) (isDWD c) (passKey c) (tokenPath c) ss (httpClient c)
    (isInteractive c) (retryDisabled c) (retryAttempts c).
Definition WithHTTPClient (cl : option client) : Option := λ c,
  mkConfig (targetSA c) (subjectEmail c) (isDWD c) (passKey c) (tokenPath c) (scopes c) cl
    (isInteractive c) (retryDisabled c) (retryAttempts c).
Definition WithRetryAttempts (attempts : Z) : Option := λ c,
  if 0 <? attempts
  then mkConfig (targetSA c) (subjectEmail c) (isDWD c) (passKey c) (tokenPath c) (scopes c) (httpClient c)
         (isInteractive c) (retryDisabled c) attempts
  else c.
Definition WithoutRetry : Option := λ c,
  mkConfig (targetSA c) (subjectEmail c) (isDWD c) (passKey c) (tokenPath c) (scopes c) (httpClient c)
    (isInteractive c) true (retryAttempts c).

Definition configure (opts : list Option) : config := fold_left (λ c opt, opt c) opts no_config.

(** ** The transport *)

Definition isRetryableStatus (code : Z) : bool := (code =? 429) || (500 <=? code).

Definition retryRoundTripper (c : config) (base : option transport) : transport :=
  BodyAwareRetry (if retryAttempts c <? 1 then defaultRetryAttempts else retryAttempts c)
    (default DefaultTransport base).

Definition wrapHTTPClient (c : config) (cl : client) : client :=
  if retryDisabled c then cl
  else mkClient (Some (retryRoundTripper c (client_Transport cl))) (others cl).

(** [bodyAwareRetryTransport.RoundTrip], over the transport of [Transport.v]; that
    of the older module, which the code uses, differs in the text of a permanent
    error. *)
Definition RoundTrip {W} (ParseTime : string → option Z) (Rand : Z → W → Z * W)
    (Wait : Z → W → option error * W) (Now : W → Z * W) (Drain : nat → W → unit * W)
    (attempts : Z) (direct : transport.RoundTripper W) : transport.RoundTripper W :=
  let retrying := transport.RoundTrip ParseTime Rand Wait Now Drain
                    (transport.Transport direct attempts (Some isRetryableStatus) (Some direct)) in
  λ req, if transport.non_rewindable req then direct req else retrying req.

(** ** Addresses *)

Definition is_blank_byte (c : ascii) : bool :=
  Ascii.eqb c " " || Ascii.eqb c (ascii_of_nat 9) || Ascii.eqb c (ascii_of_nat 10) || Ascii.eqb c (ascii_of_nat 13).
Fixpoint contains_any (f : ascii → bool) (s : string) : bool :=
  match s with EmptyString => false | String c s' => f c || contains_any f s' end.

Definition IsValidEmail (email : string) : bool :=
  if bool_decide (email = "") then false
  else match split "@" email with
       | [local; domain] =>
           negb (bool_decide (local = "")) && negb (bool_decide (domain = "")) &&
           negb (contains_any is_blank_byte email)
       | _ => false
       end.
Definition IsValidServiceAccount (email : string) : bool := IsValidEmail email.

(** ** Choosing an identity *)

Section resolve.
Context {W : Type}.

(** The environment, what making credentials and a transport fails with, and the
    interactive flow, which [consent] models. *)
Context (getenv : string → string) (home : string)
  (NewCredentials : CredentialsOptions → W → option error * W)
  (NewTransport : transport → authOption → W → option error * W)
  (interactiveConsentClient : string → string → list string → go W (error + client)).

Definition retryingClientOptions (cfg : config) (auth : authOption) : go W (error + list ClientOption) :=
  let base := retryRoundTripper cfg None in
  err ← does (NewTransport base auth);
  mret (match err with
        | Some err => inl (wrap_pre "failed to build retrying transport: " err)
        | None => inr [WithHTTPClient_ (mkClient (Some (Authenticated base auth)) 0)]
        end).

Definition resolveImpersonationClient (cfg : config) : go W (error + list ClientOption) :=
  if negb (IsValidServiceAccount (targetSA cfg)) then mret (inl ErrInvalidServiceAccount)
  else if isDWD cfg && bool_decide (subjectEmail cfg = "") then mret (inl ErrNoSubjectEmail)
  else if negb (bool_decide (subjectEmail cfg = "")) && negb (IsValidEmail (subjectEmail cfg))
  then mret (inl ErrInvalidSubjectEmail)
  else
    let creds := mkCreds (targetSA cfg) (scopes cfg) (subjectEmail cfg) in
    err ← does (NewCredentials creds);
    match err with
    | Some err => mret (inl (wrap_pre "failed to create impersonated credentials: " err))
    | None =>
        if retryDisabled cfg then mret (inr [AuthOption (WithAuthCredentials creds)])
        else retryingClientOptions cfg (WithAuthCredentials creds)
    end.

Definition defaultTokenPath : string := ".kratos/tokens/google-oauth.json".
Definition defaultPassKey : string := "dui/google-oauth-client".

Definition resolveInteractiveClient (cfg : config) : go W (error + list ClientOption) :=
  let key := if bool_decide (passKey cfg = "") then defaultPassKey else passKey cfg in
  let path := if bool_decide (tokenPath cfg = "")
              then (if bool_decide (home = "") then defaultTokenPath else home +:+ "/" +:+ defaultTokenPath)
              else tokenPath cfg in
  cl ←? interactiveConsentClient key path (scopes cfg);
  mret (inr [WithHTTPClient_ (wrapHTTPClient cfg cl)]).

(** The configuration once the environment and the default scopes are in. *)
Definition target_of (cfg : config) : string :=
  if bool_decide (targetSA cfg = "") && negb (isInteractive cfg)
  then getenv "GOOGLE_IMPERSONATE_SERVICE_ACCOUNT" else targetSA cfg.
Definition with_default_scopes (defaultScopes : list string) (c : config) : config :=
  match scopes c with [] => WithScopes defaultScopes c | _ => c end.

Definition ResolveClient (defaultScopes : list string) (opts : list Option)
  : go W (error + list ClientOption) :=
  let cfg := configure opts in
  match httpClient cfg with
  | Some cl => mret (inr [WithHTTPClient_ (wrapHTTPClient cfg cl)])
  | None =>
      let cfg := with_target (target_of cfg) cfg in
      if isDWD cfg && bool_decide (targetSA cfg = "") then mret (inl ErrNoImpersonationAccount)
      else
        let cfg := with_default_scopes defaultScopes cfg in
        if negb (bool_decide (targetSA cfg = "")) then resolveImpersonationClient cfg
        else if isInteractive cfg then resolveInteractiveClient cfg
        else if retryDisabled cfg then mret (inr [])
        else retryingClientOptions cfg (WithScopes_ (scopes cfg))
  end.

End resolve.

(** ** The check of a delegated identity *)

Section validator.
Context {W : Type} (env : Env W).

(** A Drive service: [files.get] of a file, and [about.get], whose answer and whose
    user may be nil. *)
Record DriveService := mkDrive {
  Files_Get : string → W → option error * W;
  About_Get : W → (error + option (option string)) * W
}.

(** A validator that may be nil, over a service that may be nil. *)
Definition DWDValidator : Type := option (option DriveService).
Definition NewDWDValidator (srv : option DriveService) : DWDValidator := Some srv.

Definition dwd_failed (err : error) : error := wrap_pre "DWD validation failed: " err.

Definition ValidateAccess (v : DWDValidator) : go W (option error) :=
  match v with
  | Some (Some service) =>
      err ← run env (api_err "files.get root: " (Files_Get service "root"));
      mret (dwd_failed <$> err)
  | _ => mret (Some (dwd_failed ErrNilValidator))
  end.

Definition get_user (service : DriveService) : go W (string * option error) :=
  r ← does (About_Get service);
  mret (match r with
        | inl err => ("", Some (wrap_pre "about.get: " err))
        | inr (Some (Some email)) => (email, None)
        | inr _ => ("", Some ErrEmptyUserInfo)
        end).

Definition ValidateAccessAs (v : DWDValidator) (expectedEmail : string) : go W (option error) :=
  match v with
  | Some (Some service) =>
      if bool_decide (expectedEmail = "") then mret (Some (dwd_failed ErrNoSubjectEmail))
      else
        r ← run_val env "" (get_user service);
        match r.2 with
        | Some err => mret (Some (dwd_failed err))
        | None =>
            if bool_decide (to_lower r.1 = to_lower expectedEmail) then ValidateAccess v
            else mret (Some (wrap_pre ("effective user " +:+ quote r.1 +:+ " does not match expected " +:+
                               quote expectedEmail +:+ ": ") ErrSubjectMismatch))
        end
  | _ => mret (Some (dwd_failed ErrNilValidator))
  end.
End validator.
Arguments DriveService : clear implicits.
Arguments DWDValidator : clear implicits.

(** ** Theorems *)

Lemma contains_any_app f s t : contains_any f (s +:+ t) = contains_any f s || contains_any f t.
Proof. induction s as [|c s IH]; [done|]. rewrite str_cons_app. simpl. by rewrite IH, orb_assoc. Qed.

(** An address is accepted exactly when it is two texts that are not empty, without
    blanks or at signs, with an at sign between them. *)
Lemma valid_email_exact email :
  IsValidEmail email = true ↔
  ∃ local domain, email = local +:+ "@" +:+ domain ∧ local ≠ "" ∧ domain ≠ "" ∧
    contains_byte "@" local = false ∧ contains_byte "@" domain = false ∧
    contains_any is_blank_byte local = false ∧ contains_any is_blank_byte domain = false.
Proof.
  unfold IsValidEmail. split.
  - case_bool_decide as He; [done|]. pose proof (join_split "@" email) as Hj.
    pose proof (split_clean "@" email) as Hc.
    destruct (split "@" email) as [|local [|domain [|]]]; [done|done| |done].
    intros [[H1 H2]%andb_true_iff H3]%andb_true_iff. bool_to_prop.
    exists local, domain. cbn [join] in Hj. rewrite <- Hj. split; [done|]. split; [done|]. split; [done|].
    split; [apply Hc; left|]. split; [apply Hc; right; left|].
    rewrite <- Hj, !contains_any_app in H3. apply orb_false_iff in H3 as [? [_ ?]%orb_false_iff]. done.
  - intros (local & domain & -> & Hl & Hd & Hcl & Hcd & Hbl & Hbd).
    rewrite bool_decide_eq_false_2 by (intros [? _]%str_app_eq_nil; done).
    change ("@" +:+ domain) with (String "@" domain).
    rewrite split_app_sep, split_single by done.
    rewrite !bool_decide_eq_false_2 by done. simpl.
    rewrite contains_any_app, Hbl. simpl. by rewrite Hbd.
Qed.

(** The outermost retry of a transport, through what authenticates over it. *)
Fixpoint retry_layer (t : transport) : option Z :=
  match t with
  | BodyAwareRetry n _ => Some n
  | Authenticated base _ => retry_layer base
  | _ => None
  end.

(** The identity the options carry. *)
Definition auth_of (o : ClientOption) : option authOption :=
  match o with
  | AuthOption a => Some a
  | WithHTTPClient_ (mkClient (Some (Authenticated _ a)) _) => Some a
  | _ => None
  end.

Section resolve_theorems.
Context {W : Type} (getenv : string → string) (home : string)
  (NewCredentials : CredentialsOptions → W → option error * W)
  (NewTransport : transport → authOption → W → option error * W)
  (interactiveConsentClient : string → string → list string → go W (error + client)).
Abbreviation resolve := (ResolveClient getenv home NewCredentials NewTransport interactiveConsentClient).

Lemma retrying_options_inv cfg a w os w' :
  retryingClientOptions NewTransport cfg a w = (Returned (inr os), w') →
  os = [WithHTTPClient_ (mkClient (Some (Authenticated (retryRoundTripper cfg None) a)) 0)].
Proof.
  unfold retryingClientOptions, does. cbv [mbind go_bind mret go_ret].
  destruct (NewTransport _ a w) as [[e|] w1]; intros; by simplify_eq.
Qed.

(** What an impersonation leaves as options. *)
Lemma impersonation_inv cfg w os w' :
  resolveImpersonationClient NewCredentials NewTransport cfg w = (Returned (inr os), w') →
  IsValidEmail (targetSA cfg) = true ∧ (subjectEmail cfg = "" ∨ IsValidEmail (subjectEmail cfg) = true) ∧
  (isDWD cfg = true → subjectEmail cfg ≠ "") ∧
  let a := WithAuthCredentials (mkCreds (targetSA cfg) (scopes cfg) (subjectEmail cfg)) in
  os = (if retryDisabled cfg then [AuthOption a]
        else [WithHTTPClient_ (mkClient (Some (Authenticated (retryRoundTripper cfg None) a)) 0)]).
Proof.
  unfold resolveImpersonationClient, IsValidServiceAccount. intros E.
  destruct (IsValidEmail (targetSA cfg)); [|done]. cbn [negb] in E.
  destruct (isDWD cfg && bool_decide (subjectEmail cfg = "")) eqn:Ed; [done|].
  destruct (negb (bool_decide (subjectEmail cfg = "")) && negb (IsValidEmail (subjectEmail cfg))) eqn:Es; [done|].
  unfold does in E. cbv [mbind go_bind mret go_ret] in E.
  destruct (NewCredentials _ w) as [[e|] w1]; [done|]. split; [done|]. split.
  { apply andb_false_iff in Es as [Es|Es]; apply negb_false_iff in Es; [left; by bool_to_prop|by right]. }
  split. { intros Hd. rewrite Hd in Ed. simpl in Ed. by bool_to_prop. }
  destruct (retryDisabled cfg); [by simplify_eq|]. by eapply retrying_options_inv.
Qed.

(** Every way of resolving a client retries, or none does. Unless the retry is
    turned off, the result is one HTTP client whose transport has the retry with
    the configured number of attempts (4 by default, never less than 1) below the
    authentication; when it is turned off nothing is wrapped. *)
Theorem resolve_retries defaultScopes opts w os w' :
  resolve defaultScopes opts w = (Returned (inr os), w') →
  let cfg := configure opts in
  if retryDisabled cfg
  then os = [] ∨ (∃ a, os = [AuthOption a]) ∨
       (∃ cl, os = [WithHTTPClient_ cl] ∧
          (httpClient cfg = Some cl ∨ ∃ key path ss w1 w2,
             interactiveConsentClient key path ss w1 = (Returned (inr cl), w2)))
  else ∃ cl t n, os = [WithHTTPClient_ cl] ∧ client_Transport cl = Some t ∧ retry_layer t = Some n ∧
       1 ≤ n ∧ n = (if retryAttempts cfg <? 1 then 4 else retryAttempts cfg).
Proof.
  intros E cfg. unfold ResolveClient in E. fold cfg in E.
  set (n := if retryAttempts cfg <? 1 then 4 else retryAttempts cfg).
  assert (1 ≤ n) as Hn by (unfold n; destruct (Z.ltb_spec (retryAttempts cfg) 1); lia).
  destruct (httpClient cfg) as [cl|] eqn:Ecl.
  { cbv [mret go_ret] in E. simplify_eq. unfold wrapHTTPClient. destruct (retryDisabled cfg).
    - right; right. exists cl. auto.
    - eexists _, _, n. split; [done|]. split; [done|]. done. }
  set (cfg1 := with_target (target_of getenv cfg) cfg) in E.
  set (cfg2 := with_default_scopes defaultScopes cfg1) in E.
  assert (retryDisabled cfg2 = retryDisabled cfg ∧ retryAttempts cfg2 = retryAttempts cfg) as [Hd Ha].
  { unfold cfg2, with_default_scopes. by destruct (scopes cfg1). }
  destruct (_ && _); [done|].
  destruct (negb (bool_decide (targetSA cfg2 = ""))).
  { apply impersonation_inv in E as (_ & _ & _ & ->). rewrite Hd. destruct (retryDisabled cfg); [eauto|].
    eexists _, _, n. split; [done|]. split; [done|]. split; [|done]. simpl. by rewrite Ha. }
  destruct (isInteractive cfg2).
  { unfold resolveInteractiveClient in E. apply bind_returned in E as ([e|cl] & w1 & E1 & E); [done|].
    cbv [mret go_ret] in E. simplify_eq. unfold wrapHTTPClient. rewrite Hd. destruct (retryDisabled cfg).
    - right; right. exists cl. split; [done|]. right. eauto 6.
    - eexists _, _, n. split; [done|]. split; [done|]. split; [|done]. simpl. by rewrite Ha. }
  rewrite Hd in E. destruct (retryDisabled cfg); [cbv [mret go_ret] in E; simplify_eq; by left|].
  apply retrying_options_inv in E as ->. eexists _, _, n. split; [done|]. split; [done|].
  split; [|done]. simpl. by rewrite Ha.
Qed.

(** C21: An impersonation is of whom it was asked to be of. When a client is resolved
    without an injected one and a target is given (or comes from the environment),
    the credentials are for that target, a valid address; a subject is that of the
    options, a valid address; and domain-wide delegation never goes without a
    subject, nor without a target. *)
Theorem resolve_identity defaultScopes opts w os w' :
  httpClient (configure opts) = None →
  resolve defaultScopes opts w = (Returned (inr os), w') →
  let cfg := configure opts in let target := target_of getenv cfg in
  (target ≠ "" →
     ∃ o, os = [o] ∧
       auth_of o = Some (WithAuthCredentials
         (mkCreds target (match scopes cfg with [] => defaultScopes | ss => ss end) (subjectEmail cfg))) ∧
       IsValidEmail target = true ∧ (subjectEmail cfg = "" ∨ IsValidEmail (subjectEmail cfg) = true)) ∧
  (isDWD cfg = true → target ≠ "" ∧ subjectEmail cfg ≠ "").
Proof.
  intros Hcl E cfg target. unfold ResolveClient in E. rewrite Hcl in E. fold cfg target in E.
  set (cfg2 := with_default_scopes defaultScopes (with_target target cfg)) in E.
  assert (targetSA cfg2 = target ∧ subjectEmail cfg2 = subjectEmail cfg ∧ isDWD cfg2 = isDWD cfg ∧
    scopes cfg2 = match scopes cfg with [] => defaultScopes | ss => ss end) as (Ht & Hs & Hi & Hss).
  { unfold cfg2, with_default_scopes. simpl. by destruct (scopes cfg) eqn:Es. }
  cbn [isDWD with_target targetSA] in E.
  destruct (isDWD cfg && bool_decide (target = "")) eqn:Ed; [done|].
  rewrite Ht in E. destruct (decide (target = "")) as [He|He].
  - split; [done|]. intros Hd. rewrite Hd, (bool_decide_eq_true_2 _ He) in Ed. done.
  - rewrite (bool_decide_eq_false_2 _ He) in E. simpl in E.
    apply impersonation_inv in E as (H1 & H2 & H3 & ->). rewrite Ht, Hs, Hi, Hss in *. split.
    + intros _. destruct (retryDisabled cfg2); eexists; (split; [done|]); (split; [done|]); done.
    + intros Hd. split; [done|by apply H3].
Qed.
End resolve_theorems.

(** Without retry, the fallback to the default credentials returns no options at
    all: scopes that were asked for are lost. *)
Example scopes_lost (home : string) :
  ResolveClient (λ _, "") home (λ _ w, (None, w)) (λ _ _ w, (None, w)) (λ _ _ _, mret (inl ErrUnsafeURL))
    ["default"] [WithScopes ["wanted"]; WithoutRetry] tt = (Returned (inr []), tt).
Proof. reflexivity. Qed.

Definition demo_getenv (k : string) : string :=
  if bool_decide (k = "GOOGLE_IMPERSONATE_SERVICE_ACCOUNT") then "sa@p.example" else "".
Definition demo_opts : list Option := [WithDomainWideDelegation "" "ann@example.org"; WithRetryAttempts 7].

Lemma resolve_retries_witness :
  ∃ cl t n, [WithHTTPClient_ (mkClient (Some (Authenticated (BodyAwareRetry 7 DefaultTransport)
      (WithAuthCredentials (mkCreds "sa@p.example" ["s"] "ann@example.org")))) 0)] = [WithHTTPClient_ cl] ∧
    client_Transport cl = Some t ∧ retry_layer t = Some n ∧ 1 ≤ n ∧ n = (if 7 <? 1 then 4 else 7).
Proof.
  apply (resolve_retries demo_getenv "/home" (λ _ w, (None, w)) (λ _ _ w, (None, w))
    (λ _ _ _, mret (inl ErrUnsafeURL)) ["s"] demo_opts tt _ tt). reflexivity.
Defined.

Lemma resolve_identity_witness :
  isDWD (configure demo_opts) = true ∧
  target_of demo_getenv (configure demo_opts) ≠ "" ∧ subjectEmail (configure demo_opts) ≠ "".
Proof.
  split; [reflexivity|].
  apply (resolve_identity demo_getenv "/home" (λ _ w, (None, w)) (λ _ _ w, (None, w))
    (λ _ _ _, mret (inl ErrUnsafeURL)) ["s"] demo_opts tt
    [WithHTTPClient_ (mkClient (Some (Authenticated (BodyAwareRetry 7 DefaultTransport)
      (WithAuthCredentials (mkCreds "sa@p.example" ["s"] "ann@example.org")))) 0)] tt); reflexivity.
Defined.

Section validate_theorem.
Context {W : Type} (env : Env W).

(** A delegation that is confirmed was seen. When ValidateAccessAs gives no
    error, the API answered, in some state, that the user is the expected one (in
    any case), and, in some state, that the root folder can be read. *)
Theorem validated_as_expected (service : DriveService W) (expected : string) w w' :
  ValidateAccessAs env (Some (Some service)) expected w = (Returned None, w') →
  (∃ email w1, (About_Get service w1).1 = inr (Some (Some email)) ∧ to_lower email = to_lower expected) ∧
  (∃ w2, (Files_Get service "root" w2).1 = None).
Proof.
  intros E. unfold ValidateAccessAs in E. case_bool_decide; [done|].
  apply bind_returned in E as ([email oe] & w1 & E1 & E). simpl in E. destruct oe as [e|]; [done|].
  case_bool_decide as He; [|done].
  assert (retry_keeps env (λ _, True)) as Hk by by split.
  pose proof (run_val_triple env "" (get_user service) (λ _, True)
    (λ email _, ∃ w, (About_Get service w).1 = inr (Some (Some email))) Hk) as Ht.
  assert (∃ w, (About_Get service w).1 = inr (Some (Some email))) as [w2 Hw2].
  { eapply (Ht _ w (email, None)); [done|exact E1]. Unshelve.
    intros w0 [a oe] w2 _ Eu. unfold get_user, does in Eu. cbv [mbind go_bind mret go_ret] in Eu.
    destruct (About_Get service w0) as [[e|[[u|]|]] w3] eqn:Ea; simplify_eq/=; [done| |done|done].
    exists w0. by rewrite Ea. }
  split; [exists email, w2; done|]. unfold ValidateAccess in E.
  apply bind_returned in E as ([e|] & w3 & E2 & E); [done|].
  eapply (run_triple env (api_err "files.get root: " (Files_Get service "root")) (λ _, True)
    (λ _, ∃ w, (Files_Get service "root" w).1 = None) Hk) in E2; [exact E2| |done].
  apply api_err_triple. intros w0 _. destruct (Files_Get service "root" w0).1 eqn:Ef; [done|]. by exists w0.
Qed.
End validate_theorem.

Definition demo_drive (email : string) : DriveService unit :=
  mkDrive (λ _ w, (None, w)) (λ w, (inr (Some (Some email)), w)).
Definition demo_env : Env unit :=
  mkEnv gcp.demo_views (λ _, None) (λ _ w, (0, w)) (λ _ w, (None, w)) (λ w, (0, w)) (λ _, None).

Lemma validated_as_expected_witness :
  (∃ email w1, (About_Get (demo_drive "Ann@example.org") w1).1 = inr (Some (Some email)) ∧
     to_lower email = to_lower "ann@example.org") ∧
  (∃ w2, (Files_Get (demo_drive "Ann@example.org") "root" w2).1 = None).
Proof.
  apply (validated_as_expected demo_env (demo_drive "Ann@example.org") "ann@example.org" tt tt).
  vm_compute. reflexivity.
Defined.

End auth.

Module consent.
Import auth.

(** ** The interactive flow *)

Definition errNoCode : error := ENew "auth.errNoCode" "no code in callback".
Definition errStateMismatch : error :=
  ENew "auth.errStateMismatch" "state token mismatch: security warning".

(** The two channels, each with room for one value. *)
Record Channels := mkChannels { codeCh : option string; errCh : option error }.

(** [select { case ch <- v: default: }] on a channel with room for one. *)
Definition offer {A} (v : A) (ch : option A) : option A :=
  match ch with None => Some v | Some v' => Some v' end.

(** [callbackHandler.ServeHTTP] on the two query values: the status it answers with
    and the channels after it. *)
Definition ServeHTTP (stateToken : string) (state code : string) (ch : Channels) : Z * Channels :=
  if negb (bool_decide (state = stateToken))
  then (403, mkChannels (codeCh ch) (offer errStateMismatch (errCh ch)))
  else if bool_decide (code = "")
  then (400, mkChannels (codeCh ch) (offer errNoCode (errCh ch)))
  else (200, mkChannels (offer code (codeCh ch)) (errCh ch)).

(** What the select of [consentFlow] took. *)
Inductive event := Code (c : string) | Failed (e : error) | Cancelled (e : error).

(** Requests may come from anywhere, before and after the select; [requests] has
    them in order. *)
Record Flow := mkFlow { channels : Channels; requests : list (string * string); taken : option event }.
Definition flow_init : Flow := mkFlow (mkChannels None None) [] None.

Inductive flow_step (stateToken : string) : Flow → Flow → Prop :=
| flow_request s state code :
    flow_step stateToken s
      (mkFlow (ServeHTTP stateToken state code (channels s)).2 (requests s ++ [(state, code)]) (taken s))
| flow_server_failed s e :
    flow_step stateToken s
      (mkFlow (mkChannels (codeCh (channels s)) (offer e (errCh (channels s)))) (requests s) (taken s))
| flow_take_code s c :
    taken s = None → codeCh (channels s) = Some c →
    flow_step stateToken s (mkFlow (mkChannels None (errCh (channels s))) (requests s) (Some (Code c)))
| flow_take_error s e :
    taken s = None → errCh (channels s) = Some e →
    flow_step stateToken s (mkFlow (mkChannels (codeCh (channels s)) None) (requests s) (Some (Failed e)))
| flow_cancelled s e :
    taken s = None → flow_step stateToken s (mkFlow (channels s) (requests s) (Some (Cancelled e))).

Definition openBrowser {W} (goos : string) (Start : list string → W → option error * W) (authURL : string)
  : go W (option error) :=
  if negb (has_prefix "https://" authURL) then mret (Some ErrUnsafeURL)
  else
    err ← does (Start
      (if bool_decide (goos = "darwin") then ["open"; authURL]
       else if bool_decide (goos = "windows") then ["rundll32"; "url.dll,FileProtocolHandler"; authURL]
       else ["xdg-open"; authURL]));
    mret (wrap_pre "start browser process: " <$> err).

(** What the flow asks of the system and of the OAuth library. *)
Record System (W : Type) := mkSystem {
  sys_getenv : string → string;
  sys_goos : string;
  Output : list string → W → (error + string) * W;
  Start : list string → W → option error * W;
  ConfigFromJSON : string → list string → error + OAuthConfig;
  AuthCodeURL : OAuthConfig → string → string;
  Exchange : OAuthConfig → string → W → (error + Token) * W;
  rand_Read : W → (error + list Z) * W;
  Listen : W → (error + Z) * W;
  (** What the select takes, with the server up. *)
  Select : string → W → event * W;
  MkdirAll : string → W → option error * W;
  OpenTrunc : string → W → option error * W;
  Encode : string → Token → W → option error * W;
  CloseFile : string → W → option error * W;
  Open : string → W → option error * W;
  Decode : string → W → (error + Token) * W
}.
Arguments mkSystem {W}.
Arguments sys_getenv {W}.
Arguments sys_goos {W}.
Arguments Output {W}.
Arguments Start {W}.
Arguments ConfigFromJSON {W}.
Arguments AuthCodeURL {W}.
Arguments Exchange {W}.
Arguments rand_Read {W}.
Arguments Listen {W}.
Arguments Select {W}.
Arguments MkdirAll {W}.
Arguments OpenTrunc {W}.
Arguments Encode {W}.
Arguments CloseFile {W}.
Arguments Open {W}.
Arguments Decode {W}.

Section with_system.
Context {W : Type} (sys : System W).

Definition resolveCredentials (passKey : string) : go W (error + string) :=
  let v := sys_getenv sys "GOOGLE_OAUTH_CLIENT" in
  if negb (bool_decide (v = "")) then mret (inr v)
  else if has_prefix "-" passKey then mret (inl ErrInvalidPassKey)
  else
    out ← does (Output sys ["pass"; "show"; passKey]);
    mret (match out with
          | inl err =>
              inl (wrap_pre ("set GOOGLE_OAUTH_CLIENT or run: pass insert " +:+ passKey +:+ ": ") err)
          | inr out => inr out
          end).

(** The configuration is shared: the redirect that is set stays set, so it is part of
    the result. *)
Definition consentFlow (cfg : OAuthConfig) : go W (error + Token * OAuthConfig) :=
  bytes ← does (rand_Read sys);
  match bytes with
  | inl err => mret (inl (wrap_pre "generate secure state token: " err))
  | inr stateBytes =>
      let stateToken := EncodeToString stateBytes in
      port ← does (Listen sys);
      match port with
      | inl err => mret (inl (wrap_pre "start callback server: " err))
      | inr port =>
          let cfg := mkOAuth (client_json cfg) (oauth_scopes cfg) ("http://localhost:" +:+ itoa port) in
          _ ← openBrowser (sys_goos sys) (Start sys) (AuthCodeURL sys cfg stateToken);
          ev ← does (Select sys stateToken);
          match ev with
          | Code code =>
              tok ← does (Exchange sys cfg code);
              mret (match tok with
                    | inl err => inl (wrap_pre "exchange code for token: " err)
                    | inr tok => inr (tok, cfg)
                    end)
          | Failed err => mret (inl (wrap_pre "callback error: " err))
          | Cancelled err => mret (inl (wrap_pre "consent context cancelled: " err))
          end
      end
  end.

Definition loadToken (path : string) : go W (error + Token) :=
  err ← does (Open sys path);
  match err with
  | Some err => mret (inl (wrap_pre "loadToken: " err))
  | None =>
      tok ← does (Decode sys path);
      _ ← does (CloseFile sys path);
      mret (match tok with inl err => inl (wrap_pre "decode token: " err) | inr tok => inr tok end)
  end.

(** [filepath.Dir] of a clean path. *)
Fixpoint dir_of (path : string) : option string :=
  match path with
  | EmptyString => None
  | String c s =>
      match dir_of s with
      | Some d => Some (String c d)
      | None => if Ascii.eqb c "/" then Some "" else None
      end
  end.
Definition Dir (path : string) : string :=
  match dir_of path with None => "." | Some d => if bool_decide (d = "") then "/" else d end.

Definition saveToken (path : string) (tok : Token) : go W (option error) :=
  err ← does (MkdirAll sys (Dir path));
  match err with
  | Some err => mret (Some (wrap_pre "create token dir: " err))
  | None =>
      err ← does (OpenTrunc sys path);
      match err with
      | Some err => mret (Some (wrap_pre "create token file: " err))
      | None =>
          err ← does (Encode sys path tok);
          match err with
          | Some err => _ ← does (CloseFile sys path); mret (Some (wrap_pre "encode token: " err))
          | None =>
              err ← does (CloseFile sys path);
              mret (wrap_pre "close token file: " <$> err)
          end
      end
  end.

Definition interactiveConsentClient (passKey tokenPath : string) (scopes : list string)
  : go W (error + client) :=
  credsJSON ← resolveCredentials passKey;
  match credsJSON with
  | inl err => mret (inl (wrap_pre "oauth: resolve credentials: " err))
  | inr credsJSON =>
      match ConfigFromJSON sys credsJSON scopes with
      | inl err => mret (inl (wrap_pre "oauth: parse client credentials: " err))
      | inr oauthCfg =>
          tok ← loadToken tokenPath;
          match tok with
          | inr tok => mret (inr (mkClient (Some (OAuthTransport oauthCfg tok)) 0))
          | inl _ =>
              tok ← consentFlow oauthCfg;
              match tok with
              | inl err => mret (inl (wrap_pre "oauth: consent flow: " err))
              | inr (tok, oauthCfg) =>
                  _ ← saveToken tokenPath tok;
                  mret (inr (mkClient (Some (OAuthTransport oauthCfg tok)) 0))
              end
          end
      end
  end.
End with_system.


(** ** Theorems *)

(** The code a request carries, when it has the flow's state. *)
Definition authentic (stateToken : string) (q : string * string) : option string :=
  if bool_decide (q.1 = stateToken ∧ q.2 ≠ "") then Some q.2 else None.

(** The channel holds the first authentic code until it is taken. *)
Definition flow_inv (stateToken : string) (s : Flow) : Prop :=
  match taken s with
  | None => codeCh (channels s) = head (omap (authentic stateToken) (requests s))
  | Some (Code c) => head (omap (authentic stateToken) (requests s)) = Some c
  | Some _ => True
  end.

Lemma head_snoc {A} (l : list A) x : head (l ++ [x]) = match head l with Some y => Some y | None => Some x end.
Proof. by destruct l. Qed.

Lemma flow_inv_step stateToken s s' :
  flow_inv stateToken s → flow_step stateToken s s' → flow_inv stateToken s'.
Proof.
  unfold flow_inv. intros Hi Hs. destruct Hs as [s state code|s e|s c Ht Hc|s e Ht He|s e Ht]; simpl;
    [|by destruct (taken s) as [[]|]|by rewrite Ht, Hc in Hi|done|done].
  rewrite omap_app. simpl.
  destruct (authentic stateToken (state, code)) as [c|] eqn:Ea.
  - unfold authentic in Ea. simpl in Ea. case_bool_decide as Hq; [|done]. destruct Hq as [-> Hne]. simplify_eq.
    rewrite head_snoc. destruct (taken s) as [[c'| |]|]; [by rewrite Hi|done|done|].
    unfold ServeHTTP. rewrite bool_decide_eq_true_2, bool_decide_eq_false_2 by done. simpl. rewrite Hi.
    by destruct (head _).
  - rewrite app_nil_r. destruct (taken s) as [[c'| |]|]; [done|done|done|].
    unfold authentic in Ea. simpl in Ea. unfold ServeHTTP. case_bool_decide as Hq; [done|].
    case_bool_decide as H1; simpl; [|done]. rewrite bool_decide_eq_true_2; [done|].
    destruct (decide (code = "")); [done|]. by destruct Hq.
Qed.

(** C22: Only the first code that comes with the flow's own state is exchanged.
    Whoever calls the callback server, with whatever and in whatever order, a
    code that consentFlow takes was in a request with the state token, and none
    before it had the token and a code. *)
Theorem consent_code_authentic (stateToken : string) (s : Flow) (c : string) :
  rtc (flow_step stateToken) flow_init s → taken s = Some (Code c) →
  ∃ before after, requests s = before ++ (stateToken, c) :: after ∧ c ≠ "" ∧
    ∀ c', c' ≠ "" → (stateToken, c') ∉ before.
Proof.
  intros Hr Ht.
  assert (flow_inv stateToken s) as Hi.
  { apply (rtc_invariant (flow_step stateToken) (flow_inv stateToken) flow_init); [|done|done].
    intros s1 s2. apply flow_inv_step. }
  unfold flow_inv in Hi. rewrite Ht in Hi. clear Hr Ht. revert Hi.
  induction (requests s) as [|[state code] qs IH]; simpl; [done|].
  destruct (authentic stateToken (state, code)) as [c0|] eqn:Ea; simpl.
  - intros. simplify_eq. unfold authentic in Ea. case_bool_decide as Hq; [|done]. destruct Hq as [Hs Hne].
    simpl in *. simplify_eq. exists [], qs. split; [done|]. split; [done|]. intros c' _ ?%elem_of_nil. done.
  - intros H. destruct (IH H) as (b & a & E & Hne & Hb). exists ((state, code) :: b), a.
    rewrite E. split; [done|]. split; [done|]. intros c' Hc' [Heq|Hin]%elem_of_cons; [|by eapply Hb].
    simplify_eq. unfold authentic in Ea. rewrite bool_decide_eq_true_2 in Ea; done.
Qed.

(** A forged request, a true one, a second true one: the first true code is taken. *)
Lemma consent_code_authentic_witness :
  ∃ before after, [("forged", "x"); ("tok", "good"); ("tok", "late")] = before ++ ("tok", "good") :: after ∧
    "good" ≠ "" ∧ ∀ c', c' ≠ "" → ("tok", c') ∉ before.
Proof.
  apply (consent_code_authentic "tok"
    (mkFlow (mkChannels None (Some errStateMismatch))
       [("forged", "x"); ("tok", "good"); ("tok", "late")] (Some (Code "good"))) "good"); [|reflexivity].
  eapply rtc_l; [apply (flow_request "tok" _ "forged" "x")|].
  eapply rtc_l; [apply (flow_request "tok" _ "tok" "good")|].
  eapply rtc_l; [apply (flow_request "tok" _ "tok" "late")|].
  eapply rtc_l; [apply (flow_take_code "tok" _ "good"); reflexivity|]. apply rtc_refl.
Defined.

Section flow_theorems.
Context {W : Type} (sys : System W).

(** A key of the password store is never an option of the program, and no
    program is started with a URL that is not https: whatever the system does,
    the commands that run are pass show with a key that has no hyphen in front,
    and a browser with an https URL. [log] is a record of the commands. *)
Theorem commands_safe (log : W → list (list string)) (passKey authURL : string) w :
  (∀ c w, log (Output sys c w).2 = log w ++ [c]) → (∀ c w, log (Start sys c w).2 = log w ++ [c]) →
  (∃ cmds, log (resolveCredentials sys passKey w).2 = log w ++ cmds ∧
     ∀ c, c ∈ cmds → c = ["pass"; "show"; passKey] ∧ has_prefix "-" passKey = false) ∧
  (∃ cmds, log (openBrowser (sys_goos sys) (Start sys) authURL w).2 = log w ++ cmds ∧
     ∀ c, c ∈ cmds → last c = Some authURL ∧ has_prefix "https://" authURL = true).
Proof.
  intros Ho Hs. split.
  - unfold resolveCredentials. case_bool_decide; cbn [negb].
    2:{ exists []. rewrite app_nil_r. split; [done|]. by intros c ?%elem_of_nil. }
    destruct (has_prefix "-" passKey) eqn:Ep.
    { exists []. rewrite app_nil_r. split; [done|]. by intros c ?%elem_of_nil. }
    exists [["pass"; "show"; passKey]]. unfold does. cbv [mbind go_bind mret go_ret].
    specialize (Ho ["pass"; "show"; passKey] w). destruct (Output sys _ w) as [r w1]. simpl in *.
    split; [done|]. intros c ->%list_elem_of_singleton. done.
  - unfold openBrowser. destruct (has_prefix "https://" authURL) eqn:Ep; simpl.
    2:{ exists []. rewrite app_nil_r. split; [done|]. by intros c ?%elem_of_nil. }
    set (cmd := if bool_decide (sys_goos sys = "darwin") then _ else _). exists [cmd].
    unfold does. cbv [mbind go_bind mret go_ret]. specialize (Hs cmd w).
    destruct (Start sys cmd w) as [r w1]. simpl in *. split; [done|].
    intros c ->%list_elem_of_singleton. split; [|done]. subst cmd. by repeat case_bool_decide.
Qed.
End flow_theorems.

(** A system that records its commands; the password store has the client, there is
    no token yet, and the user consents. *)
Definition demo_system : System (list (list string)) :=
  mkSystem (λ _, "") "linux" (λ c w, (inr "{client}", w ++ [c])) (λ c w, (None, w ++ [c]))
    (λ j ss, inr (mkOAuth j ss "")) (λ cfg st, "https://accounts.example/?state=" +:+ st)
    (λ _ code w, (inr ("token of " +:+ code), w)) (λ w, (inr [171; 5], w)) (λ w, (inr 4321, w))
    (λ st w, (Code "c0de", w)) (λ _ w, (None, w)) (λ _ w, (None, w)) (λ _ _ w, (None, w))
    (λ _ w, (None, w)) (λ _ w, (Some (ENew "os.ErrNotExist" "file does not exist"), w))
    (λ _ w, (inl (ENew "eof" "EOF"), w)).

Lemma commands_safe_witness :
  ∃ cmds, (openBrowser "linux" (Start demo_system) "https://x.example" []).2 = [] ++ cmds ∧
    ∀ c, c ∈ cmds → last c = Some "https://x.example" ∧ has_prefix "https://" "https://x.example" = true.
Proof. by apply (commands_safe demo_system (λ w, w) "k" "https://x.example" []). Defined.

Example consent_flow_runs :
  interactiveConsentClient demo_system "dui/client" "/home/u/t.json" ["s"] [] =
    (Returned (inr (mkClient (Some (OAuthTransport
       (mkOAuth "{client}" ["s"] "http://localhost:4321") "token of c0de")) 0)),
     [["pass"; "show"; "dui/client"]; ["xdg-open"; "https://accounts.example/?state=ab05"]]).
Proof. reflexivity. Qed.

End consent.
