(* ===== verification/GoogleClient.v ===== *)
(** * google/client

    Models [src/go/google/client/client.go]: each constructor resolves an identity
    ([Auth.v]) and builds a service from its options with the service's own
    package. [lib] is what the constructor of the library's client returns for
    given options. *)

From S2P Require Import Prelude GoStrings GoErr GoMonad Auth DriveAdmin CloudProjects SheetsService.

Module client.
Import auth.

Section constructors.
Context {W : Type} (resolve : list string → list Option → go W (error + list ClientOption)).

(** Resolve, then build; [what] names the service. *)
Definition build {S} (what : string) (defaultScopes : list string) (opts : list Option)
    (new : list ClientOption → W → (error + S) * W) : go W (error + S) :=
  o ← resolve defaultScopes opts;
  match o with
  | inl err => mret (inl (wrap_pre "failed to resolve client: " err))
  | inr clientOpts =>
      r ← does (new clientOpts);
      mret (match r with
            | inl err => inl (wrap_pre ("failed to create " +:+ what +:+ " service: ") err)
            | inr s => inr s
            end)
  end.

Definition scope (name : string) : string := "https://www.googleapis.com/auth/" +:+ name.

(** A package's own constructor over what the library's returned. *)
Definition over {A S} (lib : list ClientOption → W → (error + A) * W) (new : error + A → error + S)
  : list ClientOption → W → (error + S) * W := λ o w, let '(r, w) := lib o w in (new r, w).

Definition NewDriveService {R} (lib : list ClientOption → W → (error + drive.DriveAPI W R) * W)
    (opts : list Option) : go W (error + drive.DriveAPI W R) :=
  srv ← build "drive" [scope "drive.metadata.readonly"] opts (over lib drive.New);
  mret (match srv with inl err => inl err | inr srv => inr (drive.RawService srv) end).

Definition NewAdminService {A} (lib : list ClientOption → W → (error + A) * W) (opts : list Option)
  : go W (error + A) := build "admin" [scope "admin.directory.user.readonly"] opts lib.

Definition NewReportsService {A} (lib : list ClientOption → W → (error + A) * W) (opts : list Option)
  : go W (error + A) := build "reports" [scope "admin.reports.audit.readonly"] opts lib.

(** The two clients of the package, each with the same options. *)
Definition NewResourceManagerService (crm billing : list ClientOption → W → option error * W)
    (svc : resourcemanager.ProjectsAPI W) (cfg : resourcemanager.Config) (opts : list Option)
  : go W (error + resourcemanager.Service W) :=
  build "resourcemanager" [scope "cloud-platform"] opts
    (λ o w, let '(e1, w) := crm o w in
            match e1 with
            | Some _ => (resourcemanager.New cfg e1 None svc, w)
            | None => let '(e2, w) := billing o w in (resourcemanager.New cfg None e2 svc, w)
            end).

Definition NewServiceUsageService (lib : list ClientOption → W → (error + serviceusage.UsageAPI W) * W)
    (cfg : serviceusage.Config) (opts : list Option) : go W (error + serviceusage.Service W) :=
  build "serviceusage" [scope "cloud-platform"] opts (over lib (serviceusage.New cfg)).

(** A Drive client that cannot be made leaves the Sheets service without one. *)
Definition NewSheetsService (newSheets : list ClientOption → W → (error + service.SheetsAPI W) * W)
    (newDrive : list ClientOption → W → (error + service.DriveAPI W) * W) (opts : list Option)
  : go W (error + service.Service W) :=
  build "sheets" [scope "spreadsheets"; scope "drive"] opts
    (λ o w, let '(s, w) := newSheets o w in
            match s with
            | inl _ => (service.New s (inl ErrNilValidator), w)
            | inr _ => let '(d, w) := newDrive o w in (service.New s d, w)
            end).

(** Every service is built from the options that were resolved for its scopes, once,
    and not at all when they could not be. *)
Lemma build_exact {S} what scopes opts (new : list ClientOption → W → (error + S) * W) w r w' :
  build what scopes opts new w = (Returned r, w') →
  (∃ e, resolve scopes opts w = (Returned (inl e), w') ∧ r = inl (wrap_pre "failed to resolve client: " e)) ∨
  (∃ o w1 x, resolve scopes opts w = (Returned (inr o), w1) ∧ new o w1 = (x, w') ∧
     match x with
     | inr s => r = inr s
     | inl e => r = inl (wrap_pre ("failed to create " +:+ what +:+ " service: ") e)
     end).
Proof.
  unfold build. intros E. apply bind_returned in E as ([e|o] & w1 & E1 & E).
  - left. exists e. cbv [mret go_ret] in E. by simplify_eq.
  - right. unfold does in E. cbv [mbind go_bind mret go_ret] in E. destruct (new o w1) as [x w2] eqn:En.
    exists o, w1, x. simplify_eq. split; [done|]. split; [done|]. by destruct x.
Qed.
End constructors.

End client.
