(* ===== verification/Connect.v ===== *)
(** * What the generated services of contracts are built from

    The files [src/go/contracts/*/*/*/*connect/*.connect.go] call [connect] and
    [net/http]. [Connect] has the types and functions of [connect] that they use, as
    parameters; requests and responses depend on the name of the message they carry.
    [service] is what one of the files defines, [Generated] the laws it keeps, and
    [ConnectLaws] what the documentation of [connect] says of a call that arrives. *)

From Stdlib Require Import Ascii.
From S2P Require Import Prelude GoStrings GoErr GoMonad.

Module connect.

Inductive kind := Unary | ServerStream.
Record signature := mkSignature { sig_kind : kind; sig_in : string; sig_out : string }.
Definition unary (i o : string) : signature := mkSignature Unary i o.
Definition server_stream (i o : string) : signature := mkSignature ServerStream i o.

(** A method of a service of a file, as [Services().ByName(s).Methods().ByName(m)]
    finds it. *)
Record schema := mkSchema { proto_file : string; proto_service : string; proto_method : string }.

Class Connect := {
  W : Type; Context : Type; HTTPClient : Type; HTTPRequest : Type;
  ClientOption : Type; HandlerOption : Type; Code : Type;
  Request : string → Type; Response : string → Type;
  ServerStreamForClient : string → Type; StreamWriter : string → Type;
  Client : string → string → Type;
  URLPath : HTTPRequest → string;
  NewClient {i o} : HTTPClient → string → schema → list ClientOption → Client i o;
  CallUnary {i o} : Client i o → Context → Request i → go W (error + Response o);
  CallServerStream {i o} : Client i o → Context → Request i → go W (error + ServerStreamForClient o);
  NewUnaryHandler {i o} : string → (Context → Request i → go W (error + Response o)) →
    schema → list HandlerOption → HTTPRequest → go W unit;
  NewServerStreamHandler {i o} : string → (Context → Request i → StreamWriter o → go W (option error)) →
    schema → list HandlerOption → HTTPRequest → go W unit;
  NotFound : HTTPRequest → go W unit;
  Redirect : string → HTTPRequest → go W unit;
  CodeUnimplemented : Code;
  NewError : Code → error → error
}.

Section methods.
Context `{Connect}.

Definition http_Handler : Type := HTTPRequest → go W unit.

(** A method as its client has it, and as an implementation has it. *)
Definition client_method (s : signature) : Type :=
  match sig_kind s with
  | Unary => connect.Context → Request (sig_in s) → go W (error + Response (sig_out s))
  | ServerStream => connect.Context → Request (sig_in s) → go W (error + ServerStreamForClient (sig_out s))
  end.
Definition handler_method (s : signature) : Type :=
  match sig_kind s with
  | Unary => connect.Context → Request (sig_in s) → go W (error + Response (sig_out s))
  | ServerStream => connect.Context → Request (sig_in s) → StreamWriter (sig_out s) → go W (option error)
  end.
Definition client_of (s : signature) : Type := Client (sig_in s) (sig_out s).

(** Calls with the same outcome. *)
Definition same_calls (s : signature) : client_method s → client_method s → Prop :=
  match s with
  | mkSignature Unary _ _ => λ f g, ∀ ctx req w, f ctx req w = g ctx req w
  | mkSignature ServerStream _ _ => λ f g, ∀ ctx req w, f ctx req w = g ctx req w
  end.

(** A method that is called, served, or answered with an error. *)
Definition call_of (s : signature) : client_of s → client_method s :=
  match s with
  | mkSignature Unary _ _ => CallUnary
  | mkSignature ServerStream _ _ => CallServerStream
  end.
Definition handler_of (s : signature) (p : string) : handler_method s → schema → list HandlerOption → http_Handler :=
  match s with
  | mkSignature Unary _ _ => NewUnaryHandler p
  | mkSignature ServerStream _ _ => NewServerStreamHandler p
  end.
Definition fails_with (s : signature) (err : error) : handler_method s :=
  match s with
  | mkSignature Unary _ _ => λ _ _, mret (inl err)
  | mkSignature ServerStream _ _ => λ _ _ _, mret (Some err)
  end.

(** [switch r.URL.Path] *)
Fixpoint switch (cases : list (string * http_Handler)) (default : http_Handler) : http_Handler := λ r,
  match cases with
  | [] => default r
  | (p, h) :: cases => if bool_decide (URLPath r = p) then h r else switch cases default r
  end.

(** ** What a generated file defines *)

Record service := mkService {
  method : Type;
  methods : list method;
  method_name : method → string;
  ServiceName : string;
  proto : string;
  signature_of : method → signature;
  Procedure : method → string;
  new_client : HTTPClient → string → list ClientOption → ∀ m, client_of (signature_of m);
  call : (∀ m, client_of (signature_of m)) → ∀ m, client_method (signature_of m);
  new_handler : (∀ m, handler_method (signature_of m)) → list HandlerOption → string * http_Handler;
  unimplemented : ∀ m, handler_method (signature_of m)
}.

(** The name of a service without its package. *)
Definition base_name (name : string) : string := List.last (split "."%char name) "".
Definition schema_of (s : service) (m : method s) : schema :=
  mkSchema (proto s) (base_name (ServiceName s)) (method_name s m).
Definition mount_path (s : service) : string := "/" +:+ ServiceName s +:+ "/".
Definition no_slash (x : string) : Prop := contains_byte "/"%char x = false.
(** A segment of a clean path. *)
Definition segment (x : string) : Prop :=
  negb (contains_byte "/"%char x) && negb (bool_decide (x ∈ ["" ; "."; ".."])) = true.

Class Generated (s : service) : Prop := {
  all_methods m : m ∈ methods s;
  names_injective m m' : method_name s m = method_name s m' → m = m';
  service_segment : segment (ServiceName s);
  method_segment m : segment (method_name s m);
  procedure_spec m : Procedure s m = mount_path s +:+ method_name s m;
  new_client_spec http base opts m :
    new_client s http base opts m = NewClient http (TrimRight "/"%char base +:+ Procedure s m) (schema_of s m) opts;
  call_spec c m : call s c m = call_of (signature_of s m) (c m);
  new_handler_path svc opts : (new_handler s svc opts).1 = mount_path s;
  new_handler_spec svc opts r :
    (new_handler s svc opts).2 r =
      switch ((λ m, (Procedure s m,
                     handler_of (signature_of s m) (Procedure s m) (svc m) (schema_of s m) opts)) <$> methods s)
        NotFound r;
  unimplemented_spec m :
    unimplemented s m = fails_with (signature_of s m)
      (NewError CodeUnimplemented
         (ENew "" (ServiceName s +:+ "." +:+ method_name s m +:+ " is not implemented")))
}.

(** ** Serving *)

(** [cleanPath] of [net/http]: [path.Clean] of the path from the root, with the slash
    at its end kept. *)
Definition clean_step (stack : list string) (seg : string) : list string :=
  if bool_decide (seg ∈ ["" ; "."]) then stack
  else if bool_decide (seg = "..") then tail stack else seg :: stack.
Definition cleanPath (path : string) : string :=
  let path := if has_prefix "/" path then path else "/" +:+ path in
  let np := "/" +:+ join "/" (rev (fold_left clean_step (split "/"%char path) [])) in
  if has_suffix "/" path && negb (bool_decide (np = "/")) then np +:+ "/" else np.

(** [http.ServeMux] for patterns that end in a slash: the longest pattern that the
    path begins with. The root of a pattern without its slash is redirected to the
    pattern, and a path that is not clean to the clean one. The requests are those
    whose path has no percent-encoded byte, and not of the method CONNECT. *)
Fixpoint longest (l : list (string * http_Handler)) (path : string) : option (string * http_Handler) :=
  match l with
  | [] => None
  | x :: l =>
      if has_prefix x.1 path then
        match longest l path with
        | Some y => if (str_len y.1 <=? str_len x.1)%nat then Some x else Some y
        | None => Some x
        end
      else longest l path
  end.
Definition ServeMux (l : list (string * http_Handler)) : http_Handler := λ r,
  let path := cleanPath (URLPath r) in
  if negb (has_suffix "/" path) && bool_decide (path +:+ "/" ∈ l.*1) then Redirect (path +:+ "/") r
  else if negb (bool_decide (path = URLPath r)) then Redirect path r
  else match longest l path with Some x => x.2 r | None => NotFound r end.

End methods.
Arguments service {_}.

(** ** What [connect] promises

    [deliver base h] is an HTTP client whose requests for a URL under [base] arrive at
    [h]; [wire] is what a caller sees of an implementation behind a connection. A
    client and a handler that were built without options, for one procedure, are
    connected whenever the requests for that procedure reach the handler. *)
Class ConnectLaws `{Connect} (deliver : string → http_Handler → HTTPClient)
    (wire : ∀ s, handler_method s → client_method s) : Prop := {
  call_arrives s base (h : http_Handler) p sch (f : handler_method s) :
    (∀ r, URLPath r = p → h r = handler_of s p f sch [] r) →
    same_calls s (call_of s (NewClient (deliver base h) (base +:+ p) sch [])) (wire s f)
}.

(** The laws of a generated file hold by computation, method by method. *)
Ltac generated :=
  split;
  [ intros []; repeat first [apply list_elem_of_here|apply list_elem_of_further]
  | intros [] [] E; first [reflexivity|discriminate E]
  | reflexivity
  | intros []; reflexivity
  | intros []; reflexivity
  | intros ? ? ? []; reflexivity
  | intros ? []; reflexivity
  | reflexivity
  | reflexivity
  | intros []; reflexivity ].

(** ** Lemmas *)

Lemma slash_free_split a b c d :
  no_slash a → no_slash b → a +:+ "/" +:+ c = b +:+ "/" +:+ d → a = b ∧ c = d.
Proof.
  unfold no_slash. intros Ha Hb E. apply (f_equal (cut "/"%char)) in E.
  rewrite (cut_app _ a c Ha : cut "/"%char (a +:+ "/" +:+ c) = _) in E.
  rewrite (cut_app _ b d Hb : cut "/"%char (b +:+ "/" +:+ d) = _) in E. by simplify_eq.
Qed.

Lemma segment_spec x : segment x → no_slash x ∧ x ≠ "" ∧ x ≠ "." ∧ x ≠ "..".
Proof.
  unfold segment, no_slash. intros [H1%negb_true_iff H2%negb_true_iff%bool_decide_eq_false]%andb_true_iff.
  set_solver.
Qed.

Lemma suffix_slash_cons a s : s ≠ "" → has_suffix "/" (String a s) = has_suffix "/" s.
Proof.
  intros Hs. unfold has_suffix. destruct s as [|b s]; [done|].
  simpl str_len. simpl Nat.leb. by replace (S (S (str_len s)) - 1)%nat with (S (S (str_len s) - 1)) by lia.
Qed.

Lemma suffix_slash p x : no_slash x → x ≠ "" → has_suffix "/" (p +:+ x) = false.
Proof.
  intros Hs Hx. induction p as [|a p IH].
  - rewrite str_nil_app. unfold no_slash in Hs. induction x as [|a x IH]; [done|].
    simpl in Hs. apply orb_false_iff in Hs as [Ha Hs]. destruct x as [|b x].
    + unfold has_suffix. simpl. apply bool_decide_eq_false_2. intros [= ->]. done.
    + rewrite suffix_slash_cons by done. by apply IH.
  - rewrite str_cons_app, suffix_slash_cons; [done|]. by intros [_ ->]%str_app_eq_nil.
Qed.

(** A procedure's path is clean, and does not end in a slash. *)
Lemma clean_procedure a b : segment a → segment b →
  let p := "/" +:+ a +:+ "/" +:+ b in cleanPath p = p ∧ has_suffix "/" p = false.
Proof.
  intros (Ha & ? & ? & ?)%segment_spec (Hb & ? & ? & ?)%segment_spec p.
  assert (has_suffix "/" p = false) as Hs.
  { unfold p. rewrite <- str_app_assoc, <- str_app_assoc. by apply suffix_slash. }
  split; [|done]. unfold cleanPath. replace (has_prefix "/" p) with true by done. rewrite Hs. simpl andb.
  assert (split "/"%char p = ["" ; a; b]) as ->.
  { change p with ("" +:+ String "/" (a +:+ String "/" b)). rewrite !split_app_sep by done. by rewrite split_single. }
  simpl. unfold clean_step. simpl. rewrite !(bool_decide_eq_false_2 (_ ∈ _)) by set_solver.
  by rewrite !bool_decide_eq_false_2 by done.
Qed.

Section lemmas.
Context `{Connect}.

Lemma service_no_slash s `{!Generated s} : no_slash (ServiceName s).
Proof. apply segment_spec, service_segment. Qed.

Lemma procedure_clean s m `{!Generated s} :
  cleanPath (Procedure s m) = Procedure s m ∧ has_suffix "/" (Procedure s m) = false.
Proof.
  rewrite procedure_spec. unfold mount_path. rewrite !str_app_assoc.
  apply clean_procedure; [apply service_segment|apply method_segment].
Qed.

(** The path of a procedure is the root of no service. *)
Lemma procedure_no_root s s' m `{!Generated s, !Generated s'} : Procedure s m +:+ "/" ≠ mount_path s'.
Proof.
  rewrite procedure_spec. unfold mount_path. rewrite !str_app_assoc. intros E%str_app_inj_l.
  rewrite <- (str_app_nil_r "/") in E at 3.
  apply slash_free_split in E as [_ E]; [|by apply service_no_slash..].
  by apply str_app_eq_nil in E as [_ E].
Qed.

Lemma mount_prefix s s' m `{!Generated s, !Generated s'} :
  has_prefix (mount_path s') (Procedure s m) = true ↔ ServiceName s' = ServiceName s.
Proof.
  rewrite procedure_spec. unfold mount_path. rewrite has_prefix_spec. split.
  - intros (b & E). rewrite !str_app_assoc in E. apply str_app_inj_l in E.
    by apply slash_free_split in E as [? _]; [|apply service_no_slash|apply service_no_slash].
  - intros ->. by eexists.
Qed.

Lemma procedure_injective s m m' `{!Generated s} : Procedure s m = Procedure s m' → m = m'.
Proof. rewrite !procedure_spec. intros E%str_app_inj_l. by eapply names_injective. Qed.

Lemma switch_default (cases : list (string * http_Handler)) d r :
  URLPath r ∉ cases.*1 → switch cases d r = d r.
Proof.
  induction cases as [|[p h] cases IH]; [done|]. csimpl. intros [? ?]%not_elem_of_cons.
  rewrite bool_decide_eq_false_2 by done. by apply IH.
Qed.

Lemma switch_case {A} (p : A → string) (h : A → http_Handler) l d r x :
  (∀ y, p y = p x → y = x) → x ∈ l → URLPath r = p x → switch ((λ y, (p y, h y)) <$> l) d r = h x r.
Proof.
  intros Hinj Hx E. induction l as [|y l IH]; [by apply elem_of_nil in Hx|]. csimpl. case_bool_decide as Hy.
  - by assert (y = x) as -> by (apply Hinj; congruence).
  - apply IH. by apply elem_of_cons in Hx as [->|?].
Qed.

Lemma longest_in l path x : longest l path = Some x → x ∈ l.
Proof.
  revert x. induction l as [|y l IH]; [done|]. intros x. simpl. destruct (has_prefix y.1 path).
  - destruct (longest l path) as [z|] eqn:E; [destruct (_ <=? _)%nat|]; intros [= <-];
      first [by left|right; by apply IH].
  - intros E. right. by apply IH.
Qed.

Lemma longest_unique l path x :
  x ∈ l → has_prefix x.1 path = true → (∀ y, y ∈ l → has_prefix y.1 path = true → y = x) →
  longest l path = Some x.
Proof.
  induction l as [|y l IH]; [by intros ?%elem_of_nil|]. intros Hx Hp Hu. simpl.
  destruct (has_prefix y.1 path) eqn:Hy.
  - assert (y = x) as -> by (apply Hu; [by left|done]). destruct (longest l path) as [z|] eqn:E; [|done].
    assert (z = x) as ->; [|by destruct (_ <=? _)%nat]. apply Hu; [right; by eapply longest_in|].
    clear -E. revert z E. induction l as [|y l IH]; [done|]. intros z. simpl. destruct (has_prefix y.1 path) eqn:?.
    + destruct (longest l path); [destruct (_ <=? _)%nat|]; intros [= <-]; eauto.
    + eauto.
  - apply IH; [by apply elem_of_cons in Hx as [->|?]; [congruence|]|done|]. intros z Hz. apply Hu. by right.
Qed.
End lemmas.

(** ** Services that share a server *)

Section server.
Context `{Connect} (services : list service).
Context (impl : ∀ s m, handler_method (signature_of s m)).

Definition server : http_Handler := ServeMux ((λ s, new_handler s (impl s) []) <$> services).

Definition served : Prop := Forall Generated services ∧ NoDup (ServiceName <$> services).

Lemma service_unique s s' : served → s ∈ services → s' ∈ services → ServiceName s' = ServiceName s → s' = s.
Proof.
  intros [_ Hn] Hs Hs' E. apply list_elem_of_lookup in Hs as [i Hi], Hs' as [j Hj].
  assert (j = i) as ->; [|congruence]. eapply NoDup_lookup; [exact Hn| |];
    rewrite list_lookup_fmap; [by rewrite Hj|by rewrite Hi, E].
Qed.

Lemma served_generated s : served → s ∈ services → Generated s.
Proof. intros [Hg _] Hs. rewrite Forall_forall in Hg. by apply Hg. Qed.

Lemma root_elem path :
  served → path ∈ ((λ s, new_handler s (impl s) []) <$> services).*1 ↔ ∃ s, s ∈ services ∧ path = mount_path s.
Proof.
  intros Hsv. rewrite <- list_fmap_compose. rewrite list_elem_of_fmap. split.
  - intros (s & -> & Hs). exists s. pose proof (served_generated s Hsv Hs). simpl. by rewrite new_handler_path.
  - intros (s & Hs & ->). exists s. pose proof (served_generated s Hsv Hs). simpl. by rewrite new_handler_path.
Qed.

(** The request for a procedure reaches the implementation of its method, and no
    other request reaches any. *)
Lemma server_routes s m r :
  served → s ∈ services → URLPath r = Procedure s m →
  server r = handler_of (signature_of s m) (Procedure s m) (impl s m) (schema_of s m) [] r.
Proof.
  intros Hsv Hs Hr. pose proof (served_generated s Hsv Hs) as Hg. unfold server, ServeMux.
  destruct (procedure_clean s m) as [Hc Hsuf]. rewrite Hr, Hc, Hsuf.
  rewrite (bool_decide_eq_false_2 (_ ∈ _)).
  2: { rewrite root_elem by done. intros (s' & Hs' & E). pose proof (served_generated s' Hsv Hs').
       by apply procedure_no_root in E. }
  rewrite bool_decide_eq_true_2 by done. simpl.
  rewrite (longest_unique _ _ (new_handler s (impl s) [])).
  - rewrite new_handler_spec.
    apply (switch_case (Procedure s) (λ m, handler_of (signature_of s m) (Procedure s m) (impl s m) (schema_of s m) [])).
    + intros m' E. by apply procedure_injective in E.
    + apply all_methods.
    + done.
  - apply list_elem_of_fmap. by exists s.
  - rewrite new_handler_path. by apply (mount_prefix s s m).
  - intros y (s' & -> & Hs')%list_elem_of_fmap. pose proof (served_generated s' Hsv Hs').
    rewrite new_handler_path. intros E%(mount_prefix s s' m). by rewrite (service_unique s s').
Qed.

(** What becomes of a request for a path that is no procedure. *)
Inductive elsewhere (r : HTTPRequest) : go W unit → Prop :=
| to_root s : s ∈ services → cleanPath (URLPath r) +:+ "/" = mount_path s → elsewhere r (Redirect (mount_path s) r)
| to_clean : (∀ s, s ∈ services → cleanPath (URLPath r) +:+ "/" ≠ mount_path s) → cleanPath (URLPath r) ≠ URLPath r →
    elsewhere r (Redirect (cleanPath (URLPath r)) r)
| not_found : (∀ s, s ∈ services → cleanPath (URLPath r) +:+ "/" ≠ mount_path s) → cleanPath (URLPath r) = URLPath r →
    elsewhere r (NotFound r).

(** A root without its slash does not end in one. *)
Lemma root_no_suffix p s `{!Generated s} : p +:+ "/" = mount_path s → has_suffix "/" p = false.
Proof.
  unfold mount_path. rewrite <- str_app_assoc. intros ->%str_app_inj_r.
  destruct (segment_spec _ service_segment) as (? & ? & _). by apply suffix_slash.
Qed.

Lemma server_elsewhere r :
  served → (∀ s m, s ∈ services → URLPath r ≠ Procedure s m) → elsewhere r (server r).
Proof.
  intros Hsv Hr. unfold server, ServeMux. destruct (bool_decide_reflect
    (cleanPath (URLPath r) +:+ "/" ∈ ((λ s, new_handler s (impl s) []) <$> services).*1)) as [Hx|Hx];
    rewrite root_elem in Hx by done.
  - destruct Hx as (s & Hs & E). pose proof (served_generated s Hsv Hs). rewrite (root_no_suffix _ s E), E.
    by apply to_root.
  - rewrite andb_false_r. assert (∀ s, s ∈ services → cleanPath (URLPath r) +:+ "/" ≠ mount_path s) as Hno.
    { intros s Hs E. apply Hx. by exists s. }
    case_bool_decide as Hp; simpl; [|by apply to_clean]. rewrite Hp.
    assert (NotFound r = match longest ((λ s, new_handler s (impl s) []) <$> services) (URLPath r) with
      Some x => x.2 r | None => NotFound r end) as <-; [|by apply not_found].
    destruct (longest _ _) as [x|] eqn:E; [|done]. apply longest_in in E.
    apply list_elem_of_fmap in E as (s & -> & Hs). pose proof (served_generated s Hsv Hs).
    rewrite new_handler_spec. symmetry. apply switch_default. rewrite <- list_fmap_compose.
    intros (m & E & _)%list_elem_of_fmap. by eapply Hr.
Qed.

(** A client of the URL of the server calls the implementation. *)
Lemma client_calls `{!ConnectLaws deliver wire} s m url :
  served → s ∈ services →
  same_calls (signature_of s m)
    (call s (new_client s (deliver (TrimRight "/"%char url) server) url []) m) (wire (signature_of s m) (impl s m)).
Proof.
  intros Hsv Hs. pose proof (served_generated s Hsv Hs). rewrite call_spec, new_client_spec.
  eapply call_arrives. intros r Hr. by apply server_routes.
Qed.
End server.
End connect.
