(* ===== verification/ContractsWork.v ===== *)
(** * contracts: services for captured and collaborative work

    The generated code of each service, one module per package under
    [src/go/contracts]: its methods with their signatures and procedures, its client,
    its handler, and the handler that implements nothing. Each file is [Generated]. *)

From Stdlib Require Import Ascii.
From S2P Require Import Prelude GoStrings GoErr GoMonad Connect.
Import connect.

(** ** capture/etchings/v1alpha1/etchingsv1alpha1connect/etchings.connect.go *)

Module etchingsv1alpha1connect.

Inductive EtchingsService := CreateEtching | ListEtchings | GetEtching | DeleteEtching.
Definition EtchingsServiceName : string := "capture.etchings.v1alpha1.EtchingsService".
Definition Procedure (m : EtchingsService) : string :=
  match m with
  | CreateEtching => "/capture.etchings.v1alpha1.EtchingsService/CreateEtching"
  | ListEtchings => "/capture.etchings.v1alpha1.EtchingsService/ListEtchings"
  | GetEtching => "/capture.etchings.v1alpha1.EtchingsService/GetEtching"
  | DeleteEtching => "/capture.etchings.v1alpha1.EtchingsService/DeleteEtching"
  end.
Definition v1alpha1 (message : string) : string := "capture/etchings/v1alpha1." +:+ message.
Definition Signature (m : EtchingsService) : signature :=
  match m with
  | CreateEtching => unary (v1alpha1 "CreateEtchingRequest") (v1alpha1 "CreateEtchingResponse")
  | ListEtchings => unary (v1alpha1 "ListEtchingsRequest") (v1alpha1 "ListEtchingsResponse")
  | GetEtching => unary (v1alpha1 "GetEtchingRequest") (v1alpha1 "GetEtchingResponse")
  | DeleteEtching => unary (v1alpha1 "DeleteEtchingRequest") (v1alpha1 "DeleteEtchingResponse")
  end.
Definition Schema : string → schema := mkSchema "File_capture_etchings_v1alpha1_etchings_proto" "EtchingsService".

Section generated.
Context `{Connect}.

Definition EtchingsServiceClient : Type := ∀ m, client_method (Signature m).
Definition EtchingsServiceHandler : Type := ∀ m, handler_method (Signature m).
Definition etchingsServiceClient : Type := ∀ m, client_of (Signature m).

Definition NewEtchingsServiceClient (httpClient : HTTPClient) (baseURL : string) (opts : list ClientOption)
  : etchingsServiceClient :=
  let baseURL := TrimRight "/"%char baseURL in λ m,
  match m with
  | CreateEtching => NewClient httpClient (baseURL +:+ Procedure CreateEtching) (Schema "CreateEtching") opts
  | ListEtchings => NewClient httpClient (baseURL +:+ Procedure ListEtchings) (Schema "ListEtchings") opts
  | GetEtching => NewClient httpClient (baseURL +:+ Procedure GetEtching) (Schema "GetEtching") opts
  | DeleteEtching => NewClient httpClient (baseURL +:+ Procedure DeleteEtching) (Schema "DeleteEtching") opts
  end.

Definition etchingsServiceClient_call (c : etchingsServiceClient) : EtchingsServiceClient := λ m,
  match m with
  | CreateEtching => λ ctx req, CallUnary (c CreateEtching) ctx req
  | ListEtchings => λ ctx req, CallUnary (c ListEtchings) ctx req
  | GetEtching => λ ctx req, CallUnary (c GetEtching) ctx req
  | DeleteEtching => λ ctx req, CallUnary (c DeleteEtching) ctx req
  end.

Definition NewEtchingsServiceHandler (svc : EtchingsServiceHandler) (opts : list HandlerOption) : string * http_Handler :=
  let CreateEtchingHandler := NewUnaryHandler (Procedure CreateEtching) (svc CreateEtching) (Schema "CreateEtching") opts in
  let ListEtchingsHandler := NewUnaryHandler (Procedure ListEtchings) (svc ListEtchings) (Schema "ListEtchings") opts in
  let GetEtchingHandler := NewUnaryHandler (Procedure GetEtching) (svc GetEtching) (Schema "GetEtching") opts in
  let DeleteEtchingHandler := NewUnaryHandler (Procedure DeleteEtching) (svc DeleteEtching) (Schema "DeleteEtching") opts in
  ("/capture.etchings.v1alpha1.EtchingsService/",
   switch [(Procedure CreateEtching, CreateEtchingHandler);
             (Procedure ListEtchings, ListEtchingsHandler);
             (Procedure GetEtching, GetEtchingHandler);
             (Procedure DeleteEtching, DeleteEtchingHandler)] NotFound).

Definition UnimplementedEtchingsServiceHandler : EtchingsServiceHandler := λ m,
  match m with
  | CreateEtching => λ _ _, mret (inl (NewError CodeUnimplemented (ENew "" "capture.etchings.v1alpha1.EtchingsService.CreateEtching is not implemented")))
  | ListEtchings => λ _ _, mret (inl (NewError CodeUnimplemented (ENew "" "capture.etchings.v1alpha1.EtchingsService.ListEtchings is not implemented")))
  | GetEtching => λ _ _, mret (inl (NewError CodeUnimplemented (ENew "" "capture.etchings.v1alpha1.EtchingsService.GetEtching is not implemented")))
  | DeleteEtching => λ _ _, mret (inl (NewError CodeUnimplemented (ENew "" "capture.etchings.v1alpha1.EtchingsService.DeleteEtching is not implemented")))
  end.

Definition file : service := mkService EtchingsService
  [CreateEtching; ListEtchings; GetEtching; DeleteEtching]
  (λ m, match m with | CreateEtching => "CreateEtching" | ListEtchings => "ListEtchings" | GetEtching => "GetEtching"
     | DeleteEtching => "DeleteEtching" end)
  EtchingsServiceName "File_capture_etchings_v1alpha1_etchings_proto" Signature Procedure NewEtchingsServiceClient etchingsServiceClient_call NewEtchingsServiceHandler
  UnimplementedEtchingsServiceHandler.

#[global] Instance etchingsService_generated : Generated file.
Proof. generated. Qed.
End generated.
End etchingsv1alpha1connect.

(** ** collaboration/board/v1alpha1/boardv1alpha1connect/board.connect.go *)

Module boardv1alpha1connect.

Inductive BoardService := ListBoardItems | GetBoardFields | UpdateBoardItemStatus | AddItemToBoard.
Definition BoardServiceName : string := "collaboration.board.v1alpha1.BoardService".
Definition Procedure (m : BoardService) : string :=
  match m with
  | ListBoardItems => "/collaboration.board.v1alpha1.BoardService/ListBoardItems"
  | GetBoardFields => "/collaboration.board.v1alpha1.BoardService/GetBoardFields"
  | UpdateBoardItemStatus => "/collaboration.board.v1alpha1.BoardService/UpdateBoardItemStatus"
  | AddItemToBoard => "/collaboration.board.v1alpha1.BoardService/AddItemToBoard"
  end.
Definition v1alpha1 (message : string) : string := "collaboration/board/v1alpha1." +:+ message.
Definition Signature (m : BoardService) : signature :=
  match m with
  | ListBoardItems => unary (v1alpha1 "ListBoardItemsRequest") (v1alpha1 "ListBoardItemsResponse")
  | GetBoardFields => unary (v1alpha1 "GetBoardFieldsRequest") (v1alpha1 "GetBoardFieldsResponse")
  | UpdateBoardItemStatus => unary (v1alpha1 "UpdateBoardItemStatusRequest") (v1alpha1 "UpdateBoardItemStatusResponse")
  | AddItemToBoard => unary (v1alpha1 "AddItemToBoardRequest") (v1alpha1 "AddItemToBoardResponse")
  end.
Definition Schema : string → schema := mkSchema "File_collaboration_board_v1alpha1_board_proto" "BoardService".

Section generated.
Context `{Connect}.

Definition BoardServiceClient : Type := ∀ m, client_method (Signature m).
Definition BoardServiceHandler : Type := ∀ m, handler_method (Signature m).
Definition boardServiceClient : Type := ∀ m, client_of (Signature m).

Definition NewBoardServiceClient (httpClient : HTTPClient) (baseURL : string) (opts : list ClientOption)
  : boardServiceClient :=
  let baseURL := TrimRight "/"%char baseURL in λ m,
  match m with
  | ListBoardItems => NewClient httpClient (baseURL +:+ Procedure ListBoardItems) (Schema "ListBoardItems") opts
  | GetBoardFields => NewClient httpClient (baseURL +:+ Procedure GetBoardFields) (Schema "GetBoardFields") opts
  | UpdateBoardItemStatus => NewClient httpClient (baseURL +:+ Procedure UpdateBoardItemStatus) (Schema "UpdateBoardItemStatus") opts
  | AddItemToBoard => NewClient httpClient (baseURL +:+ Procedure AddItemToBoard) (Schema "AddItemToBoard") opts
  end.

Definition boardServiceClient_call (c : boardServiceClient) : BoardServiceClient := λ m,
  match m with
  | ListBoardItems => λ ctx req, CallUnary (c ListBoardItems) ctx req
  | GetBoardFields => λ ctx req, CallUnary (c GetBoardFields) ctx req
  | UpdateBoardItemStatus => λ ctx req, CallUnary (c UpdateBoardItemStatus) ctx req
  | AddItemToBoard => λ ctx req, CallUnary (c AddItemToBoard) ctx req
  end.

Definition NewBoardServiceHandler (svc : BoardServiceHandler) (opts : list HandlerOption) : string * http_Handler :=
  let ListBoardItemsHandler := NewUnaryHandler (Procedure ListBoardItems) (svc ListBoardItems) (Schema "ListBoardItems") opts in
  let GetBoardFieldsHandler := NewUnaryHandler (Procedure GetBoardFields) (svc GetBoardFields) (Schema "GetBoardFields") opts in
  let UpdateBoardItemStatusHandler := NewUnaryHandler (Procedure UpdateBoardItemStatus) (svc UpdateBoardItemStatus) (Schema "UpdateBoardItemStatus") opts in
  let AddItemToBoardHandler := NewUnaryHandler (Procedure AddItemToBoard) (svc AddItemToBoard) (Schema "AddItemToBoard") opts in
  ("/collaboration.board.v1alpha1.BoardService/",
   switch [(Procedure ListBoardItems, ListBoardItemsHandler);
             (Procedure GetBoardFields, GetBoardFieldsHandler);
             (Procedure UpdateBoardItemStatus, UpdateBoardItemStatusHandler);
             (Procedure AddItemToBoard, AddItemToBoardHandler)] NotFound).

Definition UnimplementedBoardServiceHandler : BoardServiceHandler := λ m,
  match m with
  | ListBoardItems => λ _ _, mret (inl (NewError CodeUnimplemented (ENew "" "collaboration.board.v1alpha1.BoardService.ListBoardItems is not implemented")))
  | GetBoardFields => λ _ _, mret (inl (NewError CodeUnimplemented (ENew "" "collaboration.board.v1alpha1.BoardService.GetBoardFields is not implemented")))
  | UpdateBoardItemStatus => λ _ _, mret (inl (NewError CodeUnimplemented (ENew "" "collaboration.board.v1alpha1.BoardService.UpdateBoardItemStatus is not implemented")))
  | AddItemToBoard => λ _ _, mret (inl (NewError CodeUnimplemented (ENew "" "collaboration.board.v1alpha1.BoardService.AddItemToBoard is not implemented")))
  end.

Definition file : service := mkService BoardService
  [ListBoardItems; GetBoardFields; UpdateBoardItemStatus; AddItemToBoard]
  (λ m, match m with | ListBoardItems => "ListBoardItems" | GetBoardFields => "GetBoardFields"
     | UpdateBoardItemStatus => "UpdateBoardItemStatus" | AddItemToBoard => "AddItemToBoard" end)
  BoardServiceName "File_collaboration_board_v1alpha1_board_proto" Signature Procedure NewBoardServiceClient boardServiceClient_call NewBoardServiceHandler
  UnimplementedBoardServiceHandler.

#[global] Instance boardService_generated : Generated file.
Proof. generated. Qed.
End generated.
End boardv1alpha1connect.

(** ** collaboration/friction/v1alpha1/frictionv1alpha1connect/friction.connect.go *)

Module frictionv1alpha1connect.

Inductive FrictionService := LogFriction | ListFriction | UpdateFriction | SprintSummary.
Definition FrictionServiceName : string := "collaboration.friction.v1alpha1.FrictionService".
Definition Procedure (m : FrictionService) : string :=
  match m with
  | LogFriction => "/collaboration.friction.v1alpha1.FrictionService/LogFriction"
  | ListFriction => "/collaboration.friction.v1alpha1.FrictionService/ListFriction"
  | UpdateFriction => "/collaboration.friction.v1alpha1.FrictionService/UpdateFriction"
  | SprintSummary => "/collaboration.friction.v1alpha1.FrictionService/SprintSummary"
  end.
Definition v1alpha1 (message : string) : string := "collaboration/friction/v1alpha1." +:+ message.
Definition Signature (m : FrictionService) : signature :=
  match m with
  | LogFriction => unary (v1alpha1 "LogFrictionRequest") (v1alpha1 "LogFrictionResponse")
  | ListFriction => unary (v1alpha1 "ListFrictionRequest") (v1alpha1 "ListFrictionResponse")
  | UpdateFriction => unary (v1alpha1 "UpdateFrictionRequest") (v1alpha1 "UpdateFrictionResponse")
  | SprintSummary => unary (v1alpha1 "SprintSummaryRequest") (v1alpha1 "SprintSummaryResponse")
  end.
Definition Schema : string → schema := mkSchema "File_collaboration_friction_v1alpha1_friction_proto" "FrictionService".

Section generated.
Context `{Connect}.

Definition FrictionServiceClient : Type := ∀ m, client_method (Signature m).
Definition FrictionServiceHandler : Type := ∀ m, handler_method (Signature m).
Definition frictionServiceClient : Type := ∀ m, client_of (Signature m).

Definition NewFrictionServiceClient (httpClient : HTTPClient) (baseURL : string) (opts : list ClientOption)
  : frictionServiceClient :=
  let baseURL := TrimRight "/"%char baseURL in λ m,
  match m with
  | LogFriction => NewClient httpClient (baseURL +:+ Procedure LogFriction) (Schema "LogFriction") opts
  | ListFriction => NewClient httpClient (baseURL +:+ Procedure ListFriction) (Schema "ListFriction") opts
  | UpdateFriction => NewClient httpClient (baseURL +:+ Procedure UpdateFriction) (Schema "UpdateFriction") opts
  | SprintSummary => NewClient httpClient (baseURL +:+ Procedure SprintSummary) (Schema "SprintSummary") opts
  end.

Definition frictionServiceClient_call (c : frictionServiceClient) : FrictionServiceClient := λ m,
  match m with
  | LogFriction => λ ctx req, CallUnary (c LogFriction) ctx req
  | ListFriction => λ ctx req, CallUnary (c ListFriction) ctx req
  | UpdateFriction => λ ctx req, CallUnary (c UpdateFriction) ctx req
  | SprintSummary => λ ctx req, CallUnary (c SprintSummary) ctx req
  end.

Definition NewFrictionServiceHandler (svc : FrictionServiceHandler) (opts : list HandlerOption) : string * http_Handler :=
  let LogFrictionHandler := NewUnaryHandler (Procedure LogFriction) (svc LogFriction) (Schema "LogFriction") opts in
  let ListFrictionHandler := NewUnaryHandler (Procedure ListFriction) (svc ListFriction) (Schema "ListFriction") opts in
  let UpdateFrictionHandler := NewUnaryHandler (Procedure UpdateFriction) (svc UpdateFriction) (Schema "UpdateFriction") opts in
  let SprintSummaryHandler := NewUnaryHandler (Procedure SprintSummary) (svc SprintSummary) (Schema "SprintSummary") opts in
  ("/collaboration.friction.v1alpha1.FrictionService/",
   switch [(Procedure LogFriction, LogFrictionHandler);
             (Procedure ListFriction, ListFrictionHandler);
             (Procedure UpdateFriction, UpdateFrictionHandler);
             (Procedure SprintSummary, SprintSummaryHandler)] NotFound).

Definition UnimplementedFrictionServiceHandler : FrictionServiceHandler := λ m,
  match m with
  | LogFriction => λ _ _, mret (inl (NewError CodeUnimplemented (ENew "" "collaboration.friction.v1alpha1.FrictionService.LogFriction is not implemented")))
  | ListFriction => λ _ _, mret (inl (NewError CodeUnimplemented (ENew "" "collaboration.friction.v1alpha1.FrictionService.ListFriction is not implemented")))
  | UpdateFriction => λ _ _, mret (inl (NewError CodeUnimplemented (ENew "" "collaboration.friction.v1alpha1.FrictionService.UpdateFriction is not implemented")))
  | SprintSummary => λ _ _, mret (inl (NewError CodeUnimplemented (ENew "" "collaboration.friction.v1alpha1.FrictionService.SprintSummary is not implemented")))
  end.

Definition file : service := mkService FrictionService
  [LogFriction; ListFriction; UpdateFriction; SprintSummary]
  (λ m, match m with | LogFriction => "LogFriction" | ListFriction => "ListFriction" | UpdateFriction => "UpdateFriction"
     | SprintSummary => "SprintSummary" end)
  FrictionServiceName "File_collaboration_friction_v1alpha1_friction_proto" Signature Procedure NewFrictionServiceClient frictionServiceClient_call NewFrictionServiceHandler
  UnimplementedFrictionServiceHandler.

#[global] Instance frictionService_generated : Generated file.
Proof. generated. Qed.
End generated.
End frictionv1alpha1connect.

(** ** collaboration/ideas/v1alpha1/ideasv1alpha1connect/ideas.connect.go *)

Module ideasv1alpha1connect.

Inductive IdeasService := CreateIdea | GetIdea | ListIdeas | UpdateIdea | DeleteIdea.
Definition IdeasServiceName : string := "collaboration.ideas.v1alpha1.IdeasService".
Definition Procedure (m : IdeasService) : string :=
  match m with
  | CreateIdea => "/collaboration.ideas.v1alpha1.IdeasService/CreateIdea"
  | GetIdea => "/collaboration.ideas.v1alpha1.IdeasService/GetIdea"
  | ListIdeas => "/collaboration.ideas.v1alpha1.IdeasService/ListIdeas"
  | UpdateIdea => "/collaboration.ideas.v1alpha1.IdeasService/UpdateIdea"
  | DeleteIdea => "/collaboration.ideas.v1alpha1.IdeasService/DeleteIdea"
  end.
Definition v1alpha1 (message : string) : string := "collaboration/ideas/v1alpha1." +:+ message.
Definition Signature (m : IdeasService) : signature :=
  match m with
  | CreateIdea => unary (v1alpha1 "CreateIdeaRequest") (v1alpha1 "CreateIdeaResponse")
  | GetIdea => unary (v1alpha1 "GetIdeaRequest") (v1alpha1 "GetIdeaResponse")
  | ListIdeas => unary (v1alpha1 "ListIdeasRequest") (v1alpha1 "ListIdeasResponse")
  | UpdateIdea => unary (v1alpha1 "UpdateIdeaRequest") (v1alpha1 "UpdateIdeaResponse")
  | DeleteIdea => unary (v1alpha1 "DeleteIdeaRequest") (v1alpha1 "DeleteIdeaResponse")
  end.
Definition Schema : string → schema := mkSchema "File_collaboration_ideas_v1alpha1_ideas_proto" "IdeasService".

Section generated.
Context `{Connect}.

Definition IdeasServiceClient : Type := ∀ m, client_method (Signature m).
Definition IdeasServiceHandler : Type := ∀ m, handler_method (Signature m).
Definition ideasServiceClient : Type := ∀ m, client_of (Signature m).

Definition NewIdeasServiceClient (httpClient : HTTPClient) (baseURL : string) (opts : list ClientOption)
  : ideasServiceClient :=
  let baseURL := TrimRight "/"%char baseURL in λ m,
  match m with
  | CreateIdea => NewClient httpClient (baseURL +:+ Procedure CreateIdea) (Schema "CreateIdea") opts
  | GetIdea => NewClient httpClient (baseURL +:+ Procedure GetIdea) (Schema "GetIdea") opts
  | ListIdeas => NewClient httpClient (baseURL +:+ Procedure ListIdeas) (Schema "ListIdeas") opts
  | UpdateIdea => NewClient httpClient (baseURL +:+ Procedure UpdateIdea) (Schema "UpdateIdea") opts
  | DeleteIdea => NewClient httpClient (baseURL +:+ Procedure DeleteIdea) (Schema "DeleteIdea") opts
  end.

Definition ideasServiceClient_call (c : ideasServiceClient) : IdeasServiceClient := λ m,
  match m with
  | CreateIdea => λ ctx req, CallUnary (c CreateIdea) ctx req
  | GetIdea => λ ctx req, CallUnary (c GetIdea) ctx req
  | ListIdeas => λ ctx req, CallUnary (c ListIdeas) ctx req
  | UpdateIdea => λ ctx req, CallUnary (c UpdateIdea) ctx req
  | DeleteIdea => λ ctx req, CallUnary (c DeleteIdea) ctx req
  end.

Definition NewIdeasServiceHandler (svc : IdeasServiceHandler) (opts : list HandlerOption) : string * http_Handler :=
  let CreateIdeaHandler := NewUnaryHandler (Procedure CreateIdea) (svc CreateIdea) (Schema "CreateIdea") opts in
  let GetIdeaHandler := NewUnaryHandler (Procedure GetIdea) (svc GetIdea) (Schema "GetIdea") opts in
  let ListIdeasHandler := NewUnaryHandler (Procedure ListIdeas) (svc ListIdeas) (Schema "ListIdeas") opts in
  let UpdateIdeaHandler := NewUnaryHandler (Procedure UpdateIdea) (svc UpdateIdea) (Schema "UpdateIdea") opts in
  let DeleteIdeaHandler := NewUnaryHandler (Procedure DeleteIdea) (svc DeleteIdea) (Schema "DeleteIdea") opts in
  ("/collaboration.ideas.v1alpha1.IdeasService/",
   switch [(Procedure CreateIdea, CreateIdeaHandler);
             (Procedure GetIdea, GetIdeaHandler);
             (Procedure ListIdeas, ListIdeasHandler);
             (Procedure UpdateIdea, UpdateIdeaHandler);
             (Procedure DeleteIdea, DeleteIdeaHandler)] NotFound).

Definition UnimplementedIdeasServiceHandler : IdeasServiceHandler := λ m,
  match m with
  | CreateIdea => λ _ _, mret (inl (NewError CodeUnimplemented (ENew "" "collaboration.ideas.v1alpha1.IdeasService.CreateIdea is not implemented")))
  | GetIdea => λ _ _, mret (inl (NewError CodeUnimplemented (ENew "" "collaboration.ideas.v1alpha1.IdeasService.GetIdea is not implemented")))
  | ListIdeas => λ _ _, mret (inl (NewError CodeUnimplemented (ENew "" "collaboration.ideas.v1alpha1.IdeasService.ListIdeas is not implemented")))
  | UpdateIdea => λ _ _, mret (inl (NewError CodeUnimplemented (ENew "" "collaboration.ideas.v1alpha1.IdeasService.UpdateIdea is not implemented")))
  | DeleteIdea => λ _ _, mret (inl (NewError CodeUnimplemented (ENew "" "collaboration.ideas.v1alpha1.IdeasService.DeleteIdea is not implemented")))
  end.

Definition file : service := mkService IdeasService
  [CreateIdea; GetIdea; ListIdeas; UpdateIdea; DeleteIdea]
  (λ m, match m with | CreateIdea => "CreateIdea" | GetIdea => "GetIdea" | ListIdeas => "ListIdeas" | UpdateIdea => "UpdateIdea"
     | DeleteIdea => "DeleteIdea" end)
  IdeasServiceName "File_collaboration_ideas_v1alpha1_ideas_proto" Signature Procedure NewIdeasServiceClient ideasServiceClient_call NewIdeasServiceHandler
  UnimplementedIdeasServiceHandler.

#[global] Instance ideasService_generated : Generated file.
Proof. generated. Qed.
End generated.
End ideasv1alpha1connect.

(** ** collaboration/issues/v1alpha1/issuesv1alpha1connect/issues.connect.go *)

Module issuesv1alpha1connect.

Inductive IssuesService := CreateIssue | ListIssues | GetIssue | UpdateIssue | ListMilestones
  | CreateMilestone | UpdateMilestone | SearchIssues | GetLabel | BatchGetIssues | AddSubIssue
  | SetIssueType | UpdateBoardField.
Definition IssuesServiceName : string := "collaboration.issues.v1alpha1.IssuesService".
Definition Procedure (m : IssuesService) : string :=
  match m with
  | CreateIssue => "/collaboration.issues.v1alpha1.IssuesService/CreateIssue"
  | ListIssues => "/collaboration.issues.v1alpha1.IssuesService/ListIssues"
  | GetIssue => "/collaboration.issues.v1alpha1.IssuesService/GetIssue"
  | UpdateIssue => "/collaboration.issues.v1alpha1.IssuesService/UpdateIssue"
  | ListMilestones => "/collaboration.issues.v1alpha1.IssuesService/ListMilestones"
  | CreateMilestone => "/collaboration.issues.v1alpha1.IssuesService/CreateMilestone"
  | UpdateMilestone => "/collaboration.issues.v1alpha1.IssuesService/UpdateMilestone"
  | SearchIssues => "/collaboration.issues.v1alpha1.IssuesService/SearchIssues"
  | GetLabel => "/collaboration.issues.v1alpha1.IssuesService/GetLabel"
  | BatchGetIssues => "/collaboration.issues.v1alpha1.IssuesService/BatchGetIssues"
  | AddSubIssue => "/collaboration.issues.v1alpha1.IssuesService/AddSubIssue"
  | SetIssueType => "/collaboration.issues.v1alpha1.IssuesService/SetIssueType"
  | UpdateBoardField => "/collaboration.issues.v1alpha1.IssuesService/UpdateBoardField"
  end.
Definition v1alpha1 (message : string) : string := "collaboration/issues/v1alpha1." +:+ message.
Definition Signature (m : IssuesService) : signature :=
  match m with
  | CreateIssue => unary (v1alpha1 "CreateIssueRequest") (v1alpha1 "CreateIssueResponse")
  | ListIssues => unary (v1alpha1 "ListIssuesRequest") (v1alpha1 "ListIssuesResponse")
  | GetIssue => unary (v1alpha1 "GetIssueRequest") (v1alpha1 "GetIssueResponse")
  | UpdateIssue => unary (v1alpha1 "UpdateIssueRequest") (v1alpha1 "UpdateIssueResponse")
  | ListMilestones => unary (v1alpha1 "ListMilestonesRequest") (v1alpha1 "ListMilestonesResponse")
  | CreateMilestone => unary (v1alpha1 "CreateMilestoneRequest") (v1alpha1 "CreateMilestoneResponse")
  | UpdateMilestone => unary (v1alpha1 "UpdateMilestoneRequest") (v1alpha1 "UpdateMilestoneResponse")
  | SearchIssues => unary (v1alpha1 "SearchIssuesRequest") (v1alpha1 "SearchIssuesResponse")
  | GetLabel => unary (v1alpha1 "GetLabelRequest") (v1alpha1 "GetLabelResponse")
  | BatchGetIssues => unary (v1alpha1 "BatchGetIssuesRequest") (v1alpha1 "BatchGetIssuesResponse")
  | AddSubIssue => unary (v1alpha1 "AddSubIssueRequest") (v1alpha1 "AddSubIssueResponse")
  | SetIssueType => unary (v1alpha1 "SetIssueTypeRequest") (v1alpha1 "SetIssueTypeResponse")
  | UpdateBoardField => unary (v1alpha1 "UpdateBoardFieldRequest") (v1alpha1 "UpdateBoardFieldResponse")
  end.
Definition Schema : string → schema := mkSchema "File_collaboration_issues_v1alpha1_issues_proto" "IssuesService".

Section generated.
Context `{Connect}.

Definition IssuesServiceClient : Type := ∀ m, client_method (Signature m).
Definition IssuesServiceHandler : Type := ∀ m, handler_method (Signature m).
Definition issuesServiceClient : Type := ∀ m, client_of (Signature m).

Definition NewIssuesServiceClient (httpClient : HTTPClient) (baseURL : string) (opts : list ClientOption)
  : issuesServiceClient :=
  let baseURL := TrimRight "/"%char baseURL in λ m,
  match m with
  | CreateIssue => NewClient httpClient (baseURL +:+ Procedure CreateIssue) (Schema "CreateIssue") opts
  | ListIssues => NewClient httpClient (baseURL +:+ Procedure ListIssues) (Schema "ListIssues") opts
  | GetIssue => NewClient httpClient (baseURL +:+ Procedure GetIssue) (Schema "GetIssue") opts
  | UpdateIssue => NewClient httpClient (baseURL +:+ Procedure UpdateIssue) (Schema "UpdateIssue") opts
  | ListMilestones => NewClient httpClient (baseURL +:+ Procedure ListMilestones) (Schema "ListMilestones") opts
  | CreateMilestone => NewClient httpClient (baseURL +:+ Procedure CreateMilestone) (Schema "CreateMilestone") opts
  | UpdateMilestone => NewClient httpClient (baseURL +:+ Procedure UpdateMilestone) (Schema "UpdateMilestone") opts
  | SearchIssues => NewClient httpClient (baseURL +:+ Procedure SearchIssues) (Schema "SearchIssues") opts
  | GetLabel => NewClient httpClient (baseURL +:+ Procedure GetLabel) (Schema "GetLabel") opts
  | BatchGetIssues => NewClient httpClient (baseURL +:+ Procedure BatchGetIssues) (Schema "BatchGetIssues") opts
  | AddSubIssue => NewClient httpClient (baseURL +:+ Procedure AddSubIssue) (Schema "AddSubIssue") opts
  | SetIssueType => NewClient httpClient (baseURL +:+ Procedure SetIssueType) (Schema "SetIssueType") opts
  | UpdateBoardField => NewClient httpClient (baseURL +:+ Procedure UpdateBoardField) (Schema "UpdateBoardField") opts
  end.

Definition issuesServiceClient_call (c : issuesServiceClient) : IssuesServiceClient := λ m,
  match m with
  | CreateIssue => λ ctx req, CallUnary (c CreateIssue) ctx req
  | ListIssues => λ ctx req, CallUnary (c ListIssues) ctx req
  | GetIssue => λ ctx req, CallUnary (c GetIssue) ctx req
  | UpdateIssue => λ ctx req, CallUnary (c UpdateIssue) ctx req
  | ListMilestones => λ ctx req, CallUnary (c ListMilestones) ctx req
  | CreateMilestone => λ ctx req, CallUnary (c CreateMilestone) ctx req
  | UpdateMilestone => λ ctx req, CallUnary (c UpdateMilestone) ctx req
  | SearchIssues => λ ctx req, CallUnary (c SearchIssues) ctx req
  | GetLabel => λ ctx req, CallUnary (c GetLabel) ctx req
  | BatchGetIssues => λ ctx req, CallUnary (c BatchGetIssues) ctx req
  | AddSubIssue => λ ctx req, CallUnary (c AddSubIssue) ctx req
  | SetIssueType => λ ctx req, CallUnary (c SetIssueType) ctx req
  | UpdateBoardField => λ ctx req, CallUnary (c UpdateBoardField) ctx req
  end.

Definition NewIssuesServiceHandler (svc : IssuesServiceHandler) (opts : list HandlerOption) : string * http_Handler :=
  let CreateIssueHandler := NewUnaryHandler (Procedure CreateIssue) (svc CreateIssue) (Schema "CreateIssue") opts in
  let ListIssuesHandler := NewUnaryHandler (Procedure ListIssues) (svc ListIssues) (Schema "ListIssues") opts in
  let GetIssueHandler := NewUnaryHandler (Procedure GetIssue) (svc GetIssue) (Schema "GetIssue") opts in
  let UpdateIssueHandler := NewUnaryHandler (Procedure UpdateIssue) (svc UpdateIssue) (Schema "UpdateIssue") opts in
  let ListMilestonesHandler := NewUnaryHandler (Procedure ListMilestones) (svc ListMilestones) (Schema "ListMilestones") opts in
  let CreateMilestoneHandler := NewUnaryHandler (Procedure CreateMilestone) (svc CreateMilestone) (Schema "CreateMilestone") opts in
  let UpdateMilestoneHandler := NewUnaryHandler (Procedure UpdateMilestone) (svc UpdateMilestone) (Schema "UpdateMilestone") opts in
  let SearchIssuesHandler := NewUnaryHandler (Procedure SearchIssues) (svc SearchIssues) (Schema "SearchIssues") opts in
  let GetLabelHandler := NewUnaryHandler (Procedure GetLabel) (svc GetLabel) (Schema "GetLabel") opts in
  let BatchGetIssuesHandler := NewUnaryHandler (Procedure BatchGetIssues) (svc BatchGetIssues) (Schema "BatchGetIssues") opts in
  let AddSubIssueHandler := NewUnaryHandler (Procedure AddSubIssue) (svc AddSubIssue) (Schema "AddSubIssue") opts in
  let SetIssueTypeHandler := NewUnaryHandler (Procedure SetIssueType) (svc SetIssueType) (Schema "SetIssueType") opts in
  let UpdateBoardFieldHandler := NewUnaryHandler (Procedure UpdateBoardField) (svc UpdateBoardField) (Schema "UpdateBoardField") opts in
  ("/collaboration.issues.v1alpha1.IssuesService/",
   switch [(Procedure CreateIssue, CreateIssueHandler);
             (Procedure ListIssues, ListIssuesHandler);
             (Procedure GetIssue, GetIssueHandler);
             (Procedure UpdateIssue, UpdateIssueHandler);
             (Procedure ListMilestones, ListMilestonesHandler);
             (Procedure CreateMilestone, CreateMilestoneHandler);
             (Procedure UpdateMilestone, UpdateMilestoneHandler);
             (Procedure SearchIssues, SearchIssuesHandler);
             (Procedure GetLabel, GetLabelHandler);
             (Procedure BatchGetIssues, BatchGetIssuesHandler);
             (Procedure AddSubIssue, AddSubIssueHandler);
             (Procedure SetIssueType, SetIssueTypeHandler);
             (Procedure UpdateBoardField, UpdateBoardFieldHandler)] NotFound).

Definition UnimplementedIssuesServiceHandler : IssuesServiceHandler := λ m,
  match m with
  | CreateIssue => λ _ _, mret (inl (NewError CodeUnimplemented (ENew "" "collaboration.issues.v1alpha1.IssuesService.CreateIssue is not implemented")))
  | ListIssues => λ _ _, mret (inl (NewError CodeUnimplemented (ENew "" "collaboration.issues.v1alpha1.IssuesService.ListIssues is not implemented")))
  | GetIssue => λ _ _, mret (inl (NewError CodeUnimplemented (ENew "" "collaboration.issues.v1alpha1.IssuesService.GetIssue is not implemented")))
  | UpdateIssue => λ _ _, mret (inl (NewError CodeUnimplemented (ENew "" "collaboration.issues.v1alpha1.IssuesService.UpdateIssue is not implemented")))
  | ListMilestones => λ _ _, mret (inl (NewError CodeUnimplemented (ENew "" "collaboration.issues.v1alpha1.IssuesService.ListMilestones is not implemented")))
  | CreateMilestone => λ _ _, mret (inl (NewError CodeUnimplemented (ENew "" "collaboration.issues.v1alpha1.IssuesService.CreateMilestone is not implemented")))
  | UpdateMilestone => λ _ _, mret (inl (NewError CodeUnimplemented (ENew "" "collaboration.issues.v1alpha1.IssuesService.UpdateMilestone is not implemented")))
  | SearchIssues => λ _ _, mret (inl (NewError CodeUnimplemented (ENew "" "collaboration.issues.v1alpha1.IssuesService.SearchIssues is not implemented")))
  | GetLabel => λ _ _, mret (inl (NewError CodeUnimplemented (ENew "" "collaboration.issues.v1alpha1.IssuesService.GetLabel is not implemented")))
  | BatchGetIssues => λ _ _, mret (inl (NewError CodeUnimplemented (ENew "" "collaboration.issues.v1alpha1.IssuesService.BatchGetIssues is not implemented")))
  | AddSubIssue => λ _ _, mret (inl (NewError CodeUnimplemented (ENew "" "collaboration.issues.v1alpha1.IssuesService.AddSubIssue is not implemented")))
  | SetIssueType => λ _ _, mret (inl (NewError CodeUnimplemented (ENew "" "collaboration.issues.v1alpha1.IssuesService.SetIssueType is not implemented")))
  | UpdateBoardField => λ _ _, mret (inl (NewError CodeUnimplemented (ENew "" "collaboration.issues.v1alpha1.IssuesService.UpdateBoardField is not implemented")))
  end.

Definition file : service := mkService IssuesService
  [CreateIssue; ListIssues; GetIssue; UpdateIssue; ListMilestones; CreateMilestone; UpdateMilestone
   ; SearchIssues; GetLabel; BatchGetIssues; AddSubIssue; SetIssueType; UpdateBoardField]
  (λ m, match m with | CreateIssue => "CreateIssue" | ListIssues => "ListIssues" | GetIssue => "GetIssue"
     | UpdateIssue => "UpdateIssue" | ListMilestones => "ListMilestones"
     | CreateMilestone => "CreateMilestone" | UpdateMilestone => "UpdateMilestone"
     | SearchIssues => "SearchIssues" | GetLabel => "GetLabel" | BatchGetIssues => "BatchGetIssues"
     | AddSubIssue => "AddSubIssue" | SetIssueType => "SetIssueType"
     | UpdateBoardField => "UpdateBoardField" end)
  IssuesServiceName "File_collaboration_issues_v1alpha1_issues_proto" Signature Procedure NewIssuesServiceClient issuesServiceClient_call NewIssuesServiceHandler
  UnimplementedIssuesServiceHandler.

#[global] Instance issuesService_generated : Generated file.
Proof. generated. Qed.
End generated.
End issuesv1alpha1connect.

(** ** collaboration/pulls/v1alpha1/pullsv1alpha1connect/pulls.connect.go *)

Module pullsv1alpha1connect.

Inductive PullsService := CreatePullRequest | MergePullRequest.
Definition PullsServiceName : string := "collaboration.pulls.v1alpha1.PullsService".
Definition Procedure (m : PullsService) : string :=
  match m with
  | CreatePullRequest => "/collaboration.pulls.v1alpha1.PullsService/CreatePullRequest"
  | MergePullRequest => "/collaboration.pulls.v1alpha1.PullsService/MergePullRequest"
  end.
Definition v1alpha1 (message : string) : string := "collaboration/pulls/v1alpha1." +:+ message.
Definition Signature (m : PullsService) : signature :=
  match m with
  | CreatePullRequest => unary (v1alpha1 "CreatePullRequestRequest") (v1alpha1 "CreatePullRequestResponse")
  | MergePullRequest => unary (v1alpha1 "MergePullRequestRequest") (v1alpha1 "MergePullRequestResponse")
  end.
Definition Schema : string → schema := mkSchema "File_collaboration_pulls_v1alpha1_pulls_proto" "PullsService".

Section generated.
Context `{Connect}.

Definition PullsServiceClient : Type := ∀ m, client_method (Signature m).
Definition PullsServiceHandler : Type := ∀ m, handler_method (Signature m).
Definition pullsServiceClient : Type := ∀ m, client_of (Signature m).

Definition NewPullsServiceClient (httpClient : HTTPClient) (baseURL : string) (opts : list ClientOption)
  : pullsServiceClient :=
  let baseURL := TrimRight "/"%char baseURL in λ m,
  match m with
  | CreatePullRequest => NewClient httpClient (baseURL +:+ Procedure CreatePullRequest) (Schema "CreatePullRequest") opts
  | MergePullRequest => NewClient httpClient (baseURL +:+ Procedure MergePullRequest) (Schema "MergePullRequest") opts
  end.

Definition pullsServiceClient_call (c : pullsServiceClient) : PullsServiceClient := λ m,
  match m with
  | CreatePullRequest => λ ctx req, CallUnary (c CreatePullRequest) ctx req
  | MergePullRequest => λ ctx req, CallUnary (c MergePullRequest) ctx req
  end.

Definition NewPullsServiceHandler (svc : PullsServiceHandler) (opts : list HandlerOption) : string * http_Handler :=
  let CreatePullRequestHandler := NewUnaryHandler (Procedure CreatePullRequest) (svc CreatePullRequest) (Schema "CreatePullRequest") opts in
  let MergePullRequestHandler := NewUnaryHandler (Procedure MergePullRequest) (svc MergePullRequest) (Schema "MergePullRequest") opts in
  ("/collaboration.pulls.v1alpha1.PullsService/",
   switch [(Procedure CreatePullRequest, CreatePullRequestHandler);
             (Procedure MergePullRequest, MergePullRequestHandler)] NotFound).

Definition UnimplementedPullsServiceHandler : PullsServiceHandler := λ m,
  match m with
  | CreatePullRequest => λ _ _, mret (inl (NewError CodeUnimplemented (ENew "" "collaboration.pulls.v1alpha1.PullsService.CreatePullRequest is not implemented")))
  | MergePullRequest => λ _ _, mret (inl (NewError CodeUnimplemented (ENew "" "collaboration.pulls.v1alpha1.PullsService.MergePullRequest is not implemented")))
  end.

Definition file : service := mkService PullsService
  [CreatePullRequest; MergePullRequest]
  (λ m, match m with | CreatePullRequest => "CreatePullRequest" | MergePullRequest => "MergePullRequest" end)
  PullsServiceName "File_collaboration_pulls_v1alpha1_pulls_proto" Signature Procedure NewPullsServiceClient pullsServiceClient_call NewPullsServiceHandler
  UnimplementedPullsServiceHandler.

#[global] Instance pullsService_generated : Generated file.
Proof. generated. Qed.
End generated.
End pullsv1alpha1connect.
