(* ===== verification/ContractsPlatform.v ===== *)
(** * contracts: services of the platform

    The generated code of each service, one module per package under
    [src/go/contracts]: its methods with their signatures and procedures, its client,
    its handler, and the handler that implements nothing. Each file is [Generated]. *)

From Stdlib Require Import Ascii.
From S2P Require Import Prelude GoStrings GoErr GoMonad Connect.
Import connect.

(** ** deployment/status/v1alpha1/statusv1alpha1connect/status.connect.go *)

Module statusv1alpha1connect.

Inductive StatusService := CheckHealth.
Definition StatusServiceName : string := "deployment.status.v1alpha1.StatusService".
Definition Procedure (m : StatusService) : string :=
  match m with
  | CheckHealth => "/deployment.status.v1alpha1.StatusService/CheckHealth"
  end.
Definition v1alpha1 (message : string) : string := "deployment/status/v1alpha1." +:+ message.
Definition Signature (m : StatusService) : signature :=
  match m with
  | CheckHealth => unary (v1alpha1 "CheckHealthRequest") (v1alpha1 "CheckHealthResponse")
  end.
Definition Schema : string → schema := mkSchema "File_deployment_status_v1alpha1_status_proto" "StatusService".

Section generated.
Context `{Connect}.

Definition StatusServiceClient : Type := ∀ m, client_method (Signature m).
Definition StatusServiceHandler : Type := ∀ m, handler_method (Signature m).
Definition statusServiceClient : Type := ∀ m, client_of (Signature m).

Definition NewStatusServiceClient (httpClient : HTTPClient) (baseURL : string) (opts : list ClientOption)
  : statusServiceClient :=
  let baseURL := TrimRight "/"%char baseURL in λ m,
  match m with
  | CheckHealth => NewClient httpClient (baseURL +:+ Procedure CheckHealth) (Schema "CheckHealth") opts
  end.

Definition statusServiceClient_call (c : statusServiceClient) : StatusServiceClient := λ m,
  match m with
  | CheckHealth => λ ctx req, CallUnary (c CheckHealth) ctx req
  end.

Definition NewStatusServiceHandler (svc : StatusServiceHandler) (opts : list HandlerOption) : string * http_Handler :=
  let CheckHealthHandler := NewUnaryHandler (Procedure CheckHealth) (svc CheckHealth) (Schema "CheckHealth") opts in
  ("/deployment.status.v1alpha1.StatusService/",
   switch [(Procedure CheckHealth, CheckHealthHandler)] NotFound).

Definition UnimplementedStatusServiceHandler : StatusServiceHandler := λ m,
  match m with
  | CheckHealth => λ _ _, mret (inl (NewError CodeUnimplemented (ENew "" "deployment.status.v1alpha1.StatusService.CheckHealth is not implemented")))
  end.

Definition file : service := mkService StatusService
  [CheckHealth]
  (λ m, match m with | CheckHealth => "CheckHealth" end)
  StatusServiceName "File_deployment_status_v1alpha1_status_proto" Signature Procedure NewStatusServiceClient statusServiceClient_call NewStatusServiceHandler
  UnimplementedStatusServiceHandler.

#[global] Instance statusService_generated : Generated file.
Proof. generated. Qed.
End generated.
End statusv1alpha1connect.

(** ** development/hooks/v1alpha1/hooksv1alpha1connect/hooks.connect.go *)

Module hooksv1alpha1connect.

Inductive HooksService := PreCommit | CommitMsg | PrePush.
Definition HooksServiceName : string := "development.hooks.v1alpha1.HooksService".
Definition Procedure (m : HooksService) : string :=
  match m with
  | PreCommit => "/development.hooks.v1alpha1.HooksService/PreCommit"
  | CommitMsg => "/development.hooks.v1alpha1.HooksService/CommitMsg"
  | PrePush => "/development.hooks.v1alpha1.HooksService/PrePush"
  end.
Definition v1alpha1 (message : string) : string := "development/hooks/v1alpha1." +:+ message.
Definition Signature (m : HooksService) : signature :=
  match m with
  | PreCommit => unary (v1alpha1 "PreCommitRequest") (v1alpha1 "HookResponse")
  | CommitMsg => unary (v1alpha1 "CommitMsgRequest") (v1alpha1 "HookResponse")
  | PrePush => unary (v1alpha1 "PrePushRequest") (v1alpha1 "HookResponse")
  end.
Definition Schema : string → schema := mkSchema "File_development_hooks_v1alpha1_hooks_proto" "HooksService".

Section generated.
Context `{Connect}.

Definition HooksServiceClient : Type := ∀ m, client_method (Signature m).
Definition HooksServiceHandler : Type := ∀ m, handler_method (Signature m).
Definition hooksServiceClient : Type := ∀ m, client_of (Signature m).

Definition NewHooksServiceClient (httpClient : HTTPClient) (baseURL : string) (opts : list ClientOption)
  : hooksServiceClient :=
  let baseURL := TrimRight "/"%char baseURL in λ m,
  match m with
  | PreCommit => NewClient httpClient (baseURL +:+ Procedure PreCommit) (Schema "PreCommit") opts
  | CommitMsg => NewClient httpClient (baseURL +:+ Procedure CommitMsg) (Schema "CommitMsg") opts
  | PrePush => NewClient httpClient (baseURL +:+ Procedure PrePush) (Schema "PrePush") opts
  end.

Definition hooksServiceClient_call (c : hooksServiceClient) : HooksServiceClient := λ m,
  match m with
  | PreCommit => λ ctx req, CallUnary (c PreCommit) ctx req
  | CommitMsg => λ ctx req, CallUnary (c CommitMsg) ctx req
  | PrePush => λ ctx req, CallUnary (c PrePush) ctx req
  end.

Definition NewHooksServiceHandler (svc : HooksServiceHandler) (opts : list HandlerOption) : string * http_Handler :=
  let PreCommitHandler := NewUnaryHandler (Procedure PreCommit) (svc PreCommit) (Schema "PreCommit") opts in
  let CommitMsgHandler := NewUnaryHandler (Procedure CommitMsg) (svc CommitMsg) (Schema "CommitMsg") opts in
  let PrePushHandler := NewUnaryHandler (Procedure PrePush) (svc PrePush) (Schema "PrePush") opts in
  ("/development.hooks.v1alpha1.HooksService/",
   switch [(Procedure PreCommit, PreCommitHandler);
             (Procedure CommitMsg, CommitMsgHandler);
             (Procedure PrePush, PrePushHandler)] NotFound).

Definition UnimplementedHooksServiceHandler : HooksServiceHandler := λ m,
  match m with
  | PreCommit => λ _ _, mret (inl (NewError CodeUnimplemented (ENew "" "development.hooks.v1alpha1.HooksService.PreCommit is not implemented")))
  | CommitMsg => λ _ _, mret (inl (NewError CodeUnimplemented (ENew "" "development.hooks.v1alpha1.HooksService.CommitMsg is not implemented")))
  | PrePush => λ _ _, mret (inl (NewError CodeUnimplemented (ENew "" "development.hooks.v1alpha1.HooksService.PrePush is not implemented")))
  end.

Definition file : service := mkService HooksService
  [PreCommit; CommitMsg; PrePush]
  (λ m, match m with | PreCommit => "PreCommit" | CommitMsg => "CommitMsg" | PrePush => "PrePush" end)
  HooksServiceName "File_development_hooks_v1alpha1_hooks_proto" Signature Procedure NewHooksServiceClient hooksServiceClient_call NewHooksServiceHandler
  UnimplementedHooksServiceHandler.

#[global] Instance hooksService_generated : Generated file.
Proof. generated. Qed.
End generated.
End hooksv1alpha1connect.

(** ** development/sync/v1alpha1/syncv1alpha1connect/sync.connect.go *)

Module syncv1alpha1connect.

Inductive SyncService := Sync | Status | Resolve.
Definition SyncServiceName : string := "development.sync.v1alpha1.SyncService".
Definition Procedure (m : SyncService) : string :=
  match m with
  | Sync => "/development.sync.v1alpha1.SyncService/Sync"
  | Status => "/development.sync.v1alpha1.SyncService/Status"
  | Resolve => "/development.sync.v1alpha1.SyncService/Resolve"
  end.
Definition v1alpha1 (message : string) : string := "development/sync/v1alpha1." +:+ message.
Definition Signature (m : SyncService) : signature :=
  match m with
  | Sync => unary (v1alpha1 "SyncRequest") (v1alpha1 "SyncResponse")
  | Status => unary (v1alpha1 "StatusRequest") (v1alpha1 "StatusResponse")
  | Resolve => unary (v1alpha1 "ResolveRequest") (v1alpha1 "ResolveResponse")
  end.
Definition Schema : string → schema := mkSchema "File_development_sync_v1alpha1_sync_proto" "SyncService".

Section generated.
Context `{Connect}.

Definition SyncServiceClient : Type := ∀ m, client_method (Signature m).
Definition SyncServiceHandler : Type := ∀ m, handler_method (Signature m).
Definition syncServiceClient : Type := ∀ m, client_of (Signature m).

Definition NewSyncServiceClient (httpClient : HTTPClient) (baseURL : string) (opts : list ClientOption)
  : syncServiceClient :=
  let baseURL := TrimRight "/"%char baseURL in λ m,
  match m with
  | Sync => NewClient httpClient (baseURL +:+ Procedure Sync) (Schema "Sync") opts
  | Status => NewClient httpClient (baseURL +:+ Procedure Status) (Schema "Status") opts
  | Resolve => NewClient httpClient (baseURL +:+ Procedure Resolve) (Schema "Resolve") opts
  end.

Definition syncServiceClient_call (c : syncServiceClient) : SyncServiceClient := λ m,
  match m with
  | Sync => λ ctx req, CallUnary (c Sync) ctx req
  | Status => λ ctx req, CallUnary (c Status) ctx req
  | Resolve => λ ctx req, CallUnary (c Resolve) ctx req
  end.

Definition NewSyncServiceHandler (svc : SyncServiceHandler) (opts : list HandlerOption) : string * http_Handler :=
  let SyncHandler := NewUnaryHandler (Procedure Sync) (svc Sync) (Schema "Sync") opts in
  let StatusHandler := NewUnaryHandler (Procedure Status) (svc Status) (Schema "Status") opts in
  let ResolveHandler := NewUnaryHandler (Procedure Resolve) (svc Resolve) (Schema "Resolve") opts in
  ("/development.sync.v1alpha1.SyncService/",
   switch [(Procedure Sync, SyncHandler);
             (Procedure Status, StatusHandler);
             (Procedure Resolve, ResolveHandler)] NotFound).

Definition UnimplementedSyncServiceHandler : SyncServiceHandler := λ m,
  match m with
  | Sync => λ _ _, mret (inl (NewError CodeUnimplemented (ENew "" "development.sync.v1alpha1.SyncService.Sync is not implemented")))
  | Status => λ _ _, mret (inl (NewError CodeUnimplemented (ENew "" "development.sync.v1alpha1.SyncService.Status is not implemented")))
  | Resolve => λ _ _, mret (inl (NewError CodeUnimplemented (ENew "" "development.sync.v1alpha1.SyncService.Resolve is not implemented")))
  end.

Definition file : service := mkService SyncService
  [Sync; Status; Resolve]
  (λ m, match m with | Sync => "Sync" | Status => "Status" | Resolve => "Resolve" end)
  SyncServiceName "File_development_sync_v1alpha1_sync_proto" Signature Procedure NewSyncServiceClient syncServiceClient_call NewSyncServiceHandler
  UnimplementedSyncServiceHandler.

#[global] Instance syncService_generated : Generated file.
Proof. generated. Qed.
End generated.
End syncv1alpha1connect.

(** ** development/tools/v1alpha1/toolsv1alpha1connect/tools.connect.go *)

Module toolsv1alpha1connect.

Inductive ToolsService := TagUntagged | MovePackages | ExtractDomain | RunQuality | SubmitQuality | GetJob.
Definition ToolsServiceName : string := "development.tools.v1alpha1.ToolsService".
Definition Procedure (m : ToolsService) : string :=
  match m with
  | TagUntagged => "/development.tools.v1alpha1.ToolsService/TagUntagged"
  | MovePackages => "/development.tools.v1alpha1.ToolsService/MovePackages"
  | ExtractDomain => "/development.tools.v1alpha1.ToolsService/ExtractDomain"
  | RunQuality => "/development.tools.v1alpha1.ToolsService/RunQuality"
  | SubmitQuality => "/development.tools.v1alpha1.ToolsService/SubmitQuality"
  | GetJob => "/development.tools.v1alpha1.ToolsService/GetJob"
  end.
Definition v1alpha1 (message : string) : string := "development/tools/v1alpha1." +:+ message.
Definition Signature (m : ToolsService) : signature :=
  match m with
  | TagUntagged => unary (v1alpha1 "TagUntaggedRequest") (v1alpha1 "TagUntaggedResponse")
  | MovePackages => unary (v1alpha1 "MovePackagesRequest") (v1alpha1 "MovePackagesResponse")
  | ExtractDomain => unary (v1alpha1 "ExtractDomainRequest") (v1alpha1 "ExtractDomainResponse")
  | RunQuality => unary (v1alpha1 "RunQualityRequest") (v1alpha1 "RunQualityResponse")
  | SubmitQuality => unary (v1alpha1 "RunQualityRequest") (v1alpha1 "SubmitJobResponse")
  | GetJob => unary (v1alpha1 "GetJobRequest") (v1alpha1 "GetJobResponse")
  end.
Definition Schema : string → schema := mkSchema "File_development_tools_v1alpha1_tools_proto" "ToolsService".

Section generated.
Context `{Connect}.

Definition ToolsServiceClient : Type := ∀ m, client_method (Signature m).
Definition ToolsServiceHandler : Type := ∀ m, handler_method (Signature m).
Definition toolsServiceClient : Type := ∀ m, client_of (Signature m).

Definition NewToolsServiceClient (httpClient : HTTPClient) (baseURL : string) (opts : list ClientOption)
  : toolsServiceClient :=
  let baseURL := TrimRight "/"%char baseURL in λ m,
  match m with
  | TagUntagged => NewClient httpClient (baseURL +:+ Procedure TagUntagged) (Schema "TagUntagged") opts
  | MovePackages => NewClient httpClient (baseURL +:+ Procedure MovePackages) (Schema "MovePackages") opts
  | ExtractDomain => NewClient httpClient (baseURL +:+ Procedure ExtractDomain) (Schema "ExtractDomain") opts
  | RunQuality => NewClient httpClient (baseURL +:+ Procedure RunQuality) (Schema "RunQuality") opts
  | SubmitQuality => NewClient httpClient (baseURL +:+ Procedure SubmitQuality) (Schema "SubmitQuality") opts
  | GetJob => NewClient httpClient (baseURL +:+ Procedure GetJob) (Schema "GetJob") opts
  end.

Definition toolsServiceClient_call (c : toolsServiceClient) : ToolsServiceClient := λ m,
  match m with
  | TagUntagged => λ ctx req, CallUnary (c TagUntagged) ctx req
  | MovePackages => λ ctx req, CallUnary (c MovePackages) ctx req
  | ExtractDomain => λ ctx req, CallUnary (c ExtractDomain) ctx req
  | RunQuality => λ ctx req, CallUnary (c RunQuality) ctx req
  | SubmitQuality => λ ctx req, CallUnary (c SubmitQuality) ctx req
  | GetJob => λ ctx req, CallUnary (c GetJob) ctx req
  end.

Definition NewToolsServiceHandler (svc : ToolsServiceHandler) (opts : list HandlerOption) : string * http_Handler :=
  let TagUntaggedHandler := NewUnaryHandler (Procedure TagUntagged) (svc TagUntagged) (Schema "TagUntagged") opts in
  let MovePackagesHandler := NewUnaryHandler (Procedure MovePackages) (svc MovePackages) (Schema "MovePackages") opts in
  let ExtractDomainHandler := NewUnaryHandler (Procedure ExtractDomain) (svc ExtractDomain) (Schema "ExtractDomain") opts in
  let RunQualityHandler := NewUnaryHandler (Procedure RunQuality) (svc RunQuality) (Schema "RunQuality") opts in
  let SubmitQualityHandler := NewUnaryHandler (Procedure SubmitQuality) (svc SubmitQuality) (Schema "SubmitQuality") opts in
  let GetJobHandler := NewUnaryHandler (Procedure GetJob) (svc GetJob) (Schema "GetJob") opts in
  ("/development.tools.v1alpha1.ToolsService/",
   switch [(Procedure TagUntagged, TagUntaggedHandler);
             (Procedure MovePackages, MovePackagesHandler);
             (Procedure ExtractDomain, ExtractDomainHandler);
             (Procedure RunQuality, RunQualityHandler);
             (Procedure SubmitQuality, SubmitQualityHandler);
             (Procedure GetJob, GetJobHandler)] NotFound).

Definition UnimplementedToolsServiceHandler : ToolsServiceHandler := λ m,
  match m with
  | TagUntagged => λ _ _, mret (inl (NewError CodeUnimplemented (ENew "" "development.tools.v1alpha1.ToolsService.TagUntagged is not implemented")))
  | MovePackages => λ _ _, mret (inl (NewError CodeUnimplemented (ENew "" "development.tools.v1alpha1.ToolsService.MovePackages is not implemented")))
  | ExtractDomain => λ _ _, mret (inl (NewError CodeUnimplemented (ENew "" "development.tools.v1alpha1.ToolsService.ExtractDomain is not implemented")))
  | RunQuality => λ _ _, mret (inl (NewError CodeUnimplemented (ENew "" "development.tools.v1alpha1.ToolsService.RunQuality is not implemented")))
  | SubmitQuality => λ _ _, mret (inl (NewError CodeUnimplemented (ENew "" "development.tools.v1alpha1.ToolsService.SubmitQuality is not implemented")))
  | GetJob => λ _ _, mret (inl (NewError CodeUnimplemented (ENew "" "development.tools.v1alpha1.ToolsService.GetJob is not implemented")))
  end.

Definition file : service := mkService ToolsService
  [TagUntagged; MovePackages; ExtractDomain; RunQuality; SubmitQuality; GetJob]
  (λ m, match m with | TagUntagged => "TagUntagged" | MovePackages => "MovePackages" | ExtractDomain => "ExtractDomain"
     | RunQuality => "RunQuality" | SubmitQuality => "SubmitQuality" | GetJob => "GetJob" end)
  ToolsServiceName "File_development_tools_v1alpha1_tools_proto" Signature Procedure NewToolsServiceClient toolsServiceClient_call NewToolsServiceHandler
  UnimplementedToolsServiceHandler.

#[global] Instance toolsService_generated : Generated file.
Proof. generated. Qed.
End generated.
End toolsv1alpha1connect.

(** ** workspace/governance/v1alpha1/governancev1alpha1connect/governance.connect.go *)

Module governancev1alpha1connect.

Inductive GovernanceService := ScanReadmes | ScanScratch | EnsureScratch | ScanPurity | FixGoVersions
  | CleanGoSums.
Definition GovernanceServiceName : string := "workspace.governance.v1alpha1.GovernanceService".
Definition Procedure (m : GovernanceService) : string :=
  match m with
  | ScanReadmes => "/workspace.governance.v1alpha1.GovernanceService/ScanReadmes"
  | ScanScratch => "/workspace.governance.v1alpha1.GovernanceService/ScanScratch"
  | EnsureScratch => "/workspace.governance.v1alpha1.GovernanceService/EnsureScratch"
  | ScanPurity => "/workspace.governance.v1alpha1.GovernanceService/ScanPurity"
  | FixGoVersions => "/workspace.governance.v1alpha1.GovernanceService/FixGoVersions"
  | CleanGoSums => "/workspace.governance.v1alpha1.GovernanceService/CleanGoSums"
  end.
Definition v1alpha1 (message : string) : string := "workspace/governance/v1alpha1." +:+ message.
Definition Signature (m : GovernanceService) : signature :=
  match m with
  | ScanReadmes => unary (v1alpha1 "ScanReadmesRequest") (v1alpha1 "ScanReadmesResponse")
  | ScanScratch => unary (v1alpha1 "ScanScratchRequest") (v1alpha1 "ScanScratchResponse")
  | EnsureScratch => unary (v1alpha1 "EnsureScratchRequest") (v1alpha1 "EnsureScratchResponse")
  | ScanPurity => unary (v1alpha1 "ScanPurityRequest") (v1alpha1 "ScanPurityResponse")
  | FixGoVersions => unary (v1alpha1 "FixGoVersionsRequest") (v1alpha1 "FixGoVersionsResponse")
  | CleanGoSums => unary (v1alpha1 "CleanGoSumsRequest") (v1alpha1 "CleanGoSumsResponse")
  end.
Definition Schema : string → schema := mkSchema "File_workspace_governance_v1alpha1_governance_proto" "GovernanceService".

Section generated.
Context `{Connect}.

Definition GovernanceServiceClient : Type := ∀ m, client_method (Signature m).
Definition GovernanceServiceHandler : Type := ∀ m, handler_method (Signature m).
Definition governanceServiceClient : Type := ∀ m, client_of (Signature m).

Definition NewGovernanceServiceClient (httpClient : HTTPClient) (baseURL : string) (opts : list ClientOption)
  : governanceServiceClient :=
  let baseURL := TrimRight "/"%char baseURL in λ m,
  match m with
  | ScanReadmes => NewClient httpClient (baseURL +:+ Procedure ScanReadmes) (Schema "ScanReadmes") opts
  | ScanScratch => NewClient httpClient (baseURL +:+ Procedure ScanScratch) (Schema "ScanScratch") opts
  | EnsureScratch => NewClient httpClient (baseURL +:+ Procedure EnsureScratch) (Schema "EnsureScratch") opts
  | ScanPurity => NewClient httpClient (baseURL +:+ Procedure ScanPurity) (Schema "ScanPurity") opts
  | FixGoVersions => NewClient httpClient (baseURL +:+ Procedure FixGoVersions) (Schema "FixGoVersions") opts
  | CleanGoSums => NewClient httpClient (baseURL +:+ Procedure CleanGoSums) (Schema "CleanGoSums") opts
  end.

Definition governanceServiceClient_call (c : governanceServiceClient) : GovernanceServiceClient := λ m,
  match m with
  | ScanReadmes => λ ctx req, CallUnary (c ScanReadmes) ctx req
  | ScanScratch => λ ctx req, CallUnary (c ScanScratch) ctx req
  | EnsureScratch => λ ctx req, CallUnary (c EnsureScratch) ctx req
  | ScanPurity => λ ctx req, CallUnary (c ScanPurity) ctx req
  | FixGoVersions => λ ctx req, CallUnary (c FixGoVersions) ctx req
  | CleanGoSums => λ ctx req, CallUnary (c CleanGoSums) ctx req
  end.

Definition NewGovernanceServiceHandler (svc : GovernanceServiceHandler) (opts : list HandlerOption) : string * http_Handler :=
  let ScanReadmesHandler := NewUnaryHandler (Procedure ScanReadmes) (svc ScanReadmes) (Schema "ScanReadmes") opts in
  let ScanScratchHandler := NewUnaryHandler (Procedure ScanScratch) (svc ScanScratch) (Schema "ScanScratch") opts in
  let EnsureScratchHandler := NewUnaryHandler (Procedure EnsureScratch) (svc EnsureScratch) (Schema "EnsureScratch") opts in
  let ScanPurityHandler := NewUnaryHandler (Procedure ScanPurity) (svc ScanPurity) (Schema "ScanPurity") opts in
  let FixGoVersionsHandler := NewUnaryHandler (Procedure FixGoVersions) (svc FixGoVersions) (Schema "FixGoVersions") opts in
  let CleanGoSumsHandler := NewUnaryHandler (Procedure CleanGoSums) (svc CleanGoSums) (Schema "CleanGoSums") opts in
  ("/workspace.governance.v1alpha1.GovernanceService/",
   switch [(Procedure ScanReadmes, ScanReadmesHandler);
             (Procedure ScanScratch, ScanScratchHandler);
             (Procedure EnsureScratch, EnsureScratchHandler);
             (Procedure ScanPurity, ScanPurityHandler);
             (Procedure FixGoVersions, FixGoVersionsHandler);
             (Procedure CleanGoSums, CleanGoSumsHandler)] NotFound).

Definition UnimplementedGovernanceServiceHandler : GovernanceServiceHandler := λ m,
  match m with
  | ScanReadmes => λ _ _, mret (inl (NewError CodeUnimplemented (ENew "" "workspace.governance.v1alpha1.GovernanceService.ScanReadmes is not implemented")))
  | ScanScratch => λ _ _, mret (inl (NewError CodeUnimplemented (ENew "" "workspace.governance.v1alpha1.GovernanceService.ScanScratch is not implemented")))
  | EnsureScratch => λ _ _, mret (inl (NewError CodeUnimplemented (ENew "" "workspace.governance.v1alpha1.GovernanceService.EnsureScratch is not implemented")))
  | ScanPurity => λ _ _, mret (inl (NewError CodeUnimplemented (ENew "" "workspace.governance.v1alpha1.GovernanceService.ScanPurity is not implemented")))
  | FixGoVersions => λ _ _, mret (inl (NewError CodeUnimplemented (ENew "" "workspace.governance.v1alpha1.GovernanceService.FixGoVersions is not implemented")))
  | CleanGoSums => λ _ _, mret (inl (NewError CodeUnimplemented (ENew "" "workspace.governance.v1alpha1.GovernanceService.CleanGoSums is not implemented")))
  end.

Definition file : service := mkService GovernanceService
  [ScanReadmes; ScanScratch; EnsureScratch; ScanPurity; FixGoVersions; CleanGoSums]
  (λ m, match m with | ScanReadmes => "ScanReadmes" | ScanScratch => "ScanScratch" | EnsureScratch => "EnsureScratch"
     | ScanPurity => "ScanPurity" | FixGoVersions => "FixGoVersions" | CleanGoSums => "CleanGoSums" end)
  GovernanceServiceName "File_workspace_governance_v1alpha1_governance_proto" Signature Procedure NewGovernanceServiceClient governanceServiceClient_call NewGovernanceServiceHandler
  UnimplementedGovernanceServiceHandler.

#[global] Instance governanceService_generated : Generated file.
Proof. generated. Qed.
End generated.
End governancev1alpha1connect.

(** ** workspace/spoke/v1alpha1/spokev1alpha1connect/spoke.connect.go *)

Module spokev1alpha1connect.

Inductive SpokeService := Register | Heartbeat | List.
Definition SpokeServiceName : string := "workspace.spoke.v1alpha1.SpokeService".
Definition Procedure (m : SpokeService) : string :=
  match m with
  | Register => "/workspace.spoke.v1alpha1.SpokeService/Register"
  | Heartbeat => "/workspace.spoke.v1alpha1.SpokeService/Heartbeat"
  | List => "/workspace.spoke.v1alpha1.SpokeService/List"
  end.
Definition v1alpha1 (message : string) : string := "workspace/spoke/v1alpha1." +:+ message.
Definition Signature (m : SpokeService) : signature :=
  match m with
  | Register => unary (v1alpha1 "RegisterRequest") (v1alpha1 "RegisterResponse")
  | Heartbeat => unary (v1alpha1 "HeartbeatRequest") (v1alpha1 "HeartbeatResponse")
  | List => unary (v1alpha1 "ListRequest") (v1alpha1 "ListResponse")
  end.
Definition Schema : string → schema := mkSchema "File_workspace_spoke_v1alpha1_spoke_proto" "SpokeService".

Section generated.
Context `{Connect}.

Definition SpokeServiceClient : Type := ∀ m, client_method (Signature m).
Definition SpokeServiceHandler : Type := ∀ m, handler_method (Signature m).
Definition spokeServiceClient : Type := ∀ m, client_of (Signature m).

Definition NewSpokeServiceClient (httpClient : HTTPClient) (baseURL : string) (opts : list ClientOption)
  : spokeServiceClient :=
  let baseURL := TrimRight "/"%char baseURL in λ m,
  match m with
  | Register => NewClient httpClient (baseURL +:+ Procedure Register) (Schema "Register") opts
  | Heartbeat => NewClient httpClient (baseURL +:+ Procedure Heartbeat) (Schema "Heartbeat") opts
  | List => NewClient httpClient (baseURL +:+ Procedure List) (Schema "List") opts
  end.

Definition spokeServiceClient_call (c : spokeServiceClient) : SpokeServiceClient := λ m,
  match m with
  | Register => λ ctx req, CallUnary (c Register) ctx req
  | Heartbeat => λ ctx req, CallUnary (c Heartbeat) ctx req
  | List => λ ctx req, CallUnary (c List) ctx req
  end.

Definition NewSpokeServiceHandler (svc : SpokeServiceHandler) (opts : list HandlerOption) : string * http_Handler :=
  let RegisterHandler := NewUnaryHandler (Procedure Register) (svc Register) (Schema "Register") opts in
  let HeartbeatHandler := NewUnaryHandler (Procedure Heartbeat) (svc Heartbeat) (Schema "Heartbeat") opts in
  let ListHandler := NewUnaryHandler (Procedure List) (svc List) (Schema "List") opts in
  ("/workspace.spoke.v1alpha1.SpokeService/",
   switch [(Procedure Register, RegisterHandler);
             (Procedure Heartbeat, HeartbeatHandler);
             (Procedure List, ListHandler)] NotFound).

Definition UnimplementedSpokeServiceHandler : SpokeServiceHandler := λ m,
  match m with
  | Register => λ _ _, mret (inl (NewError CodeUnimplemented (ENew "" "workspace.spoke.v1alpha1.SpokeService.Register is not implemented")))
  | Heartbeat => λ _ _, mret (inl (NewError CodeUnimplemented (ENew "" "workspace.spoke.v1alpha1.SpokeService.Heartbeat is not implemented")))
  | List => λ _ _, mret (inl (NewError CodeUnimplemented (ENew "" "workspace.spoke.v1alpha1.SpokeService.List is not implemented")))
  end.

Definition file : service := mkService SpokeService
  [Register; Heartbeat; List]
  (λ m, match m with | Register => "Register" | Heartbeat => "Heartbeat" | List => "List" end)
  SpokeServiceName "File_workspace_spoke_v1alpha1_spoke_proto" Signature Procedure NewSpokeServiceClient spokeServiceClient_call NewSpokeServiceHandler
  UnimplementedSpokeServiceHandler.

#[global] Instance spokeService_generated : Generated file.
Proof. generated. Qed.
End generated.
End spokev1alpha1connect.

(** ** registry/repos/v1alpha1/reposv1alpha1connect/repos.connect.go *)

Module reposv1alpha1connect.

Inductive RepoService := ListRepositories.
Definition RepoServiceName : string := "registry.repos.v1alpha1.RepoService".
Definition Procedure (m : RepoService) : string :=
  match m with
  | ListRepositories => "/registry.repos.v1alpha1.RepoService/ListRepositories"
  end.
Definition v1alpha1 (message : string) : string := "registry/repos/v1alpha1." +:+ message.
Definition Signature (m : RepoService) : signature :=
  match m with
  | ListRepositories => unary (v1alpha1 "ListRepositoriesRequest") (v1alpha1 "ListRepositoriesResponse")
  end.
Definition Schema : string → schema := mkSchema "File_registry_repos_v1alpha1_repos_proto" "RepoService".

Section generated.
Context `{Connect}.

Definition RepoServiceClient : Type := ∀ m, client_method (Signature m).
Definition RepoServiceHandler : Type := ∀ m, handler_method (Signature m).
Definition repoServiceClient : Type := ∀ m, client_of (Signature m).

Definition NewRepoServiceClient (httpClient : HTTPClient) (baseURL : string) (opts : list ClientOption)
  : repoServiceClient :=
  let baseURL := TrimRight "/"%char baseURL in λ m,
  match m with
  | ListRepositories => NewClient httpClient (baseURL +:+ Procedure ListRepositories) (Schema "ListRepositories") opts
  end.

Definition repoServiceClient_call (c : repoServiceClient) : RepoServiceClient := λ m,
  match m with
  | ListRepositories => λ ctx req, CallUnary (c ListRepositories) ctx req
  end.

Definition NewRepoServiceHandler (svc : RepoServiceHandler) (opts : list HandlerOption) : string * http_Handler :=
  let ListRepositoriesHandler := NewUnaryHandler (Procedure ListRepositories) (svc ListRepositories) (Schema "ListRepositories") opts in
  ("/registry.repos.v1alpha1.RepoService/",
   switch [(Procedure ListRepositories, ListRepositoriesHandler)] NotFound).

Definition UnimplementedRepoServiceHandler : RepoServiceHandler := λ m,
  match m with
  | ListRepositories => λ _ _, mret (inl (NewError CodeUnimplemented (ENew "" "registry.repos.v1alpha1.RepoService.ListRepositories is not implemented")))
  end.

Definition file : service := mkService RepoService
  [ListRepositories]
  (λ m, match m with | ListRepositories => "ListRepositories" end)
  RepoServiceName "File_registry_repos_v1alpha1_repos_proto" Signature Procedure NewRepoServiceClient repoServiceClient_call NewRepoServiceHandler
  UnimplementedRepoServiceHandler.

#[global] Instance repoService_generated : Generated file.
Proof. generated. Qed.
End generated.
End reposv1alpha1connect.

(** ** registry/skills/v1alpha1/skillsv1alpha1connect/skills.connect.go *)

Module skillsv1alpha1connect.

Inductive SkillsService := ListSkills | GetSkill.
Definition SkillsServiceName : string := "registry.skills.v1alpha1.SkillsService".
Definition Procedure (m : SkillsService) : string :=
  match m with
  | ListSkills => "/registry.skills.v1alpha1.SkillsService/ListSkills"
  | GetSkill => "/registry.skills.v1alpha1.SkillsService/GetSkill"
  end.
Definition v1alpha1 (message : string) : string := "registry/skills/v1alpha1." +:+ message.
Definition Signature (m : SkillsService) : signature :=
  match m with
  | ListSkills => unary (v1alpha1 "ListSkillsRequest") (v1alpha1 "ListSkillsResponse")
  | GetSkill => unary (v1alpha1 "GetSkillRequest") (v1alpha1 "GetSkillResponse")
  end.
Definition Schema : string → schema := mkSchema "File_registry_skills_v1alpha1_skills_proto" "SkillsService".

Section generated.
Context `{Connect}.

Definition SkillsServiceClient : Type := ∀ m, client_method (Signature m).
Definition SkillsServiceHandler : Type := ∀ m, handler_method (Signature m).
Definition skillsServiceClient : Type := ∀ m, client_of (Signature m).

Definition NewSkillsServiceClient (httpClient : HTTPClient) (baseURL : string) (opts : list ClientOption)
  : skillsServiceClient :=
  let baseURL := TrimRight "/"%char baseURL in λ m,
  match m with
  | ListSkills => NewClient httpClient (baseURL +:+ Procedure ListSkills) (Schema "ListSkills") opts
  | GetSkill => NewClient httpClient (baseURL +:+ Procedure GetSkill) (Schema "GetSkill") opts
  end.

Definition skillsServiceClient_call (c : skillsServiceClient) : SkillsServiceClient := λ m,
  match m with
  | ListSkills => λ ctx req, CallUnary (c ListSkills) ctx req
  | GetSkill => λ ctx req, CallUnary (c GetSkill) ctx req
  end.

Definition NewSkillsServiceHandler (svc : SkillsServiceHandler) (opts : list HandlerOption) : string * http_Handler :=
  let ListSkillsHandler := NewUnaryHandler (Procedure ListSkills) (svc ListSkills) (Schema "ListSkills") opts in
  let GetSkillHandler := NewUnaryHandler (Procedure GetSkill) (svc GetSkill) (Schema "GetSkill") opts in
  ("/registry.skills.v1alpha1.SkillsService/",
   switch [(Procedure ListSkills, ListSkillsHandler);
             (Procedure GetSkill, GetSkillHandler)] NotFound).

Definition UnimplementedSkillsServiceHandler : SkillsServiceHandler := λ m,
  match m with
  | ListSkills => λ _ _, mret (inl (NewError CodeUnimplemented (ENew "" "registry.skills.v1alpha1.SkillsService.ListSkills is not implemented")))
  | GetSkill => λ _ _, mret (inl (NewError CodeUnimplemented (ENew "" "registry.skills.v1alpha1.SkillsService.GetSkill is not implemented")))
  end.

Definition file : service := mkService SkillsService
  [ListSkills; GetSkill]
  (λ m, match m with | ListSkills => "ListSkills" | GetSkill => "GetSkill" end)
  SkillsServiceName "File_registry_skills_v1alpha1_skills_proto" Signature Procedure NewSkillsServiceClient skillsServiceClient_call NewSkillsServiceHandler
  UnimplementedSkillsServiceHandler.

#[global] Instance skillsService_generated : Generated file.
Proof. generated. Qed.
End generated.
End skillsv1alpha1connect.
