(* ===== verification/ContractsKnowledge.v ===== *)
(** * contracts: services for memory, messages and events

    The generated code of each service, one module per package under
    [src/go/contracts]: its methods with their signatures and procedures, its client,
    its handler, and the handler that implements nothing. Each file is [Generated]. *)

From Stdlib Require Import Ascii.
From S2P Require Import Prelude GoStrings GoErr GoMonad Connect.
Import connect.

(** ** intelligence/memory/v1alpha1/memoryv1alpha1connect/memory.connect.go *)

Module memoryv1alpha1connect.

Inductive MemoryService := StoreInteraction | RetrieveContext.
Definition MemoryServiceName : string := "intelligence.memory.v1alpha1.MemoryService".
Definition Procedure (m : MemoryService) : string :=
  match m with
  | StoreInteraction => "/intelligence.memory.v1alpha1.MemoryService/StoreInteraction"
  | RetrieveContext => "/intelligence.memory.v1alpha1.MemoryService/RetrieveContext"
  end.
Definition v1alpha1 (message : string) : string := "intelligence/memory/v1alpha1." +:+ message.
Definition Signature (m : MemoryService) : signature :=
  match m with
  | StoreInteraction => unary (v1alpha1 "StoreInteractionRequest") (v1alpha1 "StoreInteractionResponse")
  | RetrieveContext => unary (v1alpha1 "RetrieveContextRequest") (v1alpha1 "RetrieveContextResponse")
  end.
Definition Schema : string → schema := mkSchema "File_intelligence_memory_v1alpha1_memory_proto" "MemoryService".

Section generated.
Context `{Connect}.

Definition MemoryServiceClient : Type := ∀ m, client_method (Signature m).
Definition MemoryServiceHandler : Type := ∀ m, handler_method (Signature m).
Definition memoryServiceClient : Type := ∀ m, client_of (Signature m).

Definition NewMemoryServiceClient (httpClient : HTTPClient) (baseURL : string) (opts : list ClientOption)
  : memoryServiceClient :=
  let baseURL := TrimRight "/"%char baseURL in λ m,
  match m with
  | StoreInteraction => NewClient httpClient (baseURL +:+ Procedure StoreInteraction) (Schema "StoreInteraction") opts
  | RetrieveContext => NewClient httpClient (baseURL +:+ Procedure RetrieveContext) (Schema "RetrieveContext") opts
  end.

Definition memoryServiceClient_call (c : memoryServiceClient) : MemoryServiceClient := λ m,
  match m with
  | StoreInteraction => λ ctx req, CallUnary (c StoreInteraction) ctx req
  | RetrieveContext => λ ctx req, CallUnary (c RetrieveContext) ctx req
  end.

Definition NewMemoryServiceHandler (svc : MemoryServiceHandler) (opts : list HandlerOption) : string * http_Handler :=
  let StoreInteractionHandler := NewUnaryHandler (Procedure StoreInteraction) (svc StoreInteraction) (Schema "StoreInteraction") opts in
  let RetrieveContextHandler := NewUnaryHandler (Procedure RetrieveContext) (svc RetrieveContext) (Schema "RetrieveContext") opts in
  ("/intelligence.memory.v1alpha1.MemoryService/",
   switch [(Procedure StoreInteraction, StoreInteractionHandler);
             (Procedure RetrieveContext, RetrieveContextHandler)] NotFound).

Definition UnimplementedMemoryServiceHandler : MemoryServiceHandler := λ m,
  match m with
  | StoreInteraction => λ _ _, mret (inl (NewError CodeUnimplemented (ENew "" "intelligence.memory.v1alpha1.MemoryService.StoreInteraction is not implemented")))
  | RetrieveContext => λ _ _, mret (inl (NewError CodeUnimplemented (ENew "" "intelligence.memory.v1alpha1.MemoryService.RetrieveContext is not implemented")))
  end.

Definition file : service := mkService MemoryService
  [StoreInteraction; RetrieveContext]
  (λ m, match m with | StoreInteraction => "StoreInteraction" | RetrieveContext => "RetrieveContext" end)
  MemoryServiceName "File_intelligence_memory_v1alpha1_memory_proto" Signature Procedure NewMemoryServiceClient memoryServiceClient_call NewMemoryServiceHandler
  UnimplementedMemoryServiceHandler.

#[global] Instance memoryService_generated : Generated file.
Proof. generated. Qed.
End generated.
End memoryv1alpha1connect.

(** ** intelligence/reasoning/v1alpha1/reasoningv1alpha1connect/reasoning.connect.go *)

Module reasoningv1alpha1connect.

Inductive ReasoningService := PlanResponse.
Definition ReasoningServiceName : string := "intelligence.reasoning.v1alpha1.ReasoningService".
Definition Procedure (m : ReasoningService) : string :=
  match m with
  | PlanResponse => "/intelligence.reasoning.v1alpha1.ReasoningService/PlanResponse"
  end.
Definition v1alpha1 (message : string) : string := "intelligence/reasoning/v1alpha1." +:+ message.
Definition Signature (m : ReasoningService) : signature :=
  match m with
  | PlanResponse => unary (v1alpha1 "PlanResponseRequest") (v1alpha1 "PlanResponseResponse")
  end.
Definition Schema : string → schema := mkSchema "File_intelligence_reasoning_v1alpha1_reasoning_proto" "ReasoningService".

Section generated.
Context `{Connect}.

Definition ReasoningServiceClient : Type := ∀ m, client_method (Signature m).
Definition ReasoningServiceHandler : Type := ∀ m, handler_method (Signature m).
Definition reasoningServiceClient : Type := ∀ m, client_of (Signature m).

Definition NewReasoningServiceClient (httpClient : HTTPClient) (baseURL : string) (opts : list ClientOption)
  : reasoningServiceClient :=
  let baseURL := TrimRight "/"%char baseURL in λ m,
  match m with
  | PlanResponse => NewClient httpClient (baseURL +:+ Procedure PlanResponse) (Schema "PlanResponse") opts
  end.

Definition reasoningServiceClient_call (c : reasoningServiceClient) : ReasoningServiceClient := λ m,
  match m with
  | PlanResponse => λ ctx req, CallUnary (c PlanResponse) ctx req
  end.

Definition NewReasoningServiceHandler (svc : ReasoningServiceHandler) (opts : list HandlerOption) : string * http_Handler :=
  let PlanResponseHandler := NewUnaryHandler (Procedure PlanResponse) (svc PlanResponse) (Schema "PlanResponse") opts in
  ("/intelligence.reasoning.v1alpha1.ReasoningService/",
   switch [(Procedure PlanResponse, PlanResponseHandler)] NotFound).

Definition UnimplementedReasoningServiceHandler : ReasoningServiceHandler := λ m,
  match m with
  | PlanResponse => λ _ _, mret (inl (NewError CodeUnimplemented (ENew "" "intelligence.reasoning.v1alpha1.ReasoningService.PlanResponse is not implemented")))
  end.

Definition file : service := mkService ReasoningService
  [PlanResponse]
  (λ m, match m with | PlanResponse => "PlanResponse" end)
  ReasoningServiceName "File_intelligence_reasoning_v1alpha1_reasoning_proto" Signature Procedure NewReasoningServiceClient reasoningServiceClient_call NewReasoningServiceHandler
  UnimplementedReasoningServiceHandler.

#[global] Instance reasoningService_generated : Generated file.
Proof. generated. Qed.
End generated.
End reasoningv1alpha1connect.

(** ** messaging/notifications/v1alpha1/notificationsv1alpha1connect/notifications.connect.go *)

Module notificationsv1alpha1connect.

Inductive NotificationService := Notify.
Definition NotificationServiceName : string := "messaging.notifications.v1alpha1.NotificationService".
Definition Procedure (m : NotificationService) : string :=
  match m with
  | Notify => "/messaging.notifications.v1alpha1.NotificationService/Notify"
  end.
Definition v1alpha1 (message : string) : string := "messaging/notifications/v1alpha1." +:+ message.
Definition Signature (m : NotificationService) : signature :=
  match m with
  | Notify => unary (v1alpha1 "NotifyRequest") (v1alpha1 "NotifyResponse")
  end.
Definition Schema : string → schema := mkSchema "File_messaging_notifications_v1alpha1_notifications_proto" "NotificationService".

Section generated.
Context `{Connect}.

Definition NotificationServiceClient : Type := ∀ m, client_method (Signature m).
Definition NotificationServiceHandler : Type := ∀ m, handler_method (Signature m).
Definition notificationServiceClient : Type := ∀ m, client_of (Signature m).

Definition NewNotificationServiceClient (httpClient : HTTPClient) (baseURL : string) (opts : list ClientOption)
  : notificationServiceClient :=
  let baseURL := TrimRight "/"%char baseURL in λ m,
  match m with
  | Notify => NewClient httpClient (baseURL +:+ Procedure Notify) (Schema "Notify") opts
  end.

Definition notificationServiceClient_call (c : notificationServiceClient) : NotificationServiceClient := λ m,
  match m with
  | Notify => λ ctx req, CallUnary (c Notify) ctx req
  end.

Definition NewNotificationServiceHandler (svc : NotificationServiceHandler) (opts : list HandlerOption) : string * http_Handler :=
  let NotifyHandler := NewUnaryHandler (Procedure Notify) (svc Notify) (Schema "Notify") opts in
  ("/messaging.notifications.v1alpha1.NotificationService/",
   switch [(Procedure Notify, NotifyHandler)] NotFound).

Definition UnimplementedNotificationServiceHandler : NotificationServiceHandler := λ m,
  match m with
  | Notify => λ _ _, mret (inl (NewError CodeUnimplemented (ENew "" "messaging.notifications.v1alpha1.NotificationService.Notify is not implemented")))
  end.

Definition file : service := mkService NotificationService
  [Notify]
  (λ m, match m with | Notify => "Notify" end)
  NotificationServiceName "File_messaging_notifications_v1alpha1_notifications_proto" Signature Procedure NewNotificationServiceClient notificationServiceClient_call NewNotificationServiceHandler
  UnimplementedNotificationServiceHandler.

#[global] Instance notificationService_generated : Generated file.
Proof. generated. Qed.
End generated.
End notificationsv1alpha1connect.

(** ** timeline/event/v1alpha1/eventv1alpha1connect/event.connect.go *)

Module eventv1alpha1connect.

Inductive TimelineService := Publish | Query | Stream | Resolve | Summary.
Definition TimelineServiceName : string := "timeline.event.v1alpha1.TimelineService".
Definition Procedure (m : TimelineService) : string :=
  match m with
  | Publish => "/timeline.event.v1alpha1.TimelineService/Publish"
  | Query => "/timeline.event.v1alpha1.TimelineService/Query"
  | Stream => "/timeline.event.v1alpha1.TimelineService/Stream"
  | Resolve => "/timeline.event.v1alpha1.TimelineService/Resolve"
  | Summary => "/timeline.event.v1alpha1.TimelineService/Summary"
  end.
Definition v1alpha1 (message : string) : string := "timeline/event/v1alpha1." +:+ message.
Definition Signature (m : TimelineService) : signature :=
  match m with
  | Publish => unary (v1alpha1 "PublishRequest") (v1alpha1 "PublishResponse")
  | Query => unary (v1alpha1 "QueryRequest") (v1alpha1 "QueryResponse")
  | Stream => server_stream (v1alpha1 "StreamRequest") (v1alpha1 "StreamResponse")
  | Resolve => unary (v1alpha1 "ResolveRequest") (v1alpha1 "ResolveResponse")
  | Summary => unary (v1alpha1 "SummaryRequest") (v1alpha1 "SummaryResponse")
  end.
Definition Schema : string → schema := mkSchema "File_timeline_event_v1alpha1_event_proto" "TimelineService".

Section generated.
Context `{Connect}.

Definition TimelineServiceClient : Type := ∀ m, client_method (Signature m).
Definition TimelineServiceHandler : Type := ∀ m, handler_method (Signature m).
Definition timelineServiceClient : Type := ∀ m, client_of (Signature m).

Definition NewTimelineServiceClient (httpClient : HTTPClient) (baseURL : string) (opts : list ClientOption)
  : timelineServiceClient :=
  let baseURL := TrimRight "/"%char baseURL in λ m,
  match m with
  | Publish => NewClient httpClient (baseURL +:+ Procedure Publish) (Schema "Publish") opts
  | Query => NewClient httpClient (baseURL +:+ Procedure Query) (Schema "Query") opts
  | Stream => NewClient httpClient (baseURL +:+ Procedure Stream) (Schema "Stream") opts
  | Resolve => NewClient httpClient (baseURL +:+ Procedure Resolve) (Schema "Resolve") opts
  | Summary => NewClient httpClient (baseURL +:+ Procedure Summary) (Schema "Summary") opts
  end.

Definition timelineServiceClient_call (c : timelineServiceClient) : TimelineServiceClient := λ m,
  match m with
  | Publish => λ ctx req, CallUnary (c Publish) ctx req
  | Query => λ ctx req, CallUnary (c Query) ctx req
  | Stream => λ ctx req, CallServerStream (c Stream) ctx req
  | Resolve => λ ctx req, CallUnary (c Resolve) ctx req
  | Summary => λ ctx req, CallUnary (c Summary) ctx req
  end.

Definition NewTimelineServiceHandler (svc : TimelineServiceHandler) (opts : list HandlerOption) : string * http_Handler :=
  let PublishHandler := NewUnaryHandler (Procedure Publish) (svc Publish) (Schema "Publish") opts in
  let QueryHandler := NewUnaryHandler (Procedure Query) (svc Query) (Schema "Query") opts in
  let StreamHandler := NewServerStreamHandler (Procedure Stream) (svc Stream) (Schema "Stream") opts in
  let ResolveHandler := NewUnaryHandler (Procedure Resolve) (svc Resolve) (Schema "Resolve") opts in
  let SummaryHandler := NewUnaryHandler (Procedure Summary) (svc Summary) (Schema "Summary") opts in
  ("/timeline.event.v1alpha1.TimelineService/",
   switch [(Procedure Publish, PublishHandler);
             (Procedure Query, QueryHandler);
             (Procedure Stream, StreamHandler);
             (Procedure Resolve, ResolveHandler);
             (Procedure Summary, SummaryHandler)] NotFound).

Definition UnimplementedTimelineServiceHandler : TimelineServiceHandler := λ m,
  match m with
  | Publish => λ _ _, mret (inl (NewError CodeUnimplemented (ENew "" "timeline.event.v1alpha1.TimelineService.Publish is not implemented")))
  | Query => λ _ _, mret (inl (NewError CodeUnimplemented (ENew "" "timeline.event.v1alpha1.TimelineService.Query is not implemented")))
  | Stream => λ _ _ _, mret (Some (NewError CodeUnimplemented (ENew "" "timeline.event.v1alpha1.TimelineService.Stream is not implemented")))
  | Resolve => λ _ _, mret (inl (NewError CodeUnimplemented (ENew "" "timeline.event.v1alpha1.TimelineService.Resolve is not implemented")))
  | Summary => λ _ _, mret (inl (NewError CodeUnimplemented (ENew "" "timeline.event.v1alpha1.TimelineService.Summary is not implemented")))
  end.

Definition file : service := mkService TimelineService
  [Publish; Query; Stream; Resolve; Summary]
  (λ m, match m with | Publish => "Publish" | Query => "Query" | Stream => "Stream" | Resolve => "Resolve" | Summary => "Summary" end)
  TimelineServiceName "File_timeline_event_v1alpha1_event_proto" Signature Procedure NewTimelineServiceClient timelineServiceClient_call NewTimelineServiceHandler
  UnimplementedTimelineServiceHandler.

#[global] Instance timelineService_generated : Generated file.
Proof. generated. Qed.
End generated.
End eventv1alpha1connect.
