(* ===== verification/Contracts.v ===== *)
(** * contracts: all services on one server

    The services of [ContractsWork.v], [ContractsPlatform.v] and
    [ContractsKnowledge.v], each mounted on the path that its handler asks for, and
    their clients. *)

From Stdlib Require Import Ascii.
From S2P Require Import Prelude GoStrings GoErr GoMonad Connect ContractsWork ContractsPlatform ContractsKnowledge.

Module contracts.
Import connect.

Section all.
Context `{Connect}.

Definition services : list service :=
  [etchingsv1alpha1connect.file; boardv1alpha1connect.file; frictionv1alpha1connect.file;
   ideasv1alpha1connect.file; issuesv1alpha1connect.file; pullsv1alpha1connect.file;
   statusv1alpha1connect.file; hooksv1alpha1connect.file; syncv1alpha1connect.file;
   toolsv1alpha1connect.file; governancev1alpha1connect.file; spokev1alpha1connect.file;
   reposv1alpha1connect.file; skillsv1alpha1connect.file; memoryv1alpha1connect.file;
   reasoningv1alpha1connect.file; notificationsv1alpha1connect.file; eventv1alpha1connect.file].

Lemma all_served : served services.
Proof.
  split; [unfold services; repeat (apply List.Forall_cons; [apply _|]); apply List.Forall_nil|]. apply (bool_decide_unpack _). vm_compute. exact I.
Qed.

Context `{!ConnectLaws deliver wire}.

(** C33: Every generated client reaches the implementation of the method it names. With the
    handlers of all services mounted on one server, each on the path it asks for, a
    call through the client of any service is a call of the method of that name of that
    service's implementation, whatever slashes the URL of the server ends in. A request
    for a path that is no procedure reaches no implementation: the path of a service
    without its slash is redirected to the path with it, a path that is not clean to
    the clean one, and any other is not found. (A request here is one whose path has
    no percent-encoded byte, and not of the method CONNECT.) And a method that is left to the
    unimplemented handler answers with that code and its own full name. *)
Theorem clients_reach_implementations (impl : ∀ s m, handler_method (signature_of s m)) (url : string) :
  let server := server services impl in
  let client s := call s (new_client s (deliver (TrimRight "/"%char url) server) url []) in
  (∀ s m, s ∈ services → same_calls (signature_of s m) (client s m) (wire (signature_of s m) (impl s m))) ∧
  (∀ r, (∀ s m, s ∈ services → URLPath r ≠ Procedure s m) → elsewhere services r (server r)) ∧
  (∀ s m, s ∈ services → impl s m = unimplemented s m →
     same_calls (signature_of s m) (client s m)
       (wire (signature_of s m) (fails_with (signature_of s m)
          (NewError CodeUnimplemented
             (ENew "" (ServiceName s +:+ "." +:+ method_name s m +:+ " is not implemented")))))).
Proof using All.
  intros server client. split; [|split].
  - intros s m Hs. exact (client_calls services impl s m url all_served Hs).
  - intros r. apply server_elsewhere, all_served.
  - intros s m Hs E. pose proof (served_generated _ _ all_served Hs). rewrite <- unimplemented_spec, <- E.
    exact (client_calls services impl s m url all_served Hs).
Qed.
End all.

(** ** A connection

    Requests and responses are texts; a handler leaves its answer in the world, where
    the client that sent the request takes it. *)
Definition answer : Type := error + string.

Definition take : go (list answer) answer := λ w,
  match w with a :: w => (Returned a, w) | [] => (Panicked "no answer", []) end.
Definition put (a : answer) : go (list answer) unit := λ w, (Returned tt, a :: w).

Definition send (c : (string * (string * string → go (list answer) unit)) * string) (req : string)
  : go (list answer) answer :=
  _ ← c.1.2 (str_drop (str_len c.1.1) c.2, req);
  take.

Definition as_stream (a : answer) : error + option error :=
  inr (match a with inl e => Some e | inr _ => None end).
Definition of_stream (e : option error) : answer :=
  match e with Some e => inl e | None => inr "" end.

#[export] Instance local : Connect := {|
  W := list answer; Context := unit; HTTPClient := string * (string * string → go (list answer) unit);
  HTTPRequest := string * string; ClientOption := Empty_set; HandlerOption := Empty_set; Code := string;
  Request := λ _, string; Response := λ _, string; ServerStreamForClient := λ _, option error;
  StreamWriter := λ _, unit; Client := λ _ _, ((string * (string * string → go (list answer) unit)) * string)%type;
  URLPath := fst; NewClient := λ _ _ http url _ _, (http, url);
  CallUnary := λ _ _ c _ req, send c req;
  CallServerStream := λ _ _ c _ req, (a ← send c req; mret (as_stream a));
  NewUnaryHandler := λ _ _ _ f _ _ r, (a ← f tt r.2; put a);
  NewServerStreamHandler := λ _ _ _ f _ _ r, (e ← f tt r.2 tt; put (of_stream e));
  NotFound := λ _, put (inl (ENew "404" "404 page not found"));
  Redirect := λ path _, put (inl (ENew "301" ("Moved Permanently: " +:+ path)));
  CodeUnimplemented := "unimplemented"; NewError := λ c e, wrap_pre (c +:+ ": ") e
|}.

Definition wire_local (s : signature) : handler_method s → client_method s :=
  match s with
  | mkSignature Unary _ _ => λ f _ req, (a ← f tt req; _ ← put a; take)
  | mkSignature ServerStream _ _ => λ f _ req, (e ← f tt req tt; _ ← put (of_stream e); a ← take; mret (as_stream a))
  end.

#[export] Instance local_laws : ConnectLaws (H:=local) pair wire_local.
Proof.
  split. intros [[] i o] base h p sch f Hh ctx req w; simpl in *; unfold send; simpl;
    rewrite str_drop_app, (Hh (p, req) eq_refl); cbv [mbind go_bind]; simpl.
  - by destruct (f tt req w) as [[[]|] ?].
  - by destruct (f tt req tt w) as [[[]|] ?].
Qed.

(** Implementations that tell who they are; the pulls are not implemented. *)
Definition who (s : service) (m : method s) : handler_method (signature_of s m) :=
  if bool_decide (ServiceName s = "collaboration.pulls.v1alpha1.PullsService") then unimplemented s m
  else match signature_of s m as g return handler_method g with
       | mkSignature Unary _ _ => λ _ req, mret (inr (ServiceName s +:+ "." +:+ method_name s m +:+ " of " +:+ req))
       | mkSignature ServerStream _ _ => λ _ _ _, mret None
       end.

Lemma clients_reach_implementations_witness :
  let url := "http://localhost//" in
  let client s := call s (new_client s ("http://localhost", server services who) url []) in
  client eventv1alpha1connect.file eventv1alpha1connect.Publish tt "x" [] =
    (Returned (inr "timeline.event.v1alpha1.TimelineService.Publish of x"), []) ∧
  client eventv1alpha1connect.file eventv1alpha1connect.Stream tt "x" [] = (Returned (inr None), []) ∧
  client pullsv1alpha1connect.file pullsv1alpha1connect.MergePullRequest tt "x" [] =
    (Returned (inl (wrap_pre "unimplemented: "
       (ENew "" "collaboration.pulls.v1alpha1.PullsService.MergePullRequest is not implemented"))), []).
Proof.
  intros url client. destruct (clients_reach_implementations who url) as (Hc & _ & Hu). split_and!.
  - etransitivity; [apply (Hc eventv1alpha1connect.file eventv1alpha1connect.Publish)|by vm_compute].
    unfold services. rewrite !elem_of_cons. tauto.
  - etransitivity; [apply (Hc eventv1alpha1connect.file eventv1alpha1connect.Stream)|by vm_compute].
    unfold services. rewrite !elem_of_cons. tauto.
  - etransitivity; [apply (Hu pullsv1alpha1connect.file pullsv1alpha1connect.MergePullRequest)|by vm_compute].
    + unfold services. rewrite !elem_of_cons. tauto.
    + reflexivity.
Defined.
End contracts.
