(* ===== verification/Web.v ===== *)
(** * platform/web, and the google-addon blueprint

    Models [src/go/platform/web/web.go] and [handler.go], [timeentry.go] of
    [src/blueprints/google-addon/go]. A handler acts on the response writer of its
    request ([Writer]); encoding/json and the HTTP client are parameters. *)

From S2P Require Import Prelude GoStrings GoFloat GoFormat GoErr GoMonad Apierr SlogGcp.
From Stdlib Require Import Ascii.
Import apierr.

Module web.

(** ** Responses *)

(** The header that is prepared, the status and header that were sent, the body. *)
Record Writer := mkWriter { ctype : string; sent : option (Z * string); wbody : string }.
Definition new_writer : Writer := mkWriter "" None "".

(** [bodyAllowedForStatus] of [net/http], and the content type that is sent: it
    is taken out of the header of a 304. *)
Definition body_allowed (status : Z) : bool :=
  negb ((100 <=? status) && (status <? 200) || (status =? 204) || (status =? 304)).
Definition sent_type (status : Z) (ct : string) : string := if status =? 304 then "" else ct.

(** [w.Header().Set("Content-Type", ct)], [w.WriteHeader], [w.Write] of [net/http]: the
    first status that is not informational counts, a body makes it 200, and a
    status that permits no body makes [Write] fail with [ErrBodyNotAllowed] and
    send nothing. The guess of a content type that was not set is left out; the
    status is from 100 to 999, outside of which WriteHeader panics. *)
Definition SetContentType (ct : string) (w : Writer) : Writer := mkWriter ct (sent w) (wbody w).
Definition WriteHeader (status : Z) (w : Writer) : Writer :=
  match sent w with
  | Some _ => w
  | None => if (100 <=? status) && (status <? 200) && negb (status =? 101) then w
            else mkWriter (ctype w) (Some (status, sent_type status (ctype w))) (wbody w)
  end.
Definition Write (b : string) (w : Writer) : Writer :=
  let h := default (200, ctype w) (sent w) in
  mkWriter (ctype w) (Some h) (if body_allowed h.1 then wbody w +:+ b else wbody w).

Definition DefaultMaxJSONSize : Z := 1024 * 1024.
Definition ErrTrailingGarbage : error :=
  ENew "web.ErrTrailingGarbage" "request body must only contain a single JSON object".
Definition ErrPanicRecovered : error := ENew "web.ErrPanicRecovered" "API recovered from panic".

(** [encoded] is what encoding/json makes of the value, with its newline; a value
    that cannot be encoded is only logged. *)
Definition EncodeJSON (status : Z) (encoded : error + string) (w : Writer) : Writer :=
  let w := WriteHeader status (SetContentType "application/json" w) in
  match encoded with inl _ => w | inr text => Write text w end.

(** [http.Error] *)
Definition http_Error (msg : string) (code : Z) (w : Writer) : Writer :=
  Write (msg +:+ String (ascii_of_nat 10) "") (WriteHeader code (SetContentType "text/plain; charset=utf-8" w)).

Section decode.
(** A decoder over the first [limit] bytes of a body that refuses unknown fields:
    the next value, or the error, of a stream. *)
Context {Stream T : Type} (MaxBytesReader : Z → Stream → Stream)
  (Decode : Stream → (error + T) * Stream) (DecodeEmpty : Stream → option error).

Definition DecodeJSON (body : Stream) (maxSize : Z) : error + T :=
  let limit := if maxSize <=? 0 then DefaultMaxJSONSize else maxSize in
  let '(v, body) := Decode (MaxBytesReader limit body) in
  match v with
  | inl err => inl (wrap_pre "failed to decode JSON body: " err)
  | inr v => if negb (errors_is "io.EOF" (DecodeEmpty body)) then inl ErrTrailingGarbage else inr v
  end.
End decode.

Definition NewRequestWithContext {Ctx Body Req : Type} (http_New : Ctx → string → string → Body → error + Req)
    (ctx : Ctx) (method url : string) (body : Body) : error + Req :=
  match http_New ctx method url body with
  | inl err => inl (wrap_pre "failed to create http request: " err)
  | inr req => inr req
  end.

(** ** Errors *)

Definition minHonouredStatus : Z := 300.
Definition maxHonouredStatus : Z := 599.
Definition isHonouredStatus (status : Z) : bool :=
  (minHonouredStatus <=? status) && (status <=? maxHonouredStatus).

(** [errors.AsType[*apierr.StatusError]]: the first of the chain, depth first. *)
Fixpoint as_status (e : error) : option (Z * string * error) :=
  match e with
  | ENew _ _ => None
  | EFmt ps => as_status_parts ps
  | EPermanent e => as_status e
  | EStatus code body e => Some (code, body, e)
  | ECustom _ _ _ ps => as_status_parts ps
  end
with as_status_parts (ps : parts) : option (Z * string * error) :=
  match ps with
  | PNil => None
  | PText _ ps | PShow _ ps => as_status_parts ps
  | PWrap e ps => match as_status e with Some s => Some s | None => as_status_parts ps end
  end.

(** The sentinels that are mapped, in the order they are tried. *)
Definition mapped : list (string * Z) :=
  [("apierr.ErrInvalidInput", 400); ("apierr.ErrUnauthorized", 401); ("apierr.ErrForbidden", 403);
   ("apierr.ErrNotFound", 404); ("apierr.ErrTimeout", 408); ("apierr.ErrConflict", 409);
   ("apierr.ErrRateLimited", 429)].

Definition generic_message : string := "An internal server error occurred".

(** The status and the message of an error. *)
Definition present (err : error) : Z * string :=
  match as_status err with
  | Some (status, _, inner) =>
      if isHonouredStatus status then (status, error_text (EStatus status "" inner)) else (500, generic_message)
  | None =>
      match find (λ m, is_err m.1 err) mapped with
      | Some (_, status) => (status, error_text err)
      | None => (500, generic_message)
      end
  end.

Lemma present_range err : 300 ≤ (present err).1 ≤ 599.
Proof.
  unfold present. destruct (as_status err) as [[[status b] inner]|].
  - unfold isHonouredStatus, minHonouredStatus, maxHonouredStatus.
    destruct ((300 <=? status) && (status <=? 599)) eqn:E; simpl; [bool_to_prop; lia|lia].
  - destruct (find _ mapped) as [[n status]|] eqn:E; simpl; [|lia].
    apply find_some in E as [Hin _]. simpl in Hin. intuition; simplify_eq; lia.
Qed.

Section with_json.
(** The encoding of a map with the one key [error], and its newline. *)
Context (error_json : string → string).

Definition WriteError (err : error) (w : Writer) : Writer :=
  let '(status, msg) := present err in EncodeJSON status (inr (error_json msg)) w.

(** ** Middleware *)

(** A handler acts on the writer, and may panic. *)
Definition Handler : Type := go Writer unit.

Definition RecoveryMiddleware (next : Handler) : Handler := λ w,
  match next w with
  | (Returned tt, w) => (Returned tt, w)
  | (Panicked _, w) => (Returned tt, WriteError ErrServerError w)
  end.

Definition ContentTypeJSONMiddleware (method content_type : string) (next : Handler) : Handler :=
  if bool_decide (method = "POST") || bool_decide (method = "PUT") || bool_decide (method = "PATCH")
  then if negb (bool_decide (content_type = "")) &&
          negb (has_prefix "application/json" (to_lower content_type))
       then λ w, (Returned tt, EncodeJSON 415 (inr (error_json "Content-Type must be application/json")) w)
       else next
  else next.

(** ** Theorems *)

(** The table in the documentation of [apierr], as far as a response can be told
    from the error. *)
Definition documented : list (string * Z) :=
  [("apierr.ErrInvalidInput", 400); ("apierr.ErrUnauthorized", 401); ("apierr.ErrForbidden", 403);
   ("apierr.ErrNotFound", 404); ("apierr.ErrTimeout", 408); ("apierr.ErrConflict", 409);
   ("apierr.ErrRateLimited", 429)].

Lemma find_first {A} (f : A → bool) l x :
  find f l = Some x → ∃ pre post, l = pre ++ x :: post ∧ f x = true ∧ Forall (λ y, f y = false) pre.
Proof.
  induction l as [|y l IH]; [done|]. simpl. destruct (f y) eqn:E.
  - intros [= ->]. by exists [], l.
  - intros (pre & post & -> & Hx & Hp)%IH. exists (y :: pre), post. by repeat constructor.
Qed.

Lemma encode_json status text w :
  sent w = None → 300 ≤ status →
  EncodeJSON status (inr text) w =
  mkWriter "application/json" (Some (status, if decide (status = 304) then "" else "application/json"))
    (if decide (status = 304) then wbody w else wbody w +:+ text).
Proof.
  intros Hw Hs. unfold EncodeJSON, Write, WriteHeader, SetContentType. simpl. rewrite Hw.
  rewrite (proj2 (Z.ltb_ge status 200)), andb_false_r by lia. simpl. unfold sent_type, body_allowed.
  rewrite (proj2 (Z.ltb_ge status 200)), andb_false_r, (proj2 (Z.eqb_neq status 204)) by lia. simpl.
  destruct (Z.eqb_spec status 304), (decide (status = 304)); done.
Qed.

(** C23: An error never looks like a success, and the body of the StatusError that
    it carries is not shown. On a response that has not begun, WriteError sends a
    status from 300 to 599 with one JSON object, or 304 with neither a body nor a
    content type, which that status does not permit. When errors.AsType finds a
    StatusError, the first of the chain, with a status in that range, this is the
    status, and the message is the text of the error within it, a colon and the
    status: neither its body nor what wraps it is shown, and errors that differ
    in these give the same response; with another status, and for an error with
    none of the documented sentinels, it is 500 with a fixed message. An error
    with a sentinel and no StatusError gives the status documented for the first
    such sentinel, and its text. *)
Theorem write_error_safe (err : error) (w : Writer) :
  sent w = None →
  ∃ status msg, 300 ≤ status ≤ 599 ∧
    WriteError err w =
      mkWriter "application/json" (Some (status, if decide (status = 304) then "" else "application/json"))
        (if decide (status = 304) then wbody w else wbody w +:+ error_json msg) ∧
    (∀ code body inner, as_status err = Some (code, body, inner) →
       (if decide (300 ≤ code ≤ 599)
        then status = code ∧ msg = error_text inner +:+ ": " +:+ itoa code
        else status = 500 ∧ msg = "An internal server error occurred") ∧
       ∀ err' body', as_status err' = Some (code, body', inner) → WriteError err' w = WriteError err w) ∧
    (as_status err = None →
       (∃ pre name post, documented = pre ++ (name, status) :: post ∧ is_err name err = true ∧
          Forall (λ s, is_err s.1 err = false) pre ∧ msg = error_text err) ∨
       Forall (λ s, is_err s.1 err = false) documented ∧
         status = 500 ∧ msg = "An internal server error occurred").
Proof.
  intros Hw. destruct (present err) as [status msg] eqn:E. exists status, msg.
  pose proof (present_range err) as Hr. rewrite E in Hr. simpl in Hr. split; [done|]. split; [|split].
  - unfold WriteError. rewrite E. apply encode_json; [done|lia].
  - intros code body inner Ea. split.
    + unfold present in E. rewrite Ea in E. unfold isHonouredStatus, minHonouredStatus, maxHonouredStatus in E.
      destruct ((300 <=? code) && (code <=? 599)) eqn:Eb; simplify_eq.
      * bool_to_prop. by rewrite decide_True by lia.
      * rewrite decide_False; [done|]. intros [H1 H2]. apply Z.leb_le in H1, H2. by rewrite H1, H2 in Eb.
    + intros err' body' Ea'. unfold WriteError, present. by rewrite Ea, Ea'.
  - intros Ea. unfold present in E. rewrite Ea in E.
    destruct (find _ mapped) as [[n s]|] eqn:Ef; simplify_eq.
    + left. apply find_first in Ef as (pre & post & Em & Hx & Hp). by exists pre, n, post.
    + right. split; [|done]. apply Forall_forall. intros x Hx.
      by apply (find_none _ _ Ef), list_elem_of_In.
Qed.

(** A panic does not pass, and answers 500 when nothing was sent. Without a
    panic the response is the handler's own; when the handler had sent its status
    already, that status stays and the error object follows what it wrote, when
    the status permits a body. *)
Theorem recovery_exact (next : Handler) (w : Writer) :
  ∃ w', RecoveryMiddleware next w = (Returned tt, w') ∧
    match next w with
    | (Returned _, w1) => w' = w1
    | (Panicked _, w1) =>
        let h := default (500, "application/json") (sent w1) in
        sent w' = Some h ∧
        wbody w' = (if body_allowed h.1 then wbody w1 +:+ error_json generic_message else wbody w1)
    end.
Proof.
  unfold RecoveryMiddleware. destruct (next w) as [[[]|p] w1]; [by eexists|].
  eexists. split; [reflexivity|]. unfold WriteError. simpl.
  unfold EncodeJSON, Write, WriteHeader, SetContentType. simpl. by destruct (sent w1).
Qed.
End with_json.

Lemma write_error_safe_witness :
  let err := wrap_pre "get: " (EStatus 404 "secret" ErrNotFound) in
  ∃ status msg, WriteError (λ m, "<" +:+ m +:+ ">") err new_writer =
    mkWriter "application/json" (Some (status, if decide (status = 304) then "" else "application/json"))
      (if decide (status = 304) then "" else "" +:+ "<" +:+ msg +:+ ">") ∧
    status = 404 ∧ msg = "not found: 404".
Proof.
  intros err.
  destruct (write_error_safe (λ m, "<" +:+ m +:+ ">") err new_writer) as (status & msg & _ & H1 & H2 & _); [reflexivity|].
  exists status, msg. split; [exact H1|]. apply (H2 404 "secret" ErrNotFound). reflexivity.
Defined.

(** The body of a StatusError within a StatusError is part of the text of the error
    within, and is shown. *)
Example nested_body_shown :
  WriteError (λ m, "{" +:+ m +:+ "}") (EStatus 502 "hidden" (EStatus 500 "shown" ErrServerError)) new_writer =
    mkWriter "application/json" (Some (502, "application/json")) "{server error: 500 shown: 502}".
Proof. reflexivity. Qed.

(** A handler that panics in the middle of its body: the client gets status 200 and
    an error object after the part that was written. *)
Example panic_after_body :
  RecoveryMiddleware (λ m, "{" +:+ m +:+ "}") (λ w, (Panicked "boom", Write "part" w)) new_writer =
    (Returned tt, mkWriter "application/json" (Some (200, ""))
       "part{An internal server error occurred}").
Proof. reflexivity. Qed.

End web.

Module addon.
Import web.

(** ** Events and cards *)

(** What the handler reads of an event; a map that is absent is nil. *)
Record AddOnEvent := mkEvent {
  FormInputs : option (gmap string (list string)); Parameters : gmap string string
}.

Definition FormInputValue (e : AddOnEvent) (fieldName : string) : string :=
  match FormInputs e with
  | None => ""
  | Some inputs => match inputs !! fieldName with Some (v :: _) => v | _ => "" end
  end.

Record ActionSpec := mkAction { FunctionName : string; act_Parameters : list (string * string) }.
Record Button := mkButton { btn_Text : string; OnClick : option ActionSpec }.
Record TextInputWidget := mkTextInput {
  in_Name : string; Label : string; Value : string; Multiline : bool; HintText : string
}.
(** A widget has one of its three fields. *)
Inductive Widget := TextParagraph (text : string) | TextInput (w : TextInputWidget) | ButtonList (bs : list Button).
Record CardHeader := mkHeader { Title : string; Subtitle : string; ImageURL : string }.
Record CardSection := mkSection { Widgets : list Widget }.
Record CardV2 := mkCard { Header : CardHeader; Sections : list CardSection }.
(** The response pushes one card. *)
Definition CardResponse : Type := CardV2.

Record TimeEntry := mkEntry {
  Client : string; Project : string; DurationHours : float64; entry_Title : string; Summary : string
}.

Definition Sanitize (t : TimeEntry) : TimeEntry :=
  let client := if bool_decide (Client t = "") then "General" else Client t in
  let project := if bool_decide (Project t = "") then "Work" else Project t in
  mkEntry client project
    (if SFleb (DurationHours t) zero64 then of_int 1 else DurationHours t)
    (if bool_decide (entry_Title t = "") then "[" +:+ client +:+ "] " +:+ project else entry_Title t)
    (Summary t).

Definition homepageCard : CardV2 :=
  mkCard (mkHeader "AI Time Tracker (Go)" "Powered by Alexandria & Gemini Flash"
            "https://www.gstatic.com/images/icons/material/system/1x/schedule_black_24dp.png")
    [mkSection
       [TextParagraph "📝 <b>Describe your work in plain English:</b><br>Our Go backend will structure your time log with Gemini AI.";
        TextInput (mkTextInput "work_note" "Work Note" "" true
                     "e.g. Spent 2 hours reviewing PRs and deploying Cloud Run for Acme");
        ButtonList [mkButton "✨ Analyze & Structure with AI"
                      (Some (mkAction "onAnalyzeNote" [("action", "analyze")]))]]].

Definition confirmCard (entry : TimeEntry) : CardV2 :=
  mkCard (mkHeader "Confirm Time Entry" (entry_Title entry) "")
    [mkSection
       [TextInput (mkTextInput "entry_title" "Event Title" (entry_Title entry) false "");
        TextInput (mkTextInput "entry_duration" "Duration (Hours)" (FormatFixed 2 (DurationHours entry)) false "");
        TextInput (mkTextInput "entry_summary" "Description / Notes" (Summary entry) true "");
        TextParagraph ("Client: <b>" +:+ Client entry +:+ "</b> | Project: <b>" +:+ Project entry +:+ "</b>")]].

(** ** The handler *)

Record HTTPRequest := mkRequest { url : string; headers : list (string * string); req_body : string }.
Record HTTPResponse := mkResponse { StatusCode : Z; resp_body : string }.

Section handler.
(** The network, and encoding/json on each type it is used with. *)
Context {W : Type} (getenv : string → string) (Do : HTTPRequest → W → (error + HTTPResponse) * W)
  (prompt_of : string → string) (marshal_prompt : string → error + string)
  (new_request_error : string → option error)
  (decode_candidates : string → error + list (list string)) (unmarshal_entry : string → error + TimeEntry)
  (card_json : CardV2 → string) (error_json : string → string).

Definition callGeminiExtractAt (endpoint note apiKey : string) : go W (error + TimeEntry) :=
  match marshal_prompt (prompt_of note) with
  | inl err => mret (inl (wrap_pre "failed to marshal request: " err))
  | inr body =>
      match new_request_error endpoint with
      | Some err => mret (inl (wrap_pre "failed to create http request: " err))
      | None =>
          resp ← does (Do (mkRequest endpoint
                             [("Content-Type", "application/json"); ("X-Goog-Api-Key", apiKey)] body));
          mret (match resp with
                | inl err => inl (wrap_pre "gemini request failed: " err)
                | inr resp =>
                    if negb (StatusCode resp =? 200)
                    then inl (EFmt (PText ("gemini API returned status " +:+ itoa (StatusCode resp) +:+ ": " +:+
                                           resp_body resp) PNil))
                    else
                      match decode_candidates (resp_body resp) with
                      | inl err => inl (wrap_pre "failed to decode gemini response: " err)
                      | inr ((rawJSON :: _) :: _) =>
                          match unmarshal_entry rawJSON with
                          | inl err => inl (wrap_pre "failed to parse structured time entry JSON: " err)
                          | inr entry => inr entry
                          end
                      | inr _ => inl (EFmt (PText "empty response from gemini" PNil))
                      end
                end)
      end
  end.

Definition geminiEndpoint : string :=
  "https://generativelanguage.googleapis.com/v1beta/models/gemini-1.5-flash:generateContent".
Definition callGeminiExtract (note apiKey : string) : go W (error + TimeEntry) :=
  callGeminiExtractAt geminiEndpoint note apiKey.

Definition handleHomepage (w : Writer) : Writer := EncodeJSON 200 (inr (card_json homepageCard)) w.

Definition handleAnalyzeNote (w : Writer) (event : AddOnEvent) : go W Writer :=
  let note := FormInputValue event "work_note" in
  if bool_decide (note = "") then mret (handleHomepage w)
  else
    let apiKey := getenv "GEMINI_API_KEY" in
    if bool_decide (apiKey = "") then mret (http_Error "GEMINI_API_KEY not configured" 500 w)
    else
      entry ← callGeminiExtract note apiKey;
      mret (match entry with
            | inl err => http_Error ("AI extraction failed: " +:+ error_text err) 500 w
            | inr entry => EncodeJSON 200 (inr (card_json (confirmCard (Sanitize entry)))) w
            end).

(** [decoded] is what [DecodeJSON] makes of the request's body. *)
Definition HandleCalendarTrigger (method : string) (decoded : error + AddOnEvent) (w : Writer) : go W Writer :=
  if negb (bool_decide (method = "POST")) then mret (http_Error "Method not allowed" 405 w)
  else
    match decoded with
    | inl err => mret (WriteError error_json err w)
    | inr event =>
        if bool_decide (default "" (Parameters event !! "action") = "analyze")
        then handleAnalyzeNote w event
        else mret (handleHomepage w)
    end.

(** ** The service *)

Record Server := mkServer {
  Addr : string; ReadHeaderTimeout : Z; ReadTimeout : Z; WriteTimeout : Z; IdleTimeout : Z
}.
Definition readHeaderTimeout : Z := 10 * Second.
Definition readTimeout : Z := 30 * Second.
Definition writeTimeout : Z := 60 * Second.
Definition idleTimeout : Z := 120 * Second.

Definition server : Server :=
  let port := getenv "PORT" in
  let port := if bool_decide (port = "") then "8080" else port in
  mkServer (":" +:+ port) readHeaderTimeout readTimeout writeTimeout idleTimeout.

(** The routes of the mux, for a clean path: one exact, and the rest. *)
Definition healthz (w : Writer) : Writer := Write "ok" (WriteHeader 200 w).
Definition mux (path method : string) (decoded : error + AddOnEvent) (w : Writer) : go W Writer :=
  if bool_decide (path = "/healthz") then mret (healthz w) else HandleCalendarTrigger method decoded w.

(** [sloggcp.TraceMiddleware(web.RecoveryMiddleware(mux))] for a request without a
    context of its own: the context the routes get, and what is answered. A route of
    this mux that panics has written nothing. *)
Definition service (header : string → string) (path method : string) (decoded : error + AddOnEvent) (s : W)
  : SlogGcp.trace.Ctx * (outcome unit * Writer) * W :=
  let ctx := SlogGcp.trace.TraceMiddleware header (SlogGcp.trace.mkCtx None) in
  let '(o, s') := mux path method decoded new_writer s in
  let next : Handler := λ w, match o with Returned w' => (Returned tt, w') | Panicked p => (Panicked p, w) end in
  (ctx, RecoveryMiddleware error_json next new_writer, s').
End handler.

(** ** Theorems *)

Lemma analyze_same_key {W} (g1 g2 : string → string) (Do1 Do2 : HTTPRequest → W → (error + HTTPResponse) * W)
    po mp nr dc ue cj w event s :
  g1 "GEMINI_API_KEY" ≠ "" → g2 "GEMINI_API_KEY" ≠ "" →
  (∀ url body s, Do1 (mkRequest url [("Content-Type", "application/json"); ("X-Goog-Api-Key", g1 "GEMINI_API_KEY")] body) s =
                 Do2 (mkRequest url [("Content-Type", "application/json"); ("X-Goog-Api-Key", g2 "GEMINI_API_KEY")] body) s) →
  handleAnalyzeNote g1 Do1 po mp nr dc ue cj w event s =
  handleAnalyzeNote g2 Do2 po mp nr dc ue cj w event s.
Proof.
  intros H1 H2 Hd. unfold handleAnalyzeNote. case_bool_decide; [done|].
  rewrite !bool_decide_eq_false_2 by done. unfold callGeminiExtract, callGeminiExtractAt.
  destruct (mp (po _)); [done|]. destruct (nr _); [done|].
  cbv [mbind go_bind does mret go_ret]. by rewrite Hd.
Qed.

(** The API key does not show. Two deployments that differ in the key, and whose
    network answers the same, answer every request the same, errors included:
    the key only goes into the header of the call. *)
Theorem key_not_shown {W} (g1 g2 : string → string) (Do1 Do2 : HTTPRequest → W → (error + HTTPResponse) * W)
    po mp nr dc ue cj ej method decoded w s :
  g1 "GEMINI_API_KEY" ≠ "" → g2 "GEMINI_API_KEY" ≠ "" →
  (∀ url body s, Do1 (mkRequest url [("Content-Type", "application/json"); ("X-Goog-Api-Key", g1 "GEMINI_API_KEY")] body) s =
                 Do2 (mkRequest url [("Content-Type", "application/json"); ("X-Goog-Api-Key", g2 "GEMINI_API_KEY")] body) s) →
  HandleCalendarTrigger g1 Do1 po mp nr dc ue cj ej method decoded w s =
  HandleCalendarTrigger g2 Do2 po mp nr dc ue cj ej method decoded w s.
Proof.
  intros H1 H2 Hd. unfold HandleCalendarTrigger. case_bool_decide; simpl; [|done].
  destruct decoded as [e|event]; [done|]. case_bool_decide; [|done]. by apply analyze_same_key.
Qed.

(** A cleaned entry has no field that is empty but the summary, its duration is
    positive or not a number, and cleaning it again changes nothing. *)
Lemma sanitize_exact t :
  let s := Sanitize t in
  Client s ≠ "" ∧ Project s ≠ "" ∧ entry_Title s ≠ "" ∧ SFleb (DurationHours s) zero64 = false ∧ Sanitize s = s.
Proof.
  assert (∀ a d, d ≠ "" → (if bool_decide (a = "") then d else a) ≠ "") as Hne.
  { intros a d Hd. by case_bool_decide. }
  assert (Client (Sanitize t) ≠ "") as Hc by by apply Hne.
  assert (Project (Sanitize t) ≠ "") as Hp by by apply Hne.
  assert (entry_Title (Sanitize t) ≠ "") as Ht by (apply Hne; by intros [??]%str_app_eq_nil).
  assert (SFleb (DurationHours (Sanitize t)) zero64 = false) as Hd.
  { simpl. by destruct (SFleb (DurationHours t) zero64) eqn:E. }
  intros s. repeat (split; [done|]). subst s. revert Hc Hp Ht Hd. generalize (Sanitize t).
  intros [c p d ti su] Hc Hp Ht Hd. unfold Sanitize. simpl in *.
  by rewrite !bool_decide_eq_false_2, Hd by done.
Qed.

(** Every request is answered. Whatever comes in and whatever the network does, the
    service ends without a panic and has sent one status, 200 or that of an error;
    the health check is 200 whatever the state, and touches nothing. *)
Theorem service_answers {W} getenv (Do : HTTPRequest → W → (error + HTTPResponse) * W)
    po mp nr dc ue cj ej header path method decoded s :
  let '(_, (o, w), s') := service getenv Do po mp nr dc ue cj ej header path method decoded s in
  o = Returned tt ∧ (∃ status ct, sent w = Some (status, ct) ∧ (status = 200 ∨ 300 ≤ status ≤ 599)) ∧
  (path = "/healthz" → w = mkWriter "" (Some (200, "")) "ok" ∧ s' = s) ∧
  (path ≠ "/healthz" → method ≠ "POST" → option_map fst (sent w) = Some 405 ∧ s' = s) ∧
  (∀ err, path ≠ "/healthz" → method = "POST" → decoded = inl err →
     w = WriteError ej err new_writer ∧ s' = s).
Proof.
  unfold service.
  assert (∃ w' s', mux getenv Do po mp nr dc ue cj ej path method decoded new_writer s = (Returned w', s') ∧
    (∃ status ct, sent w' = Some (status, ct) ∧ (status = 200 ∨ 300 ≤ status ≤ 599)) ∧
    (path = "/healthz" → w' = mkWriter "" (Some (200, "")) "ok" ∧ s' = s) ∧
    (path ≠ "/healthz" → method ≠ "POST" → option_map fst (sent w') = Some 405 ∧ s' = s) ∧
    (∀ err, path ≠ "/healthz" → method = "POST" → decoded = inl err →
       w' = WriteError ej err new_writer ∧ s' = s)) as (w' & s' & -> & H).
  { unfold mux. destruct (bool_decide_reflect (path = "/healthz")) as [Hp|Hp].
    { do 2 eexists. split; [reflexivity|]. split; [by do 2 eexists; split; [reflexivity|left]|]. by repeat split. }
    unfold HandleCalendarTrigger. destruct (bool_decide_reflect (method = "POST")) as [Hm|Hm]; simpl.
    2: { do 2 eexists. split; [reflexivity|]. split; [do 2 eexists; split; [reflexivity|right; lia]|]. by repeat split. }
    destruct decoded as [err|event].
    { do 2 eexists. split; [reflexivity|]. split; [|split; [done|split; [done|by intros ? ? ? [= ->]]]].
      unfold WriteError. pose proof (present_range err) as Hr. destruct (present err) as [status msg]. simpl in Hr.
      eexists status, _. rewrite encode_json by (done || lia). split; [done|by right]. }
    destruct (bool_decide (default "" _ = "analyze")).
    - unfold handleAnalyzeNote. destruct (bool_decide (_ = "")).
      { do 2 eexists. split; [reflexivity|]. split; [by do 2 eexists; split; [reflexivity|left]|]. by repeat split. }
      destruct (bool_decide (getenv _ = "")).
      { do 2 eexists. split; [reflexivity|]. split; [do 2 eexists; split; [reflexivity|right; lia]|]. by repeat split. }
      assert (∃ r s1, callGeminiExtract Do po mp nr dc ue (FormInputValue event "work_note") (getenv "GEMINI_API_KEY") s
        = (Returned r, s1)) as (r & s1 & E).
      { unfold callGeminiExtract, callGeminiExtractAt. destruct (mp _); [by do 2 eexists|]. destruct (nr _); [by do 2 eexists|].
        cbv [mbind go_bind does mret go_ret]. destruct (Do _ s). by do 2 eexists. }
      rewrite (bind_eq _ _ _ _ _ E). do 2 eexists. split; [reflexivity|]. split; [|by repeat split].
      destruct r; do 2 eexists; (split; [reflexivity|]); [right; lia|by left].
    - do 2 eexists. split; [reflexivity|]. split; [by do 2 eexists; split; [reflexivity|left]|]. by repeat split. }
  unfold RecoveryMiddleware. simpl. split; [done|exact H].
Qed.

Lemma key_not_shown_witness :
  let Do := λ (_ : HTTPRequest) (w : unit), (inr (mkResponse 500 "busy") : error + HTTPResponse, w) in
  let ev := mkEvent (Some {["work_note" := ["two hours"]]}) {["action" := "analyze"]} in
  HandleCalendarTrigger (λ _, "k1") Do id inr (λ _, None) (λ _, inr []) (λ _, inl ErrTrailingGarbage)
    (λ _, "card") (λ m, m) "POST" (inr ev) new_writer tt =
  HandleCalendarTrigger (λ _, "k2") Do id inr (λ _, None) (λ _, inr []) (λ _, inl ErrTrailingGarbage)
    (λ _, "card") (λ m, m) "POST" (inr ev) new_writer tt.
Proof.
  cbv zeta. apply (key_not_shown (λ _, "k1") (λ _, "k2")); [discriminate|discriminate|reflexivity].
Defined.

End addon.
