(* ===== verification/Procrun.v ===== *)
(** * platform/procrun and platform/passstore

    Models [procrun.go] and [lookpath_unix.go] of [src/go/platform/procrun], and
    [src/go/platform/passstore/passstore.go]. The file system and the programs that
    run are parameters; the environment of the parent is a list of [k=v]. *)

From S2P Require Import Prelude GoStrings GoErr GoMonad.
From Stdlib Require Import Ascii.

Module procrun.

Definition ErrNotOnPath : error := ENew "procrun.ErrNotOnPath" "command not found on the fixed PATH".
Definition ErrNoOutput : error := ENew "procrun.ErrNoOutput" "Call.Output is required".
Definition DefaultTailLines : Z := 20.
Definition outputPerm : Z := 384.

Record Runner := mkRunner {
  Path : string; Env : gmap string string; Scrub : list string; TailLines : Z
}.
Record Call := mkCall {
  Name : string; Args : list string; call_Env : gmap string string; Output : string; Append : bool
}.

Record ExitError := mkExit { exit_Name : string; Code : Z; exit_Output : string; Tail : string }.
Definition ExitError_text (e : ExitError) : string :=
  let s := exit_Name e +:+ " exited with code " +:+ itoa (Code e) in
  if negb (bool_decide (exit_Output e = "")) then s +:+ " — output: " +:+ exit_Output e else s.

(** An error of a run: an exit, or another. *)
Inductive run_error := Exited (e : ExitError) | NotRun (e : error).

Definition ExitCodeOf (err : option run_error) : Z :=
  match err with Some (Exited e) => Code e | _ => -1 end.

(** ** The environment *)

Definition scrubbed (r : Runner) (name : string) : bool := existsb (λ p, has_prefix p name) (Scrub r).

(** The name of an entry. *)
Definition key_of (kv : string) : string := (cut "=" kv).1.1.

(** [maps.Copy]: the later map wins. *)
Definition fixed (r : Runner) (callEnv : gmap string string) : gmap string string :=
  let m := callEnv ∪ Env r in
  if negb (bool_decide (Path r = "")) then <["PATH" := Path r]> m else m.

Definition keeps_entry (r : Runner) (callEnv : gmap string string) (kv : string) : bool :=
  negb (bool_decide (is_Some (fixed r callEnv !! key_of kv)) || scrubbed r (key_of kv)).

(** [inherited] is [os.Environ()]; a map is ranged over in some order. *)
Definition Environ (r : Runner) (inherited : list string) (callEnv : gmap string string) : list string :=
  filter (λ kv, keeps_entry r callEnv kv = true) inherited ++
  map (λ kv, kv.1 +:+ "=" +:+ kv.2) (map_to_list (fixed r callEnv)).

(** ** Finding a program *)

(** What [os.Stat] tells of a path. *)
Record FileInfo := mkInfo { IsDir : bool; Perm : Z }.

(** [filepath.Join] of a clean directory and a name. *)
Definition Join (dir name : string) : string :=
  if bool_decide (dir = ".") then name
  else if bool_decide (dir = "/") then "/" +:+ name else dir +:+ "/" +:+ name.

Definition findExecutable (Stat : string → option FileInfo) (dir name : string) : option string :=
  let path := Join dir name in
  match Stat path with
  | None => None
  | Some fi => if IsDir fi || (Z.land (Perm fi) 73 =? 0) then None else Some path
  end.

(** [filepath.SplitList] *)
Definition SplitList (path : string) : list string :=
  if bool_decide (path = "") then [] else split ":" path.

Fixpoint first_found (Stat : string → option FileInfo) (name : string) (dirs : list string) : option string :=
  match dirs with
  | [] => None
  | dir :: dirs =>
      if bool_decide (dir = "") then first_found Stat name dirs
      else match findExecutable Stat dir name with
           | Some found => Some found
           | None => first_found Stat name dirs
           end
  end.

(** [exec_LookPath] is [exec.LookPath], which goes by the parent's PATH. *)
Definition LookPath (Stat : string → option FileInfo) (exec_LookPath : string → error + string)
    (r : Runner) (name : string) : error + string :=
  if contains_byte "/" name then inr name
  else if bool_decide (Path r = "")
  then match exec_LookPath name with
       | inl err => inl (wrap_pre (name +:+ ": ") err)
       | inr found => inr found
       end
  else match first_found Stat name (SplitList (Path r)) with
       | Some found => inr found
       | None => inl (EFmt (PText (name +:+ ": ") (PWrap ErrNotOnPath (PText (" (" +:+ Path r +:+ ")") PNil))))
       end.

(** ** The end of a file *)

Definition last_lines (n : nat) (s : string) : string :=
  let lines := split (ascii_of_nat 10) (TrimRight (ascii_of_nat 10) s) in
  join (String (ascii_of_nat 10) "") (drop (length lines - n) lines).

(** [ReadFile] gives nothing when it fails. *)
Definition tail (ReadFile : string → option string) (path : string) (n : Z) : string :=
  if bool_decide (path = "") || (n <=? 0) then ""
  else match ReadFile path with None => "" | Some b => last_lines (Z.to_nat n) b end.

Definition tailLines (r : Runner) : Z := if TailLines r =? 0 then DefaultTailLines else TailLines r.

(** ** Running *)

(** A program that is to be run. *)
Record Cmd := mkCmd { cmd_Path : string; cmd_Args : list string; cmd_Env : list string }.

(** What running one comes to: it could not start, or it exited. *)
Inductive exec_error := ExecExit (code : Z) | ExecFailed (e : error).

Section run.
Context {W : Type} (Stat : W → string → option FileInfo) (exec_LookPath : string → error + string)
  (ReadFile : W → string → option string) (inherited : list string)
  (OpenFile : string → bool → W → option error * W)
  (** The standard output and error go to a file; the second returns the output. *)
  (RunTo : Cmd → string → W → option exec_error * W)
  (RunCaptured : Cmd → W → (string * option exec_error) * W)
  (Close : string → W → W).

Definition command (r : Runner) (c : Call) : go W (error + Cmd) :=
  stat ← reads Stat;
  mret (match LookPath stat exec_LookPath r (Name c) with
        | inl err => inl err
        | inr name => inr (mkCmd name (Args c) (Environ r inherited (call_Env c)))
        end).

Definition exitError (r : Runner) (c : Call) (err : exec_error) : go W run_error :=
  match err with
  | ExecFailed e => mret (NotRun (wrap_pre (Name c +:+ " could not run: ") e))
  | ExecExit code =>
      read ← reads ReadFile;
      mret (Exited (mkExit (Name c) code (Output c) (tail read (Output c) (tailLines r))))
  end.

Definition Run (r : Runner) (c : Call) : go W (option run_error) :=
  if bool_decide (Output c = "")
  then mret (Some (NotRun (wrap_pre (Name c +:+ ": ") ErrNoOutput)))
  else
    err ← does (OpenFile (Output c) (Append c));
    match err with
    | Some err => mret (Some (NotRun (wrap_pre ("output file " +:+ Output c +:+ ": ") err)))
    | None =>
        cmd ← command r c;
        res ← match cmd with
              | inl err => mret (Some (NotRun err))
              | inr cmd =>
                  err ← does (RunTo cmd (Output c));
                  match err with
                  | Some err => e ← exitError r c err; mret (Some e)
                  | None => mret None
                  end
              end;
        _ ← does (λ w, (tt, Close (Output c) w));
        mret res
    end.

Definition Capture (r : Runner) (c : Call) : go W (string * option run_error) :=
  cmd ← command r c;
  match cmd with
  | inl err => mret ("", Some (NotRun err))
  | inr cmd =>
      out ← does (RunCaptured cmd);
      match out.2 with
      | Some err => e ← exitError r c err; mret (out.1, Some e)
      | None => mret (out.1, None)
      end
  end.
End run.

(** ** Theorems *)

Lemma key_of_pair k v : contains_byte "=" k = false → key_of (k +:+ "=" +:+ v) = k.
Proof.
  intros Hk. unfold key_of. change ("=" +:+ v) with (String "=" v). by rewrite cut_app.
Qed.

(** C24: A command gets exactly the environment that was asked for. The value a call
    or the runner sets for a name (the call's first, and the runner's path over
    both for PATH) is there, and it is the only entry of that name; of what was
    inherited there is an entry exactly when its name is not set and has none of
    the scrubbed prefixes, so a scrubbed name is there only when it was set. *)
Theorem environ_exact (r : Runner) inherited callEnv :
  (∀ k v, fixed r callEnv !! k = Some v → contains_byte "=" k = false) →
  let env := Environ r inherited callEnv in
  (∀ k, fixed r callEnv !! k = (if decide (k = "PATH" ∧ Path r ≠ "") then Some (Path r)
                                else match callEnv !! k with Some v => Some v | None => Env r !! k end)) ∧
  (∀ k v, fixed r callEnv !! k = Some v →
     filter (λ kv, key_of kv = k) env = [k +:+ "=" +:+ v]) ∧
  (∀ kv, fixed r callEnv !! key_of kv = None →
     (kv ∈ env ↔ kv ∈ inherited ∧ scrubbed r (key_of kv) = false)).
Proof.
  intros Hkeys env. split; [|split].
  - intros k. unfold fixed. case_bool_decide as Hp; simpl.
    + rewrite decide_False by tauto. rewrite lookup_union. destruct (callEnv !! k), (Env r !! k); done.
    + destruct (decide (k = "PATH")) as [->|Hk].
      * rewrite decide_True by done. by rewrite lookup_insert_eq.
      * rewrite decide_False by tauto. rewrite lookup_insert_ne, lookup_union by done.
        destruct (callEnv !! k), (Env r !! k); done.
  - intros k v Hk. unfold env, Environ. rewrite filter_app, filter_none.
    2:{ apply Forall_forall. intros kv [Hkeep _]%list_elem_of_filter <-. unfold keeps_entry in Hkeep.
        rewrite bool_decide_eq_true_2 in Hkeep by eauto. done. }
    rewrite app_nil_l. pose proof (proj2 (elem_of_map_to_list _ _ _) Hk) as Hin.
    assert (∀ kv, kv ∈ map_to_list (fixed r callEnv) → contains_byte "=" kv.1 = false) as Hc.
    { intros [k' v'] Hin'. apply elem_of_map_to_list in Hin'. by eapply Hkeys. }
    pose proof (NoDup_fst_map_to_list (fixed r callEnv)) as Hnd. revert Hin Hnd Hc.
    generalize (map_to_list (fixed r callEnv)). clear Hk. induction l as [|[k' v'] l IH]; intros Hin Hnd Hc.
    { by apply elem_of_nil in Hin. }
    cbn [map fst snd fmap list_fmap] in Hnd |- *. apply NoDup_cons in Hnd as [Hni Hnd].
    assert (contains_byte "=" k' = false) as Hk' by (apply (Hc (k', v')); left).
    rewrite filter_cons, key_of_pair by done. apply elem_of_cons in Hin as [Heq|Hin].
    + simplify_eq. rewrite decide_True by done. f_equal. apply filter_none. apply Forall_forall.
      intros kv Hkv Hke. apply list_elem_of_In, in_map_iff in Hkv as ([k2 v2] & <- & H2).
      apply list_elem_of_In in H2. cbn [fst snd] in Hke. rewrite key_of_pair in Hke by (apply (Hc (k2, v2)); by right).
      subst k2. apply Hni. by apply (list_elem_of_fmap_2 fst) in H2.
    + rewrite decide_False; [apply IH; [done|done|]; intros kv Hkv; apply Hc; by right|].
      intros ->. apply Hni. by apply (list_elem_of_fmap_2 fst) in Hin.
  - intros kv Hn. unfold env, Environ. rewrite elem_of_app, list_elem_of_filter. unfold keeps_entry.
    rewrite Hn, bool_decide_eq_false_2 by (by intros [??]). simpl. rewrite negb_true_iff. split.
    + intros [[? ?]|Hin]; [done|]. exfalso. apply list_elem_of_In, in_map_iff in Hin as ([k v] & <- & Hin).
      apply list_elem_of_In, elem_of_map_to_list in Hin. cbn [fst snd] in Hn.
      rewrite key_of_pair in Hn by (by eapply Hkeys). congruence.
    + intros [? ?]. by left.
Qed.

Lemma environ_exact_witness :
  let r := mkRunner "/usr/bin" {["LANG" := "C"]} ["CLOUDSDK_"] 0 in
  let env := Environ r ["PATH=/evil"; "LANG=nl"; "CLOUDSDK_X=1"; "HOME=/h"] {["LANG" := "en"]} in
  filter (λ kv, key_of kv = "LANG") env = ["LANG=en"] ∧ filter (λ kv, key_of kv = "PATH") env = ["PATH=/usr/bin"].
Proof.
  intros r env.
  assert (∀ k v, fixed r {["LANG" := "en"]} !! k = Some v → contains_byte "=" k = false) as Hk.
  { intros k v H. assert (k = "PATH" ∨ k = "LANG") as [-> | ->]; [|done|done].
    unfold fixed in H. simpl in H. destruct (decide (k = "PATH")) as [->|Hp]; [by left|]. right.
    rewrite lookup_insert_ne, lookup_union in H by done.
    destruct (decide (k = "LANG")) as [->|Hl]; [done|]. by rewrite !lookup_singleton_ne in H by done. }
  destruct (environ_exact r ["PATH=/evil"; "LANG=nl"; "CLOUDSDK_X=1"; "HOME=/h"] {["LANG" := "en"]} Hk)
    as (_ & H & _).
  split; [apply (H "LANG" "en")|apply (H "PATH" "/usr/bin")]; reflexivity.
Defined.

Lemma first_found_spec Stat name dirs found :
  first_found Stat name dirs = Some found ↔
  ∃ before dir after, dirs = before ++ dir :: after ∧ dir ≠ "" ∧ findExecutable Stat dir name = Some found ∧
    ∀ d, d ∈ before → d ≠ "" → findExecutable Stat d name = None.
Proof.
  split.
  - induction dirs as [|d dirs IH]; simpl; [done|]. case_bool_decide as Hd.
    + intros (b & dir & a & -> & H1 & H2 & H3)%IH. exists (d :: b), dir, a. split; [done|].
      split; [done|]. split; [done|]. intros d' [->|?]%elem_of_cons; [done|by apply H3].
    + destruct (findExecutable Stat d name) eqn:E.
      * intros. simplify_eq. exists [], d, dirs. split; [done|]. split; [done|]. split; [done|].
        by intros d' ?%elem_of_nil.
      * intros (b & dir & a & -> & H1 & H2 & H3)%IH. exists (d :: b), dir, a. split; [done|].
        split; [done|]. split; [done|]. intros d' [->|?]%elem_of_cons; [done|by apply H3].
  - intros (b & dir & a & -> & H1 & H2 & H3). induction b as [|d b IH]; simpl.
    + by rewrite bool_decide_eq_false_2, H2 by done.
    + assert (first_found Stat name (b ++ dir :: a) = Some found) as E.
      { apply IH. intros d' Hd'. apply H3. by right. }
      case_bool_decide as Hd; [done|]. rewrite (H3 d); [done|left|done].
Qed.

Lemma find_executable_path Stat dir name found :
  findExecutable Stat dir name = Some found →
  found = Join dir name ∧ ∃ fi, Stat found = Some fi ∧ IsDir fi = false ∧ Z.land (Perm fi) 73 ≠ 0.
Proof.
  unfold findExecutable. destruct (Stat (Join dir name)) as [fi|] eqn:E; [|done].
  destruct (IsDir fi) eqn:Ed; [done|]. simpl. destruct (Z.eqb_spec (Z.land (Perm fi) 73) 0); [done|].
  intros. simplify_eq. split; [done|]. eauto.
Qed.

(** On a fixed path the parent's has no say. A bare name is resolved, whatever
    the parent's PATH would give, to the first directory of the runner's path
    that has an executable file of that name; when no directory is the current
    one, the result names a file, so that starting it does not search again. *)
Theorem look_path_fixed Stat lookup (r : Runner) name found :
  Path r ≠ "" → contains_byte "/" name = false →
  LookPath Stat lookup r name = inr found →
  (∀ lookup', LookPath Stat lookup' r name = inr found) ∧
  (∃ before dir after, SplitList (Path r) = before ++ dir :: after ∧ dir ≠ "" ∧ found = Join dir name ∧
     (∃ fi, Stat found = Some fi ∧ IsDir fi = false ∧ Z.land (Perm fi) 73 ≠ 0) ∧
     (∀ d, d ∈ before → d ≠ "" → findExecutable Stat d name = None)) ∧
  ("." ∉ SplitList (Path r) → contains_byte "/" found = true).
Proof.
  unfold LookPath. intros Hp Hn. rewrite Hn, (bool_decide_eq_false_2 (Path r = "")) by done.
  destruct (first_found Stat name (SplitList (Path r))) as [f|] eqn:E; [|done]. intros. simplify_eq.
  split; [done|]. apply first_found_spec in E as (b & dir & a & E & Hd & Hf & Hb).
  apply find_executable_path in Hf as [-> Hf]. split.
  - exists b, dir, a. done.
  - intros Hdot. unfold Join. rewrite bool_decide_eq_false_2.
    2:{ intros ->. apply Hdot. rewrite E. apply elem_of_app. right. left. }
    case_bool_decide; [done|]. rewrite !contains_byte_app. simpl. by rewrite orb_true_r.
Qed.

Definition demo_stat (path : string) : option FileInfo :=
  if bool_decide (path = "/opt/bin/tool") then Some (mkInfo false 493)
  else if bool_decide (path = "/bin/tool") then Some (mkInfo false 420)
  else if bool_decide (path = "tool") then Some (mkInfo false 493) else None.

Lemma look_path_fixed_witness :
  (∀ lookup', LookPath demo_stat lookup' (mkRunner "/bin::/opt/bin" ∅ [] 0) "tool" = inr "/opt/bin/tool") ∧
  contains_byte "/" "/opt/bin/tool" = true.
Proof.
  destruct (look_path_fixed demo_stat (λ _, inl ErrNotOnPath) (mkRunner "/bin::/opt/bin" ∅ [] 0) "tool" "/opt/bin/tool")
    as (H & _ & H'); [discriminate|reflexivity|reflexivity|].
  split; [exact H|]. apply H'. intros Hi. apply list_elem_of_In in Hi. simpl in Hi.
  repeat (destruct Hi as [Hi|Hi]; [discriminate|]). exact Hi.
Defined.

(** With the current directory on the fixed path the result is the bare name again,
    which os/exec then looks up on the parent's PATH. *)
Example dot_on_path :
  LookPath demo_stat (λ _, inl ErrNotOnPath) (mkRunner "." ∅ [] 0) "tool" = inr "tool".
Proof. reflexivity. Qed.

(** The tail of an output is its last lines: with a file that can be read, the
    lines of the tail are the last [n] of the text's, newlines at its end aside,
    or all of them when there are fewer. *)
Theorem tail_exact (ReadFile : string → option string) path n b :
  path ≠ "" → 0 < n → ReadFile path = Some b →
  let nl := ascii_of_nat 10 in let lines := split nl (TrimRight nl b) in
  split nl (tail ReadFile path n) = drop (length lines - Z.to_nat n) lines ∧
  Z.of_nat (length (split nl (tail ReadFile path n))) = Z.min n (Z.of_nat (length lines)).
Proof.
  intros Hp Hn Hr nl lines. unfold tail. rewrite bool_decide_eq_false_2, (proj2 (Z.leb_gt _ _)), Hr by done.
  simpl. unfold last_lines. fold nl. fold lines.
  pose proof (split_not_nil nl (TrimRight nl b)) as Hne. fold lines in Hne.
  assert (0 < length lines)%nat as Hlen by (destruct lines; simpl; [done|lia]).
  assert (split nl (join (String nl "") (drop (length lines - Z.to_nat n) lines)) =
    drop (length lines - Z.to_nat n) lines) as E.
  { apply split_join.
    - intros H%(f_equal length). rewrite length_drop in H. simpl in H. lia.
    - apply Forall_forall. intros p Hin. apply (split_clean nl (TrimRight nl b)). fold lines.
      apply list_elem_of_lookup in Hin as [i Hi]. rewrite lookup_drop in Hi. by eapply list_elem_of_lookup_2. }
  rewrite E. split; [done|]. rewrite length_drop. lia.
Qed.

Definition demo_text : string :=
  let nl := ascii_of_nat 10 in
  "a" +:+ String nl ("b" +:+ String nl ("c" +:+ String nl (String nl ""))).

Lemma tail_exact_witness : split (ascii_of_nat 10) (tail (λ _, Some demo_text) "out" 2) = ["b"; "c"].
Proof.
  destruct (tail_exact (λ _, Some demo_text) "out" 2 demo_text) as [H _]; [discriminate|reflexivity|reflexivity|].
  exact H.
Defined.

End procrun.

Module lookpath_windows.

(** ** Finding a program on Windows *)

Definition defaultPathExt : string := ".COM;.EXE;.BAT;.CMD".

(** [pathext] is the variable PATHEXT. *)
Definition pathExts (pathext : string) : list string :=
  let raw := if bool_decide (pathext = "") then defaultPathExt else pathext in
  omap (λ ext, let ext := trim_space ext in
               if bool_decide (ext = "") then None
               else Some (if has_prefix "." ext then ext else "." +:+ ext))
    (split ";" raw).

(** [strings.EqualFold], for ASCII. *)
Definition hasPathExt (name : string) (exts : list string) : bool :=
  existsb (λ ext, (str_len ext <? str_len name)%nat &&
                  bool_decide (to_lower (str_drop (str_len name - str_len ext) name) = to_lower ext)) exts.

(** [isDir] tells of a path whether it is a directory, if it is there at all;
    [join] is [filepath.Join]. *)
Section find.
Context (isDir : string → option bool) (join : string → string → string) (pathext : string).

Definition isFile (path : string) : bool := match isDir path with Some d => negb d | None => false end.

Fixpoint try_exts (dir name : string) (exts : list string) : option string :=
  match exts with
  | [] => None
  | ext :: exts =>
      let path := join dir (name +:+ ext) in
      if isFile path then Some path else try_exts dir name exts
  end.

Definition findExecutable (dir name : string) : option string :=
  let exts := pathExts pathext in
  if hasPathExt name exts
  then let path := join dir name in if isFile path then Some path else None
  else try_exts dir name exts.

(** Every extension that is tried begins with a dot, whatever PATHEXT holds; and
    what is found is a file that has one of them. *)
Lemma path_exts_dotted ext : ext ∈ pathExts pathext → has_prefix "." ext = true.
Proof.
  unfold pathExts. rewrite list_elem_of_omap. intros (e & _ & He). case_bool_decide; [done|].
  simplify_eq. destruct (has_prefix "." (trim_space e)) eqn:E; [done|apply has_prefix_app].
Qed.

Lemma try_exts_found dir name exts found :
  try_exts dir name exts = Some found →
  ∃ ext, ext ∈ exts ∧ found = join dir (name +:+ ext) ∧ isFile found = true.
Proof.
  induction exts as [|e exts IH]; simpl; [done|].
  destruct (isFile (join dir (name +:+ e))) eqn:E.
  - intros. simplify_eq. exists e. split; [left|done].
  - intros (ext & ? & ?)%IH. exists ext. split; [by right|done].
Qed.
End find.

End lookpath_windows.

Module passstore.

(** [run] is [pass show path] under a limit of five seconds. *)
Definition passTimeout : Z := 5 * Second.

Section show.
Context {W : Type} (run : list string → W → (error + string) * W).

Definition PassShow (path : string) : go W (error + string) :=
  out ← does (run ["pass"; "show"; path]);
  mret (match out with
        | inl err => inl (wrap_pre ("pass show " +:+ path +:+ ": ") err)
        | inr out => inr (trim_space out)
        end).

Definition panics (msg : string) : go W string := λ w, (Panicked msg, w).

Definition MustShow (path : string) : go W string :=
  v ← PassShow path;
  match v with
  | inr v => mret v
  | inl err => panics ("pass show " +:+ path +:+ ": " +:+ error_text err)
  end.

(** MustShow gives what Show gives, and panics exactly when Show fails. *)
Lemma must_show_exact path w :
  ∃ v w', PassShow path w = (Returned v, w') ∧
    MustShow path w = match v with
                      | inr v => (Returned v, w')
                      | inl err => (Panicked ("pass show " +:+ path +:+ ": " +:+ error_text err), w')
                      end.
Proof.
  unfold MustShow, PassShow, panics, does. cbv [mbind go_bind mret go_ret].
  destruct (run _ w) as [[e|out] w1]; by eexists _, _.
Qed.
End show.
End passstore.
