(* ===== verification/PulumiRunner.v ===== *)
(** * iac/pulumi/runner

    Models [src/go/iac/pulumi/runner/runner.go]: the calls of the Pulumi program,
    their log files and what their errors show, on top of [Procrun.v]. *)

From S2P Require Import Prelude GoStrings GoErr GoMonad Invariant Procrun.
From Stdlib Require Import Ascii.

Module runner.

Definition flagCwd : string := "--cwd".

Definition ErrEmptyWorkDir : error := ENew "runner.ErrEmptyWorkDir" "pulumi workDir cannot be empty".
Definition ErrEmptyStackName : error := ENew "runner.ErrEmptyStackName" "stack name cannot be empty".
Definition ErrNilDestination : error := ENew "runner.ErrNilDestination" "destination cannot be nil".

Record options := mkOptions {
  opt_binPath : string; opt_env : gmap string string; opt_scrub : list string; opt_logDir : string
}.
Definition Option : Type := options → options.
Definition WithBinPath (path : string) : Option := λ o,
  mkOptions path (opt_env o) (opt_scrub o) (opt_logDir o).
Definition WithEnv (env : gmap string string) : Option := λ o,
  mkOptions (opt_binPath o) env (opt_scrub o) (opt_logDir o).
Definition WithScrub (prefixes : list string) : Option := λ o,
  mkOptions (opt_binPath o) (opt_env o) (opt_scrub o ++ prefixes) (opt_logDir o).
Definition WithLogDir (dir : string) : Option := λ o,
  mkOptions (opt_binPath o) (opt_env o) (opt_scrub o) dir.

Record Runner := mkRunner {
  workDir : string; binPath : string; logDir : string; proc : procrun.Runner; env : gmap string string
}.

(** ** Names of log files, and errors *)

Definition maxLogWords : nat := 2.
Definition maxLogWordLen : nat := 32.
Definition redacted : string := "[redacted]".

Definition keepsValue (flag : string) : bool := bool_decide (flag = flagCwd) || bool_decide (flag = "--stack").

Definition in_range (lo hi c : ascii) : bool :=
  (nat_of_ascii lo <=? nat_of_ascii c)%nat && (nat_of_ascii c <=? nat_of_ascii hi)%nat.
Definition safe_byte (c : ascii) : bool :=
  in_range "a" "z" c || in_range "A" "Z" c || in_range "0" "9" c || Ascii.eqb c "-" || Ascii.eqb c "_".

(** The loop of [safeWord], with the length the builder has; a rune that is not ASCII
    is dropped, and so are its bytes here. *)
Fixpoint safe_loop (len : nat) (s : string) : string :=
  match s with
  | EmptyString => EmptyString
  | String c s' =>
      if (len =? maxLogWordLen)%nat then EmptyString
      else if safe_byte c then String c (safe_loop (S len) s') else safe_loop len s'
  end.
Definition safeWord (s : string) : string := safe_loop 0 s.

Fixpoint log_words (words : list string) (args : list string) : list string :=
  match args with
  | [] => words
  | arg :: args =>
      if has_prefix "-" arg || (length words =? maxLogWords)%nat then words
      else let w := safeWord arg in
           log_words (if bool_decide (w = "") then words else words ++ [w]) args
  end.
Definition logName (args : list string) : string :=
  match log_words [] args with [] => "run" | words => join "-" words end.

(** The loop of [redactArgs] over the arguments after the first two. *)
Fixpoint redact_loop (positionals : nat) (args : list string) : list string :=
  match args with
  | [] => []
  | arg :: args =>
      if has_prefix "-" arg
      then if keepsValue arg
           then match args with
                | [] => [arg]
                | value :: args => arg :: value :: redact_loop positionals args
                end
           else arg :: redact_loop positionals args
      else (if (1 <=? positionals)%nat then redacted else arg) :: redact_loop (S positionals) args
  end.
Definition redactArgs (args : list string) : list string :=
  match args with
  | a0 :: a1 :: rest =>
      if bool_decide (a0 = "config") && bool_decide (a1 = "set")
      then a0 :: a1 :: redact_loop 0 rest else args
  | _ => args
  end.

(** ** Calls *)

Definition run_error_text (e : procrun.run_error) : string :=
  match e with procrun.Exited e => procrun.ExitError_text e | procrun.NotRun e => error_text e end.

(** [fmt.Errorf("<pre>%w", err)] of an error of a run. *)
Inductive call_error := RunFailed (pre : string) (e : procrun.run_error) | Plain (e : error).
Definition call_error_text (e : call_error) : string :=
  match e with RunFailed pre e => pre +:+ run_error_text e | Plain e => error_text e end.

Section with_system.
(** [Run] runs a call under a [procrun.Runner]; the temporary directory of the system. *)
Context {W : Type} (Run : procrun.Runner → procrun.Call → W → option procrun.run_error * W)
  (ReadFile : string → W → (error + string) * W) (MkdirAll : string → W → option error * W)
  (TempDir : string).

Definition New (workDir : string) (opts : list Option) : go W (error + Runner) :=
  if bool_decide (trim_space workDir = "") then mret (inl ErrEmptyWorkDir)
  else
    let cfg := fold_left (λ o opt, opt o) opts (mkOptions "pulumi" ∅ [] "") in
    let logDir := if bool_decide (opt_logDir cfg = "")
                  then procrun.Join TempDir "alexandria-pulumi-logs" else opt_logDir cfg in
    err ← does (MkdirAll logDir);
    mret (match err with
          | Some err => inl (wrap_pre ("create log directory " +:+ logDir +:+ ": ") err)
          | None => inr (mkRunner workDir (opt_binPath cfg) logDir
                           (procrun.mkRunner "" (opt_env cfg) (opt_scrub cfg) 0) (opt_env cfg))
          end).

Section with_runner.
Context (r : Runner).

Definition WorkDir : string := workDir r.

(** The log file and the call. *)
Definition log_file (args : list string) : string :=
  procrun.Join (logDir r) ("pulumi-" +:+ logName args +:+ ".log").
Definition exec_call (args : list string) : procrun.Call :=
  procrun.mkCall (binPath r) args ∅ (log_file args) false.

Definition exec (args : list string) : go W (option call_error) :=
  err ← does (Run (proc r) (exec_call args));
  mret (RunFailed ("pulumi " +:+ join " " (redactArgs args) +:+ " failed: ") <$> err).

Definition SelectOrCreateStack (stackName : string) : go W (option call_error) :=
  if bool_decide (trim_space stackName = "") then mret (Some (Plain ErrEmptyStackName))
  else exec ["stack"; "select"; stackName; "--create"; flagCwd; workDir r].

Definition SelectStack (stackName : string) : go W (option call_error) :=
  if bool_decide (trim_space stackName = "") then mret (Some (Plain ErrEmptyStackName))
  else exec ["stack"; "select"; stackName; flagCwd; workDir r].

Definition SetConfig (key val : string) : go W (option call_error) :=
  exec ["config"; "set"; key; val; flagCwd; workDir r].
Definition SetSecret (key val : string) : go W (option call_error) :=
  exec ["config"; "set"; "--secret"; key; val; flagCwd; workDir r].

Fixpoint set_each (kvs : list (string * string)) : go W (option call_error) :=
  match kvs with
  | [] => mret None
  | (k, v) :: kvs =>
      err ← SetConfig k v;
      match err with Some err => mret (Some err) | None => set_each kvs end
  end.
(** The keys sorted, each with its value. *)
Definition SetConfigs (configs : gmap string string) : go W (option call_error) :=
  set_each (map (λ k, (k, default "" (configs !! k))) (invariant.sort_Strings ((map_to_list configs).*1))).

Record UpOptions := mkUpOptions { Stack : string; SkipPreview : bool }.
Definition UpOption : Type := UpOptions → UpOptions.
Definition WithUpStack (stack : string) : UpOption := λ o, mkUpOptions stack (SkipPreview o).
Definition WithSkipPreview (skip : bool) : UpOption := λ o, mkUpOptions (Stack o) skip.

Definition Up (opts : list UpOption) : go W (option call_error) :=
  let upOpts := fold_left (λ o opt, opt o) opts (mkUpOptions "" false) in
  exec (["up"; "--yes"; flagCwd; workDir r] ++
        (if negb (bool_decide (Stack upOpts = "")) then ["--stack"; Stack upOpts] else []) ++
        (if SkipPreview upOpts then ["--skip-preview"] else [])).

Definition Destroy : go W (option call_error) := exec ["destroy"; "--yes"; flagCwd; workDir r].

Definition GetRawOutputs : go W (call_error + string) :=
  let logFile := procrun.Join (logDir r) "pulumi-stack-output.json" in
  err ← does (Run (proc r) (procrun.mkCall (binPath r)
                 ["stack"; "output"; "--json"; flagCwd; workDir r] ∅ logFile false));
  match err with
  | Some err => mret (inl (RunFailed "pulumi stack output failed: " err))
  | None =>
      data ← does (ReadFile logFile);
      mret (match data with
            | inl err => inl (Plain (wrap_pre ("read stack output " +:+ logFile +:+ ": ") err))
            | inr data => inr data
            end)
  end.

(** [dest] is whether the destination is not nil; [unmarshal] is [json.Unmarshal]. *)
Definition GetOutputs {T} (dest : bool) (unmarshal : string → error + T) : go W (call_error + T) :=
  if negb dest then mret (inl (Plain ErrNilDestination))
  else
    raw ← GetRawOutputs;
    mret (match raw with
          | inl err => inl err
          | inr raw =>
              match unmarshal raw with
              | inl err => inl (Plain (wrap_pre "unmarshal pulumi outputs: " err))
              | inr v => inr v
              end
          end).
End with_runner.
End with_system.

(** ** Theorems *)

Fixpoint all_safe (s : string) : bool :=
  match s with EmptyString => true | String c s' => safe_byte c && all_safe s' end.

Lemma all_safe_app s t : all_safe (s +:+ t) = all_safe s && all_safe t.
Proof. induction s as [|c s IH]; [done|]. rewrite str_cons_app. simpl. by rewrite IH, andb_assoc. Qed.

Lemma safe_loop_spec n s :
  (n ≤ maxLogWordLen)%nat →
  all_safe (safe_loop n s) = true ∧ (str_len (safe_loop n s) ≤ maxLogWordLen - n)%nat.
Proof.
  revert n. induction s as [|c s IH]; intros n Hn; cbn [safe_loop]; [split; [done|simpl; lia]|].
  destruct (Nat.eqb_spec n maxLogWordLen); [split; [done|simpl; lia]|].
  destruct (safe_byte c) eqn:Ec; [|by apply IH]. destruct (IH (S n)) as [H1 H2]; [lia|].
  simpl. rewrite Ec. split; [done|lia].
Qed.

(** A word of a name: not empty, safe, short. *)
Definition good_word (w : string) : Prop := w ≠ "" ∧ all_safe w = true ∧ (str_len w ≤ maxLogWordLen)%nat.

Lemma log_words_good words args :
  Forall good_word words → (length words ≤ maxLogWords)%nat →
  Forall good_word (log_words words args) ∧ (length (log_words words args) ≤ maxLogWords)%nat.
Proof.
  revert words. induction args as [|a args IH]; intros words Hw Hl; cbn [log_words]; [done|].
  destruct (has_prefix "-" a); [done|]. cbn [orb]. destruct (Nat.eqb_spec (length words) maxLogWords); [done|].
  apply IH; case_bool_decide as Hs; [done| |done|].
  - apply Forall_app_2; [done|]. constructor; [|constructor].
    destruct (safe_loop_spec 0 a) as [H1 H2]; [lia|]. split; [done|]. split; [done|]. unfold safeWord. lia.
  - rewrite length_app. simpl. lia.
Qed.

(** A log file has a portable name. Whatever the arguments, the name is not
    empty, has at most 65 bytes, and only letters, digits, hyphens and
    underscores, so the file is in the log directory. *)
Theorem log_name_safe (args : list string) :
  logName args ≠ "" ∧ all_safe (logName args) = true ∧ (str_len (logName args) ≤ 65)%nat.
Proof.
  destruct (log_words_good [] args) as [Hg Hl]; [constructor|simpl; lia|].
  unfold logName. destruct (log_words [] args) as [|w1 [|w2 [|]]]; unfold maxLogWords in Hl; simpl in Hl; [|..|lia].
  - split; [done|]. split; [done|]. simpl. lia.
  - inv_clear Hg. destruct H1 as (? & ? & ?). unfold maxLogWordLen in *. cbn [join]. split; [done|]. split; [done|lia].
  - inv_clear Hg. inv_clear H2. destruct H1 as (Hn & Hs & Hlen), H3 as (_ & Hs2 & Hlen2). cbn [join].
    unfold maxLogWordLen in *. rewrite !all_safe_app, !str_len_app, Hs, Hs2.
    split; [by intros [? _]%str_app_eq_nil|]. split; [done|]. simpl. lia.
Qed.

Section secrets.
Context {W : Type} (Run : procrun.Runner → procrun.Call → W → option procrun.run_error * W) (r : Runner).

Lemma set_redacted (secret : list string) key val :
  secret = [] ∨ secret = ["--secret"] → has_prefix "-" key = false → has_prefix "-" val = false →
  redactArgs (["config"; "set"] ++ secret ++ [key; val; flagCwd; workDir r]) =
    ["config"; "set"] ++ secret ++ [key; redacted; flagCwd; workDir r].
Proof.
  intros Hs Hk Hv. assert (redact_loop 0 [key; val; flagCwd; workDir r] = [key; redacted; flagCwd; workDir r]) as E.
  { cbn [redact_loop]. rewrite Hk, Hv. reflexivity. }
  destruct Hs as [->| ->]; unfold redactArgs; cbn [app]; simpl bool_decide; cbn [andb].
  - by rewrite E.
  - do 2 f_equal. cbn [redact_loop]. change (has_prefix "-" "--secret") with true.
    change (keepsValue "--secret") with false. f_equal. exact E.
Qed.

(** C25: a configuration value does not show. Two values that do not begin with a
    hyphen, for a key that does not either, set with processes that behave the
    same, give the same result and the same error text, and for any value the
    log file is the same. *)
Theorem config_value_hidden key v1 v2 w :
  has_prefix "-" key = false → has_prefix "-" v1 = false → has_prefix "-" v2 = false →
  (∀ secret, secret = [] ∨ secret = ["--secret"] →
     Run (proc r) (exec_call r (["config"; "set"] ++ secret ++ [key; v1; flagCwd; workDir r])) w =
     Run (proc r) (exec_call r (["config"; "set"] ++ secret ++ [key; v2; flagCwd; workDir r])) w) →
  SetSecret Run r key v1 w = SetSecret Run r key v2 w ∧ SetConfig Run r key v1 w = SetConfig Run r key v2 w ∧
  (∀ secret v v', secret = [] ∨ secret = ["--secret"] →
     log_file r (["config"; "set"] ++ secret ++ [key; v; flagCwd; workDir r]) =
     log_file r (["config"; "set"] ++ secret ++ [key; v'; flagCwd; workDir r])).
Proof.
  intros Hk H1 H2 HR. unfold SetSecret, SetConfig, exec, does. cbv [mbind go_bind mret go_ret].
  split; [|split].
  - specialize (HR ["--secret"] (or_intror eq_refl)). cbn [app] in HR. rewrite HR. destruct (Run _ _ w) as [e w1].
    pose proof (set_redacted ["--secret"] key v1 (or_intror eq_refl) Hk H1) as E1.
    pose proof (set_redacted ["--secret"] key v2 (or_intror eq_refl) Hk H2) as E2.
    cbn [app] in E1, E2. by rewrite E1, E2.
  - specialize (HR [] (or_introl eq_refl)). cbn [app] in HR. rewrite HR. destruct (Run _ _ w) as [e w1].
    pose proof (set_redacted [] key v1 (or_introl eq_refl) Hk H1) as E1.
    pose proof (set_redacted [] key v2 (or_introl eq_refl) Hk H2) as E2.
    cbn [app] in E1, E2. by rewrite E1, E2.
  - intros secret v v' [->| ->]; unfold log_file, logName; cbn [app log_words]; simpl; [|done].
    by rewrite !orb_true_r.
Qed.
End secrets.

Definition demo_runner : Runner := mkRunner "/w" "pulumi" "/logs" (procrun.mkRunner "" ∅ [] 0) ∅.

Lemma config_value_hidden_witness :
  let Run := λ _ c (w : unit), (Some (procrun.Exited (procrun.mkExit "pulumi" 255 (procrun.Output c) "")), w) in
  SetSecret Run demo_runner "db:password" "hunter2" tt = SetSecret Run demo_runner "db:password" "other" tt ∧
  SetConfig Run demo_runner "db:password" "hunter2" tt = SetConfig Run demo_runner "db:password" "other" tt.
Proof.
  intros Run. destruct (config_value_hidden Run demo_runner "db:password" "hunter2" "other" tt) as (H1 & H2 & _);
    [reflexivity|reflexivity|reflexivity|by intros secret [-> | ->]|]. split; [exact H1|exact H2].
Defined.

(** A value that begins with a hyphen is taken for a flag and shown. *)
Example dash_value_shown :
  redactArgs ["config"; "set"; "--secret"; "db:password"; "-hunter2"; "--cwd"; "/w"] =
    ["config"; "set"; "--secret"; "db:password"; "-hunter2"; "--cwd"; "/w"].
Proof. reflexivity. Qed.

End runner.
