(* ===== verification/Pulumi.v ===== *)
(** * Pulumi programs

    A Pulumi program runs once and declares resources: [NewX(ctx, name, args, opts)]
    registers one with the engine and returns a handle, whose outputs are known only
    after the deployment. An input is therefore a description of how a value comes
    about; a registered resource is its type, its logical name, its arguments and
    its options. The engine identifies a resource by type and name (its URN) and
    refuses an update in which two share one; the library may refuse a call at once,
    which [refuse] stands for. Also here: [iac/pulumi/stackref], and the sequencing
    of calls that return an error. *)

From S2P Require Import Prelude GoStrings GoErr GoMonad GoFloat.

(** ** Calls that return a value or an error *)

(** [a, err := m; if err != nil { return err }] *)
Definition rbind {W A B} (m : go W (error + A)) (f : A → go W (error + B)) : go W (error + B) :=
  r ← m; match r with inl err => mret (inl err) | inr a => f a end.
Notation "x ←? m ; k" := (rbind m (λ x, k)) (at level 100, m at level 90, k at level 200, right associativity).

Definition succeed {W A} (a : A) : go W (error + A) := mret (inr a).
Definition fail {W A} (err : error) : go W (error + A) := mret (inl err).
(** [if err := ...; err != nil { return err }] *)
Definition require_ok {W} (err : option error) : go W (error + unit) :=
  match err with Some err => fail err | None => succeed tt end.
(** [fmt.Errorf("pre: %w", err)] around a call. *)
Definition wrapping {W A} (pre : string) (m : go W (error + A)) : go W (error + A) :=
  r ← m; mret (match r with inl err => inl (wrap_pre pre err) | inr a => inr a end).
(** A loop that collects, and returns at the first error. *)
Fixpoint each {W A B} (f : A → go W (error + B)) (l : list A) : go W (error + list B) :=
  match l with
  | [] => succeed []
  | x :: l => y ←? f x; ys ←? each f l; succeed (y :: ys)
  end.

(** A loop for its effects. *)
Definition all_of {W A B} (f : A → go W (error + B)) (l : list A) : go W (error + unit) :=
  _ ←? each f l; succeed tt.

Module pulumi.

(** ** Inputs and resources *)

(** Type and logical name. The type is named by the constructor's package and the
    resource, as in Go: [organizations.Folder]. *)
Definition urn : Type := string * string.

#[local] Set Warnings "-register-all".
Inductive input :=
| Str (s : string)
| Int (n : Z)
| Bool (b : bool)
| Float64 (f : float64)
| Array (l : list input)
| Args (fields : list (string * input))
| Output (r : urn) (field : string)
| StackOutput (stack key : string)
| StackString (stack key : string)
| Sprintf (parts : list input)
| ApplyT (f : string → string) (i : input)
| ToSecret (i : input).

Record Resource := mkResource {
  rtype : string; rname : string; rargs : list (string * input);
  protected : bool; dependsOn : list urn; ignoreChanges : list string
}.
Definition urn_of (r : Resource) : urn := (rtype r, rname r).

Inductive ResourceOption :=
| Protect (b : bool)
| DependsOn (l : list urn)
| IgnoreChanges (l : list string).

Definition with_option (r : Resource) (o : ResourceOption) : Resource :=
  let '(mkResource t n a p d i) := r in
  match o with
  | Protect b => mkResource t n a b d i
  | DependsOn l => mkResource t n a p (d ++ l) i
  | IgnoreChanges l => mkResource t n a p d (i ++ l)
  end.

(** What a run has declared. *)
Record Context := mkContext { resources : list Resource; exports : gmap string input }.
Definition empty_context : Context := mkContext [] ∅.

(** Fields that the code leaves out, or sets when a condition holds. *)
Definition if_set (b : bool) (l : list (string * input)) : list (string * input) := if b then l else [].
(** [m[k] = v] *)
Fixpoint set_key (k : string) (v : input) (l : list (string * input)) : list (string * input) :=
  match l with
  | [] => [(k, v)]
  | (k', v') :: l => if bool_decide (k' = k) then (k, v) :: l else (k', v') :: set_key k v l
  end.
(** A map of texts; its order does not matter. *)
Definition StringMap (m : gmap string string) : input := Args (prod_map id Str <$> map_to_list m).
Definition StringArray (l : list string) : input := Array (Str <$> l).

Section engine.
Context (refuse : Context → Resource → option error).

(** [NewX(ctx, name, &XArgs{...}, opts...)] *)
Definition NewResource (t name : string) (args : list (string * input)) (opts : list ResourceOption)
  : go Context (error + urn) :=
  let r := fold_left with_option opts (mkResource t name args false [] []) in
  does (λ c, match refuse c r with
             | Some err => (inl err, c)
             | None => (inr (urn_of r), mkContext (resources c ++ [r]) (exports c))
             end).

(** [ctx.Export] *)
Definition Export {A} (key : string) (v : input) (k : go Context A) : go Context A :=
  _ ← does (λ c, (tt, mkContext (resources c) (<[key := v]> (exports c)))); k.
End engine.

(** ** What a program declares *)

Section declares.
Context {W : Type} (res : W → list Resource).

(** All that [m] registers satisfies [P], and its URNs are some of [L], in order. *)
Definition declares {A} (P : Resource → Prop) (L : list urn) (m : go W A) : Prop := ∀ w,
  ∃ new, res (m w).2 = res w ++ new ∧ (urn_of <$> new) `sublist_of` L ∧ Forall P new.

Lemma declares_still {A} P L (m : go W A) : (∀ w, res (m w).2 = res w) → declares P L m.
Proof. intros H w. exists []. rewrite H, app_nil_r. auto using sublist_nil_l. Qed.

Lemma declares_nil {A} P L (a : A) : declares P L (mret a).
Proof. by apply declares_still. Qed.

Lemma declares_more {A} P L L' (m : go W A) : L `sublist_of` L' → declares P L m → declares P L' m.
Proof. intros HL Hm w. destruct (Hm w) as (new & ? & ? & ?). exists new. split; [done|]. split; [by etrans|done]. Qed.

Lemma declares_app {A B} P L1 L2 (m : go W A) (f : A → go W B) :
  declares P L1 m → (∀ a, declares P L2 (f a)) → declares P (L1 ++ L2) (m ≫= f).
Proof.
  intros Hm Hf w. destruct (Hm w) as (n1 & E1 & S1 & P1). cbv [mbind go_bind].
  destruct (m w) as [[a|p] w1]; simpl in E1.
  - destruct (Hf a w1) as (n2 & E2 & S2 & P2). exists (n1 ++ n2).
    split; [by rewrite E2, E1, (assoc_L (++))|]. rewrite fmap_app. split; [by apply sublist_app|by apply Forall_app].
  - exists n1. split; [done|]. split; [by apply sublist_inserts_r|done].
Qed.

Lemma declares_rapp {A B} P L1 L2 (m : go W (error + A)) (f : A → go W (error + B)) :
  declares P L1 m → (∀ a, declares P L2 (f a)) → declares P (L1 ++ L2) (rbind m f).
Proof. intros Hm Hf. apply declares_app; [done|]. intros [e|a]; [apply declares_nil|apply Hf]. Qed.

(** A step that declares nothing, whose value the rest may use. *)
Lemma declares_step {A B} P L (m : go W A) (f : A → go W B) :
  (∀ w, res (m w).2 = res w) → (∀ a w w', m w = (Returned a, w') → declares P L (f a)) →
  declares P L (m ≫= f).
Proof.
  intros Hm Hf w. specialize (Hm w). cbv [mbind go_bind]. destruct (m w) as [[a|p] w1] eqn:E; simpl in Hm.
  - destruct (Hf _ _ _ E w1) as (new & ?). exists new. by rewrite <- Hm.
  - exists []. simpl. rewrite Hm, app_nil_r. auto using sublist_nil_l.
Qed.

Lemma declares_rstep {A B} P L (m : go W (error + A)) (f : A → go W (error + B)) :
  (∀ w, res (m w).2 = res w) → (∀ a w w', m w = (Returned (inr a), w') → declares P L (f a)) →
  declares P L (rbind m f).
Proof.
  intros Hm Hf. apply declares_step; [done|]. intros [e|a] w w' E; [apply declares_nil|by eapply Hf].
Qed.

(** What is declared after a check that passes. *)
Lemma declares_checked {B} P L err (f : unit → go W (error + B)) :
  (err = None → declares P L (f tt)) → declares P L (rbind (require_ok err) f).
Proof. intros H. destruct err; [apply declares_nil|]. by apply H. Qed.

(** The URNs of a list that a check lets through. *)
Definition if_ok (err : option error) (L : list urn) : list urn :=
  match err with None => L | Some _ => [] end.

Lemma declares_if_ok {B} P L err (f : unit → go W (error + B)) :
  (err = None → declares P L (f tt)) → declares P (if_ok err L) (rbind (require_ok err) f).
Proof. intros H. destruct err; [apply declares_nil|]. by apply H. Qed.

Lemma NoDup_if_ok err L : (err = None → NoDup L) → NoDup (if_ok err L).
Proof. destruct err; [constructor|]. auto. Qed.

Lemma declares_wrapped_check {B} P L pre err (f : unit → go W (error + B)) :
  (err = None → declares P L (f tt)) → declares P L (rbind (wrapping pre (require_ok err)) f).
Proof. intros H. destruct err; [by apply declares_still|]. by apply H. Qed.

Lemma declares_value {A B} P L (r : error + A) (f : A → go W (error + B)) :
  (∀ a, r = inr a → declares P L (f a)) → declares P L (rbind (mret r) f).
Proof. intros H. destruct r as [e|a]; [apply declares_nil|]. by apply H. Qed.

Lemma declares_wrapping {A} P L pre (m : go W (error + A)) : declares P L m → declares P L (wrapping pre m).
Proof. intros H. rewrite <- (app_nil_r L). apply declares_app; [done|]. intros; apply declares_nil. Qed.

Lemma declares_rlast {A B} P L (m : go W (error + A)) (f : A → go W (error + B)) :
  declares P L m → (∀ a, declares P [] (f a)) → declares P L (rbind m f).
Proof. intros Hm Hf. rewrite <- (app_nil_r L). by apply declares_rapp. Qed.

Lemma declares_each {A B} P (L : A → list urn) (f : A → go W (error + B)) l :
  (∀ x, x ∈ l → declares P (L x) (f x)) → declares P (l ≫= L) (each f l).
Proof.
  induction l as [|x l IH]; intros H; [apply declares_nil|]. simpl each.
  change ((x :: l) ≫= L) with (L x ++ (l ≫= L)).
  apply declares_rapp; [apply H; by left|]. intros y.
  apply declares_rlast; [apply IH; intros; apply H; by right|]. intros ys. apply declares_nil.
Qed.

Lemma declares_all_of {A B} P (L : A → list urn) (f : A → go W (error + B)) l :
  (∀ x, x ∈ l → declares P (L x) (f x)) → declares P (l ≫= L) (all_of f l).
Proof. intros H. apply declares_rlast; [by apply declares_each|]. intros; apply declares_nil. Qed.

(** When each turn declares one resource. *)
Lemma declares_each_one {A B} P (u : A → urn) (f : A → go W (error + B)) l :
  (∀ x, x ∈ l → declares P [u x] (f x)) → declares P (u <$> l) (each f l).
Proof.
  intros H. assert (u <$> l = (l ≫= λ x, [u x])) as -> by (induction l as [|x l IH]; [done|]; csimpl; by rewrite IH by (intros; apply H; by right)).
  by apply declares_each.
Qed.

Lemma declares_all_of_one {A B} P (u : A → urn) (f : A → go W (error + B)) l :
  (∀ x, x ∈ l → declares P [u x] (f x)) → declares P (u <$> l) (all_of f l).
Proof. intros H. apply declares_rlast; [by apply declares_each_one|]. intros; apply declares_nil. Qed.
End declares.

Abbreviation declares_in := (declares resources).

Lemma urn_with_options t name args opts :
  urn_of (fold_left with_option opts (mkResource t name args false [] [])) = (t, name).
Proof.
  set (r := mkResource t name args false [] []). change (t, name) with (urn_of r). generalize r. clear.
  induction opts as [|o opts IH]; [done|]. intros r. simpl. rewrite IH. by destruct r, o.
Qed.

Lemma declares_resource (P : Resource → Prop) refuse t name args opts :
  P (fold_left with_option opts (mkResource t name args false [] [])) →
  declares_in P [(t, name)] (NewResource refuse t name args opts).
Proof.
  intros HP c. unfold NewResource. cbv [does]. pose proof (urn_with_options t name args opts) as E.
  set (r := fold_left _ _ _) in *.
  destruct (refuse c r); [exists []; rewrite app_nil_r; simpl; auto using sublist_nil_l|].
  exists [r]. split; [done|]. simpl. rewrite E. split; [done|by constructor].
Qed.

Lemma declares_export {A} P L key v (k : go Context A) : declares_in P L k → declares_in P L (Export key v k).
Proof.
  intros H c. unfold Export. cbv [mbind go_bind does].
  destruct (H (mkContext (resources c) (<[key:=v]> (exports c)))) as (new & ?). by exists new.
Qed.

(** Resources of one type, under names that are distinct. *)
Lemma NoDup_urns {T} (ty : string) (f : T → string) (l : list T) :
  NoDup (f <$> l) → NoDup ((λ x, (ty, f x)) <$> l).
Proof. intros H. change (NoDup (pair ty ∘ f <$> l)). rewrite list_fmap_compose. apply NoDup_fmap_2; [|done].
  by intros ?? [= ->]. Qed.

(** The URNs of a run that starts with nothing are distinct when those it may declare are. *)
Lemma declares_NoDup {A} P L (m : go Context A) :
  declares_in P L m → NoDup L → NoDup (urn_of <$> resources (m empty_context).2).
Proof. intros H HL. destruct (H empty_context) as (new & -> & HS & _). simpl. by eapply sublist_NoDup. Qed.

Lemma declares_Forall {A} P L (m : go Context A) : declares_in P L m → Forall P (resources (m empty_context).2).
Proof. intros H. destruct (H empty_context) as (new & -> & _ & HP). exact HP. Qed.

(** ** Runs whose URNs are distinct

    [adds D P U m]: what [m] registers satisfies [P], its URNs are in [U], and they are
    distinct under the condition [D]. Steps compose when, under [D], their sets of
    URNs are disjoint. *)

Section adds.
Context {W : Type} (res : W → list Resource) (D : Prop) (P : Resource → Prop).

Definition adds {A} (U : urn → Prop) (m : go W A) : Prop := ∀ w,
  ∃ new, res (m w).2 = res w ++ new ∧ Forall P new ∧ (D → NoDup (urn_of <$> new)) ∧ Forall U (urn_of <$> new).

Lemma adds_declares {A} (U : urn → Prop) L (m : go W A) :
  declares res P L m → (D → NoDup L) → (∀ u, u ∈ L → U u) → adds U m.
Proof.
  intros Hm HL HU w. destruct (Hm w) as (new & E & S & HP). exists new. split; [done|]. split; [done|].
  split; [intros d; eapply sublist_NoDup; eauto|]. apply Forall_forall. intros u Hu. apply HU. by eapply elem_of_sublist.
Qed.

Lemma adds_still {A} U (m : go W A) : (∀ w, res (m w).2 = res w) → adds U m.
Proof. intros H. eapply adds_declares; [by apply (declares_still _ _ [])|constructor|]. by intros u ?%elem_of_nil. Qed.

Lemma adds_ret {A} U (a : A) : adds U (mret a).
Proof. by apply adds_still. Qed.

Lemma adds_more {A} (U U' : urn → Prop) (m : go W A) : (∀ u, U u → U' u) → adds U m → adds U' m.
Proof.
  intros HU Hm w. destruct (Hm w) as (new & ? & ? & ? & H). exists new. split_and!; try done.
  by eapply Forall_impl.
Qed.

Lemma adds_bind {A B} (U1 U2 U : urn → Prop) (m : go W A) (f : A → go W B) :
  adds U1 m → (∀ a w w', m w = (Returned a, w') → adds U2 (f a)) →
  (D → ∀ u, U1 u → U2 u → False) → (∀ u, U1 u ∨ U2 u → U u) → adds U (m ≫= f).
Proof.
  intros Hm Hf Hd HU w. destruct (Hm w) as (n1 & E1 & P1 & N1 & F1). cbv [mbind go_bind].
  destruct (m w) as [[a|p] w1] eqn:Em; simpl in E1.
  - destruct (Hf _ _ _ Em w1) as (n2 & E2 & P2 & N2 & F2). exists (n1 ++ n2).
    rewrite E2, E1, <- (assoc_L (++)), fmap_app. split_and!; [done|by apply Forall_app| |].
    + intros d. apply NoDup_app. split; [auto|]. split; [|auto]. intros u Hu1 Hu2.
      rewrite Forall_forall in F1, F2. eauto.
    + apply Forall_app. split; (eapply Forall_impl; [eassumption|]); auto.
  - exists n1. split_and!; try done. eapply Forall_impl; [exact F1|]. auto.
Qed.

Lemma adds_rbind {A B} (U1 U2 U : urn → Prop) (m : go W (error + A)) (f : A → go W (error + B)) :
  adds U1 m → (∀ a w w', m w = (Returned (inr a), w') → adds U2 (f a)) →
  (D → ∀ u, U1 u → U2 u → False) → (∀ u, U1 u ∨ U2 u → U u) → adds U (rbind m f).
Proof.
  intros Hm Hf. apply adds_bind; [done|]. intros [e|a] w w' E; [apply adds_ret|by eapply Hf].
Qed.

(** A step that declares nothing. *)
Lemma adds_step {A B} U (m : go W A) (f : A → go W B) :
  (∀ w, res (m w).2 = res w) → (∀ a w w', m w = (Returned a, w') → adds U (f a)) → adds U (m ≫= f).
Proof. intros Hm Hf. apply (adds_bind (λ _, False) U); [by apply adds_still|done|tauto|tauto]. Qed.

Lemma adds_rstep {A B} U (m : go W (error + A)) (f : A → go W (error + B)) :
  (∀ w, res (m w).2 = res w) → (∀ a w w', m w = (Returned (inr a), w') → adds U (f a)) → adds U (rbind m f).
Proof. intros Hm Hf. apply adds_step; [done|]. intros [e|a] w w' E; [apply adds_ret|by eapply Hf]. Qed.

Lemma adds_rlast {A B} U (m : go W (error + A)) (f : A → go W (error + B)) :
  adds U m → (∀ a w, res (f a w).2 = res w) → adds U (rbind m f).
Proof.
  intros Hm Hf. apply (adds_rbind U (λ _, False)); [done| |tauto|tauto]. intros a _ _ _. by apply adds_still.
Qed.

Lemma adds_wrapping {A} U pre (m : go W (error + A)) : adds U m → adds U (wrapping pre m).
Proof.
  intros Hm. apply (adds_bind U (λ _, False)); [done| |tauto|tauto]. intros a _ _ _. apply adds_ret.
Qed.

(** A loop whose turns declare different things. *)
Lemma adds_all_of {A B} (U : A → urn → Prop) (f : A → go W (error + B)) l :
  (∀ x, x ∈ l → adds (U x) (f x)) →
  (D → ∀ i j x y u, l !! i = Some x → l !! j = Some y → i ≠ j → U x u → U y u → False) →
  adds (λ u, ∃ x, x ∈ l ∧ U x u) (all_of f l).
Proof.
  intros Hf Hd. unfold all_of. apply adds_rlast; [|done].
  induction l as [|x l IH]; [apply adds_ret|]. simpl.
  apply (adds_rbind (U x) (λ u, ∃ y, y ∈ l ∧ U y u)).
  - apply Hf. by left.
  - intros a _ _ _. apply adds_rlast; [|done]. apply IH; [intros; apply Hf; by right|].
    intros d i j y z u Hi Hj Hij. by apply (Hd d (S i) (S j) y z u Hi Hj); congruence.
  - intros d u Hx (y & [j Hj]%list_elem_of_lookup & Hy). by apply (Hd d 0%nat (S j) x y u).
  - intros u [Hx|(y & Hy & Hu)]; [exists x; split; [by left|done]|exists y; split; [by right|done]].
Qed.

(** Sets of types. *)
Definition of_types (T : list string) (u : urn) : Prop := u.1 ∈ T.
Definition among (T1 T2 : list string) : bool := forallb (λ t, bool_decide (t ∈ T2)) T1.
Definition rest (T1 T : list string) : list string := List.filter (λ t, negb (bool_decide (t ∈ T1))) T.

Lemma among_spec T1 T2 t : among T1 T2 = true → t ∈ T1 → t ∈ T2.
Proof.
  unfold among. rewrite forallb_forall. intros H H1%list_elem_of_In. apply H in H1.
  by apply bool_decide_eq_true in H1.
Qed.

Lemma elem_of_rest T1 T t : t ∈ rest T1 T ↔ t ∈ T ∧ (t ∉ T1).
Proof. unfold rest. rewrite !list_elem_of_In, filter_In, negb_true_iff, bool_decide_eq_false. by rewrite list_elem_of_In. Qed.

Lemma adds_among {A} T1 T (m : go W A) :
  among T1 T = true → adds (of_types T1) m → adds (of_types T) m.
Proof. intros H. apply adds_more. intros u. by apply among_spec. Qed.

(** A step that adds resources of some of the types, and the rest of the others. *)
Lemma adds_types_step {A B} T1 T (m : go W A) (f : A → go W B) :
  adds (of_types T1) m → among T1 T = true →
  (∀ a w w', m w = (Returned a, w') → adds (of_types (rest T1 T)) (f a)) → adds (of_types T) (m ≫= f).
Proof.
  intros Hm Hs Hf. eapply adds_bind; [exact Hm|exact Hf| |].
  - intros _ u H1 [_ H2]%elem_of_rest. done.
  - intros u [H1|[H2 _]%elem_of_rest]; [by eapply among_spec|done].
Qed.

Lemma adds_types {A B} T1 T (m : go W (error + A)) (f : A → go W (error + B)) :
  adds (of_types T1) m → among T1 T = true →
  (∀ a w w', m w = (Returned (inr a), w') → adds (of_types (rest T1 T)) (f a)) → adds (of_types T) (rbind m f).
Proof.
  intros Hm Hs Hf. eapply adds_types_step; [exact Hm|done|].
  intros [e|a] w w' E; [apply adds_ret|by eapply Hf].
Qed.
End adds.

Abbreviation adds_in := (adds resources).

(** A run that starts with nothing. *)
Lemma adds_run {A} D P U (m : go Context A) : adds_in D P U m →
  Forall P (resources (m empty_context).2) ∧ (D → NoDup (urn_of <$> resources (m empty_context).2)).
Proof. intros H. by destruct (H empty_context) as (new & -> & ? & ? & _). Qed.

Lemma adds_export {A} D P U key v (k : go Context A) : adds_in D P U k → adds_in D P U (Export key v k).
Proof.
  intros H c. unfold Export. cbv [mbind go_bind does].
  destruct (H (mkContext (resources c) (<[key:=v]> (exports c)))) as (new & ?). by exists new.
Qed.

End pulumi.

(** ** What inputs come to *)

Module values.
Import pulumi.

(** The value of an output; a map is given by its lookup. *)
#[local] Set Warnings "-register-all".
Inductive pvalue := PString (s : string) | PMap (m : string → option pvalue) | POther.

(** [v.(string)] and its zero value. *)
Definition as_string (v : pvalue) : string := match v with PString s => s | _ => "" end.

(** The outputs of another stack: nothing when a key is absent or nil. *)
Definition StackReference : Type := string → option pvalue.

Fixpoint find_key {A} (k : string) (l : list (string * A)) : option A :=
  match l with [] => None | (k', v) :: l => if bool_decide (k' = k) then Some v else find_key k l end.

(** The value of an input, once [resolve] tells the outputs of the resources and
    [stacks] those of the stacks; none when the deployment fails on it. *)
Fixpoint eval (resolve : urn → string → pvalue) (stacks : string → StackReference) (i : input) : option pvalue :=
  match i with
  | Str s => Some (PString s)
  | Int n => Some (PString (itoa n))
  | Bool _ | Float64 _ | Array _ => Some POther
  | Args fields =>
      m ← (fix eval_fields (l : list (string * input)) : option (list (string * pvalue)) :=
             match l with
             | [] => Some []
             | (k, v) :: l => v ← eval resolve stacks v; l ← eval_fields l; Some ((k, v) :: l)
             end) fields;
      Some (PMap (λ k, find_key k m))
  | Output r field => Some (resolve r field)
  | StackOutput stack key => Some (default POther (stacks stack key))
  | StackString stack key => match stacks stack key with Some (PString s) => Some (PString s) | _ => None end
  | Sprintf parts =>
      s ← (fix eval_parts (l : list input) : option string :=
             match l with
             | [] => Some ""
             | i :: l =>
                 v ← eval resolve stacks i;
                 match v with PString s => t ← eval_parts l; Some (s +:+ t) | _ => None end
             end) parts;
      Some (PString s)
  | ApplyT f i => v ← eval resolve stacks i; Some (PString (f (as_string v)))
  | ToSecret i => eval resolve stacks i
  end.

(** What a stack that declared [exports] answers, once deployed. *)
Definition deployed (resolve : urn → string → pvalue) (stacks : string → StackReference)
    (exports : gmap string input) : StackReference :=
  λ key, exports !! key ≫= eval resolve stacks.

End values.

(** ** iac/pulumi/stackref *)

Module stackref.
Import pulumi values.

Definition RequireString (stack key : string) : input := ApplyT id (StackOutput stack key).

(** An output that is missing, or is no text, is read as the empty text and does not
    fail the deployment; [GetStringOutput] fails it. *)
Lemma missing_is_empty resolve stacks stack key :
  eval resolve stacks (RequireString stack key) =
    Some (PString (match stacks stack key with Some (PString s) => s | _ => "" end)).
Proof. simpl. by destruct (stacks stack key) as [[| |]|]. Qed.

End stackref.
