(* ===== verification/GcpInfra.v ===== *)
(** * iac/pulumi/gcpinfra: folders, projects, data, secrets and access

    Each package of [src/go/iac/pulumi/gcpinfra] that declares what keeps data or
    grants access is a module: its configuration, its validation, and the resources
    it declares with the engine of [Pulumi.v]. An optional argument that the code
    leaves nil is absent from the arguments. What runs rather than keeps is in
    [GcpRun.v]. *)

From S2P Require Import Prelude GoStrings GoErr GoMonad GoFloat Plan Pulumi.

(** ** lifecycle *)

Module lifecycle.
Import pulumi.

Record settings := mkSettings { ephemeral : bool }.
(** An option may be nil. *)
Definition Option : Type := option (settings → settings).
Definition Ephemeral : Option := Some (λ _, mkSettings true).

Definition IsEphemeral (opts : list Option) : bool :=
  ephemeral (fold_left (λ s opt, match opt with Some opt => opt s | None => s end) opts (mkSettings false)).

Definition Protect (opts : list Option) : ResourceOption := pulumi.Protect (negb (IsEphemeral opts)).
Definition deletionPolicy (opts : list Option) : string := if IsEphemeral opts then "DELETE" else "PREVENT".

End lifecycle.

(** ** internal/names *)

Module names.

Fixpoint Duplicate_loop {T} (key : T → string) (seen : gset string) (items : list T) : option string :=
  match items with
  | [] => None
  | item :: items =>
      let k := key item in
      if decide (k ∈ seen) then Some k else Duplicate_loop key ({[k]} ∪ seen) items
  end.
Definition Duplicate {T} (items : list T) (key : T → string) : option string := Duplicate_loop key ∅ items.

Lemma duplicate_loop_none {T} (key : T → string) seen items :
  Duplicate_loop key seen items = None ↔ NoDup (key <$> items) ∧ ∀ x, x ∈ key <$> items → x ∉ seen.
Proof.
  revert seen. induction items as [|item items IH]; intros seen; simpl.
  - split; [intros _; split; [constructor|set_solver]|done].
  - case_decide as Hd; [split; [done|]; intros [_ H]; by destruct (H (key item)); [left|]|].
    rewrite IH, NoDup_cons. split.
    + intros [Hnd Hs]. split; [split; [|done]|].
      * intros Hin. by apply Hs in Hin as []%not_elem_of_union; set_solver.
      * intros x [->|Hx]%elem_of_cons; [done|]. apply Hs in Hx. set_solver.
    + intros [[Hni Hnd] Hs]. split; [done|]. intros x Hx. apply not_elem_of_union. split; [|apply Hs; by right].
      rewrite elem_of_singleton. by intros ->.
Qed.

Lemma duplicate_none {T} (key : T → string) items : Duplicate items key = None ↔ NoDup (key <$> items).
Proof. unfold Duplicate. rewrite duplicate_loop_none. split; [by intros [? _]|]. intros H. split; [done|set_solver]. Qed.

End names.

(** ** folders *)

Module folders.
Import pulumi.

Definition ErrInvalidParent : error :=
  ENew "folders.ErrInvalidParent" ("folders: parent must start with " +:+ quote "organizations/" +:+ " or " +:+
                                   quote "folders/").
Definition ErrDuplicateFolder : error := ENew "folders.ErrDuplicateFolder" "folders: duplicate folder name".

Record Outputs := mkOutputs { RootFolderID : input; FolderIDs : list (string * input) }.

Definition ParseScope (parent : string) : error + scope.Scope :=
  if has_prefix "organizations/" parent then inr scope.Organization
  else if has_prefix "folders/" parent then inr scope.Container
  else inl (wrap_post ErrInvalidParent (", got " +:+ quote parent)).

(** [strings.TrimPrefix] *)
Definition OrgID (parent : string) : string :=
  if has_prefix "organizations/" parent then str_drop (str_len "organizations/") parent else parent.

(** The loop over the children: none is named as the root. *)
Definition root_clash (root : string) (children : list string) : option error :=
  match list_find (λ child, child = root) children with
  | Some (_, child) =>
      Some (wrap_post ErrDuplicateFolder (" " +:+ quote child +:+ ": a child cannot share the root folder's name"))
  | None => None
  end.

Definition check (cfg : hierarchy.Config) : option error :=
  (wrap_pre "folders: " <$> hierarchy.ValidateBase cfg) ;;?
  (wrap_pre "folders: " <$> hierarchy.ValidateChildren cfg) ;;?
  root_clash (hierarchy.RootName cfg) (hierarchy.Children cfg) ;;?
  match ParseScope (hierarchy.Parent cfg) with inl e => Some e | inr _ => None end.

Section engine.
Context (refuse : Context → Resource → option error).

Definition folder (parent : input) (name : string) (opts : list lifecycle.Option) : go Context (error + urn) :=
  wrapping ("create " +:+ name +:+ " folder: ")
    (NewResource refuse "organizations.Folder" name
       [("Parent", parent); ("DisplayName", Str name);
        ("DeletionProtection", Bool (negb (lifecycle.IsEphemeral opts)))] [lifecycle.Protect opts]).

Definition Apply (cfg : hierarchy.Config) (opts : list lifecycle.Option) : go Context (error + Outputs) :=
  _ ←? require_ok (check cfg);
  rootFolder ←? folder (Str (hierarchy.Parent cfg)) (hierarchy.RootName cfg) opts;
  ids ←? each (λ child, u ←? folder (Output rootFolder "Name") child opts; succeed (child, Output u "FolderId"))
           (hierarchy.Children cfg);
  succeed (mkOutputs (Output rootFolder "FolderId") (fold_left (λ m kv, set_key kv.1 kv.2 m) ids [])).
End engine.

End folders.

(** ** projects *)

Module projects.
Import pulumi.

Definition ErrNameRequired : error := ENew "projects.ErrNameRequired" "projects: Name is required".
Definition ErrFolderIDRequired : error := ENew "projects.ErrFolderIDRequired" "projects: FolderID is required".
Definition ErrBillingAccountRequired : error :=
  ENew "projects.ErrBillingAccountRequired" "projects: BillingAccount is required".
Definition ErrEmptyAPI : error := ENew "projects.ErrEmptyAPI" "projects: API name must not be empty".
Definition ErrDuplicateAPI : error := ENew "projects.ErrDuplicateAPI" "projects: duplicate API".

Record Config := mkConfig { Name : string; FolderID : string; BillingAccount : string; APIs : list string }.
Record Outputs := mkOutputs { ProjectID : input; ProjectNumber : input }.

Fixpoint check_apis (seen : gset string) (apis : list string) : option error :=
  match apis with
  | [] => None
  | api :: apis =>
      if decide (api = "") then Some ErrEmptyAPI
      else if decide (api ∈ seen) then Some (wrap_post ErrDuplicateAPI (" " +:+ quote api))
      else check_apis ({[api]} ∪ seen) apis
  end.

Definition Validate (c : Config) : option error :=
  fails ErrNameRequired when decide (Name c = "") ;;?
  fails ErrFolderIDRequired when decide (FolderID c = "") ;;?
  fails ErrBillingAccountRequired when decide (BillingAccount c = "") ;;?
  check_apis ∅ (APIs c).

Section engine.
Context (refuse : Context → Resource → option error).

Definition Apply (cfg : Config) (opts : list lifecycle.Option) : go Context (error + Outputs) :=
  _ ←? require_ok (Validate cfg);
  project ←? wrapping ("create project " +:+ Name cfg +:+ ": ")
    (NewResource refuse "organizations.Project" (Name cfg)
       [("Name", Str (Name cfg)); ("ProjectId", Str (Name cfg)); ("FolderId", Str (FolderID cfg));
        ("BillingAccount", Str (BillingAccount cfg));
        ("DeletionPolicy", Str (lifecycle.deletionPolicy opts)); ("AutoCreateNetwork", Bool false)]
       [lifecycle.Protect opts]);
  _ ←? all_of (λ api,
         wrapping ("enable API " +:+ api +:+ " on " +:+ Name cfg +:+ ": ")
           (NewResource refuse "projects.Service" (Name cfg +:+ "-" +:+ api)
              [("Project", Output project "ProjectId"); ("Service", Str api);
               ("DisableDependentServices", Bool false); ("DisableOnDestroy", Bool false)]
              [DependsOn [project]])) (APIs cfg);
  succeed (mkOutputs (Output project "ProjectId") (Output project "Number")).
End engine.

Lemma check_apis_none seen apis :
  check_apis seen apis = None ↔ NoDup apis ∧ ("" ∉ apis) ∧ ∀ x, x ∈ apis → x ∉ seen.
Proof.
  revert seen. induction apis as [|api apis IH]; intros seen; simpl.
  - split; [intros _; split; [constructor|set_solver]|done].
  - case_decide as He; [subst; split; [done|]; intros (_ & H & _); by destruct H; left|].
    case_decide as Hd; [split; [done|]; intros (_ & _ & H); by destruct (H api); [left|]|].
    rewrite IH, NoDup_cons. set_solver.
Qed.

End projects.

(** ** registries *)

Module registries.
Import pulumi.

Definition ErrIDRequired : error := ENew "registries.ErrIDRequired" "registries: ID is required".
Definition ErrFormatRequired : error := ENew "registries.ErrFormatRequired" "registries: Format is required".
Definition ErrLocationRequired : error := ENew "registries.ErrLocationRequired" "registries: Location is required".

Record Config := mkConfig { ID : string; Description : string; Format : string; Location : string }.
Record Outputs := mkOutputs { RepositoryID : input; Name : input }.

Definition Validate (c : Config) : option error :=
  fails ErrIDRequired when decide (ID c = "") ;;?
  fails ErrFormatRequired when decide (Format c = "") ;;?
  fails ErrLocationRequired when decide (Location c = "") ;;?
  None.

Section engine.
Context (refuse : Context → Resource → option error).

Definition Apply (projectID : input) (cfg : Config) (deps : list urn) (opts : list lifecycle.Option)
  : go Context (error + Outputs) :=
  _ ←? require_ok (Validate cfg);
  repo ←? wrapping ("create registry " +:+ ID cfg +:+ ": ")
    (NewResource refuse "artifactregistry.Repository" (ID cfg)
       [("Project", projectID); ("Location", Str (Location cfg)); ("RepositoryId", Str (ID cfg));
        ("Format", Str (Format cfg)); ("Description", Str (Description cfg));
        ("DeletionPolicy", Str (lifecycle.deletionPolicy opts))]
       [DependsOn deps; lifecycle.Protect opts]);
  succeed (mkOutputs (Output repo "ID") (Output repo "Name")).

Definition grant (what role name : string) (projectID : input) (location : string) (repoName member : input)
  : go Context (error + unit) :=
  _ ←? wrapping ("grant AR " +:+ what +:+ " " +:+ name +:+ ": ")
    (NewResource refuse "artifactregistry.RepositoryIamMember" name
       [("Project", projectID); ("Location", Str location); ("Repository", repoName);
        ("Role", Str role); ("Member", member)] []);
  succeed tt.
Definition GrantReader := grant "reader" "roles/artifactregistry.reader".
Definition GrantWriter := grant "writer" "roles/artifactregistry.writer".
End engine.

End registries.

(** ** datasets *)

Module datasets.
Import pulumi.

Definition ErrIDRequired : error := ENew "datasets.ErrIDRequired" "datasets: ID is required".
Definition ErrFriendlyNameRequired : error :=
  ENew "datasets.ErrFriendlyNameRequired" "datasets: FriendlyName is required".
Definition ErrLocationRequired : error := ENew "datasets.ErrLocationRequired" "datasets: Location is required".

Record Config := mkConfig {
  ID : string; FriendlyName : string; Description : string; Location : string; Labels : gmap string string
}.
Record Outputs := mkOutputs { DatasetID : input }.

Definition Validate (c : Config) : option error :=
  fails ErrIDRequired when decide (ID c = "") ;;?
  fails ErrFriendlyNameRequired when decide (FriendlyName c = "") ;;?
  fails ErrLocationRequired when decide (Location c = "") ;;?
  None.

Definition Apply (refuse : Context → Resource → option error) (projectID : input) (cfg : Config)
    (deps : list urn) (opts : list lifecycle.Option) : go Context (error + Outputs) :=
  _ ←? require_ok (Validate cfg);
  ds ←? wrapping ("create dataset " +:+ ID cfg +:+ ": ")
    (NewResource refuse "bigquery.Dataset" (ID cfg)
       [("Project", projectID); ("DatasetId", Str (ID cfg)); ("FriendlyName", Str (FriendlyName cfg));
        ("Description", Str (Description cfg)); ("Location", Str (Location cfg));
        ("Labels", StringMap (Labels cfg));
        ("DeleteContentsOnDestroy", Bool (lifecycle.IsEphemeral opts))]
       [DependsOn deps; lifecycle.Protect opts]);
  succeed (mkOutputs (Output ds "DatasetId")).

End datasets.

(** ** tables *)

Module tables.
Import pulumi.

Definition ErrNameRequired : error := ENew "tables.ErrNameRequired" "tables: Name is required".
Definition ErrSchemaRequired : error := ENew "tables.ErrSchemaRequired" "tables: Schema is required".
Definition ErrExternalNameRequired : error :=
  ENew "tables.ErrExternalNameRequired" "tables: external Name is required".
Definition ErrSourceFormatRequired : error :=
  ENew "tables.ErrSourceFormatRequired" "tables: external SourceFormat is required".
Definition ErrSourceURIsRequired : error :=
  ENew "tables.ErrSourceURIsRequired" "tables: external SourceURIs is required".
Definition ErrDuplicateName : error := ENew "tables.ErrDuplicateName" "tables: duplicate table name".
Definition ErrDuplicateExternalName : error :=
  ENew "tables.ErrDuplicateExternalName" "tables: duplicate external table name".

Record Config := mkConfig {
  Name : string; Schema : string; PartitionField : string; DeletionProtection : bool;
  Labels : gmap string string
}.
Record ExternalConfig := mkExternal {
  ext_Name : string; ext_Schema : string; SourceFormat : string; SourceURIs : list string;
  SheetRange : string; SkipLeadingRows : Z; ext_DeletionProtection : bool; ext_Labels : gmap string string
}.

Definition Validate (c : Config) : option error :=
  fails ErrNameRequired when decide (Name c = "") ;;?
  fails ErrSchemaRequired when decide (Schema c = "") ;;?
  None.
Definition ext_Validate (c : ExternalConfig) : option error :=
  fails ErrExternalNameRequired when decide (ext_Name c = "") ;;?
  fails ErrSourceFormatRequired when decide (SourceFormat c = "") ;;?
  fails ErrSourceURIsRequired when decide (length (SourceURIs c) = 0%nat) ;;?
  None.

(** The checks of a list, before anything is created. *)
Fixpoint first_error {T} (validate : T → option error) (l : list T) : option error :=
  match l with [] => None | x :: l => validate x ;;? first_error validate l end.
Definition check (tt : list Config) : option error :=
  first_error Validate tt ;;?
  match names.Duplicate tt Name with
  | Some name => Some (wrap_post ErrDuplicateName (" " +:+ quote name)) | None => None end.
Definition ext_check (tt : list ExternalConfig) : option error :=
  first_error ext_Validate tt ;;?
  match names.Duplicate tt ext_Name with
  | Some name => Some (wrap_post ErrDuplicateExternalName (" " +:+ quote name)) | None => None end.

Section engine.
Context (refuse : Context → Resource → option error) (projectID datasetID : input)
  (deps : list urn) (opts : list lifecycle.Option).

Definition table_args (t : Config) : list (string * input) :=
  [("Project", projectID); ("DatasetId", datasetID); ("TableId", Str (Name t)); ("Schema", Str (Schema t));
   ("DeletionProtection", Bool (negb (lifecycle.IsEphemeral opts) || DeletionProtection t));
   ("Labels", StringMap (Labels t))] ++
  if_set (negb (bool_decide (PartitionField t = "")))
    [("TimePartitioning", Args [("Type", Str "DAY"); ("Field", Str (PartitionField t))])].

Definition Apply (tt : list Config) : go Context (error + unit) :=
  _ ←? require_ok (check tt);
  all_of (λ t, wrapping ("create table " +:+ Name t +:+ ": ")
         (NewResource refuse "bigquery.Table" (Name t) (table_args t)
            [DependsOn deps; lifecycle.Protect opts])) tt.

Definition external_args (t : ExternalConfig) : list (string * input) :=
  [("Project", projectID); ("DatasetId", datasetID); ("TableId", Str (ext_Name t));
   ("DeletionProtection", Bool (negb (lifecycle.IsEphemeral opts) || ext_DeletionProtection t));
   ("Labels", StringMap (ext_Labels t));
   ("ExternalDataConfiguration", Args (
      [("Autodetect", Bool false); ("SourceFormat", Str (SourceFormat t));
       ("SourceUris", StringArray (SourceURIs t)); ("Compression", Str "NONE")] ++
      if_set (bool_decide (SourceFormat t = "GOOGLE_SHEETS"))
        [("GoogleSheetsOptions",
          Args [("Range", Str (SheetRange t)); ("SkipLeadingRows", Int (SkipLeadingRows t))])]))] ++
  if_set (negb (bool_decide (ext_Schema t = ""))) [("Schema", Str (ext_Schema t))].

(** External tables hold no rows, so they are not protected. *)
Definition ApplyExternal (tt : list ExternalConfig) : go Context (error + unit) :=
  _ ←? require_ok (ext_check tt);
  all_of (λ t, wrapping ("create external table " +:+ ext_Name t +:+ ": ")
         (NewResource refuse "bigquery.Table" (ext_Name t) (external_args t) [DependsOn deps])) tt.
End engine.

End tables.

(** ** secrets *)

Module secrets.
Import pulumi.

Definition ErrNameRequired : error := ENew "secrets.ErrNameRequired" "secrets: Name is required".
Definition ErrValueRequired : error := ENew "secrets.ErrValueRequired" "secrets: Value is required".
Definition ErrNoSecrets : error := ENew "secrets.ErrNoSecrets" "secrets: at least one secret is required".
Definition ErrDuplicateName : error := ENew "secrets.ErrDuplicateName" "secrets: duplicate Name".

Record Secret := mkSecret { Name : string; Value : string }.

Definition Validate (s : Secret) : option error :=
  fails ErrNameRequired when decide (Name s = "") ;;?
  fails ErrValueRequired when decide (Value s = "") ;;?
  None.

Fixpoint ValidateAll_loop (seen : gset string) (l : list Secret) : option error :=
  match l with
  | [] => None
  | s :: l =>
      Validate s ;;?
      if decide (Name s ∈ seen) then Some (wrap_post ErrDuplicateName (" " +:+ quote (Name s)))
      else ValidateAll_loop ({[Name s]} ∪ seen) l
  end.
Definition ValidateAll (l : list Secret) : option error :=
  if decide (length l = 0%nat) then Some ErrNoSecrets else ValidateAll_loop ∅ l.

Section engine.
Context (refuse : Context → Resource → option error) (projectID : input) (deps : list urn)
  (opts : list lifecycle.Option).

(** A secret and its version, whose data is marked as secret. *)
Definition apply_secret (s : Secret) : go Context (error + urn) :=
  secret ←? wrapping ("create secret " +:+ Name s +:+ ": ")
    (NewResource refuse "secretmanager.Secret" (Name s)
       [("Project", projectID); ("SecretId", Str (Name s)); ("Replication", Args [("Auto", Args [])]);
        ("DeletionPolicy", Str (lifecycle.deletionPolicy opts));
        ("DeletionProtection", Bool (negb (lifecycle.IsEphemeral opts)))]
       [DependsOn deps; lifecycle.Protect opts]);
  wrapping ("create secret version " +:+ Name s +:+ ": ")
    (NewResource refuse "secretmanager.SecretVersion" (Name s +:+ "-v1")
       [("Secret", Output secret "ID"); ("SecretData", ToSecret (Str (Value s)))] []).

Definition Apply (ss : list Secret) : go Context (error + unit) :=
  _ ←? require_ok (ValidateAll ss); all_of apply_secret ss.
End engine.

End secrets.

(** ** tagkeys *)

Module tagkeys.
Import pulumi.

Definition ErrOrgIDRequired : error := ENew "tagkeys.ErrOrgIDRequired" "tagkeys: orgID is required".

Definition Outputs : Type := gmap string input.

Definition check (orgID : string) (dims : list classification.Dimension) : option error :=
  fails ErrOrgIDRequired when decide (orgID = "") ;;?
  (wrap_pre "tagkeys: " <$> classification.ValidateAll dims).

Definition Apply (refuse : Context → Resource → option error) (orgID : string)
    (dims : list classification.Dimension) (opts : list lifecycle.Option) : go Context (error + Outputs) :=
  _ ←? require_ok (check orgID dims);
  ids ←? each (λ dim,
           let name := classification.ShortName dim in
           u ←? wrapping ("create " +:+ name +:+ " tag key: ")
             (NewResource refuse "tags.TagKey" name
                [("Parent", Sprintf [Str "organizations/"; Str orgID]); ("ShortName", Str name);
                 ("Description", Str (classification.Description dim))] [lifecycle.Protect opts]);
           succeed (name, Output u "ID")) dims;
  succeed (fold_left (λ m kv, <[kv.1 := kv.2]> m) ids ∅).

End tagkeys.

(** ** firestore *)

Module firestore.
Import pulumi.

Definition DeleteProtectionEnabled : string := "DELETE_PROTECTION_ENABLED".
Definition DeleteProtectionDisabled : string := "DELETE_PROTECTION_DISABLED".

Definition ErrNameRequired : error := ENew "firestore.ErrNameRequired" "firestore: Name is required".
Definition ErrRegionRequired : error := ENew "firestore.ErrRegionRequired" "firestore: Region is required".
Definition ErrInvalidDeleteProtection : error :=
  ENew "firestore.ErrInvalidDeleteProtection"
    "firestore: DeleteProtection must be DELETE_PROTECTION_ENABLED or DELETE_PROTECTION_DISABLED".
Definition ErrCollectionRequired : error :=
  ENew "firestore.ErrCollectionRequired" "firestore: document Collection is required".
Definition ErrDocumentIDRequired : error :=
  ENew "firestore.ErrDocumentIDRequired" "firestore: document DocumentID is required".
Definition ErrFieldsRequired : error :=
  ENew "firestore.ErrFieldsRequired" "firestore: document Fields is required".
Definition ErrDuplicateDocumentID : error :=
  ENew "firestore.ErrDuplicateDocumentID" "firestore: duplicate document DocumentID".

Record DatabaseConfig := mkDatabase { Name : string; Region : string; DeleteProtection : string }.
Record DocumentConfig := mkDocument { Collection : string; DocumentID : string; Fields : string }.

Definition Validate (c : DatabaseConfig) : option error :=
  fails ErrNameRequired when decide (Name c = "") ;;?
  fails ErrRegionRequired when decide (Region c = "") ;;?
  if decide (DeleteProtection c ∈ ["" ; DeleteProtectionEnabled; DeleteProtectionDisabled]) then None
  else Some (wrap_post ErrInvalidDeleteProtection (", got " +:+ quote (DeleteProtection c))).

Definition doc_Validate (c : DocumentConfig) : option error :=
  fails ErrCollectionRequired when decide (Collection c = "") ;;?
  fails ErrDocumentIDRequired when decide (DocumentID c = "") ;;?
  fails ErrFieldsRequired when decide (Fields c = "") ;;?
  None.

Definition check_docs (docs : list DocumentConfig) : option error :=
  tables.first_error doc_Validate docs ;;?
  match names.Duplicate docs DocumentID with
  | Some id => Some (wrap_post ErrDuplicateDocumentID (" " +:+ quote id)) | None => None end.

Section engine.
Context (refuse : Context → Resource → option error) (projectID : input).

Definition ApplyDatabase (cfg : DatabaseConfig) (deps : list urn) (opts : list lifecycle.Option)
  : go Context (error + input) :=
  _ ←? require_ok (Validate cfg);
  let deleteProtection :=
    if lifecycle.IsEphemeral opts then DeleteProtectionDisabled else DeleteProtectionEnabled in
  let deleteProtection :=
    if bool_decide (DeleteProtection cfg = "") then deleteProtection else DeleteProtection cfg in
  db ←? wrapping ("create firestore database " +:+ Name cfg +:+ ": ")
    (NewResource refuse "firestore.Database" ("firestore-" +:+ Name cfg)
       [("Project", projectID); ("Name", Str (Name cfg)); ("LocationId", Str (Region cfg));
        ("Type", Str "FIRESTORE_NATIVE"); ("DatabaseEdition", Str "ENTERPRISE");
        ("DeleteProtectionState", Str deleteProtection);
        ("DeletionPolicy", Str (lifecycle.deletionPolicy opts));
        ("PointInTimeRecoveryEnablement", Str "POINT_IN_TIME_RECOVERY_ENABLED");
        ("FirestoreDataAccessMode", Str "DATA_ACCESS_MODE_ENABLED")]
       [DependsOn deps; lifecycle.Protect opts]);
  succeed (Output db "Name").

Definition ApplyDocuments (dbName : string) (docs : list DocumentConfig) (deps : list urn)
    (opts : list lifecycle.Option) : go Context (error + unit) :=
  _ ←? require_ok (check_docs docs);
  all_of (λ doc,
    wrapping ("seed document " +:+ Collection doc +:+ "/" +:+ DocumentID doc +:+ ": ")
      (NewResource refuse "firestore.Document" ("doc-" +:+ DocumentID doc)
         [("Project", projectID); ("Database", Str dbName); ("Collection", Str (Collection doc));
          ("DocumentId", Str (DocumentID doc)); ("Fields", Str (Fields doc))]
         [DependsOn deps; IgnoreChanges ["fields"]; lifecycle.Protect opts])) docs.
End engine.

End firestore.

(** ** serviceaccounts *)

Module serviceaccounts.
Import pulumi.

Definition ErrIDRequired : error := ENew "serviceaccounts.ErrIDRequired" "serviceaccounts: ID is required".
Definition ErrDisplayNameRequired : error :=
  ENew "serviceaccounts.ErrDisplayNameRequired" "serviceaccounts: DisplayName is required".

Record Account := mkAccount { ID : string; DisplayName : string }.
Definition Outputs : Type := gmap string input.

Definition Validate (a : Account) : option error :=
  fails ErrIDRequired when decide (ID a = "") ;;?
  fails ErrDisplayNameRequired when decide (DisplayName a = "") ;;?
  None.

(** Each account is checked just before it is declared. *)
Definition Apply (refuse : Context → Resource → option error) (projectID : input) (accounts : list Account)
    (deps : list urn) : go Context (error + Outputs) :=
  emails ←? each (λ a,
              _ ←? require_ok (Validate a);
              sa ←? wrapping ("create SA " +:+ ID a +:+ ": ")
                (NewResource refuse "serviceaccount.Account" (ID a)
                   [("Project", projectID); ("AccountId", Str (ID a)); ("DisplayName", Str (DisplayName a))]
                   [DependsOn deps]);
              succeed (ID a, Output sa "Email")) accounts;
  succeed (fold_left (λ m kv, <[kv.1 := kv.2]> m) emails ∅).

End serviceaccounts.

(** ** iambindings *)

Module iambindings.
Import pulumi.

Definition ErrNameRequired : error := ENew "iambindings.ErrNameRequired" "iambindings: Name is required".
Definition ErrProjectIDRequired : error :=
  ENew "iambindings.ErrProjectIDRequired" "iambindings: ProjectID is required".
Definition ErrRoleRequired : error := ENew "iambindings.ErrRoleRequired" "iambindings: Role is required".
Definition ErrMemberRequired : error := ENew "iambindings.ErrMemberRequired" "iambindings: Member is required".

Record Binding := mkBinding { Name : string; ProjectID : string; Role : string; Member : string }.
Record DynamicBinding := mkDynamic { dyn_Name : string; dyn_Project : input; dyn_Role : string; dyn_Member : input }.
Record SAIamBinding := mkSAIam { sa_Name : string; ServiceAccountID : input; sa_Role : string; sa_Member : input }.

Definition Validate (b : Binding) : option error :=
  fails ErrNameRequired when decide (Name b = "") ;;?
  fails ErrProjectIDRequired when decide (ProjectID b = "") ;;?
  fails ErrRoleRequired when decide (Role b = "") ;;?
  fails ErrMemberRequired when decide (Member b = "") ;;?
  None.

Section engine.
Context (refuse : Context → Resource → option error).

Definition Apply (bindings : list Binding) : go Context (error + unit) :=
  all_of (λ b,
    _ ←? require_ok (Validate b);
    wrapping ("create IAM binding " +:+ Name b +:+ ": ")
      (NewResource refuse "projects.IAMMember" (Name b)
         [("Project", Str (ProjectID b)); ("Role", Str (Role b)); ("Member", Str (Member b))] [])) bindings.

Definition ApplyDynamic (bindings : list DynamicBinding) : go Context (error + list urn) :=
  each (λ b,
    wrapping ("create IAM binding " +:+ dyn_Name b +:+ ": ")
      (NewResource refuse "projects.IAMMember" (dyn_Name b)
         [("Project", dyn_Project b); ("Role", Str (dyn_Role b)); ("Member", dyn_Member b)] [])) bindings.

Definition ApplySAIam (bindings : list SAIamBinding) : go Context (error + list urn) :=
  each (λ b,
    wrapping ("create SA IAM binding " +:+ sa_Name b +:+ ": ")
      (NewResource refuse "serviceaccount.IAMMember" (sa_Name b)
         [("ServiceAccountId", ServiceAccountID b); ("Role", Str (sa_Role b)); ("Member", sa_Member b)] []))
    bindings.
End engine.

End iambindings.

(** ** logsinks *)

Module logsinks.
Import pulumi.

Definition ErrNameRequired : error := ENew "logsinks.ErrNameRequired" "logsinks: Name is required".
Definition ErrOrgIDRequired : error := ENew "logsinks.ErrOrgIDRequired" "logsinks: OrgID is required".

Record Config := mkConfig { Name : string; OrgID : string; Filter : string; IncludeChildren : bool }.
Record Outputs := mkOutputs { WriterIdentity : input }.

Definition Validate (c : Config) : option error :=
  fails ErrNameRequired when decide (Name c = "") ;;?
  fails ErrOrgIDRequired when decide (OrgID c = "") ;;?
  None.

Definition Apply (refuse : Context → Resource → option error) (cfg : Config) (destination : input)
  : go Context (error + Outputs) :=
  _ ←? require_ok (Validate cfg);
  sink ←? wrapping ("create log sink " +:+ Name cfg +:+ ": ")
    (NewResource refuse "logging.OrganizationSink" (Name cfg)
       [("OrgId", Str (OrgID cfg)); ("Name", Str (Name cfg)); ("Destination", destination);
        ("Filter", Str (Filter cfg)); ("IncludeChildren", Bool (IncludeChildren cfg))] []);
  succeed (mkOutputs (Output sink "WriterIdentity")).

End logsinks.

(** ** budgets *)

Module budgets.
Import pulumi.

Definition ErrDisplayNameRequired : error :=
  ENew "budgets.ErrDisplayNameRequired" "budgets: DisplayName is required".
Definition ErrAmountNotPositive : error := ENew "budgets.ErrAmountNotPositive" "budgets: Amount must be positive".
Definition ErrBillingAccountRequired : error :=
  ENew "budgets.ErrBillingAccountRequired" "budgets: BillingAccount is required".
Definition ErrScopeRequired : error := ENew "budgets.ErrScopeRequired" "budgets: Scope is required".
Definition ErrThresholdsRequired : error :=
  ENew "budgets.ErrThresholdsRequired" "budgets: at least one threshold is required".
Definition ErrAlertEmailsRequired : error :=
  ENew "budgets.ErrAlertEmailsRequired" "budgets: at least one alert email is required".
Definition ErrDuplicateAlertEmail : error :=
  ENew "budgets.ErrDuplicateAlertEmail" "budgets: duplicate alert email".

Record Config := mkConfig {
  DisplayName : string; Amount : Z; Currency : string; BillingAccount : string; Scope : string;
  Thresholds : list float64; AlertEmails : list string
}.

Definition Validate (c : Config) : option error :=
  fails ErrDisplayNameRequired when decide (DisplayName c = "") ;;?
  fails ErrAmountNotPositive when decide (Amount c <= 0) ;;?
  fails ErrBillingAccountRequired when decide (BillingAccount c = "") ;;?
  fails ErrScopeRequired when decide (Scope c = "") ;;?
  fails ErrThresholdsRequired when decide (length (Thresholds c) = 0%nat) ;;?
  fails ErrAlertEmailsRequired when decide (length (AlertEmails c) = 0%nat) ;;?
  match names.Duplicate (AlertEmails c) id with
  | Some email => Some (wrap_post ErrDuplicateAlertEmail (" " +:+ quote email)) | None => None end.

Definition Apply (refuse : Context → Resource → option error) (projectID : input) (cfg : Config)
    (deps : list urn) : go Context (error + unit) :=
  _ ←? require_ok (Validate cfg);
  let currency := if bool_decide (Currency cfg = "") then "USD" else Currency cfg in
  channelIDs ←? each (λ email,
                  channel ←? wrapping ("create notification channel for " +:+ email +:+ ": ")
                    (NewResource refuse "monitoring.NotificationChannel" ("alert-" +:+ email)
                       [("Project", projectID); ("DisplayName", Sprintf [Str "Budget alert: "; Str email]);
                        ("Type", Str "email"); ("Labels", Args [("email_address", Str email)])]
                       [DependsOn deps]);
                  succeed (Output channel "ID")) (AlertEmails cfg);
  _ ←? wrapping ("create budget " +:+ DisplayName cfg +:+ ": ")
    (NewResource refuse "billing.Budget" (DisplayName cfg)
       [("BillingAccount", Str (BillingAccount cfg)); ("DisplayName", Str (DisplayName cfg));
        ("Amount", Args [("SpecifiedAmount",
                          Args [("CurrencyCode", Str currency); ("Units", Str (itoa (Amount cfg)))])]);
        ("ThresholdRules", Array ((λ t, Args [("ThresholdPercent", Float64 t)]) <$> Thresholds cfg));
        ("AllUpdatesRule", Args [("MonitoringNotificationChannels", Array channelIDs);
                                 ("DisableDefaultIamRecipients", Bool true)]);
        ("BudgetFilter", Args [("ResourceAncestors", Array [Str (Scope cfg)])])]
       [DependsOn deps]);
  succeed tt.

End budgets.

(** ** What the packages declare *)

Module declared.
Import pulumi values.

(** The types whose resources keep data, or are what keeps it. *)
Definition keeps_data : list string :=
  ["organizations.Folder"; "organizations.Project"; "artifactregistry.Repository"; "bigquery.Dataset";
   "bigquery.Table"; "firestore.Database"; "firestore.Document"; "secretmanager.Secret"; "tags.TagKey"].

(** What a resource says of a flag. *)
Definition says_text (key value : string) (r : Resource) : bool :=
  match find_key key (rargs r) with Some (Str s) => bool_decide (s = value) | _ => false end.
Definition says_flag (key : string) (value : bool) (r : Resource) : bool :=
  match find_key key (rargs r) with Some (Bool b) => Bool.eqb b value | _ => false end.

(** What the provider is told of the deletion of a resource, for every type that
    has a flag for it. A table may ask for protection on an ephemeral stack too. *)
Definition told (eph : bool) (r : Resource) : bool :=
  let ty t := bool_decide (rtype r = t) in
  let policy := says_text "DeletionPolicy" (if eph then "DELETE" else "PREVENT") r in
  let protection := says_flag "DeletionProtection" (negb eph) r in
  (if ty "organizations.Folder" then protection else true) &&
  (if ty "organizations.Project" then policy else true) &&
  (if ty "artifactregistry.Repository" then policy else true) &&
  (if ty "bigquery.Dataset" then says_flag "DeleteContentsOnDestroy" eph r else true) &&
  (if ty "bigquery.Table" then
     match find_key "DeletionProtection" (rargs r) with Some (Bool b) => eph || b | _ => false end else true) &&
  (if ty "secretmanager.Secret" then policy && protection else true) &&
  (if ty "firestore.Database" then policy else true).

(** A resource that keeps data is protected exactly on a permanent stack (an external
    table, which keeps none, need not be); the provider is told the same, by every
    type that has a flag for it; and no resource of another type contradicts it. *)
Definition guarded (eph : bool) (r : Resource) : bool :=
  (negb (bool_decide (rtype r ∈ keeps_data)) ||
   bool_decide (is_Some (find_key "ExternalDataConfiguration" (rargs r))) ||
   Bool.eqb (protected r) (negb eph)) &&
  told eph r &&
  match find_key "DeletionPolicy" (rargs r) with
  | Some (Str p) => bool_decide (p = if eph then "DELETE" else "PREVENT") | _ => true end &&
  match find_key "DeletionProtection" (rargs r) with Some (Bool b) => eph || b | _ => true end &&
  match find_key "DeleteContentsOnDestroy" (rargs r) with Some (Bool b) => Bool.eqb b eph | _ => true end.

(** A resource with these arguments is guarded: by computation, for both values. *)
Ltac guarded :=
  unfold if_set, lifecycle.Protect, lifecycle.deletionPolicy;
  match goal with |- context [lifecycle.IsEphemeral ?opts] => destruct (lifecycle.IsEphemeral opts) end;
  repeat match goal with |- context [if ?b then _ else _] => destruct b end; vm_compute; reflexivity.
Ltac declared :=
  repeat first
    [ apply declares_nil
    | apply declares_wrapping
    | apply declares_checked; intros ?
    | apply declares_wrapped_check; intros ?
    | apply declares_resource; guarded
    | apply (declares_rapp _ _ [_]); [solve [declared]|intros ?]
    | apply declares_rlast; [solve [declared]|intros ?]
    | apply declares_each_one; intros ? _
    | apply declares_all_of_one; intros ? _ ].

Section packages.
Context (refuse : Context → Resource → option error) (opts : list lifecycle.Option).
Abbreviation P := (λ r, guarded (lifecycle.IsEphemeral opts) r = true).

Lemma folder_declared parent name :
  declares_in P [("organizations.Folder", name)] (folders.folder refuse parent name opts).
Proof. unfold folders.folder. declared. Qed.

Definition folder_urns (cfg : hierarchy.Config) : list urn :=
  if_ok (folders.check cfg)
    ((λ name, ("organizations.Folder", name)) <$> hierarchy.RootName cfg :: hierarchy.Children cfg).
Lemma folders_declared cfg : declares_in P (folder_urns cfg) (folders.Apply refuse cfg opts).
Proof.
  unfold folders.Apply. apply declares_if_ok. intros _.
  apply (declares_rapp _ _ [_]); [apply folder_declared|]. intros root.
  apply declares_rlast; [|intros; apply declares_nil]. apply declares_each_one. intros child _.
  apply declares_rlast; [apply folder_declared|]. intros; apply declares_nil.
Qed.

Definition project_urns (cfg : projects.Config) : list urn :=
  if_ok (projects.Validate cfg)
    (("organizations.Project", projects.Name cfg) ::
     ((λ api, ("projects.Service", projects.Name cfg +:+ "-" +:+ api)) <$> projects.APIs cfg)).
Lemma project_declared cfg : declares_in P (project_urns cfg) (projects.Apply refuse cfg opts).
Proof.
  unfold projects.Apply. apply declares_if_ok. intros _.
  apply (declares_rapp _ _ [_]); [declared|]. intros project.
  apply declares_rlast; [declared|intros; apply declares_nil].
Qed.

Lemma registry_declared projectID cfg deps :
  declares_in P [("artifactregistry.Repository", registries.ID cfg)] (registries.Apply refuse projectID cfg deps opts).
Proof. unfold registries.Apply. declared. Qed.

Lemma grant_declared what role name projectID location repo member :
  declares_in P [("artifactregistry.RepositoryIamMember", name)]
    (registries.grant refuse what role name projectID location repo member).
Proof. unfold registries.grant. declared. Qed.

Lemma dataset_declared projectID cfg deps :
  declares_in P [("bigquery.Dataset", datasets.ID cfg)] (datasets.Apply refuse projectID cfg deps opts).
Proof. unfold datasets.Apply. declared. Qed.

Definition table_urns (l : list tables.Config) : list urn :=
  if_ok (tables.check l) ((λ t, ("bigquery.Table", tables.Name t)) <$> l).
Lemma tables_declared projectID datasetID deps l :
  declares_in P (table_urns l) (tables.Apply refuse projectID datasetID deps opts l).
Proof. unfold tables.Apply, tables.table_args. apply declares_if_ok. intros _. declared. Qed.

Definition external_urns (l : list tables.ExternalConfig) : list urn :=
  if_ok (tables.ext_check l) ((λ t, ("bigquery.Table", tables.ext_Name t)) <$> l).
Lemma external_declared projectID datasetID deps l :
  declares_in P (external_urns l) (tables.ApplyExternal refuse projectID datasetID deps opts l).
Proof. unfold tables.ApplyExternal, tables.external_args. apply declares_if_ok. intros _. declared. Qed.

Definition secret_urns (l : list secrets.Secret) : list urn :=
  if_ok (secrets.ValidateAll l)
    (l ≫= λ s, [("secretmanager.Secret", secrets.Name s);
                ("secretmanager.SecretVersion", secrets.Name s +:+ "-v1")]).
Lemma secrets_declared projectID deps l :
  declares_in P (secret_urns l) (secrets.Apply refuse projectID deps opts l).
Proof.
  unfold secrets.Apply. apply declares_if_ok. intros _. apply declares_all_of. intros s _.
  unfold secrets.apply_secret. declared.
Qed.

Definition tagkey_urns (orgID : string) (dims : list classification.Dimension) : list urn :=
  if_ok (tagkeys.check orgID dims) ((λ d, ("tags.TagKey", classification.ShortName d)) <$> dims).
Lemma tagkeys_declared orgID dims :
  declares_in P (tagkey_urns orgID dims) (tagkeys.Apply refuse orgID dims opts).
Proof. unfold tagkeys.Apply. apply declares_if_ok. intros _. declared. Qed.

Lemma database_declared projectID cfg deps :
  declares_in P [("firestore.Database", "firestore-" +:+ firestore.Name cfg)]
    (firestore.ApplyDatabase refuse projectID cfg deps opts).
Proof. unfold firestore.ApplyDatabase. declared. Qed.

(** The provider's own protection of a database: what the configuration says, and
    else what the stack is. *)
Definition database_state (cfg : firestore.DatabaseConfig) (r : Resource) : Prop :=
  rtype r = "firestore.Database" ∧
  find_key "DeleteProtectionState" (rargs r) = Some (Str
    (if bool_decide (firestore.DeleteProtection cfg = "")
     then if lifecycle.IsEphemeral opts then "DELETE_PROTECTION_DISABLED" else "DELETE_PROTECTION_ENABLED"
     else firestore.DeleteProtection cfg)).
Lemma database_state_declared projectID cfg deps :
  declares_in (database_state cfg) [("firestore.Database", "firestore-" +:+ firestore.Name cfg)]
    (firestore.ApplyDatabase refuse projectID cfg deps opts).
Proof.
  unfold firestore.ApplyDatabase. apply declares_checked. intros _.
  apply declares_rlast; [|intros ?; apply declares_nil]. apply declares_wrapping, declares_resource. by split.
Qed.

(** The provider's own protection of a table: on for a permanent stack, and on an
    ephemeral one when its configuration says so. *)
Definition table_flag (flags : list (string * bool)) (r : Resource) : Prop :=
  ∃ name flag, (name, flag) ∈ flags ∧ rname r = name ∧
    find_key "DeletionProtection" (rargs r) = Some (Bool (negb (lifecycle.IsEphemeral opts) || flag)).
Lemma table_flags_declared projectID datasetID deps l :
  declares_in (table_flag ((λ t, (tables.Name t, tables.DeletionProtection t)) <$> l)) (table_urns l)
    (tables.Apply refuse projectID datasetID deps opts l).
Proof.
  unfold tables.Apply. apply declares_if_ok. intros _. apply declares_all_of_one. intros t Ht.
  apply declares_wrapping, declares_resource. eexists _, _.
  split; [by apply (list_elem_of_fmap_2 (λ t, (tables.Name t, tables.DeletionProtection t)))|done].
Qed.
Lemma external_flags_declared projectID datasetID deps l :
  declares_in (table_flag ((λ t, (tables.ext_Name t, tables.ext_DeletionProtection t)) <$> l)) (external_urns l)
    (tables.ApplyExternal refuse projectID datasetID deps opts l).
Proof.
  unfold tables.ApplyExternal. apply declares_if_ok. intros _. apply declares_all_of_one. intros t Ht.
  apply declares_wrapping, declares_resource. eexists _, _.
  split; [by apply (list_elem_of_fmap_2 (λ t, (tables.ext_Name t, tables.ext_DeletionProtection t)))|done].
Qed.

Definition document_urns (docs : list firestore.DocumentConfig) : list urn :=
  if_ok (firestore.check_docs docs)
    ((λ d, ("firestore.Document", "doc-" +:+ firestore.DocumentID d)) <$> docs).
Lemma documents_declared projectID dbName docs deps :
  declares_in P (document_urns docs) (firestore.ApplyDocuments refuse projectID dbName docs deps opts).
Proof. unfold firestore.ApplyDocuments. apply declares_if_ok. intros _. declared. Qed.

Lemma accounts_declared projectID accounts deps :
  declares_in P ((λ a, ("serviceaccount.Account", serviceaccounts.ID a)) <$> accounts)
    (serviceaccounts.Apply refuse projectID accounts deps).
Proof. unfold serviceaccounts.Apply. declared. Qed.

Lemma bindings_declared bindings :
  declares_in P ((λ b, ("projects.IAMMember", iambindings.Name b)) <$> bindings) (iambindings.Apply refuse bindings).
Proof. unfold iambindings.Apply. declared. Qed.

Lemma sa_bindings_declared bindings :
  declares_in P ((λ b, ("serviceaccount.IAMMember", iambindings.sa_Name b)) <$> bindings)
    (iambindings.ApplySAIam refuse bindings).
Proof. unfold iambindings.ApplySAIam. declared. Qed.

Lemma sink_declared cfg destination :
  declares_in P [("logging.OrganizationSink", logsinks.Name cfg)] (logsinks.Apply refuse cfg destination).
Proof. unfold logsinks.Apply. declared. Qed.

Definition budget_urns (cfg : budgets.Config) : list urn :=
  if_ok (budgets.Validate cfg)
    (((λ email, ("monitoring.NotificationChannel", "alert-" +:+ email)) <$> budgets.AlertEmails cfg) ++
     [("billing.Budget", budgets.DisplayName cfg)]).
Lemma budget_declared projectID cfg deps :
  declares_in P (budget_urns cfg) (budgets.Apply refuse projectID cfg deps).
Proof.
  unfold budgets.Apply. apply declares_if_ok. intros _. apply declares_rapp; [declared|]. intros ids. declared.
Qed.
End packages.

(** ** What the checks let through has distinct URNs *)

Lemma NoDup_append (p : string) (l : list string) : NoDup l → NoDup ((λ x, p +:+ x) <$> l).
Proof. intros H. apply NoDup_fmap_2; [|done]. by intros ?? ?%(inj _). Qed.

Lemma folder_urns_distinct cfg : NoDup (folder_urns cfg).
Proof.
  apply NoDup_if_ok. unfold folders.check, folders.root_clash. rewrite !plan.seq_none, !plan.fmap_none.
  intros (_ & [Hnd _]%plan.children_none & Hroot & _).
  destruct (list_find _ _) as [[]|] eqn:E; [done|]. apply list_find_None in E.
  apply (NoDup_urns _ id). rewrite list_fmap_id. constructor; [|done].
  intros Hin. rewrite Forall_forall in E. by apply (E _ Hin).
Qed.

Lemma project_urns_distinct cfg : NoDup (project_urns cfg).
Proof.
  apply NoDup_if_ok. unfold projects.Validate. rewrite !plan.seq_none.
  intros (_ & _ & _ & (Hnd & _)%projects.check_apis_none). constructor.
  - intros (api & ? & _)%list_elem_of_fmap_1. done.
  - apply NoDup_urns. apply NoDup_fmap_2; [|done]. by intros ?? ?%(inj _)%(inj _).
Qed.

Lemma table_urns_distinct l : NoDup (table_urns l).
Proof.
  apply NoDup_if_ok. unfold tables.check. rewrite plan.seq_none. intros [_ H]. apply NoDup_urns.
  apply names.duplicate_none. by destruct (names.Duplicate _ _).
Qed.

Lemma external_urns_distinct l : NoDup (external_urns l).
Proof.
  apply NoDup_if_ok. unfold tables.ext_check. rewrite plan.seq_none. intros [_ H]. apply NoDup_urns.
  apply names.duplicate_none. by destruct (names.Duplicate _ _).
Qed.

Lemma document_urns_distinct docs : NoDup (document_urns docs).
Proof.
  apply NoDup_if_ok. unfold firestore.check_docs. rewrite plan.seq_none. intros [_ H]. apply NoDup_urns.
  change (NoDup ((λ x, "doc-" +:+ x) ∘ firestore.DocumentID <$> docs)).
  rewrite list_fmap_compose. apply NoDup_append.
  apply names.duplicate_none. by destruct (names.Duplicate _ _).
Qed.

Lemma tagkey_urns_distinct orgID dims : NoDup (tagkey_urns orgID dims).
Proof.
  apply NoDup_if_ok. unfold tagkeys.check. rewrite plan.seq_none, plan.fmap_none. intros [_ H]. apply NoDup_urns.
  destruct dims as [|d dims]; [constructor|]. by apply plan.dims_none in H as [? _].
Qed.

Lemma secrets_loop_none seen l :
  secrets.ValidateAll_loop seen l = None → NoDup (secrets.Name <$> l) ∧ ∀ x, x ∈ secrets.Name <$> l → x ∉ seen.
Proof.
  revert seen. induction l as [|s l IH]; intros seen; simpl; [intros _; split; [constructor|set_solver]|].
  rewrite plan.seq_none. intros [_ H]. case_decide as Hs; [done|]. apply IH in H as [Hnd Hx].
  rewrite NoDup_cons. set_solver.
Qed.

Lemma secret_urns_distinct l : NoDup (secret_urns l).
Proof.
  apply NoDup_if_ok. unfold secrets.ValidateAll. case_decide as Hl; [done|]. clear Hl.
  intros [Hnd _]%secrets_loop_none.
  induction l as [|s l IH]; [constructor|]. apply NoDup_cons in Hnd as [Hs Hnd]. csimpl.
  assert (∀ ty x, (ty, x) ∈ (l ≫= λ s, [("secretmanager.Secret", secrets.Name s);
      ("secretmanager.SecretVersion", secrets.Name s +:+ "-v1")]) →
    (∃ n, n ∈ secrets.Name <$> l ∧ ((ty, x) = ("secretmanager.Secret", n) ∨
                                    (ty, x) = ("secretmanager.SecretVersion", n +:+ "-v1")))) as Hin.
  { intros ty x (s' & Hx & Hs')%list_elem_of_bind. exists (secrets.Name s'). split; [by apply list_elem_of_fmap_2|].
    by apply elem_of_cons in Hx as [?|?%list_elem_of_singleton]; [left|right]. }
  constructor; [|constructor].
  - intros [?|Hx]%elem_of_cons; [done|]. apply Hin in Hx as (n & Hn & [[= E]|?]); [|done]. by rewrite E in Hs.
  - intros Hx. apply Hin in Hx as (n & Hn & [?|[= E]]); [done|].
    apply str_app_inj_r in E. by rewrite E in Hs.
  - by apply IH.
Qed.

Lemma budget_urns_distinct cfg : NoDup (budget_urns cfg).
Proof.
  apply NoDup_if_ok. unfold budgets.Validate. rewrite !plan.seq_none. intros (_ & _ & _ & _ & _ & _ & H).
  apply NoDup_app. split; [|split; [|apply NoDup_singleton]].
  - apply NoDup_urns. apply NoDup_append. rewrite <- (list_fmap_id (budgets.AlertEmails cfg)).
    apply names.duplicate_none. by destruct (names.Duplicate _ _).
  - intros u (e & -> & _)%list_elem_of_fmap_1 ?%list_elem_of_singleton. done.
Qed.

(** ** Theorems *)

(** What a run that starts with nothing leaves. *)
Definition run_guarded {A} (eph : bool) (m : go Context A) : Prop :=
  Forall (λ r, guarded eph r = true) (resources (m empty_context).2).
Definition run_distinct {A} (m : go Context A) : Prop := NoDup (urn_of <$> resources (m empty_context).2).


(** A list that repeats a name is refused before it can collide. Whatever the
    configuration, no two resources that one call of these packages declares have
    the same type and name, which the engine would refuse half way. *)
Theorem checks_prevent_collisions refuse (opts : list lifecycle.Option) projectID datasetID deps :
  (∀ cfg, run_distinct (folders.Apply refuse cfg opts)) ∧
  (∀ cfg, run_distinct (projects.Apply refuse cfg opts)) ∧
  (∀ l, run_distinct (tables.Apply refuse projectID datasetID deps opts l)) ∧
  (∀ l, run_distinct (tables.ApplyExternal refuse projectID datasetID deps opts l)) ∧
  (∀ l, run_distinct (secrets.Apply refuse projectID deps opts l)) ∧
  (∀ orgID dims, run_distinct (tagkeys.Apply refuse orgID dims opts)) ∧
  (∀ dbName docs, run_distinct (firestore.ApplyDocuments refuse projectID dbName docs deps opts)) ∧
  (∀ cfg, run_distinct (budgets.Apply refuse projectID cfg deps)).
Proof.
  unfold run_distinct. repeat split; intros; eapply declares_NoDup;
    [ apply folders_declared | apply folder_urns_distinct | apply project_declared | apply project_urns_distinct
    | apply tables_declared | apply table_urns_distinct | apply external_declared | apply external_urns_distinct
    | apply secrets_declared | apply secret_urns_distinct | apply tagkeys_declared | apply tagkey_urns_distinct
    | apply documents_declared | apply document_urns_distinct
    | apply (budget_declared _ []) | apply budget_urns_distinct ].
Qed.

(** Service accounts and bindings are not checked for repeats. *)
Example repeated_account_collides :
  let a := serviceaccounts.mkAccount "w" "Worker" in
  (urn_of <$> resources (serviceaccounts.Apply (λ _ _, None) (Str "p") [a; a] [] empty_context).2) =
    [("serviceaccount.Account", "w"); ("serviceaccount.Account", "w")].
Proof. reflexivity. Qed.

End declared.
