(* ===== verification/GcpRun.v ===== *)
(** * iac/pulumi/gcpinfra: what runs, builds and watches

    Cloud Run services and jobs, Dataform, Cloud Scheduler, connections to a Git host
    and build triggers, uptime checks; each package a module as in [GcpInfra.v]. *)

From S2P Require Import Prelude GoStrings GoErr GoMonad GoFloat Pulumi GcpInfra.

(** ** cloudrun *)

Module cloudrun.
Import pulumi.

Definition defaultMemory : string := "512Mi".
Definition limitMemory : string := "memory".
Definition limitCPU : string := "cpu".
Definition ignoreClient : string := "client".
Definition ignoreClientVersion : string := "clientVersion".

Definition ErrServiceNameRequired : error :=
  ENew "cloudrun.ErrServiceNameRequired" "cloudrun: service Name is required".
Definition ErrServiceRegionRequired : error :=
  ENew "cloudrun.ErrServiceRegionRequired" "cloudrun: service Region is required".
Definition ErrServiceImageRequired : error :=
  ENew "cloudrun.ErrServiceImageRequired" "cloudrun: service Image is required".
Definition ErrJobNameRequired : error := ENew "cloudrun.ErrJobNameRequired" "cloudrun: job Name is required".
Definition ErrJobRegionRequired : error :=
  ENew "cloudrun.ErrJobRegionRequired" "cloudrun: job Region is required".
Definition ErrJobImageRequired : error := ENew "cloudrun.ErrJobImageRequired" "cloudrun: job Image is required".
Definition ErrSidecarContainersRequired : error :=
  ENew "cloudrun.ErrSidecarContainersRequired" "cloudrun: at least one container is required".
Definition ErrSidecarContainerNameRequired : error :=
  ENew "cloudrun.ErrSidecarContainerNameRequired" "cloudrun: container Name is required".
Definition ErrSidecarContainerImageRequired : error :=
  ENew "cloudrun.ErrSidecarContainerImageRequired" "cloudrun: container Image is required".
Definition ErrSidecarIngressPortRequired : error :=
  ENew "cloudrun.ErrSidecarIngressPortRequired" "cloudrun: exactly one container must declare Port".

Record EnvVar := mkEnv { env_Name : string; env_Value : input }.
Record ServiceConfig := mkService { Name : string; Region : string; Image : string; Memory : string; CPU : string }.
Record JobConfig := mkJob {
  job_Name : string; job_Region : string; job_Image : string; MaxRetries : Z; job_Memory : string; job_CPU : string
}.
Record Container := mkContainer {
  c_Name : string; c_Image : string; c_Port : Z; c_Memory : string; c_CPU : string;
  c_Envs : list EnvVar; c_DependsOn : list string
}.
Record SidecarServiceConfig := mkSidecar {
  s_Name : string; s_Region : string; s_Containers : list Container; IAPEnabled : bool; MaxInstances : Z
}.
Record ServiceOutputs := mkOutputs { out_Name : input; URI : input }.

Definition Validate (c : ServiceConfig) : option error :=
  fails ErrServiceNameRequired when decide (Name c = "") ;;?
  fails ErrServiceRegionRequired when decide (Region c = "") ;;?
  fails ErrServiceImageRequired when decide (Image c = "") ;;?
  None.
Definition job_Validate (c : JobConfig) : option error :=
  fails ErrJobNameRequired when decide (job_Name c = "") ;;?
  fails ErrJobRegionRequired when decide (job_Region c = "") ;;?
  fails ErrJobImageRequired when decide (job_Image c = "") ;;?
  None.

(** The loop over the containers; [ingress] counts those with a port. *)
Fixpoint check_containers (ingress : Z) (l : list Container) : option error :=
  match l with
  | [] => fails ErrSidecarIngressPortRequired when decide (ingress ≠ 1)
  | c :: l =>
      fails ErrSidecarContainerNameRequired when decide (c_Name c = "") ;;?
      fails ErrSidecarContainerImageRequired when decide (c_Image c = "") ;;?
      check_containers (if 0 <? c_Port c then ingress + 1 else ingress) l
  end.
Definition sidecar_Validate (c : SidecarServiceConfig) : option error :=
  fails ErrServiceNameRequired when decide (s_Name c = "") ;;?
  fails ErrServiceRegionRequired when decide (s_Region c = "") ;;?
  fails ErrSidecarContainersRequired when decide (length (s_Containers c) = 0%nat) ;;?
  check_containers 0 (s_Containers c).

Definition env_args (envs : list EnvVar) : input :=
  Array ((λ e, Args [("Name", Str (env_Name e)); ("Value", env_Value e)]) <$> envs).
Definition limits (memory cpu : string) : input :=
  Args ([(limitMemory, Str (if bool_decide (memory = "") then defaultMemory else memory))] ++
        if_set (negb (bool_decide (cpu = ""))) [(limitCPU, Str cpu)]).

Definition sidecarContainerArgs (c : Container) : input :=
  Args ([("Name", Str (c_Name c)); ("Image", Str (c_Image c)); ("Envs", env_args (c_Envs c));
         ("Resources", Args [("Limits", limits (c_Memory c) (c_CPU c))])] ++
        if_set (0 <? c_Port c) [("Ports", Args [("Name", Str "http1"); ("ContainerPort", Int (c_Port c))])] ++
        if_set (0 <? Z.of_nat (length (c_DependsOn c))) [("DependsOns", StringArray (c_DependsOn c))]).

(** The images are left to the deployments of the services. *)
Definition image_path (i : nat) : string := "template.containers[" +:+ itoa (Z.of_nat i) +:+ "].image".

Section engine.
Context (refuse : Context → Resource → option error) (projectID : input).

Definition ApplyService (cfg : ServiceConfig) (serviceAccountEmail : input) (envs : list EnvVar)
    (deps : list urn) : go Context (error + ServiceOutputs) :=
  _ ←? wrapping "validate config: " (require_ok (Validate cfg));
  svc ←? wrapping ("create cloud run service " +:+ Name cfg +:+ ": ")
    (NewResource refuse "cloudrunv2.Service" (Name cfg)
       [("Project", projectID); ("Location", Str (Region cfg)); ("Name", Str (Name cfg));
        ("Template", Args [("ServiceAccount", serviceAccountEmail);
          ("Containers", Array [Args [("Image", Str (Image cfg)); ("Envs", env_args envs);
             ("Resources", Args [("Limits", limits (Memory cfg) (CPU cfg))])]])])]
       [DependsOn deps; IgnoreChanges [ignoreClient; ignoreClientVersion; "template.containers[0].image"]]);
  succeed (mkOutputs (Output svc "Name") (Output svc "Uri")).

Definition ApplyJob (cfg : JobConfig) (serviceAccountEmail : input) (envs : list EnvVar)
    (deps : list urn) : go Context (error + input) :=
  _ ←? wrapping "validate config: " (require_ok (job_Validate cfg));
  job ←? wrapping ("create cloud run job " +:+ job_Name cfg +:+ ": ")
    (NewResource refuse "cloudrunv2.Job" (job_Name cfg)
       [("Project", projectID); ("Location", Str (job_Region cfg)); ("Name", Str (job_Name cfg));
        ("Template", Args [("Template", Args [("ServiceAccount", serviceAccountEmail);
            ("Containers", Array [Args [("Image", Str (job_Image cfg)); ("Envs", env_args envs);
               ("Resources", Args [("Limits", limits (job_Memory cfg) (job_CPU cfg))])]])]);
          ("MaxRetries", Int (MaxRetries cfg))])]
       [DependsOn deps; IgnoreChanges [ignoreClient; ignoreClientVersion; "template.template.containers[0].image"]]);
  succeed (Output job "Name").

Definition GrantInvoker (name location : string) (serviceName member : input) : go Context (error + unit) :=
  _ ←? wrapping ("grant invoker " +:+ name +:+ ": ")
    (NewResource refuse "cloudrunv2.ServiceIamMember" name
       [("Project", projectID); ("Location", Str location); ("Name", serviceName);
        ("Role", Str "roles/run.invoker"); ("Member", member)] []);
  succeed tt.

(** [serviceAccountEmail] may be nil. *)
Definition ApplySidecarService (cfg : SidecarServiceConfig) (serviceAccountEmail : option input)
    (deps : list urn) : go Context (error + ServiceOutputs) :=
  _ ←? wrapping "validate config: " (require_ok (sidecar_Validate cfg));
  let containers := Array (sidecarContainerArgs <$> s_Containers cfg) in
  let ignore := [ignoreClient; ignoreClientVersion] ++ imap (λ i _, image_path i) (s_Containers cfg) in
  svc ←? wrapping ("create cloud run sidecar service " +:+ s_Name cfg +:+ ": ")
    (NewResource refuse "cloudrunv2.Service" (s_Name cfg)
       ([("Project", projectID); ("Location", Str (s_Region cfg)); ("Name", Str (s_Name cfg));
         ("Template", Args ([("Containers", containers)] ++
            match serviceAccountEmail with Some email => [("ServiceAccount", email)] | None => [] end ++
            if_set (0 <? MaxInstances cfg)
              [("Scaling", Args [("MaxInstanceCount", Int (MaxInstances cfg))])]))] ++
        if_set (IAPEnabled cfg) [("IapEnabled", Bool true)])
       [DependsOn deps; IgnoreChanges ignore]);
  succeed (mkOutputs (Output svc "Name") (Output svc "Uri")).
End engine.

End cloudrun.

(** ** dataform *)

Module dataform.
Import pulumi.

Definition ErrNameRequired : error := ENew "dataform.ErrNameRequired" "dataform: Name is required".
Definition ErrRegionRequired : error := ENew "dataform.ErrRegionRequired" "dataform: Region is required".
Definition ErrGitURLRequired : error := ENew "dataform.ErrGitURLRequired" "dataform: GitURL is required".
Definition ErrDefaultBranchRequired : error :=
  ENew "dataform.ErrDefaultBranchRequired" "dataform: DefaultBranch is required".
Definition ErrTokenSecretVersionRequired : error :=
  ENew "dataform.ErrTokenSecretVersionRequired" "dataform: TokenSecretVersion is required".
Definition ErrReleaseNameRequired : error :=
  ENew "dataform.ErrReleaseNameRequired" "dataform: release Name is required".
Definition ErrReleaseGitCommitishRequired : error :=
  ENew "dataform.ErrReleaseGitCommitishRequired" "dataform: release GitCommitish is required".
Definition ErrReleaseTimeZoneRequired : error :=
  ENew "dataform.ErrReleaseTimeZoneRequired" "dataform: release has CronSchedule but no TimeZone".
Definition ErrWorkflowNameRequired : error :=
  ENew "dataform.ErrWorkflowNameRequired" "dataform: workflow Name is required".
Definition ErrWorkflowReleaseConfigRequired : error :=
  ENew "dataform.ErrWorkflowReleaseConfigRequired" "dataform: workflow ReleaseConfigName is required".
Definition ErrWorkflowTimeZoneRequired : error :=
  ENew "dataform.ErrWorkflowTimeZoneRequired" "dataform: workflow has CronSchedule but no TimeZone".

Record RepositoryConfig := mkRepository {
  Name : string; DisplayName : string; Region : string; GitURL : string; DefaultBranch : string;
  TokenSecretVersion : string; ForceDelete : bool; Labels : gmap string string
}.
(** [DefaultDatabase] and [Vars] may be nil. *)
Record ReleaseConfig := mkRelease {
  r_Name : string; GitCommitish : string; DefaultDatabase : option input;
  Vars : option (list (string * input)); r_CronSchedule : string; r_TimeZone : string
}.
Record WorkflowConfig := mkWorkflow {
  w_Name : string; ReleaseConfigName : string; w_CronSchedule : string; w_TimeZone : string;
  IncludedTags : list string; IncludeTransitiveDeps : bool
}.

Definition Validate (c : RepositoryConfig) : option error :=
  fails ErrNameRequired when decide (Name c = "") ;;?
  fails ErrRegionRequired when decide (Region c = "") ;;?
  fails ErrGitURLRequired when decide (GitURL c = "") ;;?
  fails ErrDefaultBranchRequired when decide (DefaultBranch c = "") ;;?
  fails ErrTokenSecretVersionRequired when decide (TokenSecretVersion c = "") ;;?
  None.
Definition release_Validate (c : ReleaseConfig) : option error :=
  fails ErrReleaseNameRequired when decide (r_Name c = "") ;;?
  fails ErrReleaseGitCommitishRequired when decide (GitCommitish c = "") ;;?
  fails (wrap_post ErrReleaseTimeZoneRequired (": " +:+ r_Name c))
    when decide (r_CronSchedule c ≠ "" ∧ r_TimeZone c = "") ;;?
  None.
Definition workflow_Validate (c : WorkflowConfig) : option error :=
  fails ErrWorkflowNameRequired when decide (w_Name c = "") ;;?
  fails ErrWorkflowReleaseConfigRequired when decide (ReleaseConfigName c = "") ;;?
  fails (wrap_post ErrWorkflowTimeZoneRequired (": " +:+ w_Name c))
    when decide (w_CronSchedule c ≠ "" ∧ w_TimeZone c = "") ;;?
  None.

Definition opt_arg (k : string) (v : option input) : list (string * input) :=
  match v with Some v => [(k, v)] | None => [] end.
Definition schedule (cron zone : string) : list (string * input) :=
  if_set (negb (bool_decide (cron = ""))) [("CronSchedule", Str cron); ("TimeZone", Str zone)].

Section engine.
Context (refuse : Context → Resource → option error) (projectID : input).

Definition applyReleases (repo : RepositoryConfig) (dfRepo : urn) (releases : list ReleaseConfig)
  : go Context (error + unit) :=
  all_of (λ rc,
    _ ←? require_ok (release_Validate rc);
    wrapping ("create release config " +:+ r_Name rc +:+ ": ")
      (NewResource refuse "dataform.RepositoryReleaseConfig" (Name repo +:+ "-release-" +:+ r_Name rc)
         ([("Project", projectID); ("Region", Str (Region repo)); ("Repository", Output dfRepo "Name");
           ("Name", Str (r_Name rc)); ("GitCommitish", Str (GitCommitish rc));
           ("CodeCompilationConfig", Args (opt_arg "DefaultDatabase" (DefaultDatabase rc) ++
                                           opt_arg "Vars" (Args <$> Vars rc)))] ++
          schedule (r_CronSchedule rc) (r_TimeZone rc))
         [DependsOn [dfRepo]])) releases.

Definition applyWorkflows (repo : RepositoryConfig) (dfRepo : urn) (serviceAccountEmail : input)
    (workflows : list WorkflowConfig) : go Context (error + unit) :=
  all_of (λ wc,
    _ ←? require_ok (workflow_Validate wc);
    let releaseConfigPath :=
      Sprintf [Str "projects/"; projectID; Str "/locations/"; Str (Region repo); Str "/repositories/";
               Output dfRepo "Name"; Str "/releaseConfigs/"; Str (ReleaseConfigName wc)] in
    let invocationConfig :=
      Args ([("ServiceAccount", serviceAccountEmail)] ++
            if_set (0 <? Z.of_nat (length (IncludedTags wc)))
              ([("IncludedTags", StringArray (IncludedTags wc))] ++
               if_set (IncludeTransitiveDeps wc) [("TransitiveDependenciesIncluded", Bool true)])) in
    wrapping ("create workflow config " +:+ w_Name wc +:+ ": ")
      (NewResource refuse "dataform.RepositoryWorkflowConfig" (Name repo +:+ "-workflow-" +:+ w_Name wc)
         ([("Project", projectID); ("Region", Str (Region repo)); ("Repository", Output dfRepo "Name");
           ("Name", Str (w_Name wc)); ("ReleaseConfig", releaseConfigPath);
           ("InvocationConfig", invocationConfig)] ++
          schedule (w_CronSchedule wc) (w_TimeZone wc))
         [DependsOn [dfRepo]])) workflows.

Definition Apply (repo : RepositoryConfig) (serviceAccountEmail : input) (releases : list ReleaseConfig)
    (workflows : list WorkflowConfig) (deps : list urn) : go Context (error + input) :=
  _ ←? require_ok (Validate repo);
  dfRepo ←? wrapping ("create dataform repository " +:+ Name repo +:+ ": ")
    (NewResource refuse "dataform.Repository" (Name repo)
       ([("Project", projectID); ("Region", Str (Region repo)); ("Name", Str (Name repo));
         ("DisplayName", Str (DisplayName repo)); ("ServiceAccount", serviceAccountEmail);
         ("Labels", StringMap (Labels repo));
         ("GitRemoteSettings", Args [("Url", Str (GitURL repo)); ("DefaultBranch", Str (DefaultBranch repo));
            ("AuthenticationTokenSecretVersion", Str (TokenSecretVersion repo))])] ++
        if_set (ForceDelete repo) [("DeletionPolicy", Str "FORCE")])
       [DependsOn deps]);
  _ ←? applyReleases repo dfRepo releases;
  _ ←? applyWorkflows repo dfRepo serviceAccountEmail workflows;
  succeed (Output dfRepo "Name").

Record P4SAOutputs := mkP4SA { Email : input; P4SA : urn }.
Definition EnsureP4SA (name : string) : go Context (error + P4SAOutputs) :=
  p4sa ←? wrapping "create dataform P4SA: "
    (NewResource refuse "projects.ServiceIdentity" name
       [("Project", projectID); ("Service", Str "dataform.googleapis.com")] []);
  succeed (mkP4SA (Output p4sa "Email") p4sa).
End engine.

End dataform.

(** ** scheduler *)

Module scheduler.
Import pulumi.

Definition defaultHTTPMethod : string := "POST".

Definition ErrNameRequired : error := ENew "scheduler.ErrNameRequired" "scheduler: Name is required".
Definition ErrRegionRequired : error := ENew "scheduler.ErrRegionRequired" "scheduler: Region is required".
Definition ErrScheduleRequired : error := ENew "scheduler.ErrScheduleRequired" "scheduler: Schedule is required".
Definition ErrTimeZoneRequired : error := ENew "scheduler.ErrTimeZoneRequired" "scheduler: TimeZone is required".

Record Config := mkConfig {
  Name : string; Region : string; Schedule : string; TimeZone : string; Paused : bool; HTTPMethod : string
}.

Definition Validate (c : Config) : option error :=
  fails ErrNameRequired when decide (Name c = "") ;;?
  fails ErrRegionRequired when decide (Region c = "") ;;?
  fails ErrScheduleRequired when decide (Schedule c = "") ;;?
  fails ErrTimeZoneRequired when decide (TimeZone c = "") ;;?
  None.

Definition Apply (refuse : Context → Resource → option error) (projectID : input) (cfg : Config)
    (targetURI oauthSAEmail : input) (deps : list urn) : go Context (error + unit) :=
  _ ←? require_ok (Validate cfg);
  let httpMethod := if bool_decide (HTTPMethod cfg = "") then defaultHTTPMethod else HTTPMethod cfg in
  _ ←? wrapping ("create scheduler job " +:+ Name cfg +:+ ": ")
    (NewResource refuse "cloudscheduler.Job" (Name cfg)
       [("Project", projectID); ("Region", Str (Region cfg)); ("Name", Str (Name cfg));
        ("Schedule", Str (Schedule cfg)); ("TimeZone", Str (TimeZone cfg)); ("Paused", Bool (Paused cfg));
        ("HttpTarget", Args [("Uri", targetURI); ("HttpMethod", Str httpMethod);
           ("OauthToken", Args [("ServiceAccountEmail", oauthSAEmail)])])]
       [DependsOn deps]);
  succeed tt.

End scheduler.

(** ** connections *)

Module connections.
Import pulumi.

Definition ErrNameRequired : error := ENew "connections.ErrNameRequired" "connections: Name is required".
Definition ErrProviderRequired : error :=
  ENew "connections.ErrProviderRequired" "connections: Provider is required".
Definition ErrRegionRequired : error := ENew "connections.ErrRegionRequired" "connections: Region is required".
Definition ErrRepoLinkNameRequired : error :=
  ENew "connections.ErrRepoLinkNameRequired" "connections: RepoLink Name is required".
Definition ErrRepoLinkRemoteURIRequired : error :=
  ENew "connections.ErrRepoLinkRemoteURIRequired" "connections: RepoLink RemoteURI is required".
Definition ErrUnsupportedProvider : error :=
  ENew "connections.ErrUnsupportedProvider" "connections: unsupported provider".

Record Config := mkConfig {
  Name : string; Provider : string; Region : string; AppInstallationID : Z; OAuthSecretVersion : string
}.
Record RepoLink := mkRepoLink { repo_Name : string; RemoteURI : string }.

Definition Validate (c : Config) : option error :=
  fails ErrNameRequired when decide (Name c = "") ;;?
  fails ErrProviderRequired when decide (Provider c = "") ;;?
  fails ErrRegionRequired when decide (Region c = "") ;;?
  None.
Definition repo_Validate (r : RepoLink) : option error :=
  fails ErrRepoLinkNameRequired when decide (repo_Name r = "") ;;?
  fails ErrRepoLinkRemoteURIRequired when decide (RemoteURI r = "") ;;?
  None.

Section engine.
Context (refuse : Context → Resource → option error) (projectID : input).

Definition Apply (cfg : Config) (deps : list urn) : go Context (error + input) :=
  _ ←? require_ok (Validate cfg);
  if bool_decide (Provider cfg = "github")
  then
    let ghCfg :=
      Args ([("AppInstallationId", Int (AppInstallationID cfg))] ++
            if_set (negb (bool_decide (OAuthSecretVersion cfg = "")))
              [("AuthorizerCredential", Args [("OauthTokenSecretVersion", Str (OAuthSecretVersion cfg))])]) in
    conn ←? wrapping ("create connection " +:+ Name cfg +:+ ": ")
      (NewResource refuse "cloudbuildv2.Connection" (Name cfg)
         [("Project", projectID); ("Location", Str (Region cfg)); ("Name", Str (Name cfg));
          ("GithubConfig", ghCfg)] [DependsOn deps]);
    succeed (Output conn "Name")
  else fail (wrap_post ErrUnsupportedProvider (": " +:+ quote (Provider cfg) +:+ " — supported: github")).

Definition LinkRepo (connName : input) (region : string) (repo : RepoLink) : go Context (error + input) :=
  _ ←? require_ok (repo_Validate repo);
  r ←? wrapping ("link repo " +:+ repo_Name repo +:+ ": ")
    (NewResource refuse "cloudbuildv2.Repository" (repo_Name repo)
       [("Project", projectID); ("Location", Str region); ("Name", Str (repo_Name repo));
        ("ParentConnection", connName); ("RemoteUri", Str (RemoteURI repo))] []);
  succeed (Output r "ID").
End engine.

End connections.

(** ** triggers *)

Module triggers.
Import pulumi.

Definition ErrNameRequired : error := ENew "triggers.ErrNameRequired" "triggers: Name is required".
Definition ErrTagPatternRequired : error :=
  ENew "triggers.ErrTagPatternRequired" "triggers: TagPattern is required".
Definition ErrConfigFileRequired : error :=
  ENew "triggers.ErrConfigFileRequired" "triggers: ConfigFile is required".

Record Config := mkConfig {
  Name : string; TagPattern : string; ConfigFile : string; Substitutions : gmap string string;
  RequireApproval : bool
}.

Definition Validate (c : Config) : option error :=
  fails ErrNameRequired when decide (Name c = "") ;;?
  fails ErrTagPatternRequired when decide (TagPattern c = "") ;;?
  fails ErrConfigFileRequired when decide (ConfigFile c = "") ;;?
  None.

Definition Apply (refuse : Context → Resource → option error) (projectID : input) (region : string)
    (repoID triggerSA : input) (cfg : Config) (deps : list urn) : go Context (error + unit) :=
  _ ←? require_ok (Validate cfg);
  _ ←? wrapping ("create trigger " +:+ Name cfg +:+ ": ")
    (NewResource refuse "cloudbuild.Trigger" (Name cfg)
       ([("Project", projectID); ("Location", Str region); ("Name", Str (Name cfg));
         ("RepositoryEventConfig", Args [("Repository", repoID); ("Push", Args [("Tag", Str (TagPattern cfg))])]);
         ("Filename", Str (ConfigFile cfg)); ("ServiceAccount", triggerSA);
         ("Substitutions", StringMap (Substitutions cfg))] ++
        if_set (RequireApproval cfg) [("ApprovalConfig", Args [("ApprovalRequired", Bool true)])])
       [DependsOn deps]);
  succeed tt.

End triggers.

(** ** uptimechecks *)

Module uptimechecks.
Import pulumi.

Definition alertAlignmentPeriod : string := "1200s".
Definition alertDuration : string := "60s".

Definition ErrDisplayNameRequired : error :=
  ENew "uptimechecks.ErrDisplayNameRequired" "uptimechecks: DisplayName is required".
Definition ErrPortOutOfRange : error :=
  ENew "uptimechecks.ErrPortOutOfRange" "uptimechecks: Port must be between 1 and 65535".
Definition ErrPeriodInvalid : error :=
  ENew "uptimechecks.ErrPeriodInvalid" "uptimechecks: Period must be one of 60s, 300s, 600s, 900s".
Definition ErrStatusClassInvalid : error :=
  ENew "uptimechecks.ErrStatusClassInvalid"
    "uptimechecks: AcceptedStatusClasses entries must be one of 1xx, 2xx, 3xx, 4xx, 5xx, any".

Definition Class1xx : string := "1xx".
Definition Class2xx : string := "2xx".
Definition Class3xx : string := "3xx".
Definition Class4xx : string := "4xx".
Definition Class5xx : string := "5xx".
Definition ClassAny : string := "any".

Definition defaultPath : string := "/".
Definition defaultPort : Z := 443.
Definition defaultPeriod : string := "60s".
Definition defaultTimeout : string := "10s".

Definition statusClassEnum (friendly : string) : string * bool :=
  if bool_decide (friendly = Class1xx) then ("STATUS_CLASS_1XX", true)
  else if bool_decide (friendly = Class2xx) then ("STATUS_CLASS_2XX", true)
  else if bool_decide (friendly = Class3xx) then ("STATUS_CLASS_3XX", true)
  else if bool_decide (friendly = Class4xx) then ("STATUS_CLASS_4XX", true)
  else if bool_decide (friendly = Class5xx) then ("STATUS_CLASS_5XX", true)
  else if bool_decide (friendly = ClassAny) then ("STATUS_CLASS_ANY", true)
  else ("", false).

Definition validPeriod (p : string) : bool := bool_decide (p ∈ ["60s"; "300s"; "600s"; "900s"]).

Record Config := mkConfig {
  DisplayName : string; Path : string; Port : Z; AcceptedStatusClasses : list string; Period : string;
  Timeout : string
}.
Record resolvedConfig := mkResolved {
  displayName : string; path : string; port : Z; period : string; timeout : string; statusClasses : list string
}.

Fixpoint check_classes (l : list string) : option error :=
  match l with
  | [] => None
  | sc :: l =>
      if negb (statusClassEnum sc).2 then Some (wrap_post ErrStatusClassInvalid (": " +:+ quote sc))
      else check_classes l
  end.

Definition Validate (c : Config) : option error :=
  fails ErrDisplayNameRequired when decide (DisplayName c = "") ;;?
  fails ErrPortOutOfRange when decide (Port c < 0 ∨ 65535 < Port c) ;;?
  fails ErrPeriodInvalid when decide (Period c ≠ "" ∧ validPeriod (Period c) = false) ;;?
  check_classes (AcceptedStatusClasses c).

Definition orString (v fallback : string) : string := if bool_decide (v = "") then fallback else v.

Definition resolved (c : Config) : resolvedConfig :=
  let classes := if bool_decide (AcceptedStatusClasses c = []) then [Class2xx] else AcceptedStatusClasses c in
  mkResolved (DisplayName c) (orString (Path c) defaultPath)
    (if Port c =? 0 then defaultPort else Port c)
    (orString (Period c) defaultPeriod) (orString (Timeout c) defaultTimeout)
    ((λ sc, (statusClassEnum sc).1) <$> classes).

Definition Apply (refuse : Context → Resource → option error) (projectID : input) (cfg : Config)
    (host channelIDs : input) (deps : list urn) : go Context (error + unit) :=
  _ ←? require_ok (Validate cfg);
  let r := resolved cfg in
  check ←? wrapping ("create uptime check " +:+ displayName r +:+ ": ")
    (NewResource refuse "monitoring.UptimeCheckConfig" (displayName r)
       [("Project", projectID); ("DisplayName", Str (displayName r)); ("Timeout", Str (timeout r));
        ("Period", Str (period r));
        ("HttpCheck", Args [("Path", Str (path r)); ("Port", Int (port r)); ("UseSsl", Bool true);
           ("ValidateSsl", Bool true); ("RequestMethod", Str "GET");
           ("AcceptedResponseStatusCodes",
            Array ((λ sc, Args [("StatusClass", Str sc)]) <$> statusClasses r))]);
        ("MonitoredResource", Args [("Type", Str "uptime_url");
           ("Labels", Args [("project_id", projectID); ("host", host)])])]
       [DependsOn deps]);
  let filter :=
    Sprintf [Str ("metric.type=" +:+ quote "monitoring.googleapis.com/uptime_check/check_passed" +:+
                  " AND resource.type=" +:+ quote "uptime_url" +:+ " AND metric.labels.check_id=" +:+
                  String dquote "");
             Output check "UptimeCheckId"; Str (String dquote "")] in
  _ ←? wrapping ("create alert policy for " +:+ displayName r +:+ ": ")
    (NewResource refuse "monitoring.AlertPolicy" (displayName r +:+ "-failing")
       [("Project", projectID); ("DisplayName", Sprintf [Str (displayName r); Str " failing"]);
        ("Combiner", Str "OR"); ("NotificationChannels", channelIDs);
        ("Conditions", Array [Args [("DisplayName", Sprintf [Str (displayName r); Str " check failing"]);
           ("ConditionThreshold", Args [("Filter", filter); ("Comparison", Str "COMPARISON_GT");
              ("ThresholdValue", Float64 (of_int 1)); ("Duration", Str alertDuration);
              ("Aggregations", Array [Args [("AlignmentPeriod", Str alertAlignmentPeriod);
                 ("PerSeriesAligner", Str "ALIGN_NEXT_OLDER"); ("CrossSeriesReducer", Str "REDUCE_COUNT_FALSE");
                 ("GroupByFields", Array [Str "resource.label.host"])]]);
              ("Trigger", Args [("Count", Int 1)])])]])]
       [DependsOn [check]]);
  succeed tt.

End uptimechecks.

(** ** What the packages declare *)

Module declared.
Import pulumi values GcpInfra.declared.

Section packages.
Context (refuse : Context → Resource → option error) (opts : list lifecycle.Option).
Abbreviation P := (λ r, guarded (lifecycle.IsEphemeral opts) r = true).

Lemma service_declared projectID cfg sa envs deps :
  declares_in P [("cloudrunv2.Service", cloudrun.Name cfg)] (cloudrun.ApplyService refuse projectID cfg sa envs deps).
Proof. unfold cloudrun.ApplyService. declared. Qed.

Lemma job_declared projectID cfg sa envs deps :
  declares_in P [("cloudrunv2.Job", cloudrun.job_Name cfg)] (cloudrun.ApplyJob refuse projectID cfg sa envs deps).
Proof. unfold cloudrun.ApplyJob. declared. Qed.

Lemma connection_declared projectID cfg deps :
  declares_in P [("cloudbuildv2.Connection", connections.Name cfg)] (connections.Apply refuse projectID cfg deps).
Proof.
  unfold connections.Apply. apply declares_checked. intros _. destruct (bool_decide _); [declared|apply declares_nil].
Qed.

Lemma repo_declared projectID connName region repo :
  declares_in P [("cloudbuildv2.Repository", connections.repo_Name repo)]
    (connections.LinkRepo refuse projectID connName region repo).
Proof. unfold connections.LinkRepo. declared. Qed.

Lemma trigger_declared projectID region repoID sa cfg deps :
  declares_in P [("cloudbuild.Trigger", triggers.Name cfg)]
    (triggers.Apply refuse projectID region repoID sa cfg deps).
Proof. unfold triggers.Apply. declared. Qed.

Lemma uptime_declared projectID cfg host channels deps :
  declares_in P [("monitoring.UptimeCheckConfig", uptimechecks.DisplayName cfg);
                 ("monitoring.AlertPolicy", uptimechecks.DisplayName cfg +:+ "-failing")]
    (uptimechecks.Apply refuse projectID cfg host channels deps).
Proof.
  unfold uptimechecks.Apply. apply declares_checked. intros _.
  apply (declares_rapp _ _ [_] [_]); [declared|]. intros check. declared.
Qed.
End packages.
End declared.
