(* ===== verification/Iac.v ===== *)
(** * iac: configuration, stack references and placement

    What the programs of [src/go/iac] share: reading the configuration that Pulumi
    hands over (a text per key, and what an object makes of its text), the outputs
    of other stacks, and where a project lands and who pays for it. *)

From S2P Require Import Prelude GoStrings GoErr GoMonad Plan Pulumi.

Module stack.
Import pulumi values.

(** ** Configuration *)

Definition missing_key (key : string) : string :=
  "missing required configuration variable '" +:+ key +:+ "'".

(** [cfg.Get] and [cfg.Require]; the latter ends the program on a missing key. *)
Definition Get (cfg : string → option string) (key : string) : string := default "" (cfg key).
Definition Require {W} (cfg : string → option string) (key : string) : go W string := λ w,
  match cfg key with
  | Some v => (Returned v, w)
  | None => (Panicked (missing_key key), w)
  end.

(** [cfg.TryObject]: a key may be missing, and its text may not parse. *)
Inductive object (T : Type) := Missing | Malformed (e : error) | Present (v : T).
Arguments Missing {T}.
Arguments Malformed {T}.
Arguments Present {T}.

(** [cfg.RequireObject], [cfg.RequireInt] *)
Definition RequireObject {W T} (key : string) (o : object T) : go W T := λ w,
  match o with
  | Present v => (Returned v, w)
  | Missing => (Panicked (missing_key key), w)
  | Malformed err => (Panicked (error_text err), w)
  end.

(** The zero value when the key is missing. *)
Definition optionalObject {T} (zero : T) (key : string) (o : object T) : error + T :=
  match o with
  | Missing => inr zero
  | Present v => inr v
  | Malformed err => inl (wrap_pre ("config key " +:+ quote key +:+ ": ") err)
  end.

(** ** Stack references *)

Section engine.
Context (refuse : Context → Resource → option error) (stacks : string → StackReference).

(** [pulumi.NewStackReference(ctx, name, nil)]: a resource like any other, through
    which the outputs of the stack are read. *)
Definition NewStackReference (name : string) : go Context (error + StackReference) :=
  _ ←? NewResource refuse "pulumi.StackReference" name [("name", Str name)] [];
  succeed (stacks name).
End engine.

End stack.

Module placement.
Import pulumi values stack.

(** ** Placement *)

Definition defaultGovernanceFolder : string := "shared".

(** [Params] of each package; without it every field is empty. *)
Record Params := mkParams { FolderID : string; BillingAccount : string; OrgID : string }.
Definition no_params : Params := mkParams "" "" "".
Record placement := mkPlacement { folderID : string; billingAccount : string; orgID : string }.

(** A field that is empty yet is filled from an output. *)
Definition fill_from (gov : StackReference) (key : string) (read : pvalue → string) (field : string) : string :=
  if bool_decide (field = "") then match gov key with Some v => read v | None => field end else field.

(** An entry of the map of folders, when the output is one. *)
Definition folder_of (folder : string) (v : pvalue) : string :=
  match v with PMap m => match m folder with Some f => as_string f | None => "" end | _ => "" end.

Section packages.
Context {W : Type} (cfg : string → option string).
(** [NewStackReference], which may fail; it may act on the run. *)
Context (reference : string → go W (error + StackReference)).

(** [fromGovernanceStack]: [fill] reads the fields of a stack. *)
Definition fromGovernanceStack (fill : StackReference → placement → placement) (place : placement)
  : go W placement :=
  let govRef := Get cfg "governanceStack" in
  if bool_decide (govRef = "") then mret place
  else
    gov ← reference govRef;
    mret (match gov with inl _ => place | inr gov => fill gov place end).

Definition required (key field : string) : go W string :=
  if bool_decide (field = "") then Require cfg key else mret field.

Definition governance_folder : string :=
  let folder := Get cfg "governanceFolder" in
  if bool_decide (folder = "") then defaultGovernanceFolder else folder.

(** Folder and account only. *)
Definition fill_two (folder : string) (gov : StackReference) (p : placement) : placement :=
  mkPlacement (fill_from gov exports.FolderIDs (folder_of folder) (folderID p))
    (fill_from gov exports.BillingAccount as_string (billingAccount p)) (orgID p).

Definition delivery_fromGovernanceStack : placement → go W placement :=
  fromGovernanceStack (fill_two governance_folder).
Definition identity_fromGovernanceStack : placement → go W placement :=
  fromGovernanceStack (fill_two governance_folder).
Definition workloads_fromGovernanceStack (environmentFolder : string) : placement → go W placement :=
  fromGovernanceStack (fill_two environmentFolder).

Definition resolve_two (fromStack : placement → go W placement) (params : option Params) : go W placement :=
  let ps := default no_params params in
  let place := mkPlacement (FolderID ps) (BillingAccount ps) "" in
  place ← (if bool_decide (folderID place = "") || bool_decide (billingAccount place = "")
           then fromStack place else mret place);
  f ← required "folderID" (folderID place);
  b ← required "billingAccount" (billingAccount place);
  mret (mkPlacement f b (orgID place)).

Definition delivery_resolvePlacement (params : option Params) : go W placement :=
  resolve_two delivery_fromGovernanceStack params.
Definition identity_resolvePlacement (params : option Params) : go W placement :=
  resolve_two identity_fromGovernanceStack params.
Definition workloads_resolvePlacement (environmentFolder : string) (params : option Params) : go W placement :=
  resolve_two (workloads_fromGovernanceStack environmentFolder) params.

(** The organisation too. *)
Definition fill_three (folder : StackReference → string → string) (gov : StackReference) (p : placement)
  : placement :=
  mkPlacement (folder gov (folderID p)) (fill_from gov exports.BillingAccount as_string (billingAccount p))
    (fill_from gov exports.OrgID as_string (orgID p)).

Definition finops_fromGovernanceStack : placement → go W placement :=
  fromGovernanceStack (fill_three (λ gov, fill_from gov exports.RootFolderID as_string)).
Definition observability_fromGovernanceStack : placement → go W placement :=
  fromGovernanceStack (fill_three (λ gov, fill_from gov exports.FolderIDs (folder_of governance_folder))).

Definition resolve_three (fromStack : placement → go W placement) (params : option Params) : go W placement :=
  let ps := default no_params params in
  let place := mkPlacement (FolderID ps) (BillingAccount ps) (OrgID ps) in
  place ← (if bool_decide (folderID place = "") || bool_decide (billingAccount place = "") ||
              bool_decide (orgID place = "")
           then fromStack place else mret place);
  f ← required "folderID" (folderID place);
  b ← required "billingAccount" (billingAccount place);
  o ← required "orgID" (orgID place);
  mret (mkPlacement f b o).

Definition finops_resolvePlacement (params : option Params) : go W placement :=
  resolve_three finops_fromGovernanceStack params.
Definition observability_resolvePlacement (params : option Params) : go W placement :=
  resolve_three observability_fromGovernanceStack params.
End packages.

(** ** Theorems *)

(** The first of some texts that is not empty. *)
Fixpoint first_set (l : list string) : string :=
  match l with [] => "" | s :: l => if bool_decide (s = "") then first_set l else s end.

Section theorems.
Context {W : Type} (cfg : string → option string) (stacks : string → error + StackReference).
(** A run in which a reference is what the stack's name makes it. *)
Abbreviation ref := (λ name, mret (stacks name) : go W (error + StackReference)).

(** What the governance stack says under a key, read as [read] does. *)
Definition from_stack (key : string) (read : pvalue → string) : string :=
  if bool_decide (Get cfg "governanceStack" = "") then ""
  else match stacks (Get cfg "governanceStack") with
       | inl _ => ""
       | inr gov => match gov key with Some v => read v | None => "" end
       end.

(** A field: parameter, stack, configuration; the last ends the program when missing. *)
Definition field_exact (param key output : string) (read : pvalue → string) : option string :=
  let v := first_set [param; from_stack output read] in
  if bool_decide (v = "") then cfg key else Some v.

(** How a run ends: with the placement of its fields, or on the first missing key. *)
Definition placed (m : go W placement) (w : W) (f b o : option string) : Prop :=
  m w = (match f, b, o with
         | None, _, _ => Panicked (missing_key "folderID")
         | _, None, _ => Panicked (missing_key "billingAccount")
         | _, _, None => Panicked (missing_key "orgID")
         | Some f, Some b, Some o => Returned (mkPlacement f b o)
         end, w).

Lemma required_exact key v (w : W) :
  required cfg key v w =
    (match (if bool_decide (v = "") then cfg key else Some v) with
     | Some v => Returned v
     | None => Panicked (missing_key key)
     end, w).
Proof. unfold required, Require. case_bool_decide; [by destruct (cfg key)|done]. Qed.

Lemma fill_exact param key read :
  first_set [param; from_stack key read] =
    (if bool_decide (Get cfg "governanceStack" = "") then param
     else match stacks (Get cfg "governanceStack") with
          | inl _ => param
          | inr gov => fill_from gov key read param
          end).
Proof.
  unfold from_stack, fill_from. simpl. case_bool_decide as Hp; [subst|];
    repeat (case_bool_decide || case_match); by subst.
Qed.

(** The part that reads the stack, which runs only when a field is empty. *)
Lemma filled_exact (c : bool) fill start (w : W) (P : placement → Prop) :
  (c = false → P start) →
  (bool_decide (Get cfg "governanceStack" = "") = true → P start) →
  (∀ e, bool_decide (Get cfg "governanceStack" = "") = false → stacks (Get cfg "governanceStack") = inl e → P start) →
  (∀ gov, bool_decide (Get cfg "governanceStack" = "") = false → stacks (Get cfg "governanceStack") = inr gov →
     P (fill gov start)) →
  ∃ place, (if c then fromGovernanceStack cfg ref fill start else mret start) w = (Returned place, w) ∧ P place.
Proof.
  intros H1 H2 H3 H4. destruct c; [|by eexists; split; [|apply H1]]. unfold fromGovernanceStack. cbv [mbind go_bind mret go_ret].
  destruct (bool_decide _); [by eexists; split; [|apply H2]|].
  destruct (stacks _) as [e|gov]; eexists; (split; [reflexivity|]); [by eapply H3|by apply H4].
Qed.

Lemma resolve_two_exact folder (params : option Params) (w : W) :
  let ps := default no_params params in
  placed (resolve_two cfg (fromGovernanceStack cfg ref (fill_two folder)) params) w
    (field_exact (FolderID ps) "folderID" exports.FolderIDs (folder_of folder))
    (field_exact (BillingAccount ps) "billingAccount" exports.BillingAccount as_string) (Some "").
Proof.
  intros ps. unfold placed, field_exact, resolve_two. fold ps. simpl folderID. simpl billingAccount.
  destruct (filled_exact (bool_decide (FolderID ps = "") || bool_decide (BillingAccount ps = "")) (fill_two folder)
    (mkPlacement (FolderID ps) (BillingAccount ps) "") w (λ place,
      folderID place = first_set [FolderID ps; from_stack exports.FolderIDs (folder_of folder)] ∧
      billingAccount place = first_set [BillingAccount ps; from_stack exports.BillingAccount as_string] ∧
      orgID place = "")) as (place & E & <- & <- & Ho).
  - intros [E1 E2]%orb_false_iff. simpl. by rewrite E1, E2.
  - intros Eb. by rewrite !fill_exact, Eb.
  - intros e Eb Es. by rewrite !fill_exact, Eb, Es.
  - intros gov Eb Es. by rewrite !fill_exact, Eb, Es.
  - rewrite (bind_eq _ _ _ _ _ E). cbv [mbind go_bind]. rewrite !required_exact.
    destruct (if bool_decide (folderID place = "") then _ else _) as [fv|]; [|done].
    cbv beta iota. destruct (if bool_decide (billingAccount place = "") then _ else _); [|done].
    cbv [mret go_ret]. by rewrite Ho.
Qed.

Lemma resolve_three_exact (key : string) (read : pvalue → string) (params : option Params) (w : W) :
  let ps := default no_params params in
  placed (resolve_three cfg (fromGovernanceStack cfg ref (fill_three (λ gov, fill_from gov key read))) params) w
    (field_exact (FolderID ps) "folderID" key read)
    (field_exact (BillingAccount ps) "billingAccount" exports.BillingAccount as_string)
    (field_exact (OrgID ps) "orgID" exports.OrgID as_string).
Proof.
  intros ps. unfold placed, field_exact, resolve_three. fold ps.
  simpl folderID. simpl billingAccount. simpl orgID.
  destruct (filled_exact (bool_decide (FolderID ps = "") || bool_decide (BillingAccount ps = "") ||
      bool_decide (OrgID ps = "")) (fill_three (λ gov, fill_from gov key read))
    (mkPlacement (FolderID ps) (BillingAccount ps) (OrgID ps)) w (λ place,
      folderID place = first_set [FolderID ps; from_stack key read] ∧
      billingAccount place = first_set [BillingAccount ps; from_stack exports.BillingAccount as_string] ∧
      orgID place = first_set [OrgID ps; from_stack exports.OrgID as_string])) as (place & E & <- & <- & <-).
  - intros [[E1 E2]%orb_false_iff E3]%orb_false_iff. simpl. by rewrite E1, E2, E3.
  - intros Eb. by rewrite !fill_exact, Eb.
  - intros e Eb Es. by rewrite !fill_exact, Eb, Es.
  - intros gov Eb Es. by rewrite !fill_exact, Eb, Es.
  - rewrite (bind_eq _ _ _ _ _ E). cbv [mbind go_bind]. rewrite !required_exact.
    destruct (if bool_decide (folderID place = "") then _ else _) as [fv|]; [|done].
    cbv beta iota. destruct (if bool_decide (billingAccount place = "") then _ else _); [|done].
    cbv beta iota. by destruct (if bool_decide (orgID place = "") then _ else _).
Qed.

(** C26: every package resolves its placement in the documented order: a parameter,
    else what the governance stack exports (its folder under the configured key
    or the environment's for most, the root folder for finops), else the
    configuration, where a missing key ends the program; an unreadable stack
    counts as one that exports nothing. *)
Theorem placement_order (params : option Params) (environmentFolder : string) (w : W) :
  let ps := default no_params params in
  let folder key read := field_exact (FolderID ps) "folderID" key read in
  let b := field_exact (BillingAccount ps) "billingAccount" exports.BillingAccount as_string in
  let o := field_exact (OrgID ps) "orgID" exports.OrgID as_string in
  let shared := folder exports.FolderIDs (folder_of (governance_folder cfg)) in
  placed (delivery_resolvePlacement cfg ref params) w shared b (Some "") ∧
  placed (identity_resolvePlacement cfg ref params) w shared b (Some "") ∧
  placed (workloads_resolvePlacement cfg ref environmentFolder params) w
    (folder exports.FolderIDs (folder_of environmentFolder)) b (Some "") ∧
  placed (finops_resolvePlacement cfg ref params) w (folder exports.RootFolderID as_string) b o ∧
  placed (observability_resolvePlacement cfg ref params) w shared b o.
Proof.
  repeat split; first [apply resolve_two_exact|
    apply (resolve_three_exact exports.RootFolderID)|apply (resolve_three_exact exports.FolderIDs)].
Qed.
End theorems.

(** A parameter for the folder, the account from the stack, the organisation from the
    configuration; without the latter the program ends. *)
Definition demo_cfg (org : option string) (k : string) : option string :=
  if bool_decide (k = "governanceStack") then Some "org/gov/prod"
  else if bool_decide (k = "orgID") then org else None.
Definition demo_stacks (name : string) : error + StackReference :=
  inr (λ k, if bool_decide (k = exports.BillingAccount) then Some (PString "AAA") else None).

Example placement_from_three_places :
  finops_resolvePlacement (demo_cfg (Some "42")) (λ name, mret (demo_stacks name)) (Some (mkParams "f1" "" "")) tt =
    (Returned (mkPlacement "f1" "AAA" "42"), tt) ∧
  finops_resolvePlacement (demo_cfg None) (λ name, mret (demo_stacks name)) (Some (mkParams "f1" "" "")) tt =
    (Panicked (missing_key "orgID"), tt).
Proof. split; vm_compute; reflexivity. Qed.

(** ** What reading a placement declares *)

Section reads.
Context {W : Type} (res : W → list Resource) (P : Resource → Prop) (L : string → list urn)
  (cfg : string → option string) (reference : string → go W (error + StackReference)).
Hypothesis reference_declares : ∀ name, declares res P (L name) (reference name).

Lemma require_still key (w : W) : res (Require cfg key w).2 = res w.
Proof. unfold Require. by destruct (cfg key). Qed.

Lemma required_still key field (w : W) : res (required cfg key field w).2 = res w.
Proof. unfold required. case_bool_decide; [apply require_still|done]. Qed.

Lemma from_stack_declares fill place :
  declares res P (L (Get cfg "governanceStack")) (fromGovernanceStack cfg reference fill place).
Proof using reference_declares.
  unfold fromGovernanceStack. case_bool_decide; [apply declares_nil|].
  rewrite <- (app_nil_r (L _)). apply declares_app; [apply reference_declares|intros; apply declares_nil].
Qed.

Lemma resolve_two_declares folder params :
  declares res P (L (Get cfg "governanceStack")) (resolve_two cfg (fromGovernanceStack cfg reference (fill_two folder)) params).
Proof using reference_declares.
  unfold resolve_two. rewrite <- (app_nil_r (L _)). apply declares_app.
  - destruct (_ || _); [apply from_stack_declares|apply declares_nil].
  - intros place. repeat (apply declares_step; [apply required_still|intros ? _ _ _]). apply declares_nil.
Qed.

Lemma resolve_three_declares folder params :
  declares res P (L (Get cfg "governanceStack"))
    (resolve_three cfg (fromGovernanceStack cfg reference (fill_three folder)) params).
Proof using reference_declares.
  unfold resolve_three. rewrite <- (app_nil_r (L _)). apply declares_app.
  - destruct (_ || _ || _); [apply from_stack_declares|apply declares_nil].
  - intros place. repeat (apply declares_step; [apply required_still|intros ? _ _ _]). apply declares_nil.
Qed.
End reads.

End placement.
