(* ===== verification/IacPrograms.v ===== *)
(** * iac: the programs governance, delivery, finops, identity and workloads

    Each package of [src/go/iac] is a module whose [Apply] is the whole program: it
    reads its configuration, resolves its placement, declares its resources through
    the packages of [GcpInfra.v] and [GcpRun.v], and exports what other stacks read.
    The object under a key of the configuration is an argument; [cfg] gives texts. *)

From S2P Require Import Prelude GoStrings GoErr GoMonad GoFloat Invariant Plan Pulumi GcpInfra GcpRun Iac.
From Stdlib Require Import Ascii.

(** [region] and its default, in every program that has one. *)
Definition defaultRegion : string := "europe-west4".
Definition or_default (v fallback : string) : string := if bool_decide (v = "") then fallback else v.

(** [ctx.Export] of several outputs. *)
Definition export_all {A} (kvs : list (string * pulumi.input)) (k : go pulumi.Context A) : go pulumi.Context A :=
  foldr (λ kv k, pulumi.Export kv.1 kv.2 k) k kvs.

Module governance.
Import pulumi values stack.

Section program.
Context (refuse : Context → Resource → option error) (cfg : string → option string)
  (environments : object (list string)) (tagKeys : object (list classification.Dimension)).

Definition enterprisePlan (parent rootFolder orgID : string) : go Context (error + plan.Plan) :=
  children ← RequireObject "environments" environments;
  mret (match optionalObject [] "tagKeys" tagKeys with
        | inl err => inl err
        | inr dims =>
            match plan.NewEnterprise parent rootFolder children dims (Get cfg "billingAccount") orgID with
            | (Some p, None) => inr p
            | (_, Some err) => inl (wrap_pre "enterprise plan: " err)
            | (None, None) => inl plan.ErrTierViolation
            end
        end).

(** A constructor returns a plan or an error. *)
Definition as_result (r : option plan.Plan * option error) : error + plan.Plan :=
  match r with
  | (Some p, None) => inr p
  | (_, Some err) => inl err
  | (None, None) => inl plan.ErrTierViolation
  end.

(** The part of [Apply] that decides. *)
Definition build_plan : go Context (error + plan.Plan) :=
  parent ← Require cfg "parent";
  rootFolder ← Require cfg "rootFolder";
  let tierName := Get cfg "tier" in
  wrapping "governance: "
    (s ←? mret (folders.ParseScope parent);
     let orgID := if scope.SupportsOrgExport s then folders.OrgID parent else "" in
     if bool_decide (tierName = "starter") then mret (as_result (plan.NewStarter s parent rootFolder orgID))
     else if bool_decide (tierName = "enterprise") then enterprisePlan parent rootFolder orgID
     else children ← RequireObject "environments" environments;
          mret (as_result (plan.NewStandard s parent rootFolder children orgID))).

(** The tag keys in the order of their names. *)
Definition export_tags (tagOutputs : tagkeys.Outputs) (k : go Context (error + unit)) : go Context (error + unit) :=
  export_all ((λ name, (exports.TagKeyID name, default (Str "") (tagOutputs !! name))) <$>
              invariant.sort_Strings (map_to_list tagOutputs).*1) k.

Definition Apply : go Context (error + unit) :=
  p ←? build_plan;
  folderOutputs ←? wrapping "governance: " (folders.Apply refuse (plan.Hierarchy p) []);
  tagOutputs ←? (if scope.SupportsClassification (plan.plan_Scope p) && negb (bool_decide (plan.Dimensions p = []))
                 then wrapping "governance: " (tagkeys.Apply refuse (plan.OrgID p) (plan.Dimensions p) [])
                 else succeed ∅);
  export_tags tagOutputs
    (export_all
       (if_set (negb (bool_decide (plan.BillingAccount p = "")))
          [(exports.BillingAccount, Str (plan.BillingAccount p))] ++
        [(exports.RootFolderID, folders.RootFolderID folderOutputs);
         (exports.FolderIDs, Args (folders.FolderIDs folderOutputs))] ++
        if_set (scope.SupportsOrgExport (plan.plan_Scope p)) [(exports.OrgID, Str (plan.OrgID p))])
       (succeed tt)).
End program.

(** A misspelt tier is taken for standard. *)
Example misspelt_tier :
  let cfg k := if bool_decide (k = "parent") then Some "folders/1"
               else if bool_decide (k = "rootFolder") then Some "root"
               else if bool_decide (k = "tier") then Some "Enterprise" else None in
  (build_plan cfg (Present ["dev"]) Missing empty_context).1 =
    Returned (inr (plan.mkPlan plan.Standard scope.Container (hierarchy.mkConfig "folders/1" "root" ["dev"]) [] "" "")).
Proof. reflexivity. Qed.

End governance.

Module delivery.
Import pulumi values stack placement.

Definition defaultConnectionName : string := "github".

Record TriggerConfig := mkTrigger {
  t_Name : string; TagPattern : string; ConfigFile : string; RequireApproval : bool;
  Substitutions : gmap string string
}.
Record RepoConfig := mkRepo { r_Name : string; RemoteURI : string; Triggers : list TriggerConfig }.

(** What precedes the last occurrence of a text ([strings.LastIndex] and a slice). *)
Fixpoint before_last (sub s : string) : option string :=
  match (match s with String c s' => String c <$> before_last sub s' | EmptyString => None end) with
  | Some b => Some b
  | None => if has_prefix sub s then Some "" else None
  end.

Definition APIs : list string :=
  ["cloudbuild.googleapis.com"; "artifactregistry.googleapis.com"; "secretmanager.googleapis.com";
   "iam.googleapis.com"; "compute.googleapis.com"].

Section program.
Context (refuse : Context → Resource → option error) (stacks : string → StackReference)
  (cfg : string → option string)
  (** [cfg.GetInt "githubAppInstallationId"] and the objects under their keys. *)
  (githubAppInstallationId : Z) (repositories : object (list RepoConfig))
  (consumerWorkloadStacks : object (list string)).

Section project.
Context (region : string) (project : projects.Outputs).
Let projectID := projects.ProjectID project.
Let projectNumber := projects.ProjectNumber project.

Definition applyBuildWriterGrants (arOutputs : registries.Outputs) : go Context (error + unit) :=
  let buildSA := Get cfg "buildServiceAccount" in
  if negb (bool_decide (buildSA = ""))
  then wrapping "build writer grant: "
         (registries.GrantWriter refuse "build-ar-writer" projectID region (registries.Name arOutputs)
            (Str ("serviceAccount:" +:+ buildSA)))
  else
    _ ←? wrapping "build writer grant: "
      (registries.GrantWriter refuse "build-ar-writer" projectID region (registries.Name arOutputs)
         (Sprintf [Str "serviceAccount:"; projectNumber; Str "@cloudbuild.gserviceaccount.com"]));
    wrapping "compute build writer grant: "
      (registries.GrantWriter refuse "build-ar-writer-compute" projectID region (registries.Name arOutputs)
         (Sprintf [Str "serviceAccount:"; projectNumber; Str "-compute@developer.gserviceaccount.com"])).

Definition applyRegistry : go Context (error + registries.Outputs) :=
  arID ← Require cfg "registryId";
  let arDesc := or_default (Get cfg "registryDescription") "Container images" in
  arOutputs ←? wrapping "registry: "
    (registries.Apply refuse projectID (registries.mkConfig arID arDesc "DOCKER" region) [] []);
  _ ←? applyBuildWriterGrants arOutputs;
  succeed arOutputs.

Definition applySecretAccessor (oauthSecret : string) : go Context (error + unit) :=
  let secretID := default oauthSecret (before_last "/versions/" oauthSecret) in
  _ ←? wrapping "oauth secret accessor: "
    (NewResource refuse "secretmanager.SecretIamMember" "github-oauth-secret-accessor"
       [("Project", projectID); ("SecretId", Str secretID); ("Role", Str "roles/secretmanager.secretAccessor");
        ("Member", Sprintf [Str "serviceAccount:"; projectNumber; Str "-compute@developer.gserviceaccount.com"])]
       []);
  succeed tt.

Definition applyRepos (connectionName : input) : go Context (error + unit) :=
  repos ←? mret (optionalObject [] "repositories" repositories);
  let triggerSA :=
    Sprintf [Str "projects/"; projectID; Str "/serviceAccounts/"; projectNumber;
             Str "-compute@developer.gserviceaccount.com"] in
  all_of (λ repo,
    repoID ←? wrapping ("link repo " +:+ r_Name repo +:+ ": ")
      (connections.LinkRepo refuse projectID connectionName region
         (connections.mkRepoLink (r_Name repo) (RemoteURI repo)));
    all_of (λ t,
      wrapping ("trigger " +:+ t_Name t +:+ ": ")
        (triggers.Apply refuse projectID region repoID triggerSA
           (triggers.mkConfig (t_Name t) (TagPattern t) (ConfigFile t) (Substitutions t) (RequireApproval t)) []))
      (Triggers repo)) repos.

(** Whether the program ends here, with guidance for the operator. *)
Definition applyGitHub (arOutputs : registries.Outputs) : go Context (error + bool) :=
  let connectionName := or_default (Get cfg "githubConnectionName") defaultConnectionName in
  let oauthSecret := Get cfg "githubOAuthSecretVersion" in
  if (githubAppInstallationId =? 0) || bool_decide (oauthSecret = "")
  then export_all
         [("nextStep", Str ("GitHub connection not configured — set githubAppInstallationId and " +:+
                            "githubOAuthSecretVersion"));
          ("projectId", projectID); ("dockerRepoId", registries.RepositoryID arOutputs)] (succeed true)
  else
    connection ←? wrapping "github connection: "
      (connections.Apply refuse projectID
         (connections.mkConfig connectionName "github" region githubAppInstallationId oauthSecret) []);
    _ ←? applySecretAccessor oauthSecret;
    _ ←? applyRepos connection;
    succeed false.

Definition applyConsumerGrants (arOutputs : registries.Outputs) : go Context (error + unit) :=
  consumers ←? mret (optionalObject [] "consumerWorkloadStacks" consumerWorkloadStacks);
  all_of (λ '(i, stackRef),
    _ ←? wrapping ("workload stack ref " +:+ stackRef +:+ ": ") (NewStackReference refuse stacks stackRef);
    let member := Sprintf [Str "serviceAccount:service-"; StackString stackRef "computeProjectNumber";
                           Str "@serverless-robot-prod.iam.gserviceaccount.com"] in
    wrapping ("consumer grant " +:+ itoa (Z.of_nat i) +:+ ": ")
      (registries.GrantReader refuse ("ar-consumer-" +:+ itoa (Z.of_nat i)) projectID region
         (registries.Name arOutputs) member)) (imap pair consumers).
End project.

Definition Apply (params : option Params) : go Context (error + unit) :=
  projectName ← Require cfg "projectName";
  let region := or_default (Get cfg "region") defaultRegion in
  place ← delivery_resolvePlacement cfg (NewStackReference refuse stacks) params;
  project ←? wrapping "delivery project: "
    (projects.Apply refuse (projects.mkConfig projectName (folderID place) (billingAccount place) APIs) []);
  arOutputs ←? applyRegistry region project;
  stop ←? applyGitHub region project arOutputs;
  if stop : bool then succeed tt
  else
    _ ←? applyConsumerGrants region project arOutputs;
    export_all [("projectId", projects.ProjectID project);
                ("dockerRepoId", registries.RepositoryID arOutputs)] (succeed tt).
End program.

End delivery.

Module finops.
Import pulumi values stack placement.

Definition defaultCurrency : string := "EUR".
Definition APIs : list string :=
  ["bigquery.googleapis.com"; "monitoring.googleapis.com"; "billingbudgets.googleapis.com"].
(** 0.50, 0.75, 0.90, 1.00: a quotient rounds to the nearest float, as the constant does. *)
Definition hundredths (n : Z) : float64 := SFdiv prec emax (of_int n) (of_int 100).
Definition default_thresholds : list float64 := [hundredths 50; hundredths 75; hundredths 90; hundredths 100].

Section program.
Context (refuse : Context → Resource → option error) (stacks : string → StackReference)
  (cfg : string → option string)
  (monthlyBudget : object Z) (alertEmails : object (list string)) (thresholds : object (list float64)).

Definition applyBudget (projectName : string) (place : placement) (projectID : input) : go Context (error + unit) :=
  monthlyBudget ← RequireObject "monthlyBudget" monthlyBudget;
  let currency := or_default (Get cfg "currency") defaultCurrency in
  alertEmails ← RequireObject "alertEmails" alertEmails;
  customThresholds ←? mret (optionalObject [] "thresholds" thresholds);
  let thresholds := if bool_decide (length customThresholds = 0%nat) then default_thresholds
                    else customThresholds in
  let budgetCfg :=
    budgets.mkConfig (projectName +:+ ": " +:+ itoa monthlyBudget +:+ " " +:+ currency +:+ "/month")
      monthlyBudget currency (billingAccount place) ("organizations/" +:+ orgID place) thresholds alertEmails in
  wrapping "budget: " (budgets.Apply refuse projectID budgetCfg []).

Definition Apply (params : option Params) : go Context (error + unit) :=
  projectName ← Require cfg "projectName";
  let region := or_default (Get cfg "region") defaultRegion in
  place ← finops_resolvePlacement cfg (NewStackReference refuse stacks) params;
  project ←? wrapping "finops project: "
    (projects.Apply refuse (projects.mkConfig projectName (folderID place) (billingAccount place) APIs) []);
  dataset ←? wrapping "billing dataset: "
    (datasets.Apply refuse (projects.ProjectID project)
       (datasets.mkConfig "billing_export" "Billing Export"
          "GCP billing data — enable export in Cloud Console" region ∅) [] []);
  _ ←? applyBudget projectName place (projects.ProjectID project);
  export_all [("projectId", projects.ProjectID project); ("billingDatasetId", datasets.DatasetID dataset)]
    (succeed tt).
End program.

End finops.

Module identity.
Import pulumi values stack placement.

(** A resolver gives the value of a reference. *)
Definition SecretResolver : Type := string → error + string.

(** [pass] is the output of [pass show]. *)
Definition PassResolver (pass : string → error + string) : SecretResolver := λ ref,
  match pass ref with
  | inl err => inl (wrap_pre ("pass show " +:+ ref +:+ ": ") err)
  | inr out => inr (trim_space out)
  end.

Record SecretDef := mkSecretDef { sd_Name : string; sd_Ref : string }.

Definition roles : list (string * string) :=
  [("user", "roles/iam.serviceAccountUser"); ("token", "roles/iam.serviceAccountTokenCreator");
   ("oidc", "roles/iam.serviceAccountOpenIdTokenCreator")].

(** The name of a binding: account, number of the impersonator, role. *)
Definition impersonate_name (id : string) (i : nat) (suffix : string) : string :=
  "impersonate-" +:+ id +:+ "-" +:+ itoa (Z.of_nat i) +:+ "-" +:+ suffix.

Definition impersonations (projectName : string) (impersonators : list string)
    (accountDefs : list serviceaccounts.Account) : list iambindings.SAIamBinding :=
  '(i, imp) ← imap pair impersonators;
  acct ← accountDefs;
  r ← roles;
  [iambindings.mkSAIam (impersonate_name (serviceaccounts.ID acct) i r.1)
     (Sprintf [Str "projects/"; Str projectName; Str "/serviceAccounts/"; Str (serviceaccounts.ID acct); Str "@";
               Str projectName; Str ".iam.gserviceaccount.com"]) r.2 (Str imp)].

Section program.
Context (refuse : Context → Resource → option error) (stacks : string → StackReference)
  (cfg : string → option string) (pass : string → error + string)
  (secretDefs : object (list SecretDef)) (consumerSAs : object (list string))
  (serviceAccounts : object (list serviceaccounts.Account)) (impersonators : object (list string)).

(** The loop that resolves the values; the first failure ends the program. *)
Fixpoint resolve_secrets (resolver : SecretResolver) (defs : list SecretDef) : error + list secrets.Secret :=
  match defs with
  | [] => inr []
  | s :: defs =>
      match resolver (sd_Ref s) with
      | inl err => inl (wrap_pre ("resolve secret " +:+ sd_Name s +:+ ": ") err)
      | inr val =>
          match resolve_secrets resolver defs with
          | inl err => inl err
          | inr ss => inr (secrets.mkSecret (sd_Name s) val :: ss)
          end
      end
  end.

Definition applySecrets (projectID : input) (resolver : SecretResolver) : go Context (error + unit) :=
  defs ←? mret (optionalObject [] "secrets" secretDefs);
  if bool_decide (length defs = 0%nat) then succeed tt
  else
    ss ←? mret (resolve_secrets resolver defs);
    wrapping "identity secrets: " (secrets.Apply refuse projectID [] [] ss).

Definition consumer_binding (projectName : string) (i : nat) (sa : string) : iambindings.Binding :=
  iambindings.mkBinding ("consumer-accessor-" +:+ itoa (Z.of_nat i)) projectName
    "roles/secretmanager.secretAccessor" ("serviceAccount:" +:+ sa).
Definition applyConsumerAccess (projectName : string) : go Context (error + unit) :=
  consumers ← RequireObject "consumerSAs" consumerSAs;
  wrapping "consumer access: " (iambindings.Apply refuse (imap (consumer_binding projectName) consumers)).

Definition applyImpersonators (projectName : string) (accountDefs : list serviceaccounts.Account)
  : go Context (error + unit) :=
  imps ←? mret (optionalObject [] "impersonators" impersonators);
  if bool_decide (length imps = 0%nat) then succeed tt
  else
    _ ←? wrapping "impersonator bindings: "
      (iambindings.ApplySAIam refuse (impersonations projectName imps accountDefs));
    succeed tt.

Definition applyServiceAccounts (projectID : input) (projectName : string) : go Context (error + unit) :=
  accountDefs ←? mret (optionalObject [] "serviceAccounts" serviceAccounts);
  if bool_decide (length accountDefs = 0%nat) then succeed tt
  else
    saOutputs ←? wrapping "identity service accounts: "
      (serviceaccounts.Apply refuse projectID accountDefs []);
    export_all (prod_map (λ id, id +:+ "-email") id <$> map_to_list saOutputs)
      (applyImpersonators projectName accountDefs).

(** [params] may name a resolver of its own. *)
Definition Apply (params : option (Params * option SecretResolver)) : go Context (error + unit) :=
  projectName ← Require cfg "projectName";
  let resolver := default (PassResolver pass) (params ≫= snd) in
  place ← identity_resolvePlacement cfg (NewStackReference refuse stacks) (fst <$> params);
  project ←? wrapping "identity project: "
    (projects.Apply refuse (projects.mkConfig projectName (folderID place) (billingAccount place)
       ["secretmanager.googleapis.com"; "iam.googleapis.com"]) []);
  _ ←? applySecrets (projects.ProjectID project) resolver;
  _ ←? applyConsumerAccess projectName;
  _ ←? applyServiceAccounts (projects.ProjectID project) projectName;
  export_all [("projectId", projects.ProjectID project)] (succeed tt).
End program.

End identity.

Module workloads.
Import pulumi values stack placement.

Record ProjectConfig := mkProject { p_Name : string; Concerns : list string; p_APIs : list string }.

Section program.
Context (refuse : Context → Resource → option error) (stacks : string → StackReference)
  (cfg : string → option string) (projectConfigs : object (list ProjectConfig)).

Definition concern_exports (outputs : projects.Outputs) (concerns : list string) : list (string * input) :=
  concern ← concerns;
  [(concern +:+ "ProjectId", projects.ProjectID outputs);
   (concern +:+ "ProjectNumber", projects.ProjectNumber outputs)].

Definition applyProject (place : placement) (deliveryProjectNumber : string) (pc : ProjectConfig)
  : go Context (error + unit) :=
  outputs ←? wrapping ("project " +:+ p_Name pc +:+ ": ")
    (projects.Apply refuse (projects.mkConfig (p_Name pc) (folderID place) (billingAccount place) (p_APIs pc)) []);
  export_all (concern_exports outputs (Concerns pc))
    (if bool_decide (deliveryProjectNumber = "") then succeed tt
     else
       let deliverySA :=
         "serviceAccount:" +:+ deliveryProjectNumber +:+ "-compute@developer.gserviceaccount.com" in
       wrapping ("grant deploy to " +:+ p_Name pc +:+ ": ")
         (iambindings.Apply refuse
            [iambindings.mkBinding (p_Name pc +:+ "-delivery-run-deployer") (p_Name pc) "roles/run.developer"
               deliverySA])).

Definition Apply (params : option Params) : go Context (error + unit) :=
  environmentFolder ← Require cfg "environmentFolder";
  projectConfigs ← RequireObject "projects" projectConfigs;
  place ← workloads_resolvePlacement cfg (NewStackReference refuse stacks) environmentFolder params;
  all_of (applyProject place (Get cfg "deliveryProjectNumber")) projectConfigs.
End program.

End workloads.

(** ** What the programs declare *)

Module programs.
Import pulumi values stack placement GcpInfra.declared GcpRun.declared.

Abbreviation P := (λ r, guarded false r = true).
Abbreviation SR := "pulumi.StackReference".

Section programs.
Context (refuse : Context → Resource → option error) (stacks : string → StackReference)
  (cfg : string → option string) (D : Prop).

Lemma export_all_declares {A} L kvs (k : go Context A) : declares_in P L k → declares_in P L (export_all kvs k).
Proof. intros H. induction kvs as [|kv kvs IH]; [done|]. by apply declares_export. Qed.

Lemma export_all_adds {A} U kvs (k : go Context A) : adds_in D P U k → adds_in D P U (export_all kvs k).
Proof. intros H. induction kvs as [|kv kvs IH]; [done|]. by apply adds_export. Qed.

Lemma export_all_still {A} kvs (k : go Context A) :
  (∀ w, resources (k w).2 = resources w) → ∀ w, resources (export_all kvs k w).2 = resources w.
Proof.
  intros H. induction kvs as [|kv kvs IH]; [done|]. intros w. simpl. unfold Export.
  cbv [mbind go_bind does]. etrans; [apply IH|done].
Qed.

Lemma reference_declares name : declares_in P [(SR, name)] (NewStackReference refuse stacks name).
Proof.
  unfold NewStackReference. apply declares_rlast; [|intros; apply declares_nil].
  apply declares_resource. reflexivity.
Qed.

(** The packages on a permanent stack. *)
Lemma types_of {A} T L (m : go Context A) :
  declares_in P L m → (D → NoDup L) → (∀ u, u ∈ L → u.1 ∈ T) → adds_in D P (of_types T) m.
Proof. apply adds_declares. Qed.

Ltac in_types := intros u; rewrite ?elem_of_cons, ?elem_of_app; set_solver.

Lemma folders_add hcfg : adds_in D P (of_types ["organizations.Folder"]) (folders.Apply refuse hcfg []).
Proof.
  eapply types_of; [apply (folders_declared refuse [])|intros _; apply folder_urns_distinct|].
  unfold folder_urns. destruct (folders.check hcfg); [by intros u ?%elem_of_nil|].
  intros u (x & -> & _)%list_elem_of_fmap_1. by apply list_elem_of_singleton.
Qed.

Lemma tagkeys_add orgID dims : adds_in D P (of_types ["tags.TagKey"]) (tagkeys.Apply refuse orgID dims []).
Proof.
  eapply types_of; [apply (tagkeys_declared refuse [])|intros _; apply tagkey_urns_distinct|].
  unfold tagkey_urns. destruct (tagkeys.check orgID dims); [by intros u ?%elem_of_nil|].
  intros u (x & -> & _)%list_elem_of_fmap_1. by apply list_elem_of_singleton.
Qed.

Lemma project_add pcfg :
  adds_in D P (of_types ["organizations.Project"; "projects.Service"]) (projects.Apply refuse pcfg []).
Proof.
  eapply types_of; [apply (project_declared refuse [])|intros _; apply project_urns_distinct|].
  unfold project_urns. destruct (projects.Validate pcfg); [by intros u ?%elem_of_nil|].
  intros u [->|(x & -> & _)%list_elem_of_fmap_1]%elem_of_cons; [by left|right; by left].
Qed.

Lemma one_adds {A} ty name (m : go Context A) : declares_in P [(ty, name)] m → adds_in D P (of_types [ty]) m.
Proof.
  intros H. eapply types_of; [exact H|intros _; apply NoDup_singleton|]. intros u ->%list_elem_of_singleton. by left.
Qed.

Lemma secrets_add projectID deps l :
  adds_in D P (of_types ["secretmanager.Secret"; "secretmanager.SecretVersion"])
    (secrets.Apply refuse projectID deps [] l).
Proof.
  eapply types_of; [apply (secrets_declared refuse [])|intros _; apply secret_urns_distinct|].
  unfold secret_urns. destruct (secrets.ValidateAll l); [by intros u ?%elem_of_nil|].
  intros u (x & Hu & _)%list_elem_of_bind. revert Hu. rewrite elem_of_cons, list_elem_of_singleton.
  intros [->| ->]; [by left|right; by left].
Qed.

Lemma budget_add projectID bcfg deps :
  adds_in D P (of_types ["monitoring.NotificationChannel"; "billing.Budget"]) (budgets.Apply refuse projectID bcfg deps).
Proof.
  eapply types_of; [apply (budget_declared refuse [])|intros _; apply budget_urns_distinct|].
  unfold budget_urns. destruct (budgets.Validate bcfg); [by intros u ?%elem_of_nil|].
  intros u [(x & -> & _)%list_elem_of_fmap_1| ->%list_elem_of_singleton]%elem_of_app; [by left|right; by left].
Qed.

(** ** The programs *)

Lemma build_plan_still environments tagKeys c : (governance.build_plan cfg environments tagKeys c).2 = c.
Proof.
  unfold governance.build_plan, Require, wrapping. cbv [mbind go_bind].
  destruct (cfg "parent") as [parent|], (cfg "rootFolder") as [root|]; try done. cbv [rbind mbind go_bind mret go_ret].
  destruct (folders.ParseScope parent); [done|]. repeat case_match; try done.
  all: unfold governance.enterprisePlan, RequireObject in *; cbv [mbind go_bind mret go_ret] in *; repeat case_match; simplify_eq; done.
Qed.

Lemma governance_adds environments tagKeys :
  adds_in D P (of_types ["organizations.Folder"; "tags.TagKey"]) (governance.Apply refuse cfg environments tagKeys).
Proof.
  unfold governance.Apply. apply adds_rstep; [intros c; by rewrite build_plan_still|]. intros p _ _ _.
  eapply adds_types; [apply adds_wrapping, folders_add|reflexivity|]. intros out _ _ _.
  apply adds_rlast.
  - destruct (_ && _); [|apply adds_ret]. eapply adds_among; [|apply adds_wrapping, tagkeys_add]. reflexivity.
  - intros tags c. unfold governance.export_tags. apply export_all_still. intros c2. by apply export_all_still.
Qed.

Definition finops_types : list string :=
  [SR; "organizations.Project"; "projects.Service"; "bigquery.Dataset"; "monitoring.NotificationChannel";
   "billing.Budget"].
Lemma finops_adds monthly emails thresholds params :
  adds_in D P (of_types finops_types) (finops.Apply refuse stacks cfg monthly emails thresholds params).
Proof.
  unfold finops.Apply. apply adds_step; [apply require_still|]. intros name _ _ _.
  apply (adds_types_step _ _ _ [SR]); [|reflexivity|].
  { eapply one_adds, (resolve_three_declares resources P (λ n, [(SR, n)])), reference_declares. }
  intros place _ _ _. eapply adds_types; [apply adds_wrapping, project_add|reflexivity|]. intros project _ _ _.
  apply (adds_types _ _ _ ["bigquery.Dataset"]); [|reflexivity|]. { apply adds_wrapping. eapply one_adds, (dataset_declared refuse []). }
  intros ds _ _ _. apply adds_rlast; [|intros ? ?; by apply export_all_still].
  unfold finops.applyBudget. apply adds_step; [by intros c; unfold RequireObject; destruct monthly|]. intros amount _ _ _.
  apply adds_step; [by intros c; unfold RequireObject; destruct emails|]. intros es _ _ _.
  apply adds_rstep; [done|]. intros custom _ _ _. eapply adds_among; [|apply adds_wrapping, budget_add]. reflexivity.
Qed.

(** ** Identity: names that are numbered *)

Lemma numbered_inj (p : string) (i j : nat) : p +:+ itoa (Z.of_nat i) = p +:+ itoa (Z.of_nat j) → i = j.
Proof. intros E%str_app_inj_l. apply (inj pretty) in E. lia. Qed.

Lemma NoDup_numbered {T} (p : string) (l : list T) : NoDup (imap (λ i _, p +:+ itoa (Z.of_nat i)) l).
Proof.
  apply NoDup_alt. intros i j x. rewrite !list_lookup_imap.
  intros (? & _ & ->)%fmap_Some (? & _ & E)%fmap_Some. by apply numbered_inj in E.
Qed.

Definition suffixes : list string := ["user"; "token"; "oidc"].

(** Account, number and role can be told from the name of a binding. *)
Lemma impersonate_name_inj id id' i i' s s' :
  s ∈ suffixes → s' ∈ suffixes →
  identity.impersonate_name id i s = identity.impersonate_name id' i' s' → id = id' ∧ i = i' ∧ s = s'.
Proof.
  intros Hs Hs' E%str_app_inj_l.
  assert (∀ s, s ∈ suffixes → contains_byte "-"%char s = false) as Hc.
  { intros t Ht. unfold suffixes in Ht. rewrite !elem_of_cons, elem_of_nil in Ht.
    by destruct Ht as [->|[->|[->|[]]]]. }
  assert (∀ a n t, a +:+ "-" +:+ itoa n +:+ "-" +:+ t = (a +:+ "-" +:+ itoa n) +:+ String "-"%char t) as Ha.
  { intros a n t. by rewrite !str_app_assoc. }
  rewrite !Ha in E. apply last_sep_inj in E as [E ->]; [|by apply Hc..].
  apply (last_sep_inj "-"%char) in E as [-> E]; [|apply itoa_no_byte; [lia|done]..].
  apply (inj pretty) in E. split; [done|]. split; [lia|done].
Qed.

Lemma fmap_bind_list {T U V} (f : T → list U) (g : U → V) l : g <$> (l ≫= f) = l ≫= λ x, g <$> f x.
Proof. induction l as [|x l IH]; [done|]. csimpl. by rewrite fmap_app, IH. Qed.

Lemma impersonations_distinct name imps accounts :
  NoDup (serviceaccounts.ID <$> accounts) →
  NoDup (iambindings.sa_Name <$> identity.impersonations name imps accounts).
Proof.
  intros Hnd. unfold identity.impersonations.
  assert (∀ i imp, iambindings.sa_Name <$> (accounts ≫= λ acct, identity.roles ≫= λ r,
      [iambindings.mkSAIam (identity.impersonate_name (serviceaccounts.ID acct) i r.1)
         (Sprintf [Str "projects/"; Str name; Str "/serviceAccounts/"; Str (serviceaccounts.ID acct); Str "@";
            Str name; Str ".iam.gserviceaccount.com"]) r.2 (Str imp)]) =
    (serviceaccounts.ID <$> accounts) ≫= λ id, identity.impersonate_name id i <$> suffixes) as Hrow.
  { intros i imp. rewrite fmap_bind_list, list_fmap_bind. done. }
  rewrite fmap_bind_list.
  apply NoDup_bind.
  - intros [i1 imp1] [i2 imp2] y Hx1 Hx2. rewrite !Hrow.
    intros (id1 & (s1 & -> & H1)%list_elem_of_fmap_1 & _)%list_elem_of_bind
      (id2 & (s2 & E & H2)%list_elem_of_fmap_1 & _)%list_elem_of_bind.
    apply impersonate_name_inj in E as (-> & -> & _); [|done..].
    apply elem_of_lookup_imap in Hx1 as (? & ? & [= <- <-] & Hx1).
    apply elem_of_lookup_imap in Hx2 as (? & ? & [= <- <-] & Hx2). congruence.
  - intros [i imp] _. rewrite Hrow. apply NoDup_bind; [| |done].
    + intros id1 id2 y _ _ (s1 & -> & H1)%list_elem_of_fmap_1 (s2 & E & H2)%list_elem_of_fmap_1.
      by apply impersonate_name_inj in E as (-> & _ & _); [|done..].
    + intros id _. apply NoDup_fmap_2_strong; [|by apply (bool_decide_unpack _); vm_compute].
      intros s1 s2 H1 H2 E. by apply impersonate_name_inj in E as (_ & _ & ->); [|done..].
  - apply NoDup_alt. intros i j x. rewrite !list_lookup_imap.
    intros (? & _ & ->)%fmap_Some (? & _ & [= E])%fmap_Some. done.
Qed.

Definition identity_types : list string :=
  [SR; "organizations.Project"; "projects.Service"; "secretmanager.Secret"; "secretmanager.SecretVersion";
   "projects.IAMMember"; "serviceaccount.Account"; "serviceaccount.IAMMember"].

Lemma bindings_add bs :
  (D → NoDup (iambindings.Name <$> bs)) → adds_in D P (of_types ["projects.IAMMember"]) (iambindings.Apply refuse bs).
Proof.
  intros H. eapply types_of; [apply (bindings_declared refuse [])|intros d; apply NoDup_urns; auto|].
  intros u (x & -> & _)%list_elem_of_fmap_1. by left.
Qed.

Lemma identity_adds pass defs consumers accounts imps params :
  (D → ∀ l, accounts = Present l → NoDup (serviceaccounts.ID <$> l)) →
  adds_in D P (of_types identity_types) (identity.Apply refuse stacks cfg pass defs consumers accounts imps params).
Proof.
  intros Hacc. unfold identity.Apply. apply adds_step; [apply require_still|]. intros name _ _ _.
  apply (adds_types_step _ _ _ [SR]); [|reflexivity|].
  { eapply one_adds, (resolve_two_declares resources P (λ n, [(SR, n)])), reference_declares. }
  intros place _ _ _. eapply adds_types; [apply adds_wrapping, project_add|reflexivity|]. intros project _ _ _.
  eapply (adds_types _ _ _ ["secretmanager.Secret"; "secretmanager.SecretVersion"]); [|reflexivity|].
  { unfold identity.applySecrets. apply adds_rstep; [done|]. intros ds _ _ _. case_bool_decide; [apply adds_ret|].
    apply adds_rstep; [done|]. intros ss _ _ _. apply adds_wrapping, secrets_add. }
  intros _ _ _ _. eapply (adds_types _ _ _ ["projects.IAMMember"]); [|reflexivity|].
  { unfold identity.applyConsumerAccess. apply adds_step; [by intros c; unfold RequireObject; destruct consumers|].
    intros cs _ _ _. apply adds_wrapping, bindings_add. intros _. rewrite fmap_imap. apply NoDup_numbered. }
  intros _ _ _ _. apply adds_rlast; [|intros ? ?; by apply export_all_still].
  unfold identity.applyServiceAccounts. apply adds_rstep; [done|]. intros l w w' El.
  case_bool_decide as Hl; [apply adds_ret|].
  assert (D → NoDup (serviceaccounts.ID <$> l)) as Hnd.
  { intros d. destruct accounts as [|e|l0]; [injection El as <- _; constructor|discriminate El|].
    injection El as <- _. by apply Hacc. }
  eapply (adds_types _ _ _ ["serviceaccount.Account"]); [|reflexivity|].
  { apply adds_wrapping. eapply types_of; [apply (accounts_declared refuse [])|intros d; apply NoDup_urns; auto|].
    intros u (x & -> & _)%list_elem_of_fmap_1. by left. }
  intros out _ _ _. apply export_all_adds. unfold identity.applyImpersonators. apply adds_rstep; [done|].
  intros im _ _ _. case_bool_decide; [apply adds_ret|]. apply adds_rlast; [|done]. apply adds_wrapping.
  eapply types_of; [apply (sa_bindings_declared refuse [])|intros d; apply NoDup_urns, impersonations_distinct; auto|].
  intros u (x & -> & _)%list_elem_of_fmap_1. by left.
Qed.

(** ** Delivery and workloads: loops over what the configuration names *)

Lemma NoDup_bind_inv {T U} (f : T → list U) (l : list T) :
  NoDup (l ≫= f) →
  (∀ x, x ∈ l → NoDup (f x)) ∧
  (∀ i j x y a, l !! i = Some x → l !! j = Some y → i ≠ j → a ∈ f x → a ∈ f y → False).
Proof.
  induction l as [|z l IH]; csimpl; [intros _; split; [by intros x ?%elem_of_nil|done]|].
  intros (Hz & Hd & Hl)%NoDup_app. destruct (IH Hl) as [H1 H2].
  assert (∀ j y a, l !! j = Some y → a ∈ f z → a ∈ f y → False) as Hzy.
  { intros j y a Hj Ha Ha'. apply (Hd a Ha). apply list_elem_of_bind. exists y. split; [done|]. by eapply list_elem_of_lookup_2. }
  split.
  - intros x [->|Hx]%elem_of_cons; [done|auto].
  - intros [|i] [|j] x y a; simpl; intros Hi Hj Hij Hax Hay; simplify_eq; [eauto|eauto|].
    eapply (H2 i j); eauto.
Qed.

Lemma NoDup_fmap_lookup {T U} (f : T → U) (l : list T) i j x y :
  NoDup (f <$> l) → l !! i = Some x → l !! j = Some y → i ≠ j → f x = f y → False.
Proof.
  intros Hnd Hi Hj Hij E. apply Hij. eapply (NoDup_lookup (f <$> l)); [done| |].
  - rewrite list_lookup_fmap, Hi. done.
  - rewrite list_lookup_fmap, Hj. simpl. by rewrite E.
Qed.

Definition workload_urns (x : workloads.ProjectConfig) (u : urn) : Prop :=
  u = ("organizations.Project", workloads.p_Name x) ∨
  (∃ api, api ∈ workloads.p_APIs x ∧ u = ("projects.Service", workloads.p_Name x +:+ "-" +:+ api)) ∨
  u = ("projects.IAMMember", workloads.p_Name x +:+ "-delivery-run-deployer").

Lemma workload_adds place number x : adds_in D P (workload_urns x) (workloads.applyProject refuse place number x).
Proof.
  unfold workloads.applyProject.
  apply (adds_rbind _ _ _ (λ u, workload_urns x u ∧ u.1 ≠ "projects.IAMMember")
           (λ u, u = ("projects.IAMMember", workloads.p_Name x +:+ "-delivery-run-deployer"))).
  - apply adds_wrapping. eapply adds_declares; [apply (project_declared refuse [])|intros _; apply project_urns_distinct|].
    unfold project_urns. destruct (projects.Validate _); [by intros u ?%elem_of_nil|]. simpl.
    intros u [->|(api & -> & Hapi)%list_elem_of_fmap_1]%elem_of_cons.
    + split; [by left|done].
    + split; [right; left; by exists api|done].
  - intros out _ _ _. apply export_all_adds. case_bool_decide; [apply adds_ret|]. apply adds_wrapping.
    eapply adds_declares; [apply (bindings_declared refuse [])|intros _; apply NoDup_singleton|].
    by intros u ->%list_elem_of_singleton.
  - by intros _ u [_ H] ->.
  - intros u [[H _]| ->]; [done|by right; right].
Qed.

Lemma workloads_add pcs params :
  (D → ∀ l, pcs = Present l → NoDup (workloads.p_Name <$> l) ∧
     ∀ x api, x ∈ l → api ∈ workloads.p_APIs x → contains_byte "-"%char api = false) →
  adds_in D P (λ _, True) (workloads.Apply refuse stacks cfg pcs params).
Proof.
  intros Hp. unfold workloads.Apply. apply adds_step; [apply require_still|]. intros folder _ _ _.
  apply adds_step; [by intros c; unfold RequireObject; destruct pcs|]. intros l w w' El.
  assert (pcs = Present l) as El' by (unfold RequireObject in El; destruct pcs; by simplify_eq).
  eapply (adds_bind _ _ _ (of_types [SR]) (λ u, ∃ x, x ∈ l ∧ workload_urns x u)); [| | |done].
  - eapply one_adds, (resolve_two_declares resources P (λ n, [(SR, n)])), reference_declares.
  - intros place _ _ _. apply adds_all_of; [intros x _; apply workload_adds|].
    intros d i j x y u Hi Hj Hij. destruct (Hp d _ El') as [Hnd Hapi].
    assert (workloads.p_Name x ≠ workloads.p_Name y) as Hne by (intros E; exact (NoDup_fmap_lookup _ _ _ _ _ _ Hnd Hi Hj Hij E)).
    intros [->|[(a & Ha & ->)| ->]] [[= E]|[(b & Hb & [= E])|[= E]]].
    + done.
    + apply (last_sep_inj "-"%char) in E as [E _]; [done|eapply Hapi; [|done]; by eapply list_elem_of_lookup_2..].
    + by apply str_app_inj_r in E.
  - intros _ u Hu (x & _ & Hx). unfold of_types in Hu. apply list_elem_of_singleton in Hu.
    destruct Hx as [->|[(a & _ & ->)| ->]]; done.
Qed.

Section delivery.
Context (appID : Z) (repositories : object (list delivery.RepoConfig)) (consumers : object (list string)).

Abbreviation RIM := "artifactregistry.RepositoryIamMember".
Definition build_urns (u : urn) : Prop := u = (RIM, "build-ar-writer") ∨ u = (RIM, "build-ar-writer-compute").
Definition consumer_urns (l : list string) (u : urn) : Prop :=
  (u.1 = SR ∧ u.2 ∈ l) ∨ (u.1 = RIM ∧ has_prefix "ar-consumer-" u.2 = true).
Definition github_types : list string :=
  ["cloudbuildv2.Connection"; "secretmanager.SecretIamMember"; "cloudbuildv2.Repository"; "cloudbuild.Trigger"].

Lemma single_adds {A} u (m : go Context A) : declares_in P [u] m → adds_in D P (λ v, v = u) m.
Proof. intros H. eapply adds_declares; [exact H|intros _; apply NoDup_singleton|]. by intros v ?%list_elem_of_singleton. Qed.

Lemma registry_adds region project :
  adds_in D P (λ u, u.1 = "artifactregistry.Repository" ∨ build_urns u)
    (delivery.applyRegistry refuse cfg region project).
Proof.
  unfold delivery.applyRegistry. apply adds_step; [apply require_still|]. intros arID _ _ _.
  eapply (adds_rbind _ _ _ (λ u, u.1 = "artifactregistry.Repository") build_urns).
  - apply adds_wrapping. eapply adds_more; [|apply single_adds, (registry_declared refuse [])]. by intros u ->.
  - intros out _ _ _. apply adds_rlast; [|done]. unfold delivery.applyBuildWriterGrants.
    destruct (negb _).
    + apply adds_wrapping. eapply adds_more; [|apply single_adds, (grant_declared refuse [])]. intros u ->. by left.
    + eapply (adds_rbind _ _ _ (λ u, u = (RIM, "build-ar-writer")) (λ u, u = (RIM, "build-ar-writer-compute"))).
      * apply adds_wrapping, single_adds, (grant_declared refuse []).
      * intros _ _ _ _. apply adds_wrapping, single_adds, (grant_declared refuse []).
      * by intros _ u -> ?.
      * done.
  - intros _ u H [->| ->]; done.
  - done.
Qed.

Definition repo_urns (r : delivery.RepoConfig) (u : urn) : Prop :=
  u = ("cloudbuildv2.Repository", delivery.r_Name r) ∨
  (∃ t, t ∈ delivery.t_Name <$> delivery.Triggers r ∧ u = ("cloudbuild.Trigger", t)).

Definition trigger_names (l : list delivery.RepoConfig) : list string :=
  l ≫= λ r, delivery.t_Name <$> delivery.Triggers r.

Lemma repos_add region project connection l :
  (D → NoDup (delivery.r_Name <$> l) ∧ NoDup (trigger_names l)) → repositories = Present l →
  adds_in D P (λ u, ∃ r, r ∈ l ∧ repo_urns r u) (delivery.applyRepos refuse repositories region project connection).
Proof.
  intros Hd ->. unfold delivery.applyRepos. apply adds_rstep; [done|].
  intros l' w w' [= <- _]. apply adds_all_of.
  - intros r Hr. eapply (adds_rbind _ _ _ (λ u, u = ("cloudbuildv2.Repository", delivery.r_Name r))
      (λ u, ∃ t, t ∈ delivery.Triggers r ∧ u = ("cloudbuild.Trigger", delivery.t_Name t))).
    + apply adds_wrapping, single_adds, (repo_declared refuse []).
    + intros repoID _ _ _. apply (adds_all_of _ _ _ (λ t u, u = ("cloudbuild.Trigger", delivery.t_Name t))).
      * intros t _. apply adds_wrapping, single_adds, (trigger_declared refuse []).
      * intros d i j x y u Hi Hj Hij -> [= E]. destruct (Hd d) as [_ [Ht _]%NoDup_bind_inv]. exact (NoDup_fmap_lookup _ _ _ _ _ _ (Ht _ Hr) Hi Hj Hij E).
    + by intros _ u -> (t & _ & ?).
    + intros u [->|(t & Hin & ->)]; [by left|]. right. exists (delivery.t_Name t). split; [by apply list_elem_of_fmap_2|done].
  - intros d i j x y u Hi Hj Hij. destruct (Hd d) as [Hn [_ Htt]%NoDup_bind_inv].
    intros [->|(t & Hx & ->)] [[= E]|(t' & Hy & [= E])].
    + exact (NoDup_fmap_lookup _ _ _ _ _ _ Hn Hi Hj Hij E).
    + subst t'. exact (Htt _ _ _ _ _ Hi Hj Hij Hx Hy).
Qed.

Lemma github_adds region project out :
  (D → ∀ l, repositories = Present l → NoDup (delivery.r_Name <$> l) ∧ NoDup (trigger_names l)) →
  adds_in D P (of_types github_types) (delivery.applyGitHub refuse cfg appID repositories region project out).
Proof.
  intros Hr. unfold delivery.applyGitHub. destruct (_ || _); [apply export_all_adds, adds_ret|].
  eapply (adds_types _ _ _ ["cloudbuildv2.Connection"]); [|reflexivity|].
  { apply adds_wrapping. eapply one_adds, (connection_declared refuse []). }
  intros conn _ _ _. eapply (adds_types _ _ _ ["secretmanager.SecretIamMember"]); [|reflexivity|].
  { unfold delivery.applySecretAccessor. apply adds_rlast; [|done]. apply adds_wrapping. eapply one_adds, declares_resource.
    reflexivity. }
  intros _ _ _ _. apply adds_rlast; [|done]. destruct repositories as [|e|l] eqn:Er.
  - apply adds_rstep; [done|]. intros l w w' [= <- _]. by apply adds_still.
  - by apply adds_still.
  - rewrite <- Er at 1. eapply adds_more; [|eapply repos_add; [intros d; by apply Hr|done]].
    intros u (r & _ & [->|(t & _ & ->)]); [by left|by right; left].
Qed.

Lemma consumers_add region project out l :
  (D → NoDup l) → consumers = Present l →
  adds_in D P (consumer_urns l) (delivery.applyConsumerGrants refuse stacks consumers region project out).
Proof.
  intros Hd ->. unfold delivery.applyConsumerGrants. apply adds_rstep; [done|]. intros l' w w' [= <- _].
  eapply adds_more; [|apply (adds_all_of _ _ _ (λ x u, u = (SR, x.2) ∨ u = (RIM, "ar-consumer-" +:+ itoa (Z.of_nat x.1))))].
  - intros u ([i s] & (? & ? & [= <- <-] & Hs)%elem_of_lookup_imap & [->| ->]).
    + left. split; [done|]. by eapply list_elem_of_lookup_2.
    + right. split; [done|]. apply has_prefix_app.
  - intros [i s] _. eapply (adds_rbind _ _ _ (λ u, u = (SR, s)) (λ u, u = (RIM, "ar-consumer-" +:+ itoa (Z.of_nat i)))).
    + apply adds_wrapping, single_adds, reference_declares.
    + intros _ _ _ _. apply adds_wrapping, single_adds, (grant_declared refuse []).
    + by intros _ u -> ?.
    + done.
  - intros d i j [n s] [n' s'] u Hi Hj Hij. rewrite list_lookup_imap in Hi, Hj.
    apply fmap_Some in Hi as (? & Hi & [= -> ->]). apply fmap_Some in Hj as (? & Hj & [= -> ->]). simpl.
    intros [->| ->] [[= E]|[= E]].
    + apply Hij. subst. eapply NoDup_lookup; eauto.
    + by apply Hij, (numbered_inj "").
Qed.

(** What keeps a configuration of delivery from declaring anything twice. *)
Definition delivery_distinct : Prop :=
  (∀ l, repositories = Present l → NoDup (delivery.r_Name <$> l) ∧ NoDup (trigger_names l)) ∧
  (∀ l, consumers = Present l → NoDup l ∧ (Get cfg "governanceStack" ∉ l)).

Lemma consumers_any region project out :
  (D → delivery_distinct) →
  adds_in D P (λ u, ∃ l, consumers = Present l ∧ consumer_urns l u)
    (delivery.applyConsumerGrants refuse stacks consumers region project out).
Proof.
  intros Hd. assert ((∃ l, consumers = Present l) ∨ ∀ l, consumers ≠ Present l) as [[l El]|Hn]
    by (destruct consumers; eauto).
  - eapply adds_more; [|apply (consumers_add _ _ _ l); [|done]]; [by eauto|]. intros d. by apply (Hd d).
  - destruct consumers as [|e|l]; [by apply adds_still|by apply adds_still|by destruct (Hn l)].
Qed.

Lemma delivery_adds params :
  (D → delivery_distinct) →
  adds_in D P (λ _, True) (delivery.Apply refuse stacks cfg appID repositories consumers params).
Proof.
  intros Hd. unfold delivery.Apply. apply adds_step; [apply require_still|]. intros name _ _ _.
  set (C := λ u, ∃ l, consumers = Present l ∧ consumer_urns l u).
  apply (adds_bind _ _ _ (λ u, u = (SR, Get cfg "governanceStack"))
    (λ u, u.1 ∈ ["organizations.Project"; "projects.Service"] ∨
          ((u.1 = "artifactregistry.Repository" ∨ build_urns u) ∨ (of_types github_types u ∨ C u)))).
  { apply single_adds, (resolve_two_declares resources P (λ n, [(SR, n)])), reference_declares. }
  2: { intros d u -> H. unfold C, build_urns, consumer_urns, of_types, github_types in H. simpl in H.
       rewrite !elem_of_cons, elem_of_nil in H. destruct (Hd d) as [_ Hc]. naive_solver. }
  2: done.
  intros place _ _ _.
  apply (adds_rbind _ _ _ (λ u, u.1 ∈ ["organizations.Project"; "projects.Service"])
    (λ u, (u.1 = "artifactregistry.Repository" ∨ build_urns u) ∨ (of_types github_types u ∨ C u))); [apply adds_wrapping, project_add| | |done].
  2: { intros d [ty n] H. simpl in H. rewrite !elem_of_cons, elem_of_nil in H. unfold C, build_urns, consumer_urns, of_types, github_types.
       simpl. rewrite !elem_of_cons, elem_of_nil. naive_solver. }
  intros project _ _ _.
  apply (adds_rbind _ _ _ (λ u, u.1 = "artifactregistry.Repository" ∨ build_urns u)
    (λ u, of_types github_types u ∨ C u)); [apply registry_adds| | |done].
  2: { intros d [ty n] H. unfold C, build_urns, consumer_urns, of_types, github_types in *.
       simpl in *. rewrite !elem_of_cons, elem_of_nil.
       destruct H as [->|[[= -> ->]|[= -> ->]]]; naive_solver. }
  intros out _ _ _.
  apply (adds_rbind _ _ _ (of_types github_types) C); [apply github_adds; intros d; apply (Hd d)| | |done].
  2: { intros d [ty n] H. unfold C, consumer_urns, of_types, github_types in *. simpl in *.
       rewrite !elem_of_cons, elem_of_nil in H. naive_solver. }
  intros stop _ _ _. destruct stop; [apply adds_ret|].
  apply adds_rlast; [by apply consumers_any|]. intros ? ?. by apply export_all_still.
Qed.
End delivery.
End programs.

(** ** Theorems *)

Section theorems.
Context (refuse : Context → Resource → option error) (stacks : string → StackReference)
  (cfg : string → option string).

(** No program leaves data unprotected. Whatever its configuration and however
    far it gets, every resource that keeps data is protected, its deletion policy
    is to prevent, and its own deletion protection is on. *)
Theorem programs_protect_data :
  (∀ environments tagKeys, run_guarded false (governance.Apply refuse cfg environments tagKeys)) ∧
  (∀ appID repos consumers params,
     run_guarded false (delivery.Apply refuse stacks cfg appID repos consumers params)) ∧
  (∀ monthly emails thresholds params,
     run_guarded false (finops.Apply refuse stacks cfg monthly emails thresholds params)) ∧
  (∀ pass defs consumers accounts imps params,
     run_guarded false (identity.Apply refuse stacks cfg pass defs consumers accounts imps params)) ∧
  (∀ pcs params, run_guarded false (workloads.Apply refuse stacks cfg pcs params)).
Proof.
  unfold run_guarded. repeat split; intros; refine (proj1 (adds_run False P _ _ _)).
  - apply governance_adds.
  - by apply delivery_adds.
  - apply finops_adds.
  - by apply identity_adds.
  - by apply workloads_add.
Qed.

(** C29: the programs do not collide with themselves. governance and finops never
    declare two resources of one type and name, whatever their configuration;
    identity does not when its accounts differ, delivery when its repositories,
    triggers and consumer stacks differ and none of the latter is the governance
    stack, workloads when its projects differ and no API has a hyphen. *)
Theorem programs_distinct_urns :
  (∀ environments tagKeys, run_distinct (governance.Apply refuse cfg environments tagKeys)) ∧
  (∀ monthly emails thresholds params,
     run_distinct (finops.Apply refuse stacks cfg monthly emails thresholds params)) ∧
  (∀ pass defs consumers accounts imps params,
     (∀ l, accounts = Present l → NoDup (serviceaccounts.ID <$> l)) →
     run_distinct (identity.Apply refuse stacks cfg pass defs consumers accounts imps params)) ∧
  (∀ appID repos consumers params,
     delivery_distinct cfg repos consumers →
     run_distinct (delivery.Apply refuse stacks cfg appID repos consumers params)) ∧
  (∀ pcs params,
     (∀ l, pcs = Present l → NoDup (workloads.p_Name <$> l) ∧
        ∀ x api, x ∈ l → api ∈ workloads.p_APIs x → contains_byte "-"%char api = false) →
     run_distinct (workloads.Apply refuse stacks cfg pcs params)).
Proof.
  unfold run_distinct. repeat split; intros; refine (proj2 (adds_run True P _ _ _) I).
  - apply governance_adds.
  - apply finops_adds.
  - by apply identity_adds.
  - by apply delivery_adds.
  - by apply workloads_add.
Qed.
End theorems.

Definition demo_cfg (k : string) : option string :=
  if bool_decide (k ∈ ["projectName"; "registryId"; "folderID"; "billingAccount"; "githubOAuthSecretVersion"]) then Some k
  else if bool_decide (k = "governanceStack") then Some "org/governance/prod" else None.

Lemma programs_distinct_urns_witness :
  run_distinct (delivery.Apply (λ _ _, None) (λ _ _, None) demo_cfg 7 Missing (Present ["org/apps/dev"; "org/apps/prod"]) None).
Proof.
  destruct (programs_distinct_urns (λ _ _, None) (λ _ _, None) demo_cfg) as (_ & _ & _ & H & _). apply H.
  split; [discriminate|]. intros l [= <-]. split.
  - by apply (bool_decide_unpack _); vm_compute.
  - by apply (bool_decide_unpack _); vm_compute.
Defined.

(** A consumer stack that is also the governance stack is registered twice, which
    the engine refuses; [observability] keeps its references for that reason. *)
Example consumer_is_governance_stack :
  let c := (delivery.Apply (λ _ _, None) (λ _ _, None) demo_cfg 7 Missing
              (Present ["org/governance/prod"]) None empty_context).2 in
  (rname <$> List.filter (λ r, bool_decide (rtype r = SR)) (resources c)) =
    ["org/governance/prod"; "org/governance/prod"].
Proof. vm_compute. reflexivity. Qed.


End programs.
