(* ===== verification/IacObservability.v ===== *)
(** * iac: the program observability

    The project for the organisation's logs and what watches the rest
    ([src/go/iac/observability]): the log names of the sink and its filter, the
    uptime checks of other stacks' services, and the cache that keeps a run from
    registering a stack reference twice. A run's state is that cache beside what it
    has declared. *)

From S2P Require Import Prelude GoStrings GoErr GoMonad Plan Pulumi GcpInfra GcpRun Iac IacPrograms.
From Stdlib Require Import Ascii.

Module observability.
Import pulumi values stack placement.

(** ** The organisation's log sink *)

Definition defaultSinkLogNames : list string := ["cloudaudit.googleapis.com"].

Definition ErrInvalidSinkLogName : error :=
  ENew "observability.ErrInvalidSinkLogName" "observability: invalid sinkExtraLogNames entry".

(** The class of [^[A-Za-z0-9._/%-]+$] *)
Definition between (lo hi c : ascii) : bool :=
  (nat_of_ascii lo <=? nat_of_ascii c)%nat && (nat_of_ascii c <=? nat_of_ascii hi)%nat.
Definition log_byte (c : ascii) : bool :=
  between "A" "Z" c || between "a" "z" c || between "0" "9" c ||
  Ascii.eqb c "." || Ascii.eqb c "_" || Ascii.eqb c "/" || Ascii.eqb c "%" || Ascii.eqb c "-".
Fixpoint all_bytes (f : ascii → bool) (s : string) : bool :=
  match s with EmptyString => true | String c s' => f c && all_bytes f s' end.
Definition matches (s : string) : bool := negb (bool_decide (s = "")) && all_bytes log_byte s.

(** [url.PathUnescape] *)
Definition unhex (c : ascii) : option nat :=
  let n := nat_of_ascii c in
  if between "0" "9" c then Some (n - 48)%nat
  else if between "a" "f" c then Some (n - 87)%nat
  else if between "A" "F" c then Some (n - 55)%nat else None.
Fixpoint PathUnescape (s : string) : option string :=
  match s with
  | EmptyString => Some ""
  | String c s' =>
      if Ascii.eqb c "%"
      then match s' with
           | String a (String b s'') =>
               x ← unhex a; y ← unhex b; t ← PathUnescape s'';
               Some (String (ascii_of_nat (16 * x + y)) t)
           | _ => None
           end
      else t ← PathUnescape s'; Some (String c t)
  end.

Definition charset_text : string := "^[A-Za-z0-9._/%-]+$".

Definition validateSinkLogName (name : string) : option error :=
  if negb (matches name)
  then Some (wrap_post ErrInvalidSinkLogName (": " +:+ quote name +:+ " must match " +:+ charset_text))
  else match PathUnescape name with
       | None => Some (wrap_post ErrInvalidSinkLogName (": " +:+ quote name +:+ " is not validly percent-encoded"))
       | Some decoded =>
           if negb (matches decoded)
           then Some (wrap_post ErrInvalidSinkLogName (": " +:+ quote name +:+ " decodes to " +:+ quote decoded +:+
                        ", which must also match " +:+ charset_text))
           else None
       end.

Fixpoint validate_names (names : list string) : option error :=
  match names with
  | [] => None
  | n :: names =>
      match validateSinkLogName n with
      | Some err => Some (wrap_pre "sinkExtraLogNames: " err)
      | None => validate_names names
      end
  end.

(** [extra] is what [cfg.GetObject] makes of the key. *)
Definition sinkLogNamesFromConfig (cfg : string → option string) (extra : error + list string)
  : error + list string :=
  if bool_decide (Get cfg "sinkExtraLogNames" = "") then inr defaultSinkLogNames
  else match extra with
       | inl err => inl (wrap_pre "parse sinkExtraLogNames: " err)
       | inr extra =>
           match validate_names extra with
           | Some err => inl err
           | None => inr (defaultSinkLogNames ++ extra)
           end
       end.

Definition clause (name : string) : string :=
  "logName:" +:+ String dquote ("logs/" +:+ name +:+ String dquote "").
Definition sinkFilter (logNames : list string) : string := join " OR " (map clause logNames).

(** ** Uptime targets *)

Definition defaultURLOutputKey : string := "frontendUrl".

(** [strings.TrimPrefix] and [strings.TrimSuffix] *)
Definition trim_prefix (p s : string) : string := if has_prefix p s then str_drop (str_len p) s else s.
Definition trim_suffix (p s : string) : string :=
  if has_suffix p s then str_take (str_len s - str_len p) s else s.

Definition hostFromURL (u : string) : string :=
  let u := trim_prefix "https://" u in
  let u := trim_prefix "http://" u in
  trim_suffix "/" u.

Record uptimeTarget := mkTarget {
  DisplayName : string; StackRef : string; URLOutputKey : string; StatusClasses : list string
}.

(** ** The program *)

(** The references of a run, and what it has declared. *)
Record Run := mkRun { refs : gmap string StackReference; declared : Context }.
Definition new_run : Run := mkRun ∅ empty_context.

(** A call that knows nothing of the references. *)
Definition in_run {A} (m : go Context A) : go Run A := λ r,
  let '(a, c) := m (declared r) in (a, mkRun (refs r) c).

Section program.
Context (refuse : Context → Resource → option error) (stacks : string → StackReference)
  (cfg : string → option string)
  (** What [cfg.GetObject] makes of the two keys. *)
  (sinkExtraLogNames : error + list string) (uptimeTargets : error + list uptimeTarget).

Definition stackReferenceFor (name : string) : go Run (error + StackReference) :=
  known ← reads (λ r, refs r !! name);
  match known with
  | Some ref => mret (inr ref)
  | None =>
      ref ←? wrapping ("stack ref " +:+ quote name +:+ ": ") (in_run (NewStackReference refuse stacks name));
      _ ← does (λ r, (tt, mkRun (<[name := ref]> (refs r)) (declared r)));
      succeed ref
  end.

Definition uptimeTargetsFromConfig : error + list uptimeTarget :=
  if bool_decide (Get cfg "uptimeTargets" = "") then inr []
  else match uptimeTargets with
       | inl err => inl (wrap_pre "parse uptimeTargets: " err)
       | inr targets => inr targets
       end.

(** The text of the other stack's output, with the host taken from it. *)
Definition applyUptimeTarget (projectID channelIDs : input) (t : uptimeTarget) : go Context (error + unit) :=
  let key := or_default (URLOutputKey t) defaultURLOutputKey in
  let host := ApplyT hostFromURL (StackString (StackRef t) key) in
  let classes := if bool_decide (length (StatusClasses t) = 0%nat)
                 then [uptimechecks.Class2xx; uptimechecks.Class3xx] else StatusClasses t in
  wrapping ("uptime check " +:+ quote (DisplayName t) +:+ ": ")
    (uptimechecks.Apply refuse projectID (uptimechecks.mkConfig (DisplayName t) "" 0 classes "" "")
       host channelIDs []).

Definition email_channel (projectID : input) : go Context (error + list input) :=
  let email := Get cfg "alertEmail" in
  if bool_decide (email = "") then succeed []
  else
    channel ←? wrapping "ops email channel: "
      (NewResource refuse "monitoring.NotificationChannel" "ops-email"
         [("Project", projectID); ("DisplayName", Sprintf [Str "Observability ops alerts: "; Str email]);
          ("Type", Str "email"); ("Labels", Args [("email_address", Str email)])] []);
    succeed [Output channel "ID"].

Definition applyMonitoring (projectID : input) : go Run (error + unit) :=
  channelIDs ←? in_run (email_channel projectID);
  targets ←? mret uptimeTargetsFromConfig;
  all_of (λ t,
    _ ←? wrapping ("uptime target " +:+ quote (DisplayName t) +:+ ": ") (stackReferenceFor (StackRef t));
    in_run (applyUptimeTarget projectID (Array channelIDs) t)) targets.

Definition Apply (params : option Params) : go Run (error + unit) :=
  projectName ← Require cfg "projectName";
  let region := or_default (Get cfg "region") defaultRegion in
  place ← observability_resolvePlacement cfg stackReferenceFor params;
  project ←? wrapping "observability project: "
    (in_run (projects.Apply refuse (projects.mkConfig projectName (folderID place) (billingAccount place)
       ["bigquery.googleapis.com"; "logging.googleapis.com"; "monitoring.googleapis.com"]) []));
  dataset ←? wrapping "log dataset: "
    (in_run (datasets.Apply refuse (projects.ProjectID project)
       (datasets.mkConfig "org_logs" "Org-wide Audit Logs"
          "Aggregated audit and activity logs from all GCP projects" region ∅) [] []));
  let destination := Sprintf [Str "bigquery.googleapis.com/projects/"; projects.ProjectID project;
                              Str "/datasets/"; datasets.DatasetID dataset] in
  sinkLogNames ←? mret (sinkLogNamesFromConfig cfg sinkExtraLogNames);
  sink ←? wrapping "org log sink: "
    (in_run (logsinks.Apply refuse
       (logsinks.mkConfig "org-audit-to-bigquery" (orgID place) (sinkFilter sinkLogNames) true) destination));
  _ ←? applyMonitoring (projects.ProjectID project);
  in_run (export_all
    [("projectId", projects.ProjectID project); ("logDatasetId", datasets.DatasetID dataset);
     ("sinkWriterIdentity", logsinks.WriterIdentity sink)] (succeed tt)).
End program.

(** ** What a run declares *)

Section declares.
Import GcpInfra.declared GcpRun.declared programs.
Context (refuse : Context → Resource → option error) (stacks : string → StackReference).

Definition is_reference (r : Resource) : bool := bool_decide (rtype r = SR).
Definition reference_names (r : Run) : list string :=
  rname <$> List.filter is_reference (resources (declared r)).
Definition others (r : Run) : list Resource :=
  List.filter (λ x, negb (is_reference x)) (resources (declared r)).

(** The names registered so far are those in the cache, each once. *)
Definition cached (r : Run) : Prop :=
  NoDup (reference_names r) ∧ ∀ name, name ∈ reference_names r ↔ is_Some (refs r !! name).

(** A call that declares no reference, inside a run. *)
Lemma no_references (U : urn → Prop) new :
  (∀ n, ¬ U (SR, n)) → Forall U (urn_of <$> new) → Forall (λ x, is_reference x = false) new.
Proof.
  intros HT HU. rewrite Forall_fmap in HU. eapply Forall_impl; [exact HU|]. intros x Hx. simpl in Hx.
  apply bool_decide_eq_false_2. intros Ex. unfold urn_of in Hx. rewrite Ex in Hx. by apply HT in Hx.
Qed.

Lemma in_run_adds {A} D U (m : go Context A) :
  (∀ n, ¬ U (SR, n)) → adds_in D P U m → adds others D P U (in_run m).
Proof.
  intros HT Hm r. unfold in_run. destruct (Hm (declared r)) as (new & E & HP & HD & HU).
  destruct (m (declared r)) as [a c] eqn:Em. simpl in *. exists new. unfold others. simpl. rewrite E, List.filter_app.
  assert (List.filter (λ x, negb (is_reference x)) new = new) as ->; [|done].
  apply no_references in HU; [|done]. clear -HU. induction HU as [|x new Hx _ IH]; [done|]. simpl. by rewrite Hx, IH.
Qed.

Lemma in_run_cached {A} D U (m : go Context A) :
  (∀ n, ¬ U (SR, n)) → adds_in D P U m → keeps cached (in_run m).
Proof.
  intros HT Hm r [Hnd Hc]. unfold in_run. destruct (Hm (declared r)) as (new & E & _ & _ & HU).
  destruct (m (declared r)) as [a c] eqn:Em. simpl in *.
  assert (reference_names (mkRun (refs r) c) = reference_names r) as Hn; [|unfold cached; by rewrite Hn].
  unfold reference_names. simpl. rewrite E, List.filter_app.
  assert (List.filter is_reference new = []) as ->; [|by rewrite app_nil_r].
  apply no_references in HU; [|done]. clear -HU. induction HU as [|x new Hx _ IH]; [done|]. simpl. by rewrite Hx.
Qed.

(** None of these types is that of a reference. *)
Ltac no_sr := intros ?; unfold of_types; simpl; rewrite !elem_of_cons, elem_of_nil; naive_solver.

Lemma reference_others name r : others (stackReferenceFor refuse stacks name r).2 = others r.
Proof.
  unfold stackReferenceFor. cbv [mbind go_bind reads mret go_ret]. destruct (refs r !! name); [done|].
  unfold wrapping, in_run, NewStackReference, NewResource. cbv [rbind mbind go_bind mret go_ret does succeed]. simpl.
  destruct (refuse _ _); [done|]. simpl. unfold others. simpl. by rewrite List.filter_app, app_nil_r.
Qed.

Lemma reference_keeps name : keeps cached (stackReferenceFor refuse stacks name).
Proof.
  intros r [Hnd Hc]. unfold stackReferenceFor. cbv [mbind go_bind reads mret go_ret].
  destruct (refs r !! name) as [ref|] eqn:E; [done|].
  unfold wrapping, in_run, NewStackReference, NewResource. cbv [rbind mbind go_bind mret go_ret does succeed]. simpl.
  destruct (refuse _ _); [done|]. simpl. unfold cached, reference_names in *. simpl.
  rewrite List.filter_app, fmap_app. simpl. split.
  - apply NoDup_app. split; [done|]. split; [|apply NoDup_singleton].
    intros x Hx ->%list_elem_of_singleton. apply Hc in Hx as [? Hx]. congruence.
  - intros x. rewrite elem_of_app, list_elem_of_singleton. destruct (decide (x = name)) as [->|Hne].
    + rewrite lookup_insert_eq. split; [by eexists|by right].
    + rewrite lookup_insert_ne by done. rewrite <- Hc. tauto.
Qed.

Context (cfg : string → option string) (extra : error + list string) (targets : error + list uptimeTarget).

Lemma target_adds D projectID channels t :
  adds_in D P (λ u, u = ("monitoring.UptimeCheckConfig", DisplayName t) ∨
                    u = ("monitoring.AlertPolicy", DisplayName t +:+ "-failing"))
    (applyUptimeTarget refuse projectID channels t).
Proof.
  unfold applyUptimeTarget. apply adds_wrapping. eapply adds_declares; [apply (uptime_declared refuse [])| |].
  - intros _. constructor; [by intros ?%list_elem_of_singleton|apply NoDup_singleton].
  - intros u. rewrite elem_of_cons, list_elem_of_singleton. done.
Qed.

(** Under [D] the targets have distinct names. *)
Lemma monitoring_adds D projectID :
  (D → ∀ l, targets = inr l → NoDup (DisplayName <$> l)) →
  adds others D P (of_types ["monitoring.NotificationChannel"; "monitoring.UptimeCheckConfig"; "monitoring.AlertPolicy"])
    (applyMonitoring refuse stacks cfg targets projectID).
Proof.
  intros Hd. unfold applyMonitoring.
  eapply (adds_types _ _ _ ["monitoring.NotificationChannel"]); [|reflexivity|].
  - apply in_run_adds; [no_sr|]. unfold email_channel. case_bool_decide; [apply adds_ret|].
    apply adds_rlast; [|done]. apply adds_wrapping. eapply one_adds, declares_resource. reflexivity.
  - intros ids _ _ _. apply adds_rstep; [done|]. intros l w w' El.
    assert (D → NoDup (DisplayName <$> l)) as Hnd.
    { intros d. unfold uptimeTargetsFromConfig in El. cbv [mret go_ret] in El.
      case_bool_decide; [injection El as <- _; constructor|]. destruct targets; [done|]. injection El as <- _. by apply Hd. }
    eapply adds_more; [|apply (adds_all_of _ _ _ (λ t u, u = ("monitoring.UptimeCheckConfig", DisplayName t) ∨
                    u = ("monitoring.AlertPolicy", DisplayName t +:+ "-failing")))].
    + intros u (t & _ & [->| ->]); [by left|by right; left].
    + intros t _. apply adds_rstep.
      * intros r. unfold wrapping. cbv [mbind go_bind]. pose proof (reference_others (StackRef t) r) as E.
        by destruct (stackReferenceFor _ _ _ _) as [[[]|] ?].
      * intros ref _ _ _. apply in_run_adds; [by intros n [?|?]|]. apply target_adds.
    + intros d i j x y u Hi Hj Hij [->| ->] [[= E]|[= E]].
      * exact (NoDup_fmap_lookup _ _ _ _ _ _ (Hnd d) Hi Hj Hij E).
      * apply str_app_inj_r in E. exact (NoDup_fmap_lookup _ _ _ _ _ _ (Hnd d) Hi Hj Hij E).
Qed.

Definition other_types : list string :=
  ["organizations.Project"; "projects.Service"; "bigquery.Dataset"; "logging.OrganizationSink";
   "monitoring.NotificationChannel"; "monitoring.UptimeCheckConfig"; "monitoring.AlertPolicy"].

Lemma placement_others params r :
  others (observability_resolvePlacement cfg (stackReferenceFor refuse stacks) params r).2 = others r.
Proof.
  assert (declares others (λ _, False) [] (observability_resolvePlacement cfg (stackReferenceFor refuse stacks) params)) as H.
  { apply (resolve_three_declares others _ (λ _, [])). intros name. apply declares_still, reference_others. }
  destruct (H r) as (new & -> & _ & Hf). destruct new as [|x new]; [by rewrite app_nil_r|].
  by apply Forall_cons in Hf as [[] _].
Qed.

Lemma export_still {A} kvs (a : A) (r : Run) : others (in_run (export_all kvs (succeed a)) r).2 = others r.
Proof.
  unfold in_run, others. pose proof (export_all_still kvs (succeed a) (λ _, eq_refl) (declared r)) as E.
  destruct (export_all _ _ _) as [x c]. simpl in *. by rewrite E.
Qed.

Lemma observability_adds D params :
  (D → ∀ l, targets = inr l → NoDup (DisplayName <$> l)) →
  adds others D P (of_types other_types) (Apply refuse stacks cfg extra targets params).
Proof.
  intros Hd. unfold Apply. apply adds_step; [apply require_still|]. intros name _ _ _.
  apply adds_step; [apply placement_others|]. intros place _ _ _.
  eapply (adds_types _ _ _ ["organizations.Project"; "projects.Service"]); [|reflexivity|].
  { apply adds_wrapping, in_run_adds; [no_sr|apply project_add]. }
  intros project _ _ _. eapply (adds_types _ _ _ ["bigquery.Dataset"]); [|reflexivity|].
  { apply adds_wrapping, in_run_adds; [no_sr|]. eapply one_adds, (dataset_declared refuse []). }
  intros ds _ _ _. apply adds_rstep; [done|]. intros names _ _ _.
  eapply (adds_types _ _ _ ["logging.OrganizationSink"]); [|reflexivity|].
  { apply adds_wrapping, in_run_adds; [no_sr|]. eapply one_adds, (sink_declared refuse []). }
  intros sink _ _ _. apply adds_rlast; [by apply monitoring_adds|]. intros ? r. apply export_still.
Qed.

(** ** The references of a run *)

Lemma keeps_rbind {A B} (m : go Run (error + A)) (f : A → go Run (error + B)) :
  keeps cached m → (∀ a, keeps cached (f a)) → keeps cached (rbind m f).
Proof. intros Hm Hf. apply keeps_bind; [done|]. intros [e|a]; [apply keeps_ret|apply Hf]. Qed.
Lemma keeps_wrapping {A} pre (m : go Run (error + A)) : keeps cached m → keeps cached (wrapping pre m).
Proof. intros Hm. apply keeps_bind; [done|]. intros; apply keeps_ret. Qed.
Lemma keeps_all_of {A B} (f : A → go Run (error + B)) l : (∀ x, keeps cached (f x)) → keeps cached (all_of f l).
Proof.
  intros Hf. apply keeps_rbind; [|intros; apply keeps_ret].
  induction l as [|x l IH]; [apply keeps_ret|]. simpl. apply keeps_rbind; [apply Hf|]. intros y.
  apply keeps_rbind; [done|]. intros; apply keeps_ret.
Qed.
Lemma keeps_still {A} (m : go Run A) : (∀ r, (m r).2 = r) → keeps cached m.
Proof. intros H r Hr. by rewrite H. Qed.
Lemma require_keeps key field : keeps cached (required cfg key field).
Proof. apply keeps_still. intros r. unfold required, Require. case_bool_decide; [by destruct (cfg key)|done]. Qed.

Lemma observability_keeps params : keeps cached (Apply refuse stacks cfg extra targets params).
Proof.
  unfold Apply. apply keeps_bind; [apply keeps_still; intros r; unfold Require; by destruct (cfg _)|]. intros name.
  apply keeps_bind.
  { unfold observability_resolvePlacement, resolve_three, observability_fromGovernanceStack. apply keeps_bind.
    - destruct (_ || _ || _); [|apply keeps_ret]. unfold fromGovernanceStack. case_bool_decide; [apply keeps_ret|].
      apply keeps_bind; [apply reference_keeps|intros; apply keeps_ret].
    - intros p. do 3 (apply keeps_bind; [apply require_keeps|intros ?]). apply keeps_ret. }
  intros place. apply keeps_rbind.
  { eapply keeps_wrapping, in_run_cached, (project_add refuse True). no_sr. }
  intros project. apply keeps_rbind.
  { eapply keeps_wrapping, in_run_cached; [|eapply (one_adds True), (dataset_declared refuse [])]. no_sr. }
  intros ds. apply keeps_rbind; [apply keeps_ret|]. intros names. apply keeps_rbind.
  { eapply keeps_wrapping, in_run_cached; [|eapply (one_adds True), (sink_declared refuse [])]. no_sr. }
  intros sink. apply keeps_rbind; [|intros _; eapply (in_run_cached True (λ _, False)); [tauto|apply export_all_adds, adds_ret]].
  unfold applyMonitoring. apply keeps_rbind.
  { eapply (in_run_cached True (of_types ["monitoring.NotificationChannel"])); [no_sr|]. unfold email_channel.
    case_bool_decide; [apply adds_ret|]. apply adds_rlast; [|done]. apply adds_wrapping. eapply one_adds, declares_resource.
    reflexivity. }
  intros ids. apply keeps_rbind; [apply keeps_ret|]. intros l. apply keeps_all_of. intros t.
  apply keeps_rbind; [apply keeps_wrapping, reference_keeps|]. intros _.
  eapply in_run_cached; [|apply (target_adds True)]. by intros n [?|?].
Qed.

Lemma NoDup_split (l : list Resource) :
  NoDup (rname <$> List.filter is_reference l) → NoDup (urn_of <$> List.filter (λ x, negb (is_reference x)) l) →
  NoDup (urn_of <$> l).
Proof.
  induction l as [|x l IH]; simpl; [done|]. destruct (is_reference x) eqn:Ex; simpl.
  - intros [Hx Hn]%NoDup_cons Ho. apply NoDup_cons. split; [|by apply IH].
    intros (y & Ey & Hy)%list_elem_of_fmap_1. apply Hx. unfold urn_of in Ey. injection Ey as Et En. rewrite En.
    apply list_elem_of_fmap_2. apply list_elem_of_In, filter_In. split; [by apply list_elem_of_In|].
    unfold is_reference in *. by rewrite <- Et.
  - intros Hn [Hx Ho]%NoDup_cons. apply NoDup_cons. split; [|by apply IH].
    intros (y & Ey & Hy)%list_elem_of_fmap_1. apply Hx. rewrite Ey. apply list_elem_of_fmap_2, list_elem_of_In, filter_In.
    split; [by apply list_elem_of_In|]. unfold urn_of in Ey. injection Ey as Et En.
    unfold is_reference in *. by rewrite <- Et, Ex.
Qed.

(** C32: a run registers every stack at most once. Whatever the configuration, the
    governance stack and the stacks of the uptime targets, the same or not, are
    registered under distinct names, also when the run stops with an error or a
    missing key; what else it declares is protected where it keeps data; and when
    the targets have distinct names, no two resources share type and name. *)
Theorem one_reference_per_stack params :
  let r := (Apply refuse stacks cfg extra targets params new_run).2 in
  NoDup (reference_names r) ∧ Forall (λ x, guarded false x = true) (others r) ∧
  ((∀ l, targets = inr l → NoDup (DisplayName <$> l)) → NoDup (urn_of <$> resources (declared r))).
Proof.
  intros r. assert (cached r) as [Hnd _].
  { apply (observability_keeps params new_run). split; [constructor|]. intros name. simpl. rewrite lookup_empty.
    split; [by intros ?%elem_of_nil|by intros [? ?]]. }
  destruct (observability_adds (∀ l, targets = inr l → NoDup (DisplayName <$> l)) params id new_run)
    as (new & E & HP & HD & _). fold r in E. simpl in E.
  split; [done|]. rewrite E. split; [done|]. intros H. apply NoDup_split; [done|].
  change (NoDup (urn_of <$> others r)). rewrite E. by apply HD.
Qed.
End declares.

Definition run_cfg (k : string) : option string :=
  if bool_decide (k ∈ ["projectName"; "folderID"; "billingAccount"; "orgID"; "uptimeTargets"]) then Some k
  else if bool_decide (k = "governanceStack") then Some "org/governance/prod" else None.

(** Two targets on the governance stack: three uses, one registration. *)
Lemma one_reference_per_stack_witness :
  NoDup (urn_of <$> resources (declared (Apply (λ _ _, None) (λ _ _, None) run_cfg (inr [])
    (inr [mkTarget "a" "org/governance/prod" "" []; mkTarget "b" "org/governance/prod" "url" ["2xx"]]) None new_run).2)).
Proof.
  apply (one_reference_per_stack (λ _ _, None) (λ _ _, None) run_cfg (inr [])
    (inr [mkTarget "a" "org/governance/prod" "" []; mkTarget "b" "org/governance/prod" "url" ["2xx"]]) None).
  intros l [= <-]. by apply (bool_decide_unpack _); vm_compute.
Defined.

(** ** What the log service reads *)

(** A filter of such clauses, as the query language has it: a comparison of [logName]
    with a quoted text, which ends at the next quote, then nothing or another one
    after [OR]. *)
Definition clause_start : string := "logName:" +:+ String dquote "logs/".
Fixpoint read_filter (fuel : nat) (s : string) : option (list string) :=
  match fuel with
  | O => None
  | S fuel =>
      if has_prefix clause_start s
      then match cut dquote (str_drop (str_len clause_start) s) with
           | (name, rest, true) =>
               if bool_decide (rest = "") then Some [name]
               else if has_prefix " OR " rest
                    then names ← read_filter fuel (str_drop 4 rest); Some (name :: names)
                    else None
           | _ => None
           end
      else None
  end.

Lemma all_bytes_no_quote s : all_bytes log_byte s = true → contains_byte dquote s = false.
Proof.
  induction s as [|c s IH]; [done|]. simpl. intros [Hc Hs]%andb_true_iff.
  rewrite (IH Hs), orb_false_r. apply bool_decide_eq_false_2. intros ->. discriminate Hc.
Qed.

Lemma matches_no_quote s : matches s = true → contains_byte dquote s = false.
Proof. intros [_ H]%andb_true_iff. by apply all_bytes_no_quote. Qed.

Lemma clause_text name s : clause name +:+ s = clause_start +:+ (name +:+ String dquote s).
Proof.
  assert (name +:+ String dquote s = (name +:+ String dquote "") +:+ s) as -> by (by rewrite str_app_assoc).
  reflexivity.
Qed.

Lemma read_filter_clauses names fuel :
  names ≠ [] → Forall (λ n, contains_byte dquote n = false) names → (length names ≤ fuel)%nat →
  read_filter fuel (sinkFilter names) = Some names.
Proof.
  revert fuel. unfold sinkFilter. induction names as [|n names IH]; [done|]. intros fuel _ [Hn Hns]%Forall_cons Hf.
  destruct fuel as [|fuel]; [simpl in Hf; lia|]. simpl in Hf.
  assert (∃ rest, join " OR " (map clause (n :: names)) = clause n +:+ rest ∧
    ((names = [] ∧ rest = "") ∨ (names ≠ [] ∧ rest = " OR " +:+ join " OR " (map clause names)))) as (rest & -> & Hr).
  { destruct names as [|m names]; [exists ""; simpl; split; [by rewrite str_app_nil_r|by left]|].
    exists (" OR " +:+ join " OR " (map clause (m :: names))). split; [done|by right]. }
  rewrite clause_text. cbn [read_filter]. rewrite has_prefix_app, str_drop_app, cut_app by done.
  destruct Hr as [[-> ->]|[Hne ->]]; [done|].
  rewrite bool_decide_eq_false_2 by done. rewrite has_prefix_app.
  change (str_drop 4 (" OR " +:+ ?t)) with t. by rewrite IH by (done || lia).
Qed.

Lemma validated names : validate_names names = None →
  Forall (λ n, matches n = true ∧ ∃ d, PathUnescape n = Some d ∧ matches d = true) names.
Proof.
  induction names as [|n names IH]; [constructor|]. simpl. unfold validateSinkLogName.
  destruct (matches n) eqn:Hm; [|done]. simpl. destruct (PathUnescape n) as [d|] eqn:Hd; [|done].
  destruct (matches d) eqn:Hmd; [|done]. simpl. intros H. constructor; [by eauto|by apply IH].
Qed.

(** C31: no configured log name can reach out of the filter of the organisation's
    sink. For the names that configuration yields, the audit log first, the filter
    reads back as a disjunction over exactly these names; and where the API takes
    a name percent-decoded, the filter over the decoded names reads back as those. *)
Theorem sink_filter_exact cfg extra names :
  sinkLogNamesFromConfig cfg extra = inr names →
  read_filter (length names) (sinkFilter names) = Some names ∧
  (∃ more, names = defaultSinkLogNames ++ more) ∧
  ∃ decoded, mapM PathUnescape names = Some decoded ∧
    read_filter (length names) (sinkFilter decoded) = Some decoded.
Proof.
  intros H.
  assert (∃ more, names = defaultSinkLogNames ++ more ∧
    Forall (λ n, matches n = true ∧ ∃ d, PathUnescape n = Some d ∧ matches d = true) more) as (more & -> & Hm).
  { unfold sinkLogNamesFromConfig in H. case_bool_decide; [injection H as <-; exists []; by split; [|constructor]|].
    destruct extra as [|extra]; [done|]. destruct (validate_names extra) eqn:Hv; [done|]. injection H as <-.
    exists extra. split; [done|by apply validated]. }
  assert (Forall (λ n, matches n = true ∧ ∃ d, PathUnescape n = Some d ∧ matches d = true)
    (defaultSinkLogNames ++ more)) as Hall.
  { apply Forall_cons. split; [|done]. split; [done|]. by eexists. }
  clear Hm. split; [|split; [by eexists|]].
  - apply read_filter_clauses; [done| |done].
    eapply Forall_impl; [exact Hall|]. intros n [Hn _]. by apply matches_no_quote.
  - assert (∃ decoded, mapM PathUnescape (defaultSinkLogNames ++ more) = Some decoded ∧
      Forall (λ n, contains_byte dquote n = false) decoded) as (decoded & Hd & Hq).
    { revert Hall. generalize (defaultSinkLogNames ++ more). induction l as [|n l IH]; [by exists []|].
      intros [(_ & d & Hn & Hd) Hl]%Forall_cons. destruct (IH Hl) as (ds & Hds & Hq).
      exists (d :: ds). simpl. rewrite Hn. simpl. rewrite Hds. split; [done|].
      constructor; [by apply matches_no_quote|done]. }
    exists decoded. split; [done|].
    pose proof (length_mapM _ _ _ Hd) as Hlen.
    apply read_filter_clauses; [|done|lia]. intros ->. simpl in Hlen. discriminate Hlen.
Qed.

Definition sink_cfg (k : string) : option string := if bool_decide (k = "sinkExtraLogNames") then Some "[]" else None.
Lemma sink_filter_exact_witness :
  let names := ["cloudaudit.googleapis.com"; "cloudaudit.googleapis.com%2Factivity"] in
  read_filter (length names) (sinkFilter names) = Some names.
Proof.
  intros names.
  destruct (sink_filter_exact sink_cfg (inr ["cloudaudit.googleapis.com%2Factivity"]) names) as (H & _); [reflexivity|].
  exact H.
Defined.

(** An encoded quote passes the first test, not the second. *)
Example encoded_quote : ∃ e, sinkLogNamesFromConfig sink_cfg (inr ["a%22"]) = inl e.
Proof. eexists. reflexivity. Qed.

(** A path is left in the host. *)
Example path_in_host : hostFromURL "https://app.example.com/health/" = "app.example.com/health".
Proof. reflexivity. Qed.

End observability.
