(* ===== verification/IacContract.v ===== *)
(** * iac: what one stack promises to another, and what a stack may show

    What [governance] exports, deployed, is what the other programs read to place
    their projects. And what [identity] declares depends on the values of its
    secrets only inside what Pulumi marks as secret. *)

From S2P Require Import Prelude GoStrings GoErr GoMonad Invariant Plan Pulumi GcpInfra Iac IacPrograms.

Module contract.
Import pulumi values stack placement programs.

(** ** Calls that succeed *)

Lemma rbind_inr {W A B} (m : go W (error + A)) (f : A → go W (error + B)) w b w' :
  rbind m f w = (Returned (inr b), w') →
  ∃ a w1, m w = (Returned (inr a), w1) ∧ f a w1 = (Returned (inr b), w').
Proof. unfold rbind. intros (r & w1 & E1 & E2)%bind_returned. destruct r as [e|a]; [done|eauto]. Qed.

Lemma wrapping_inr {W A} pre (m : go W (error + A)) w a w' :
  wrapping pre m w = (Returned (inr a), w') → m w = (Returned (inr a), w').
Proof.
  unfold wrapping. intros (r & w1 & E1 & E2)%bind_returned. destruct r; cbv [mret go_ret] in E2; by simplify_eq.
Qed.

Lemma require_ok_inr {W} err (w : W) u w' : require_ok err w = (Returned (inr u), w') → err = None ∧ w' = w.
Proof. destruct err; cbv [require_ok fail succeed mret go_ret]; intros ?; by simplify_eq. Qed.

Lemma resource_inr refuse t name args opts c u c' :
  NewResource refuse t name args opts c = (Returned (inr u), c') → u = (t, name) ∧ exports c' = exports c.
Proof.
  unfold NewResource. cbv [does]. pose proof (urn_with_options t name args opts) as Hu.
  destruct (refuse c _); [done|]. intros E. injection E as <- <-. by rewrite Hu.
Qed.

(** A loop whose turns give what [g] says. *)
Lemma each_inr {A B} (f : A → go Context (error + B)) (g : A → B) l c ys c' :
  (∀ x c y c', f x c = (Returned (inr y), c') → y = g x ∧ exports c' = exports c) →
  each f l c = (Returned (inr ys), c') → ys = g <$> l ∧ exports c' = exports c.
Proof.
  intros Hf. revert c ys c'. induction l as [|x l IH]; intros c ys c'; simpl.
  - cbv [succeed mret go_ret]. intros ?. by simplify_eq.
  - intros (y & c1 & [-> E1]%Hf & (zs & c2 & [-> E2]%IH & E)%rbind_inr)%rbind_inr.
    cbv [succeed mret go_ret] in E. simplify_eq. split; [done|]. by rewrite E2.
Qed.

Lemma export_all_run {A} kvs (k : go Context A) c :
  export_all kvs k c = k (mkContext (resources c) (fold_left (λ m kv, <[kv.1 := kv.2]> m) kvs (exports c))).
Proof.
  revert c. induction kvs as [|kv kvs IH]; intros c; [by destruct c|]. simpl. unfold Export.
  cbv [mbind go_bind does]. by rewrite IH.
Qed.

(** ** Folders *)

Lemma folder_inr refuse parent name opts c u c' :
  folders.folder refuse parent name opts c = (Returned (inr u), c') →
  u = ("organizations.Folder", name) ∧ exports c' = exports c.
Proof. unfold folders.folder. by intros ?%wrapping_inr%resource_inr. Qed.

Definition folder_output (name : string) : input := Output ("organizations.Folder", name) "FolderId".

Definition folder_map (children : list string) : input :=
  Args (fold_left (λ m kv, set_key kv.1 kv.2 m) ((λ n, (n, folder_output n)) <$> children) []).

Lemma folders_inr refuse hcfg opts c out c' :
  folders.Apply refuse hcfg opts c = (Returned (inr out), c') →
  exports c' = exports c ∧ folders.RootFolderID out = folder_output (hierarchy.RootName hcfg) ∧
  folders.FolderIDs out =
    fold_left (λ m kv, set_key kv.1 kv.2 m) ((λ n, (n, folder_output n)) <$> hierarchy.Children hcfg) [].
Proof.
  unfold folders.Apply. intros ([] & c1 & [_ ->]%require_ok_inr & H)%rbind_inr.
  apply rbind_inr in H as (root & c2 & [-> E1]%folder_inr & H).
  apply rbind_inr in H as (ids & c3 & H3 & H).
  apply (each_inr _ (λ n, (n, folder_output n))) in H3 as [-> E3].
  - cbv [succeed mret go_ret] in H. simplify_eq. split; [congruence|done].
  - intros x d y d' (u & d1 & [-> Eu]%folder_inr & Hy)%rbind_inr. cbv [succeed mret go_ret] in Hy. by simplify_eq.
Qed.

Lemma find_set_key k k' v l :
  find_key k (set_key k' v l) = if bool_decide (k' = k) then Some v else find_key k l.
Proof.
  induction l as [|[k2 v2] l IH]; simpl; [done|]. destruct (decide (k2 = k')) as [->|Hne].
  - rewrite bool_decide_eq_true_2 by done. simpl. by case_bool_decide.
  - rewrite (bool_decide_eq_false_2 (k2 = k')) by done. simpl. rewrite IH.
    destruct (decide (k2 = k)) as [->|]; [|by rewrite (bool_decide_eq_false_2 (k2 = k)) by done].
    rewrite bool_decide_eq_true_2 by done. by rewrite bool_decide_eq_false_2 by done.
Qed.

(** The map of folders: a child's output under its name, nothing under another. *)
Lemma find_folder (l : list string) name acc :
  find_key name (fold_left (λ m kv, set_key kv.1 kv.2 m) ((λ n, (n, folder_output n)) <$> l) acc) =
    if bool_decide (name ∈ l) then Some (folder_output name) else find_key name acc.
Proof.
  revert acc. induction l as [|x l IH]; intros acc; simpl; [done|]. rewrite IH, find_set_key.
  destruct (decide (name ∈ l)) as [H|H].
  - rewrite (bool_decide_eq_true_2 _ H), bool_decide_eq_true_2; [done|by right].
  - rewrite (bool_decide_eq_false_2 _ H). destruct (decide (x = name)) as [->|Hne].
    + rewrite !bool_decide_eq_true_2; [done|by left|done].
    + rewrite !bool_decide_eq_false_2; [done|set_solver|done].
Qed.

Section deployed.
Context (resolve : urn → string → pvalue) (stacks : string → StackReference).

Lemma eval_args fields :
  (∀ k v, (k, v) ∈ fields → ∃ u f, v = Output u f) →
  ∃ m, eval resolve stacks (Args fields) = Some (PMap m) ∧
    ∀ k, m k = find_key k fields ≫= eval resolve stacks.
Proof.
  intros H. simpl.
  set (go := fix eval_fields (l : list (string * input)) : option (list (string * pvalue)) := _).
  assert (∃ l, go fields = Some l ∧ ∀ k, find_key k l = find_key k fields ≫= eval resolve stacks) as (l & -> & Hl).
  { induction fields as [|[k v] fields IH]; [by exists []|].
    destruct (H k v) as (u & f & ->); [by left|].
    destruct IH as (l & El & Hl); [intros; apply (H k0); by right|].
    exists ((k, resolve u f) :: l). simpl. rewrite El. split; [done|]. intros k0. simpl. rewrite Hl. by case_bool_decide. }
  simpl. by eexists.
Qed.

Lemma eval_folders children :
  ∃ m, eval resolve stacks (Args (fold_left (λ m kv, set_key kv.1 kv.2 m)
         ((λ n, (n, folder_output n)) <$> children) [])) = Some (PMap m) ∧
    ∀ n, m n = if bool_decide (n ∈ children) then Some (resolve ("organizations.Folder", n) "FolderId") else None.
Proof.
  destruct (eval_args (fold_left (λ m kv, set_key kv.1 kv.2 m) ((λ n, (n, folder_output n)) <$> children) []))
    as (m & E & Hm).
  - assert (∀ (l : list string) acc, (∀ k v, (k, v) ∈ acc → ∃ u f, v = Output u f) →
      ∀ k v, (k, v) ∈ fold_left (λ m kv, set_key kv.1 kv.2 m) ((λ n, (n, folder_output n)) <$> l) acc →
      ∃ u f, v = Output u f) as Hf; [|intros k v; apply Hf; by intros ?? ?%elem_of_nil].
    induction l as [|x l IH]; intros acc Hacc; [done|]. simpl. apply IH. intros k v Hk.
    assert (∀ acc, (k, v) ∈ set_key x (folder_output x) acc → v = folder_output x ∨ (k, v) ∈ acc) as Hs.
    { clear. induction acc as [|[k' v'] acc IH]; simpl; [intros [= _ ->]%list_elem_of_singleton; by left|].
      case_bool_decide; rewrite !elem_of_cons; [intros [[= _ ->]|?]; [by left|by right; right]|].
      intros [?|[?|?]%IH]; [by right; left|by left|by right; right]. }
    destruct (Hs _ Hk) as [->|Hin]; [by do 2 eexists|by eapply Hacc].
  - exists m. split; [done|]. intros n. rewrite Hm, find_folder. by case_bool_decide.
Qed.
End deployed.

Lemma build_plan_inr cfg environments tagKeys c p c' :
  governance.build_plan cfg environments tagKeys c = (Returned (inr p), c') →
  ∃ root children, cfg "rootFolder" = Some root ∧ hierarchy.RootName (plan.Hierarchy p) = root ∧
    hierarchy.Children (plan.Hierarchy p) = children ∧
    (Get cfg "tier" ≠ "starter" → environments = Present children).
Proof.
  assert (∀ q r, plan.validated q = r → governance.as_result r = inr p → p = q) as Hv.
  { intros q r <-. unfold plan.validated. destruct (plan.Validate q); [done|]. by intros [= ->]. }
  assert (∀ (o : object (list string)) (w : Context) l w',
    RequireObject "environments" o w = (Returned l, w') → o = Present l) as Hr.
  { intros o w l w'. unfold RequireObject. destruct o; intros E; by simplify_eq. }
  unfold governance.build_plan. intros (parent & c1 & Hp & H)%bind_returned.
  apply bind_returned in H as (root & c2 & Hroot & H). exists root.
  assert (cfg "rootFolder" = Some root) as Hroot' by (unfold Require in Hroot; destruct (cfg "rootFolder"); by simplify_eq).
  apply wrapping_inr in H. apply rbind_inr in H as (s & c3 & _ & H). case_bool_decide as Ht.
  - cbv [mret go_ret] in H. injection H as H _. apply (Hv _ _ eq_refl) in H as ->. by eexists.
  - case_bool_decide.
    + unfold governance.enterprisePlan in H. apply bind_returned in H as (l & c4 & El%Hr & H). cbv [mret go_ret] in H.
      destruct (optionalObject _ _ _) as [|dims]; [done|]. injection H as H _.
      unfold plan.NewEnterprise, plan.validated in H. destruct (plan.Validate _); [done|]. injection H as <-. by eexists.
    + apply bind_returned in H as (l & c4 & El%Hr & H). cbv [mret go_ret] in H. injection H as H _.
      apply (Hv _ _ eq_refl) in H as ->. by eexists.
Qed.

(** What a run that succeeds exports of its folders. *)
Lemma governance_exports refuse cfg environments tagKeys c :
  governance.Apply refuse cfg environments tagKeys empty_context = (Returned (inr tt), c) →
  ∃ root children,
    cfg "rootFolder" = Some root ∧ (Get cfg "tier" ≠ "starter" → environments = Present children) ∧
    exports c !! exports.RootFolderID = Some (folder_output root) ∧
    exports c !! exports.FolderIDs = Some (folder_map children).
Proof.
  intros H. unfold governance.Apply in H.
  apply rbind_inr in H as (p & c1 & Hp & H).
  pose proof (build_plan_still cfg environments tagKeys empty_context) as Es. rewrite Hp in Es. simpl in Es. subst c1.
  apply build_plan_inr in Hp as (root & children & Hroot & Eroot & Ekids & Htier).
  apply rbind_inr in H as (out & c2 & Hout%wrapping_inr & H).
  apply folders_inr in Hout as (_ & E1 & E2). rewrite Eroot in E1. rewrite Ekids in E2.
  apply rbind_inr in H as (tags & c3 & _ & H). unfold governance.export_tags in H.
  rewrite !export_all_run, E1, E2 in H. cbv [succeed mret go_ret] in H. injection H as H. simpl in H.
  fold (folder_map children) in H. revert H. generalize (fold_left (λ m kv, <[kv.1:=kv.2]> m)
    ((λ name, (exports.TagKeyID name, default (Str "") (tags !! name))) <$>
       invariant.sort_Strings (map_to_list tags).*1) (exports c3)). intros m0 Hc.
  exists root, children. do 2 (split; [done|]). rewrite <- Hc. simpl. unfold if_set.
  destruct (negb _), (scope.SupportsOrgExport _); simpl;
    split; by repeat (rewrite lookup_insert_eq || rewrite lookup_insert_ne by done).
Qed.

(** C27: what governance exports places the stacks that reference it. After a run that
    succeeds, the deployed stack answers the ID of the root folder, and under each
    name the ID of the child folder of that name, or nothing when there is none. A
    delivery, identity or observability stack that names it and one of its folders
    lands in that folder, workloads in the folder of its environment, finops in the
    root folder; account and organisation are those that governance exports, or else
    the stack's own, and the run ends only when neither has one. *)
Theorem governance_places_downstream refuse cfg environments tagKeys resolve stacks c :
  governance.Apply refuse cfg environments tagKeys empty_context = (Returned (inr tt), c) →
  let gov := deployed resolve stacks (exports c) in
  let id name := as_string (resolve ("organizations.Folder", name) "FolderId") in
  ∃ root children,
    cfg "rootFolder" = Some root ∧ (Get cfg "tier" ≠ "starter" → environments = Present children) ∧
    as_string <$> gov exports.RootFolderID = Some (id root) ∧
    (∀ name, folder_of name <$> gov exports.FolderIDs = Some (if bool_decide (name ∈ children) then id name else "")) ∧
    ∀ dcfg (w : Context), Get dcfg "governanceStack" ≠ "" →
      let ref : string → go Context (error + StackReference) := λ _, mret (inr gov) in
      let b := field_exact dcfg (λ _, inr gov) "" "billingAccount" exports.BillingAccount as_string in
      let o := field_exact dcfg (λ _, inr gov) "" "orgID" exports.OrgID as_string in
      (∀ f, f ∈ children → id f ≠ "" →
         placed (workloads_resolvePlacement dcfg ref f None) w (Some (id f)) b (Some "") ∧
         (governance_folder dcfg = f →
            placed (delivery_resolvePlacement dcfg ref None) w (Some (id f)) b (Some "") ∧
            placed (identity_resolvePlacement dcfg ref None) w (Some (id f)) b (Some "") ∧
            placed (observability_resolvePlacement dcfg ref None) w (Some (id f)) b o)) ∧
      (id root ≠ "" → placed (finops_resolvePlacement dcfg ref None) w (Some (id root)) b o).
Proof.
  intros H gov id. destruct (governance_exports _ _ _ _ _ H) as (root & children & Hroot & Htier & Er & Ef).
  destruct (eval_folders resolve stacks children) as (m & Em & Hm).
  assert (∀ name, folder_of name <$> gov exports.FolderIDs = Some (if bool_decide (name ∈ children) then id name else ""))
    as Hfolders.
  { intros name. unfold gov, deployed. rewrite Ef. change (Some (folder_map children) ≫= eval resolve stacks) with (eval resolve stacks (folder_map children)).
    unfold folder_map. rewrite Em. simpl. rewrite Hm. unfold id. by destruct (bool_decide (name ∈ children)). }
  exists root, children. split; [done|]. split; [done|]. split; [|split; [done|]].
  - unfold gov, deployed. by rewrite Er.
  - intros dcfg w Hs ref b o.
    assert (∀ key read v, read <$> gov key = Some v → v ≠ "" →
              field_exact dcfg (λ _, inr gov) "" "folderID" key read = Some v) as Hf.
    { intros key read v Ev Hv. unfold field_exact, from_stack. simpl.
      rewrite (bool_decide_eq_false_2 (Get dcfg "governanceStack" = "")) by done.
      destruct (gov key); [|done]. injection Ev as ->. by rewrite !(bool_decide_eq_false_2 (v = "")) by done. }
    destruct (placement_order dcfg (λ _, inr gov) None "" w) as (_ & _ & _ & Hfin & _).
    split.
    + intros f Hin Hid.
      pose proof (Hf exports.FolderIDs (folder_of f) (id f)) as Ef2. rewrite Hfolders in Ef2.
      rewrite (bool_decide_eq_true_2 (_ ∈ children)) in Ef2 by done. specialize (Ef2 eq_refl Hid).
      destruct (placement_order dcfg (λ _, inr gov) None f w) as (Hd & Hi & Hw & _ & Ho). cbn zeta in Hd, Hi, Hw, Ho.
      simpl (FolderID _) in Hd, Hi, Hw, Ho.
      split; [by rewrite Ef2 in Hw|]. intros <-. rewrite Ef2 in Hd, Hi, Ho. by repeat split.
    + intros Hid. cbn zeta in Hfin. simpl (FolderID _) in Hfin.
      rewrite (Hf exports.RootFolderID as_string (id root)) in Hfin; [done| |done].
      unfold gov, deployed. by rewrite Er.
Qed.

Definition governance_cfg (k : string) : option string :=
  if bool_decide (k = "parent") then Some "organizations/42"
  else if bool_decide (k = "rootFolder") then Some "acme" else None.
Definition delivery_cfg (k : string) : option string :=
  if bool_decide (k = "governanceStack") then Some "org/governance/prod"
  else if bool_decide (k = "governanceFolder") then Some "dev"
  else if bool_decide (k = "billingAccount") then Some "B-1" else None.
Definition demo_resolve (u : urn) (field : string) : pvalue := PString (u.2 +:+ "-id").
Definition governance_run : outcome (error + unit) * Context :=
  governance.Apply (λ _ _, None) governance_cfg (Present ["dev"; "prod"]) Missing empty_context.

Lemma governance_places_downstream_witness :
  placed (delivery_resolvePlacement delivery_cfg
      (λ _, mret (inr (deployed demo_resolve (λ _ _, None) (exports governance_run.2)))) None) empty_context
    (Some "dev-id") (Some "B-1") (Some "").
Proof.
  destruct (governance_places_downstream (λ _ _, None) governance_cfg (Present ["dev"; "prod"]) Missing
    demo_resolve (λ _ _, None) governance_run.2) as (root & children & _ & Hc & _ & _ & H); [vm_compute; reflexivity|].
  assert (["dev"; "prod"] = children) as <- by (apply (f_equal (λ o, match o with Present l => l | _ => [] end)) in Hc;
    [exact Hc|discriminate]).
  destruct (H delivery_cfg empty_context) as [H1 _]; [discriminate|].
  destruct (H1 "dev") as (_ & H2); [by left|discriminate|]. exact (proj1 (H2 eq_refl)).
Defined.

End contract.

(** ** Secrets *)

Module masking.
Import pulumi values stack placement programs.

(** An input with what is marked as secret blotted out. *)
Fixpoint mask (i : input) : input :=
  match i with
  | Array l => Array (map mask l)
  | Args fields => Args (map (λ kv, (kv.1, mask kv.2)) fields)
  | Sprintf parts => Sprintf (map mask parts)
  | ApplyT f i => ApplyT f (mask i)
  | ToSecret _ => ToSecret (Str "")
  | i => i
  end.
Definition mask_args (l : list (string * input)) : list (string * input) := map (λ kv, (kv.1, mask kv.2)) l.
Definition mask_resource (r : Resource) : Resource :=
  mkResource (rtype r) (rname r) (mask_args (rargs r)) (protected r) (dependsOn r) (ignoreChanges r).
Definition mask_context (c : Context) : Context :=
  mkContext (map mask_resource (resources c)) (mask <$> exports c).

(** Two programs that nobody tells apart who does not see into secrets. *)
Definition alike {A} (m1 m2 : go Context A) : Prop := ∀ c1 c2, mask_context c1 = mask_context c2 →
  (m1 c1).1 = (m2 c2).1 ∧ mask_context (m1 c1).2 = mask_context (m2 c2).2.

Lemma alike_ret {A} (a : A) : alike (mret a) (mret a).
Proof. by intros c1 c2 E. Qed.

Lemma alike_bind {A B} (m1 m2 : go Context A) (f1 f2 : A → go Context B) :
  alike m1 m2 → (∀ a, alike (f1 a) (f2 a)) → alike (m1 ≫= f1) (m2 ≫= f2).
Proof.
  intros Hm Hf c1 c2 E. destruct (Hm c1 c2 E) as [Ho Hc]. cbv [mbind go_bind].
  destruct (m1 c1) as [o1 c1'], (m2 c2) as [o2 c2']. simpl in *. subst o2. destruct o1; [by apply Hf|done].
Qed.

Lemma alike_rbind {A B} (m1 m2 : go Context (error + A)) (f1 f2 : A → go Context (error + B)) :
  alike m1 m2 → (∀ a, alike (f1 a) (f2 a)) → alike (rbind m1 f1) (rbind m2 f2).
Proof. intros Hm Hf. apply alike_bind; [done|]. intros [e|a]; [apply alike_ret|apply Hf]. Qed.

Lemma alike_wrapping {A} pre (m1 m2 : go Context (error + A)) :
  alike m1 m2 → alike (wrapping pre m1) (wrapping pre m2).
Proof. intros H. apply alike_bind; [done|]. intros; apply alike_ret. Qed.

Lemma alike_each {A B C} (R : A → B → Prop) (f1 : A → go Context (error + C)) (f2 : B → go Context (error + C)) l1 l2 :
  Forall2 R l1 l2 → (∀ x y, R x y → alike (f1 x) (f2 y)) → alike (each f1 l1) (each f2 l2).
Proof.
  intros Hl Hf. induction Hl as [|x y l1 l2 Hxy Hl IH]; [apply alike_ret|]. simpl.
  apply alike_rbind; [by apply Hf|]. intros z. apply alike_rbind; [done|]. intros; apply alike_ret.
Qed.

Lemma alike_all_of {A B C} (R : A → B → Prop) (f1 : A → go Context (error + C)) (f2 : B → go Context (error + C)) l1 l2 :
  Forall2 R l1 l2 → (∀ x y, R x y → alike (f1 x) (f2 y)) → alike (all_of f1 l1) (all_of f2 l2).
Proof. intros Hl Hf. apply alike_rbind; [by eapply alike_each|]. intros; apply alike_ret. Qed.

Lemma alike_all_of_refl {A C} (f : A → go Context (error + C)) l :
  (∀ x, alike (f x) (f x)) → alike (all_of f l) (all_of f l).
Proof. intros Hf. apply (alike_all_of eq); [by apply Forall2_same_length_lookup_2; naive_solver|]. by intros x ? <-. Qed.
Lemma alike_each_refl {A C} (f : A → go Context (error + C)) l :
  (∀ x, alike (f x) (f x)) → alike (each f l) (each f l).
Proof. intros Hf. apply (alike_each eq); [by apply Forall2_same_length_lookup_2; naive_solver|]. by intros x ? <-. Qed.

Lemma alike_export {A} key v (k1 k2 : go Context A) : alike k1 k2 → alike (Export key v k1) (Export key v k2).
Proof.
  intros H c1 c2 E. unfold Export. cbv [mbind go_bind does]. apply H. unfold mask_context in *. simpl.
  rewrite !fmap_insert. by injection E as -> ->.
Qed.

Lemma alike_export_all {A} kvs (k1 k2 : go Context A) : alike k1 k2 → alike (export_all kvs k1) (export_all kvs k2).
Proof. intros H. induction kvs as [|kv kvs IH]; [done|]. by apply alike_export. Qed.

Lemma alike_Require cfg key : alike (Require cfg key) (Require cfg key).
Proof. intros c1 c2 E. unfold Require. by destruct (cfg key). Qed.
Lemma alike_RequireObject {T} key (o : object T) : alike (RequireObject key o) (RequireObject key o).
Proof. intros c1 c2 E. unfold RequireObject. by destruct o. Qed.

Section engine.
Context (refuse : Context → Resource → option error).
(** What the engine refuses at once, it does not refuse for the value of a secret.
    A value marked as secret is an output, which the SDK awaits and encodes only
    after the call that registers the resource has returned; the error of that
    call is about the type, the name and the options. What a provider makes of
    the value later is no error of the program. *)
Hypothesis blind : ∀ c1 c2 r1 r2,
  mask_context c1 = mask_context c2 → mask_resource r1 = mask_resource r2 → refuse c1 r1 = refuse c2 r2.

Lemma alike_resource t name args1 args2 opts :
  mask_args args1 = mask_args args2 →
  alike (NewResource refuse t name args1 opts) (NewResource refuse t name args2 opts).
Proof using blind.
  intros Ha c1 c2 E. unfold NewResource. cbv [does].
  set (r1 := fold_left with_option opts (mkResource t name args1 false [] [])).
  set (r2 := fold_left with_option opts (mkResource t name args2 false [] [])).
  assert (mask_resource r1 = mask_resource r2) as Er.
  { unfold r1, r2. set (s1 := mkResource t name args1 _ _ _). set (s2 := mkResource t name args2 _ _ _).
    assert (mask_resource s1 = mask_resource s2) as Es by (unfold mask_resource; simpl; by rewrite Ha).
    revert Es. generalize s1 s2. clear. induction opts as [|o opts IH]; [done|]. intros s1 s2 Es. simpl. apply IH.
    unfold mask_resource in *. destruct s1, s2, o; simpl in *; by injection Es as -> -> -> -> -> ->. }
  assert (urn_of r1 = urn_of r2) as Eu by (unfold r1, r2; by rewrite !urn_with_options).
  rewrite (blind c1 c2 r1 r2 E Er). destruct (refuse c2 r2); [done|]. simpl. rewrite Eu. split; [done|].
  unfold mask_context in *. injection E as E1 E2. simpl. by rewrite !map_app, E1, E2; simpl; rewrite Er.
Qed.

Lemma alike_require_ok err : alike (require_ok err) (require_ok err).
Proof. destruct err; apply alike_ret. Qed.

Ltac alike :=
  repeat first
    [ apply alike_export_all | apply alike_ret | apply alike_Require | apply alike_RequireObject | apply alike_require_ok
    | apply alike_wrapping | apply alike_rbind; [|intros ?] | apply alike_bind; [|intros ?]
    | apply alike_all_of_refl; intros ? | apply alike_each_refl; intros ?
    | apply alike_resource; reflexivity
    | match goal with |- alike (if ?b then _ else _) _ => destruct b end ].

Lemma alike_placement stacks cfg params :
  alike (identity_resolvePlacement cfg (NewStackReference refuse stacks) params)
        (identity_resolvePlacement cfg (NewStackReference refuse stacks) params).
Proof using blind.
  unfold identity_resolvePlacement, resolve_two, identity_fromGovernanceStack, fromGovernanceStack, NewStackReference, required. alike.
Qed.

(** Secrets of one name, both empty or both not. *)
Definition same_name (s1 s2 : secrets.Secret) : Prop :=
  secrets.Name s1 = secrets.Name s2 ∧ (secrets.Value s1 = "" ↔ secrets.Value s2 = "").

Lemma validate_same seen l1 l2 :
  Forall2 same_name l1 l2 → secrets.ValidateAll_loop seen l1 = secrets.ValidateAll_loop seen l2.
Proof.
  intros H. revert seen. induction H as [|s1 s2 l1 l2 [Hn Hv] _ IH]; intros seen; [done|]. simpl.
  unfold secrets.Validate. rewrite Hn. destruct (decide (secrets.Name s2 = "")); [done|].
  destruct (decide (secrets.Value s1 = "")), (decide (secrets.Value s2 = "")); try tauto; try done.
  destruct (decide _); [done|apply IH].
Qed.

Lemma alike_secrets projectID deps opts l1 l2 :
  Forall2 same_name l1 l2 →
  alike (secrets.Apply refuse projectID deps opts l1) (secrets.Apply refuse projectID deps opts l2).
Proof using blind.
  intros H. unfold secrets.Apply.
  assert (secrets.ValidateAll l1 = secrets.ValidateAll l2) as ->.
  { unfold secrets.ValidateAll. rewrite (Forall2_length _ _ _ H). by rewrite (validate_same _ _ _ H). }
  apply alike_rbind; [apply alike_require_ok|]. intros _. apply (alike_all_of same_name); [done|].
  intros s1 s2 [Hn _]. unfold secrets.apply_secret. rewrite Hn. alike.
Qed.

(** Resolvers that fail alike, and give values that are empty alike. *)
Definition same_but_values (r1 r2 : identity.SecretResolver) : Prop := ∀ ref,
  match r1 ref, r2 ref with
  | inl e1, inl e2 => e1 = e2
  | inr v1, inr v2 => v1 = "" ↔ v2 = ""
  | _, _ => False
  end.

Lemma resolve_same r1 r2 defs :
  same_but_values r1 r2 →
  match identity.resolve_secrets r1 defs, identity.resolve_secrets r2 defs with
  | inl e1, inl e2 => e1 = e2
  | inr l1, inr l2 => Forall2 same_name l1 l2
  | _, _ => False
  end.
Proof.
  intros H. induction defs as [|d defs IH]; simpl; [constructor|]. specialize (H (identity.sd_Ref d)).
  destruct (r1 _), (r2 _); try done; [by subst|].
  destruct (identity.resolve_secrets r1 defs), (identity.resolve_secrets r2 defs); try done. by constructor.
Qed.

(** C28: the value of a secret shows nowhere but inside what is marked as secret,
    except for whether it is empty. Take two runs of identity whose resolvers fail
    on the same references, with the same errors, and give empty values for the
    same references ([same_but_values]; an empty value is refused, so emptiness
    itself does show). Assume that what the engine refuses at once does not
    depend on values marked as secret ([blind]: the SDK registers a resource
    before it resolves such inputs). Then the runs end alike, with the same error
    if any, and declare the same resources and exports except inside what is
    marked as secret. *)
Theorem secret_values_hidden stacks cfg pass defs consumers accounts imps params r1 r2 :
  same_but_values r1 r2 →
  let run r := identity.Apply refuse stacks cfg pass defs consumers accounts imps (Some (params, Some r)) empty_context in
  (run r1).1 = (run r2).1 ∧ mask_context (run r1).2 = mask_context (run r2).2.
Proof using blind.
  intros H run. unfold run.
  assert (alike (identity.Apply refuse stacks cfg pass defs consumers accounts imps (Some (params, Some r1)))
                (identity.Apply refuse stacks cfg pass defs consumers accounts imps (Some (params, Some r2)))) as Ha;
    [|by apply Ha].
  unfold identity.Apply. simpl (default _ _). simpl (fst <$> _).
  apply alike_bind; [apply alike_Require|]. intros name. apply alike_bind; [apply alike_placement|]. intros place.
  apply alike_rbind; [unfold projects.Apply; alike|]. intros project. apply alike_rbind.
  { unfold identity.applySecrets. apply alike_rbind; [apply alike_ret|]. intros ds.
    destruct (bool_decide _); [apply alike_ret|]. pose proof (resolve_same r1 r2 ds H) as Hr.
    destruct (identity.resolve_secrets r1 ds), (identity.resolve_secrets r2 ds); try done.
    - subst. alike.
    - intros c1 c2 E. by apply (alike_wrapping _ _ _ (alike_secrets _ _ _ _ _ Hr)). }
  intros _. apply alike_rbind; [unfold identity.applyConsumerAccess, iambindings.Apply; alike|]. intros _.
  apply alike_rbind; [|intros _; alike].
  unfold identity.applyServiceAccounts, identity.applyImpersonators, serviceaccounts.Apply, iambindings.ApplySAIam. alike.
Qed.
End engine.

Definition identity_cfg (k : string) : option string :=
  if bool_decide (k ∈ ["projectName"; "folderID"; "billingAccount"]) then Some k else None.

Lemma secret_values_hidden_witness :
  let run r := identity.Apply (λ _ _, None) (λ _ _, None) identity_cfg (λ _, inr "") 
    (Present [identity.mkSecretDef "db" "ref"]) (Present []) Missing Missing (Some (no_params, Some r)) empty_context in
  (run (λ _, inr "hunter2")).1 = Returned (inr tt) ∧
  mask_context (run (λ _, inr "hunter2")).2 = mask_context (run (λ _, inr "other")).2.
Proof.
  intros run. split; [vm_compute; reflexivity|].
  refine (proj2 (secret_values_hidden (λ _ _, None) (λ _ _ _ _ _ _, eq_refl) (λ _ _, None) identity_cfg (λ _, inr "")
    (Present [identity.mkSecretDef "db" "ref"]) (Present []) Missing Missing no_params
    (λ _, inr "hunter2") (λ _, inr "other") _)).
  intros ref. simpl. split; discriminate.
Defined.

End masking.
